(* ===== verification/_CoqProject ===== *)
-Q . S2P
Prelude.v
GoStd.v
Hashes.v
Types.v
Lamport.v
WaitFor.v
HashRing.v
Protocol.v
Session.v
Json.v
Fs.v
LocalStorage.v
Csv.v
StreamServer.v
NodeState.v
NodeLocks.v
NodeFiles.v
Resync.v
Bully.v
Node.v
LockSpec.v
Cluster.v
Client.v
BufferPool.v
Transfer.v
EndToEnd.v
Elections.v
Lifecycle.v
Partition.v
Lab.v
TestPrograms.v
Experiments.v
ExpStreaming.v
Database.v
Api.v
ApiSafety.v
Privacy.v
Uploads.v
Ownership.v
Programs.v
ApiExamples.v
