(* ===== verification/Prelude.v ===== *)
(** * A verified model of the distributed file system: root and prelude

    The program ([backend/], Go) is a cluster of nodes that store files and an
    API server in front of it. A node keeps files on its disk, serves them over
    a stream protocol, knows its peers, takes part in leader elections and in a
    distributed lock; the elected master places files with consistent hashing,
    keeps an index of the files of the cluster and asks nodes to copy files of
    which too few replicas are left.

    ** Which file models what

    - [GoStd.v], [Hashes.v], [Fs.v]: what the program uses of Go itself
      (machine integers, byte strings, map iteration, [sort]), of its hash
      functions (CRC-32, SHA-256, hexadecimal, base64) and of the file system.
    - [Types.v], [Json.v]: the structs of [dfs/common/types.go] and their JSON
      documents. [Lamport.v]: [dfs/common/lamport.go]. [WaitFor.v]:
      [dfs/common/waitfor-graph.go]. [HashRing.v]: [dfs/hashing/hash.go].
    - [Protocol.v], [Session.v], [StreamServer.v]: [dfs/streaming].
      [LocalStorage.v]: [dfs/storage].
    - [NodeState.v], [NodeLocks.v], [NodeFiles.v], [Node.v]:
      [dfs/node/node.go], split into the state with membership and sending, the
      locks, the files, and the whole node with its dispatch. [Bully.v]:
      [dfs/election/bully.go], against the interface [NodeCommunicator] that
      [Node.v] implements. [Elections.v]: a node that runs an election and the
      nodes that read what it sends. [Resync.v]: how a new master collects what
      the storage nodes hold. [Lifecycle.v]: [Start], [Stop], the accept loops
      and the other goroutines of a node and of its stream server, as a process
      whose goroutines take steps in any order. [Partition.v]: such a process
      that has lost its peers.
    - [LockSpec.v]: an abstract lock protocol on ordered channels. [Cluster.v]:
      nodes of [Node.v] that exchange messages, and their refinement of it.
    - [Client.v]: [dfs/client/master_client.go], the API server's client of the
      cluster. [Transfer.v]: its uploads and downloads, down to the storage
      nodes of [StreamServer.v]. [BufferPool.v]: the pool of buffers of
      [dfs/streaming/protocol.go] and downloads that share it. [EndToEnd.v]:
      client, master and storage nodes together.
    - [Database.v]: [internal/models], the tables of [migrations] and
      [internal/services]. [Api.v]: [internal/handlers], [internal/middleware],
      [internal/dto], [utils/response] and the routes of [cmd/api/main.go].
      [ApiSafety.v], [Privacy.v]: what holds of a request; [Uploads.v],
      [Ownership.v]: what holds of a run of the server; concrete servers are in
      [ApiExamples.v]. [Programs.v]: [internal/config], [internal/database],
      the programs [cmd/api] and [cmd/node], and how a signal ends a node.
    - [Csv.v]: [internal/experiments]. [Lab.v]: several nodes in one program,
      with a clock and a schedule. [TestPrograms.v]: [cmd/test-*].
      [Experiments.v]: [cmd/exp-lock], [cmd/exp-deadlock] and [cmd/exp-bully].
      [ExpStreaming.v]: [cmd/exp-streaming], with its floating-point numbers.

    ** How state and operations correspond

    A struct is a [Record] with the fields of the source in their order. A
    method is a function of the monad [GoM S O]: from the receiver's state to
    the actions the method performs outwards (messages sent, goroutines
    started, bytes written), in order, and a result: a value with the new
    state, or a panic. A component that is a field of another is reached with
    [zoom]. An error is a value of an option or a sum. The clock, fresh
    identifiers and the outcome of system and network calls are arguments, so
    a theorem holds for all of them; identifiers, times and map iteration order
    are the classes [UuidText], [TimeText] and [MapRange], whose laws are what
    the packages document. A Go map is a [gmap], [int] and [int64] are [Z] with
    the wrap-around written out ([int64]).

    A method that holds a mutex is one step. A method that blocks on a channel
    or a timer is cut there: [StartElection] and [becomeLeader] of [Bully.v]
    leave a task that a later event resumes, so other messages can come in
    between; [syncMetadataAfterElection] is a begin and an end; the handlers of
    an upload in [Api.v] are cut where they wait for the session's mutex, and
    [Uploads.v] has them in any order. The session objects of the API server
    are kept in a heap, because a handler goes on using a session that another
    has taken out of the table; so are the buffers of [BufferPool.v], because
    any download can be given one that another has used. In [Lifecycle.v] the
    statements of [Stop] and of the accept loops are steps of their own. A
    program of [Lab.v] does its statements in their order; what the goroutines
    of its nodes do meanwhile is the class [Schedule], over which the theorems
    about polling loops quantify, and of which [prompt] is the instance that
    the runs of whole programs use.

    What the API server calls is given by classes: [Network] says what becomes
    of each connection the client opens, and [Bcrypt] and [Jwt] have the laws
    that the program relies on (a hash is accepted with its password; a token
    that was signed is valid until it expires). Any database statement may fail,
    and the order of rows that an ORDER BY leaves open may differ in each query.
    The one assumption about the network in theorems is [no_null_peers]: no
    list of peers has a null entry, which a master never sends.

    ** Bounds and fuel

    Recursion that is not structural has fuel, with a proof that it is enough:
    the depth-first search of [WaitFor.v] (one more than the nodes of the
    graph), the copy loop of [StreamServer.v] (one more than the bytes of the
    file), that of [Client.v] (one more than the bytes that come), binary search
    in [GoStd.v] (the length of the range), the polling loops of
    [Experiments.v] (the rounds that fit before the deadline). Loops of the
    client over retries and seeds are structural. The instance [prompt] of
    [Lab.v] gives 5000 steps between two timers and 5000 timers in a sleep; to
    have too little of either is a panic, which the runs do not have. That a
    node shuts down and that downloads end is shown by a measure that each
    step lessens.

    ** What the theorems show

    - Locks: mutual exclusion of a whole cluster whose messages arrive in
      order, as long as no request is found to have expired, by refinement.
      Both conditions are needed: a run without the order breaks it, and a node
      that is inside for longer than 30 seconds is displaced by the next. What
      each handler does; progress; queues stay sorted; the deadlock detector
      finds exactly the cycles, and aborts the known node of the least
      priority. The experiments that measure locks, deadlocks and failover end
      under any schedule in which nothing panics, and record on the model what
      they are meant to.
    - A new master: its index lists exactly what the other storage nodes hold,
      and so not what it alone holds, as [cmd/test-sync] shows when it is run.
    - A node that is stopped: it comes to its end, whatever its goroutines are
      doing; where [Stop] races with the accept loops and the elections; the
      first signal can be lost to a goroutine that ignores it, a later one ends
      the program.
    - Elections: an unopposed node becomes master, a node that hears from a
      higher one does not; when the elector can panic. In the cluster: the
      nodes that read the announcement of the strongest node have it as their
      only master, whatever they were doing; of two masters the weaker steps
      down; a candidate that asked a stronger node ends up following it. A node
      that has lost all its peers sends nothing any more, so a network that was
      divided keeps two masters; a master that was replaced is given no files;
      a candidate whose timer fires late can become a second master.
    - Placement: [FindNodesForFile] gives distinct live nodes, as many as there
      are; adding or removing a node moves only the keys it must.
    - Storage and streaming: what is saved is read back, the index and the disk
      agree, an interrupted index write loses nothing, an upload followed by a
      download returns the bytes.
    - The cluster end to end: a file that a client uploads, placed by the
      master, stored by the nodes and acknowledged in any order, is what any
      client downloads; until the last acknowledgement it is refused.
    - Wire formats: what is encoded is decoded again.
    - The client: a request ends after a bounded number of connections, and
      finds the new master; every connection that a call opens is closed, once;
      what a download that succeeds has delivered has the hash; what an upload
      that succeeds has sent reached every node. Downloads that share buffers do
      not disturb each other, and all end.
    - The files of the experiments are read back as the records written, also
      when a file is appended to.
    - The API server, on a database that enforces the constraints of its
      schema: a request without a valid token changes nothing, and with one
      nothing of another user; a registration, a login and the middleware fit
      together; password hashes do not influence anything a client can see; the
      pages of a listing have every file once if no two were created at the
      same time, and can repeat one and miss another otherwise. Over a whole
      run, from the environment to the last request: the server keeps its
      secret and its invariant, and a file goes only when its owner or an
      administrator deletes it.
    - Uploads in chunks: an upload that is not disturbed ends with the bytes on
      every node and the rows in the database; however requests interleave, the
      sessions stay sound and are finalised at most once; and what a session
      that was closed still accepts.

    ** What is not modelled

    Sockets: a connection is the bytes that come and go on it, and one that a
    node serves is one step. JSON text and invalid UTF-8, symbolic links, the
    time stamps of [log] and the texts of errors in what the test programs
    print. Of [net/http], the choice of the route and the parsing of requests,
    which are given with the request; [ListenAndServe] serves in the steps of
    [Uploads.v], or returns an error. Of PostgreSQL, more than the constraints
    and statements in use, and the interleaving of statements of different
    requests. The programs of [Lab.v] run to their end; a signal that stops an
    experiment is left out. *)

From Stdlib Require Export ZArith Lia.
From Stdlib.Strings Require Export Byte.
From stdpp Require Export base tactics gmap sets list strings sorting pretty.

#[global] Open Scope Z_scope.

(** ** Scope and notations of the development *)

Declare Scope go_scope.
Delimit Scope go_scope with go.

(** The development's hint database: range facts and codec rewriting. *)
Create HintDb go.
Create Rewrite HintDb go.

(** ** Go results: a call returns, or the goroutine panics *)

Inductive Res (A : Type) : Type :=
| Ret (a : A)
| Panic (why : string).
Arguments Ret {A} _.
Arguments Panic {A} _.

(** A method call on a receiver of type [S] that may start goroutines, write
    to a connection or log ([O] is the type of these visible actions, in the
    order in which the call performs them). *)
Definition GoM (S O A : Type) : Type := S → list O * Res (A * S).

Section monad.
Context {S O : Type}.

#[global] Instance gom_ret : MRet (GoM S O) := λ A a s, ([], Ret (a, s)).

#[global] Instance gom_bind : MBind (GoM S O) := λ A B f m s,
  match m s with
  | (o1, Ret (a, s1)) => let '(o2, r) := f a s1 in (o1 ++ o2, r)
  | (o1, Panic w) => (o1, Panic w)
  end.

Definition get : GoM S O S := λ s, ([], Ret (s, s)).
Definition gets {A} (f : S → A) : GoM S O A := λ s, ([], Ret (f s, s)).
Definition modify (f : S → S) : GoM S O () := λ s, ([], Ret ((), f s)).
Definition emit (o : O) : GoM S O () := λ s, ([o], Ret ((), s)).
Definition emits (os : list O) : GoM S O () := λ s, (os, Ret ((), s)).
Definition panic {A} (w : string) : GoM S O A := λ _, ([], Panic w).
Definition skip : GoM S O () := mret ().

(** [for x in l { body x }] *)
Fixpoint for_each {A} (l : list A) (body : A → GoM S O ()) : GoM S O () :=
  match l with
  | [] => skip
  | x :: l' => _ ← body x; for_each l' body
  end.
End monad.

(** Running a sequence whose first part performs no visible action. *)
Lemma bind_silent {S O A B} (m : GoM S O A) (f : A → GoM S O B) s a s1 :
  m s = ([], Ret (a, s1)) → (m ≫= f) s = f a s1.
Proof. intros E. unfold mbind, gom_bind. rewrite E. by destruct (f a s1). Qed.

Lemma bind_run {S O A B} (m : GoM S O A) (f : A → GoM S O B) s o1 a s1 o2 r :
  m s = (o1, Ret (a, s1)) → f a s1 = (o2, r) → (m ≫= f) s = (o1 ++ o2, r).
Proof. intros E1 E2. unfold mbind, gom_bind. by rewrite E1, E2. Qed.

Lemma bind_panic {S O A B} (m : GoM S O A) (f : A → GoM S O B) s o w :
  m s = (o, Panic w) → (m ≫= f) s = (o, Panic w).
Proof. intros E. unfold mbind, gom_bind. by rewrite E. Qed.

(** A loop that only acts. *)
Lemma for_each_emit {S O A} (f : A → O) (l : list A) (s : S) :
  for_each l (λ x, emit (f x)) s = (f <$> l, Ret ((), s)).
Proof.
  induction l as [|x l IH]; [done|]. cbn [for_each].
  by rewrite (bind_run _ _ _ [f x] () s (f <$> l) (Ret ((), s))).
Qed.

(** Loops with the same bodies. *)
Lemma for_each_Forall2 {S O A B} (f : A → GoM S O ()) (g : B → GoM S O ()) (l : list A) (k : list B) (s : S) :
  Forall2 (λ x y, ∀ s, f x s = g y s) l k → for_each l f s = for_each k g s.
Proof.
  intros Hl. revert s. induction Hl as [|x y l k Hxy _ IH]; intros s; [done|]. cbn [for_each].
  unfold mbind, gom_bind. rewrite Hxy. destruct (g y s) as [o [[[] s1]|w]]; [by rewrite IH|done].
Qed.

(** Run an operation of a component on a field of a larger state. *)
Definition zoom {S T O A} (view : S → T) (put : T → S → S)
    (m : GoM T O A) : GoM S O A := λ s,
  match m (view s) with
  | (o, Ret (a, t)) => (o, Ret (a, put t s))
  | (o, Panic w) => (o, Panic w)
  end.

(** What the caller of a method can observe when it returns. *)
Definition state_of {S O A} (r : list O * Res (A * S)) : option S :=
  match r with (_, Ret (_, s)) => Some s | _ => None end.
Definition value_of {S O A} (r : list O * Res (A * S)) : option A :=
  match r with (_, Ret (a, _)) => Some a | _ => None end.
Definition outs_of {S O A} (r : list O * Res (A * S)) : list O := fst r.
Definition panics {S O A} (r : list O * Res (A * S)) : bool :=
  match r with (_, Panic _) => true | _ => false end.

(** ** Total-correctness triples for methods: no panic, and the
    postcondition of the result, the new state and the actions. *)
Definition triple {S O A} (P : S → Prop) (m : GoM S O A)
    (Q : A → S → list O → Prop) : Prop :=
  ∀ s, P s → ∃ o a s', m s = (o, Ret (a, s')) ∧ Q a s' o.

Section triples.
Context {S O : Type}.

Lemma triple_ret {A} (a : A) (P : S → Prop) (Q : A → S → list O → Prop) :
  (∀ s, P s → Q a s []) → triple P (mret a) Q.
Proof. intros H s Hs. exists [], a, s. auto. Qed.

Lemma triple_bind {A B} (m : GoM S O A) (f : A → GoM S O B) P R Q :
  triple P m R →
  (∀ a o1, triple (λ s, R a s o1) (f a) (λ b s o2, Q b s (o1 ++ o2))) →
  triple P (m ≫= f) Q.
Proof.
  intros Hm Hf s Hs. destruct (Hm s Hs) as (o1 & a & s1 & E1 & HR).
  destruct (Hf a o1 s1 HR) as (o2 & b & s2 & E2 & HQ).
  exists (o1 ++ o2), b, s2. split; [|done].
  unfold mbind, gom_bind. rewrite E1, E2. done.
Qed.

Lemma triple_conseq {A} (m : GoM S O A) (P P' : S → Prop)
    (Q Q' : A → S → list O → Prop) :
  triple P' m Q' → (∀ s, P s → P' s) → (∀ a s o, Q' a s o → Q a s o) →
  triple P m Q.
Proof.
  intros Hm HP HQ s Hs. destruct (Hm s (HP s Hs)) as (o & a & s' & E & H).
  exists o, a, s'. auto.
Qed.

(** Loop rule: an invariant that may speak of the actions performed. *)
Lemma triple_for {A} (l : list A) (body : A → GoM S O ())
    (I : list A → S → list O → Prop) (P : S → Prop) :
  (∀ s, P s → I [] s []) →
  (∀ done x todo o, l = done ++ x :: todo →
     triple (λ s, I done s o) (body x) (λ _ s o', I (done ++ [x]) s (o ++ o'))) →
  triple P (for_each l body) (λ _ s o, I l s o).
Proof.
  intros Hinit Hstep.
  assert (∀ todo done o, l = done ++ todo →
    triple (λ s, I done s o) (for_each todo body)
      (λ _ s o', I l s (o ++ o'))) as Hgen.
  { induction todo as [|x todo IH]; intros done o ->; simpl.
    - apply triple_ret. intros s. by rewrite !app_nil_r.
    - eapply triple_bind; [by eapply Hstep|].
      intros [] o1. simpl.
      eapply triple_conseq; [apply (IH (done ++ [x]) (o ++ o1))| |].
      + by rewrite <-app_assoc.
      + done.
      + intros ? ? ?. by rewrite app_assoc. }
  eapply triple_conseq; [apply (Hgen l [] [])| |]; auto.
Qed.
End triples.

(** ** Partial-correctness triples: a postcondition of the result and the new
    state, or a panic for a reason that [W] admits. *)
Definition keeps {S O A} (W : string → Prop) (P : S → Prop) (m : GoM S O A) (Q : A → S → Prop) : Prop :=
  ∀ s, P s → match m s with (_, Ret (a, s')) => Q a s' | (_, Panic w) => W w end.

Section keeping.
Context {S O : Type} (W : string → Prop).

Lemma keeps_ret {A} (a : A) (P : S → Prop) (Q : A → S → Prop) : (∀ s, P s → Q a s) → keeps (O := O) W P (mret a) Q.
Proof. intros H s Hs. by apply H. Qed.

Lemma keeps_bind {A B} (m : GoM S O A) (f : A → GoM S O B) P R Q :
  keeps W P m R → (∀ a, keeps W (R a) (f a) Q) → keeps W P (m ≫= f) Q.
Proof.
  intros Hm Hf s Hs. specialize (Hm s Hs). unfold mbind, gom_bind.
  destruct (m s) as [o1 [[a s1]|w]]; [|done]. specialize (Hf a s1 Hm). by destruct (f a s1) as [o2 [[b s2]|w]].
Qed.

Lemma keeps_conseq {A} (m : GoM S O A) (P P' : S → Prop) (Q Q' : A → S → Prop) :
  keeps W P' m Q' → (∀ s, P s → P' s) → (∀ a s, Q' a s → Q a s) → keeps W P m Q.
Proof. intros Hm HP HQ s Hs. specialize (Hm s (HP s Hs)). destruct (m s) as [o [[a s']|w]]; auto. Qed.

Lemma keeps_modify (f : S → S) (P : S → Prop) (Q : () → S → Prop) :
  (∀ s, P s → Q () (f s)) → keeps (O := O) W P (modify f) Q.
Proof. intros H s Hs. by apply H. Qed.

Lemma keeps_emit (o : O) (P : S → Prop) (Q : () → S → Prop) : (∀ s, P s → Q () s) → keeps W P (emit o) Q.
Proof. intros H s Hs. by apply H. Qed.

(** Reading the state: what follows may use that it is the current one. *)
Lemma keeps_get {B} (f : S → GoM S O B) (P : S → Prop) Q :
  (∀ s, P s → keeps W (λ s', s' = s) (f s) Q) → keeps W P (get ≫= f) Q.
Proof.
  intros Hf s Hs. specialize (Hf s Hs s eq_refl). unfold mbind, gom_bind, get. by destruct (f s s) as [o2 [[b s2]|w]].
Qed.

Lemma keeps_for {A} (l : list A) (body : A → GoM S O ()) (I : S → Prop) :
  (∀ x, x ∈ l → keeps W I (body x) (λ _, I)) → keeps W I (for_each l body) (λ _, I).
Proof.
  induction l as [|x l IH]; intros Hb; cbn [for_each]; [by apply keeps_ret|].
  eapply keeps_bind; [apply Hb; by left|]. intros []. apply IH. intros y Hy. apply Hb. by right.
Qed.
End keeping.

(** ** Lists *)

(** Permutations with the same keys in the same places, and distinct keys, are
    equal. *)
Lemma perm_eq_by_key {A K} (f : A → K) (l1 l2 : list A) :
  f <$> l1 = f <$> l2 → l1 ≡ₚ l2 → NoDup (f <$> l1) → l1 = l2.
Proof.
  intros Hf Hp Hnd. apply list_eq. intros i. destruct (l1 !! i) as [x|] eqn:E1.
  - assert (is_Some (l2 !! i)) as [y E2].
    { apply lookup_lt_is_Some. rewrite <-Hp. by eapply lookup_lt_Some. }
    assert (y ∈ l1) as [j Ej]%list_elem_of_lookup by (rewrite Hp; by eapply list_elem_of_lookup_2).
    assert (f x = f y) as Hxy.
    { apply (f_equal (lookup i)) in Hf. rewrite !list_lookup_fmap, E1, E2 in Hf. by injection Hf. }
    assert (i = j) as <-; [|congruence].
    apply (NoDup_lookup _ i j (f x) Hnd); rewrite list_lookup_fmap; [by rewrite E1|by rewrite Ej, Hxy].
  - symmetry. apply lookup_ge_None. rewrite <-Hp. by apply lookup_ge_None.
Qed.

Section filters.
Context {A : Type}.

Lemma filter_all (P : A → Prop) `{∀ x, Decision (P x)} (l : list A) :
  (∀ x, x ∈ l → P x) → filter P l = l.
Proof.
  induction l as [|x l IH]; intros Hl; [done|].
  rewrite filter_cons, decide_True by set_solver. rewrite IH; [done|set_solver].
Qed.

Lemma filter_none (P : A → Prop) `{∀ x, Decision (P x)} (l : list A) :
  (∀ x, x ∈ l → ¬ P x) → filter P l = [].
Proof.
  induction l as [|x l IH]; intros Hl; [done|].
  rewrite filter_cons, decide_False by set_solver. apply IH. set_solver.
Qed.

Lemma filter_ext_elem (P Q : A → Prop) `{∀ x, Decision (P x)} `{∀ x, Decision (Q x)}
    (l : list A) :
  (∀ x, x ∈ l → P x ↔ Q x) → filter P l = filter Q l.
Proof.
  induction l as [|x l IH]; intros Hl; [done|].
  rewrite !filter_cons, IH by set_solver.
  destruct (Hl x) as [H1 H2]; [by left|]. repeat case_decide; tauto.
Qed.

Lemma filter_filter_comm (P Q : A → Prop) `{∀ x, Decision (P x)} `{∀ x, Decision (Q x)}
    (l : list A) :
  filter P (filter Q l) = filter Q (filter P l).
Proof.
  induction l as [|x l IH]; [done|].
  rewrite !(filter_cons _ x). repeat case_decide; rewrite ?filter_cons;
    repeat case_decide; try done; by rewrite IH.
Qed.
End filters.

Lemma filter_fmap {A B} (f : A → B) (P : B → Prop) `{∀ x, Decision (P x)} (l : list A) :
  filter P (f <$> l) = f <$> filter (λ x, P (f x)) l.
Proof.
  induction l as [|x l IH]; [done|].
  rewrite filter_cons, fmap_cons, filter_cons. by case_decide; rewrite IH.
Qed.
