(* ===== verification/GoStd.v ===== *)
(** * Go's built-in types and the standard library the program calls

    Machine integers, byte strings and their order, decimal formatting, map
    iteration, [sort.SliceStable] and [sort.Search], with the lemmas the
    components share. *)

From S2P Require Import Prelude.

(** ** Machine integers *)

Definition in_int64 (z : Z) : bool := (-2^63 <=? z) && (z <? 2^63).
Definition in_uint64 (z : Z) : bool := (0 <=? z) && (z <? 2^64).
Definition in_int32 (z : Z) : bool := (-2^31 <=? z) && (z <? 2^31).
Definition in_uint32 (z : Z) : bool := (0 <=? z) && (z <? 2^32).

(** Conversions [int64(x)], [uint64(x)], [int32(x)], [uint32(x)] truncate. *)
Definition uint64 (z : Z) : Z := z mod 2^64.
Definition int64 (z : Z) : Z := (z + 2^63) mod 2^64 - 2^63.
Definition uint32 (z : Z) : Z := z mod 2^32.
Definition int32 (z : Z) : Z := (z + 2^31) mod 2^32 - 2^31.

Definition maxInt : Z := 2^63 - 1.

Ltac int_bounds :=
  unfold in_int64, in_uint64, in_int32, in_uint32 in *;
  repeat match goal with
  | H : (_ && _) = true |- _ => apply andb_true_iff in H; destruct H
  | H : (_ <=? _) = true |- _ => apply Z.leb_le in H
  | H : (_ <? _) = true |- _ => apply Z.ltb_lt in H
  | H : Is_true _ |- _ => apply Is_true_true in H
  | |- (_ && _) = true => apply andb_true_iff; split
  | |- (_ <=? _) = true => apply Z.leb_le
  | |- (_ <? _) = true => apply Z.ltb_lt
  end.

Lemma int64_id z : in_int64 z = true → int64 z = z.
Proof. intros. int_bounds. unfold int64. rewrite Z.mod_small; lia. Qed.

Lemma int64_uint64 z : in_int64 z = true → int64 (uint64 z) = z.
Proof.
  intros. int_bounds. unfold int64, uint64.
  rewrite Zplus_mod_idemp_l, Z.mod_small; lia.
Qed.

Lemma int32_uint32 z : in_int32 z = true → int32 (uint32 z) = z.
Proof.
  intros. int_bounds. unfold int32, uint32.
  rewrite Zplus_mod_idemp_l, Z.mod_small; lia.
Qed.

Lemma int64_range z : in_int64 (int64 z) = true.
Proof.
  unfold int64. pose proof (Z.mod_pos_bound (z + 2^63) (2^64) ltac:(lia)).
  int_bounds; lia.
Qed.

Lemma int64_shift z q : int64 (z + 2^64 * q) = int64 z.
Proof.
  unfold int64. replace (z + 2^64 * q + 2^63) with (z + 2^63 + q * 2^64) by lia. by rewrite Z_mod_plus_full.
Qed.

Lemma int64_congr z : int64 z = z + 2^64 * - ((z + 2^63) / 2^64).
Proof. unfold int64. rewrite Z.mod_eq by lia. lia. Qed.

(** A sum of wrapped numbers wraps like the sum. *)
Lemma int64_add a b : int64 (int64 a + int64 b) = int64 (a + b).
Proof.
  rewrite (int64_congr a), (int64_congr b).
  replace (_ + _ + (_ + _)) with (a + b + 2^64 * (- ((a + 2^63) / 2^64) - ((b + 2^63) / 2^64))) by lia.
  apply int64_shift.
Qed.

Lemma int64_add_r a b : int64 (a + int64 b) = int64 (a + b).
Proof.
  rewrite (int64_congr b). replace (a + (b + _)) with (a + b + 2^64 * - ((b + 2^63) / 2^64)) by lia.
  apply int64_shift.
Qed.

Lemma int32_range z : in_int32 (int32 z) = true.
Proof.
  unfold int32. pose proof (Z.mod_pos_bound (z + 2^31) (2^32) ltac:(lia)).
  int_bounds; lia.
Qed.

#[export] Hint Resolve int64_range int32_range : go.
#[export] Hint Rewrite int64_uint64 int32_uint32 int64_id using done : go.

(** ** Strings: sequences of bytes, ordered bytewise *)

(** A Go [string] is a Rocq [string] (its characters are bytes) and a
    [[]byte] a [list byte]. *)
Definition bytes_of (s : string) : list byte := String.list_byte_of_string s.
Definition string_of (l : list byte) : string := String.string_of_list_byte l.

Lemma string_of_bytes_of s : string_of (bytes_of s) = s.
Proof. apply String.string_of_list_byte_of_string. Qed.
Lemma bytes_of_string_of l : bytes_of (string_of l) = l.
Proof. apply String.list_byte_of_string_of_list_byte. Qed.
#[export] Hint Rewrite string_of_bytes_of bytes_of_string_of : go.

Lemma bytes_of_app s t : bytes_of (s +:+ t) = bytes_of s ++ bytes_of t.
Proof.
  unfold bytes_of, String.list_byte_of_string.
  induction s as [|a s IH]; [done|]. simpl. by rewrite IH.
Qed.

Lemma length_bytes_of s : length (bytes_of s) = String.length s.
Proof.
  unfold bytes_of, String.list_byte_of_string.
  induction s as [|a s IH]; [done|]. simpl. by rewrite IH.
Qed.

(** [s < t] and [s > t] on strings. *)
Definition string_lt (s t : string) : bool := String.ltb s t.

Lemma ascii_compare_trans a b c :
  Ascii.compare a b = Lt → Ascii.compare b c = Lt → Ascii.compare a c = Lt.
Proof. unfold Ascii.compare. rewrite !N.compare_lt_iff. lia. Qed.

Lemma ascii_compare_eq a b : Ascii.compare a b = Eq ↔ a = b.
Proof.
  unfold Ascii.compare. rewrite N.compare_eq_iff. split; [|congruence].
  intros H. rewrite <-(Ascii.ascii_N_embedding a), H.
  apply Ascii.ascii_N_embedding.
Qed.

Lemma string_compare_refl s : String.compare s s = Eq.
Proof.
  induction s as [|a s IH]; simpl; [done|].
  by rewrite (proj2 (ascii_compare_eq a a) eq_refl).
Qed.

Lemma string_compare_trans s t u :
  String.compare s t = Lt → String.compare t u = Lt → String.compare s u = Lt.
Proof.
  revert t u. induction s as [|a s IH]; intros [|b t] [|c u]; simpl; try done.
  destruct (Ascii.compare a b) eqn:E1; try done;
    destruct (Ascii.compare b c) eqn:E2; try done.
  - apply ascii_compare_eq in E1 as ->. rewrite E2. apply IH.
  - apply ascii_compare_eq in E1 as ->. by rewrite E2.
  - apply ascii_compare_eq in E2 as ->. by rewrite E1.
  - by rewrite (ascii_compare_trans _ _ _ E1 E2).
Qed.

Lemma string_lt_compare s t : string_lt s t = true ↔ String.compare s t = Lt.
Proof.
  unfold string_lt, String.ltb. destruct (String.compare s t); split; done.
Qed.

Lemma string_lt_irrefl s : string_lt s s = false.
Proof. unfold string_lt, String.ltb. by rewrite string_compare_refl. Qed.

Lemma string_lt_trans s t u :
  string_lt s t = true → string_lt t u = true → string_lt s u = true.
Proof. rewrite !string_lt_compare. apply string_compare_trans. Qed.

Lemma string_lt_asym s t : string_lt s t = true → string_lt t s = false.
Proof.
  rewrite string_lt_compare. intros H.
  unfold string_lt, String.ltb. by rewrite String.compare_antisym, H.
Qed.

Lemma string_lt_total s t :
  string_lt s t = false → string_lt t s = false → s = t.
Proof.
  unfold string_lt, String.ltb. rewrite (String.compare_antisym s t).
  destruct (String.compare t s) eqn:E; simpl; try done.
  intros. symmetry. by apply String.compare_eq_iff.
Qed.

(** [strconv.Itoa], the ["%d"] verb. *)
Definition itoa (z : Z) : string := pretty z.

Example itoa_123 : itoa 123 = "123" ∧ itoa (-7) = "-7".
Proof. by vm_compute. Qed.

#[export] Instance itoa_inj : Inj (=) (=) itoa.
Proof. intros x y H. by apply (inj (pretty (A := Z))). Qed.

(** ** Maps: the iteration order of [range] over a map is unspecified *)
Class MapRange := {
  go_range : ∀ {K V} `{Countable K}, gmap K V → list (K * V);
  go_range_perm : ∀ {K V} `{Countable K} (m : gmap K V),
    go_range m ≡ₚ map_to_list m }.

Definition canonical_range : MapRange :=
  {| go_range := λ _ _ _ _ m, map_to_list m; go_range_perm := λ _ _ _ _ m, reflexivity _ |}.

Lemma elem_of_go_range `{MapRange} {K V} `{Countable K} (m : gmap K V) k v :
  (k, v) ∈ go_range m ↔ m !! k = Some v.
Proof. rewrite go_range_perm. apply elem_of_map_to_list. Qed.

Lemma NoDup_go_range_fst `{MapRange} {K V} `{Countable K} (m : gmap K V) :
  NoDup (go_range m).*1.
Proof. rewrite go_range_perm. apply NoDup_fst_map_to_list. Qed.

(** ** [sort.SliceStable]: the stably sorted permutation *)
Section stable_sort.
Context {A : Type} (less : A → A → bool).

(** Insert [x], which came before every element of [l] in the slice. *)
Fixpoint insert_before (x : A) (l : list A) : list A :=
  match l with
  | [] => [x]
  | y :: l' => if less y x then y :: insert_before x l' else x :: y :: l'
  end.

Definition SliceStable (l : list A) : list A := foldr insert_before [] l.

Lemma insert_before_perm x l : insert_before x l ≡ₚ x :: l.
Proof.
  induction l as [|y l IH]; simpl; [done|].
  destruct (less y x); [|done]. rewrite IH. constructor.
Qed.

Lemma SliceStable_perm l : SliceStable l ≡ₚ l.
Proof.
  induction l as [|x l IH]; simpl; [done|]. by rewrite insert_before_perm, IH.
Qed.

Lemma elem_of_SliceStable x l : x ∈ SliceStable l ↔ x ∈ l.
Proof. by rewrite SliceStable_perm. Qed.

(** No later element is less than an earlier one. *)
Definition ordered (l : list A) : Prop := StronglySorted (λ x y, less y x = false) l.

Section strict_weak.
Hypothesis less_asym : ∀ x y, less x y = true → less y x = false.
Hypothesis less_cotrans : ∀ x y z, less x y = false → less y z = false → less x z = false.

Lemma insert_before_ordered x l : ordered l → ordered (insert_before x l).
Proof.
  induction 1 as [|y l Hl IH Hy]; simpl; [by repeat constructor|].
  destruct (less y x) eqn:E.
  - constructor; [done|]. rewrite insert_before_perm.
    constructor; [by apply less_asym|done].
  - constructor; [by constructor|]. constructor; [done|].
    eapply Forall_impl; [exact Hy|]. intros z Hz. simpl in *. eauto.
Qed.

Lemma SliceStable_ordered l : ordered (SliceStable l).
Proof.
  induction l as [|x l IH]; simpl; [constructor|]. by apply insert_before_ordered.
Qed.

(** Stability: elements the order does not tell apart keep their order. *)
Lemma insert_before_filter (P : A → bool) x l :
  (∀ y z, P y = true → P z = true → less y z = false) →
  filter P (insert_before x l) = filter P (x :: l).
Proof.
  intros HP. induction l as [|y l IH]; [done|]. simpl.
  destruct (less y x) eqn:E; [|done].
  rewrite !filter_cons in *. rewrite IH.
  destruct (decide (P x)) as [Hx|]; [|done].
  destruct (decide (P y)) as [Hy|]; [|done].
  rewrite HP in E; [done|by apply Is_true_true|by apply Is_true_true].
Qed.

Lemma SliceStable_stable (P : A → bool) l :
  (∀ y z, P y = true → P z = true → less y z = false) →
  filter P (SliceStable l) = filter P l.
Proof.
  intros HP. induction l as [|x l IH]; [done|]. simpl.
  rewrite insert_before_filter by done. rewrite !filter_cons, IH. done.
Qed.
End strict_weak.

Lemma ordered_unique_app l1 l2 :
  ordered (l1 ++ l2) → ∀ x y, x ∈ l1 → y ∈ l2 → less y x = false.
Proof.
  intros H x y Hx Hy. unfold ordered in H. apply StronglySorted_app in H.
  destruct H as (H & _ & _). auto.
Qed.
End stable_sort.

(** ** [sort.Search]: binary search for the smallest index that satisfies [f] *)
Fixpoint search_loop (fuel : nat) (f : nat → bool) (i j : nat) : nat :=
  match fuel with
  | O => i
  | S fuel' =>
    if (i <? j)%nat then
      let h := Nat.div2 (i + j) in
      if f h then search_loop fuel' f i h else search_loop fuel' f (S h) j
    else i
  end.

(** Each probe halves the interval, so [n] rounds are more than enough. *)
Definition Search (n : nat) (f : nat → bool) : nat := search_loop n f 0 n.

Lemma search_loop_spec N fuel f i j :
  (i ≤ j ≤ N)%nat → (j - i ≤ fuel)%nat →
  (∀ a b, (a ≤ b < N)%nat → f a = true → f b = true) →
  (∀ a, (a < i)%nat → f a = false) →
  let r := search_loop fuel f i j in
  (i ≤ r ≤ j)%nat ∧ (∀ a, (a < r)%nat → f a = false) ∧ ((r < j)%nat → f r = true).
Proof.
  revert i j. induction fuel as [|fuel IH]; intros i j Hij Hf Hmono Hlo; simpl.
  { assert (i = j) as -> by lia. split_and!; try lia; done. }
  destruct (Nat.ltb_spec i j) as [Hlt|Hge]; [|split_and!; try lia; done].
  pose proof (Nat.div2_div (i + j)) as Hd. rewrite Hd.
  assert (i ≤ (i + j) / 2 < j)%nat as Hh
    by (split; [apply Nat.div_le_lower_bound|apply Nat.Div0.div_lt_upper_bound]; lia).
  destruct (f ((i + j) / 2)%nat) eqn:E.
  - destruct (IH i ((i + j) / 2)%nat) as (H1 & H2 & H3); [lia|lia|done|done|].
    split_and!; [lia|lia|done|]. intros Hr.
    destruct (decide (search_loop fuel f i ((i + j) / 2) < (i + j) / 2)%nat); [auto|].
    assert (search_loop fuel f i ((i + j) / 2) = (i + j) / 2)%nat as -> by lia. done.
  - destruct (IH (S ((i + j) / 2)) j) as (H1 & H2 & H3); [lia|lia|done| |].
    + intros a Ha. destruct (f a) eqn:Ea; [|done].
      rewrite (Hmono a ((i + j) / 2)%nat) in E; [done|lia|done].
    + split_and!; [lia|lia|done|done].
Qed.

Lemma Search_spec n f :
  (∀ a b, (a ≤ b < n)%nat → f a = true → f b = true) →
  (Search n f ≤ n)%nat ∧ (∀ a, (a < Search n f)%nat → f a = false) ∧
  ((Search n f < n)%nat → f (Search n f) = true).
Proof.
  intros Hmono. destruct (search_loop_spec n n f 0 n) as (H1 & H2 & H3); try lia; try done.
  unfold Search. split_and!; [lia|done|done].
Qed.
