(* ===== verification/Hashes.v ===== *)
(** * Checksums and encodings of Go's standard library

    [hash/crc32] (IEEE), [crypto/sha256], [encoding/hex] and
    [encoding/base64], executable, checked on published test vectors. *)

From S2P Require Import Prelude GoStd.
Local Open Scope N_scope.

(** ** Bytes and numbers *)

Definition byte_N (b : byte) : N := Byte.to_N b.
Definition N_byte (n : N) : byte := default x00 (Byte.of_N (n mod 256)).

Lemma byte_N_lt b : byte_N b < 256.
Proof. unfold byte_N. pose proof (Byte.to_N_bounded b). lia. Qed.

Lemma N_byte_N b : N_byte (byte_N b) = b.
Proof.
  unfold N_byte. rewrite N.mod_small by apply byte_N_lt.
  unfold byte_N. by rewrite Byte.of_to_N.
Qed.

Lemma byte_N_byte n : byte_N (N_byte n) = n mod 256.
Proof.
  unfold N_byte, byte_N. destruct (Byte.of_N (n mod 256)) as [b|] eqn:E; simpl.
  - by apply Byte.to_of_N.
  - apply Byte.of_N_None_iff in E. pose proof (N.mod_lt n 256). lia.
Qed.

#[export] Instance byte_N_inj : Inj (=) (=) byte_N.
Proof. intros a b H. by rewrite <-(N_byte_N a), H, N_byte_N. Qed.

#[export] Instance byte_eq_dec : EqDecision byte := Byte.byte_eq_dec.

(** ** [crc32.ChecksumIEEE] *)

Definition crc_poly : N := 0xEDB88320.

Definition crc_bit (c : N) : N :=
  if N.odd c then N.lxor (N.shiftr c 1) crc_poly else N.shiftr c 1.

Definition crc_byte (c : N) (b : byte) : N :=
  Nat.iter 8 crc_bit (N.lxor c (byte_N b)).

Definition ChecksumIEEE (l : list byte) : N :=
  N.lxor (fold_left crc_byte l 0xFFFFFFFF) 0xFFFFFFFF.

Example crc_check : ChecksumIEEE (bytes_of "123456789") = 0xCBF43926.
Proof. vm_compute. reflexivity. Qed.

(** ** [sha256.Sum256] *)

Definition w32 (n : N) : N := N.land n 0xFFFFFFFF.
Definition add32 (a b : N) : N := w32 (a + b).
Definition rotr (n : N) (k : N) : N :=
  N.lor (N.shiftr n k) (w32 (N.shiftl n (32 - k))).

(** The constants are by definition the first 32 bits of the fractional parts
    of the cube roots of the first 64 primes, and of the square roots of the
    first 8. *)
Fixpoint primes_from (fuel : nat) (found : list N) (n : N) : list N :=
  match fuel with
  | O => rev found
  | S fuel' =>
    if forallb (λ p, negb (n mod p =? 0)) found
    then primes_from fuel' (n :: found) (n + 1) else primes_from fuel' found (n + 1)
  end.

Definition primes64 : list N := Eval vm_compute in primes_from 310 [] 2.

(** The largest [r < 2^k] beyond [r0] whose cube is at most [n]. *)
Fixpoint cube_root (k : nat) (n r0 : N) : N :=
  match k with
  | O => r0
  | S k' =>
    let r := r0 + 2 ^ N.of_nat k' in
    cube_root k' n (if r * r * r <=? n then r else r0)
  end.

Definition sha_K : list N := Eval vm_compute in
  (λ p, w32 (cube_root 36 (p * 2 ^ 96) 0)) <$> primes64.

Definition sha_H0 : list N := Eval vm_compute in
  (λ p, w32 (N.sqrt (p * 2 ^ 64))) <$> take 8 primes64.

(** Big-endian words. *)
Fixpoint be_N (l : list byte) (acc : N) : N :=
  match l with [] => acc | b :: l' => be_N l' (acc * 256 + byte_N b) end.

Fixpoint be_bytes (k : nat) (n : N) : list byte :=
  match k with
  | O => []
  | S k' => N_byte (N.shiftr n (8 * N.of_nat k')) :: be_bytes k' n
  end.

Definition sha_pad (l : list byte) : list byte :=
  let len := length l in
  let zeros := ((119 - len mod 64) mod 64)%nat in
  l ++ [x80] ++ replicate zeros x00 ++ be_bytes 8 (8 * N.of_nat len).

Fixpoint sha_schedule (k : nat) (w : list N) : list N :=
  (* [w] holds the last sixteen words, the newest first *)
  match k with
  | O => []
  | S k' =>
    let w2 := nth 1 w 0 in let w7 := nth 6 w 0 in
    let w15 := nth 14 w 0 in let w16 := nth 15 w 0 in
    let s0 := N.lxor (N.lxor (rotr w15 7) (rotr w15 18)) (N.shiftr w15 3) in
    let s1 := N.lxor (N.lxor (rotr w2 17) (rotr w2 19)) (N.shiftr w2 10) in
    let x := add32 (add32 w16 s0) (add32 w7 s1) in
    x :: sha_schedule k' (x :: take 15 w)
  end.

Definition sha_round (st : list N) (kw : N * N) : list N :=
  match st with
  | [a; b; c; d; e; f; g; h] =>
    let S1 := N.lxor (N.lxor (rotr e 6) (rotr e 11)) (rotr e 25) in
    let ch := N.lxor (N.land e f) (N.land (N.lxor e 0xFFFFFFFF) g) in
    let t1 := add32 (add32 (add32 h S1) (add32 ch kw.1)) kw.2 in
    let S0 := N.lxor (N.lxor (rotr a 2) (rotr a 13)) (rotr a 22) in
    let maj := N.lxor (N.lxor (N.land a b) (N.land a c)) (N.land b c) in
    [add32 t1 (add32 S0 maj); a; b; c; add32 d t1; e; f; g]
  | _ => st
  end.

Fixpoint words (n : nat) (l : list byte) : list N :=
  match n with O => [] | S n' => be_N (take 4 l) 0 :: words n' (drop 4 l) end.

Definition sha_block (h : list N) (blk : list byte) : list N :=
  let w := words 16 blk in
  let st := fold_left sha_round (zip sha_K (w ++ sha_schedule 48 (rev w))) h in
  zip_with add32 h st.

Fixpoint sha_blocks (n : nat) (h : list N) (l : list byte) : list N :=
  match n with
  | O => h
  | S n' => sha_blocks n' (sha_block h (take 64 l)) (drop 64 l)
  end.

Definition sha256 (l : list byte) : list byte :=
  let p := sha_pad l in
  mjoin (be_bytes 4 <$> sha_blocks (length p / 64) sha_H0 p).

(** ** [hex.EncodeToString] *)

Definition hex_digit (n : N) : Ascii.ascii :=
  Ascii.ascii_of_N (if n <? 10 then 48 + n else 87 + n).

Fixpoint hex_EncodeToString (l : list byte) : string :=
  match l with
  | [] => ""
  | b :: l' => String (hex_digit (byte_N b / 16))
                 (String (hex_digit (byte_N b mod 16)) (hex_EncodeToString l'))
  end.

Example sha_abc : hex_EncodeToString (sha256 (bytes_of "abc")) =
  "ba7816bf8f01cfea414140de5dae2223b00361a396177a9cb410ff61f20015ad".
Proof. vm_compute. reflexivity. Qed.

Example sha_empty : hex_EncodeToString (sha256 []) =
  "e3b0c44298fc1c149afbf4c8996fb92427ae41e4649b934ca495991b7852b855".
Proof. vm_compute. reflexivity. Qed.

Example sha_two_blocks : hex_EncodeToString (sha256 (bytes_of
    "abcdbcdecdefdefgefghfghighijhijkijkljklmklmnlmnomnopnopq")) =
  "248d6a61d20638b8e5c026930c3e6039a33ce45964ff2167f6ecedd419db06c1".
Proof. vm_compute. reflexivity. Qed.

(** The lower-case hexadecimal alphabet. *)
Definition is_hex (c : Ascii.ascii) : bool :=
  let n := Ascii.N_of_ascii c in
  ((48 <=? n) && (n <=? 57)) || ((97 <=? n) && (n <=? 102)).

Fixpoint all_hex (s : string) : bool :=
  match s with "" => true | String c s' => is_hex c && all_hex s' end%string.

Lemma hex_digit_is_hex n : n < 16 → is_hex (hex_digit n) = true.
Proof.
  intros Hn. assert (∃ k, n = N.of_nat k ∧ (k < 16)%nat) as (k & -> & Hk)
    by (exists (N.to_nat n); lia).
  do 16 (destruct k as [|k]; [reflexivity|]). lia.
Qed.

Lemma hex_all_hex l : all_hex (hex_EncodeToString l) = true.
Proof.
  induction l as [|b l IH]; [done|]. simpl. pose proof (byte_N_lt b).
  rewrite !hex_digit_is_hex; [done| |]; [apply N.mod_lt; lia|].
  apply N.Div0.div_lt_upper_bound. lia.
Qed.

Lemma length_hex l : String.length (hex_EncodeToString l) = (2 * length l)%nat.
Proof. induction l as [|b l IH]; [done|]. cbn [hex_EncodeToString String.length length]. lia. Qed.

Lemma length_be_bytes k n : length (be_bytes k n) = k.
Proof. induction k as [|k IH]; simpl; [done|]. by rewrite IH. Qed.

Lemma length_sha_round st kw : length st = 8%nat → length (sha_round st kw) = 8%nat.
Proof. intros H. do 8 (destruct st as [|? st]; [done|]). by destruct st. Qed.

Lemma length_sha_blocks n h l : length h = 8%nat → length (sha_blocks n h l) = 8%nat.
Proof.
  revert h l. induction n as [|n IH]; intros h l Hh; [done|]. simpl. apply IH.
  unfold sha_block. rewrite length_zip_with.
  assert (∀ kws st, length st = 8%nat → length (fold_left sha_round kws st) = 8%nat) as Hr.
  { induction kws as [|kw kws IHk]; intros st Hst; simpl; [done|].
    by apply IHk, length_sha_round. }
  rewrite Hr by done. lia.
Qed.

(** A digest has 32 bytes, its text 64 characters. *)
Lemma length_sha256 l : length (sha256 l) = 32%nat.
Proof.
  unfold sha256. pose proof (length_sha_blocks (length (sha_pad l) / 64) sha_H0 (sha_pad l)
    eq_refl) as Hl. destruct (sha_blocks _ _ _) as [|a w]; [done|].
  do 7 (destruct w as [|? w]; [done|]). destruct w; [|done].
  cbn -[be_bytes]. by rewrite !length_app, !length_be_bytes.
Qed.

Definition sha256_hex (l : list byte) : string := hex_EncodeToString (sha256 l).

Lemma length_sha256_hex l : String.length (sha256_hex l) = 64%nat.
Proof. unfold sha256_hex. by rewrite length_hex, length_sha256. Qed.

Lemma sha256_hex_all_hex l : all_hex (sha256_hex l) = true.
Proof. apply hex_all_hex. Qed.

(** ** [base64.StdEncoding], the JSON form of a [[]byte] *)

Definition b64_digit (n : N) : Ascii.ascii :=
  Ascii.ascii_of_N (if n <? 26 then 65 + n else if n <? 52 then 71 + n
    else if n <? 62 then n - 4 else if n =? 62 then 43 else 47).

Fixpoint base64 (l : list byte) : string :=
  match l with
  | [] => ""
  | [a] =>
    let n := byte_N a * 16 in
    String (b64_digit (n / 64)) (String (b64_digit (n mod 64)) "==")
  | [a; b] =>
    let n := (byte_N a * 256 + byte_N b) * 4 in
    String (b64_digit (n / 4096)) (String (b64_digit (n / 64 mod 64))
      (String (b64_digit (n mod 64)) "="))
  | a :: b :: c :: l' =>
    let n := byte_N a * 65536 + byte_N b * 256 + byte_N c in
    String (b64_digit (n / 262144)) (String (b64_digit (n / 4096 mod 64))
      (String (b64_digit (n / 64 mod 64)) (String (b64_digit (n mod 64)) (base64 l'))))
  end%string.

Example base64_check : base64 (bytes_of "foobar") = "Zm9vYmFy" ∧
  base64 (bytes_of "fooba") = "Zm9vYmE=" ∧ base64 (bytes_of "foob") = "Zm9vYg==".
Proof. by vm_compute. Qed.
