(* ===== verification/Types.v ===== *)
(** * The shared data types: [backend/dfs/common/types.go]

    Every record has the fields of the Go struct in the order of the source.
    [time.Time] and [time.Duration] are integers of nanoseconds; a UUID is the
    number its sixteen bytes spell; string-based enumerations stay strings,
    because a decoded message can carry any string in such a field. *)

From S2P Require Import Prelude GoStd.

(** ** Identifiers *)

Abbreviation uuid := N (only parsing).

(** [uuid.Nil], the zero value of the array type. *)
Definition uuid_Nil : uuid := 0%N.

(** What the program relies on of the package github.com/google/uuid: the
    textual form of an identifier, and that [Parse] reads it back. *)
Class UuidText := {
  uuid_String : uuid → string;
  uuid_Parse : string → option uuid;
  uuid_Parse_String u : uuid_Parse (uuid_String u) = Some u }.

#[export] Instance uuid_String_inj `{UuidText} : Inj (=) (=) uuid_String.
Proof.
  intros u v Huv. apply (inj Some). by rewrite <-!uuid_Parse_String, Huv.
Qed.

(** The text form of a [time.Time] in a JSON document. *)
Class TimeText := {
  time_Marshal : Z → string;
  time_Unmarshal : string → option Z;
  time_Unmarshal_Marshal t : time_Unmarshal (time_Marshal t) = Some t }.

(** ** Times and durations (nanoseconds) *)

Definition Millisecond : Z := 1000000.
Definition Second : Z := 1000 * Millisecond.
Definition Minute : Z := 60 * Second.
Definition Hour : Z := 60 * Minute.

(** ** Roles, states and message types *)

Abbreviation NodeRole := string (only parsing).
Definition RoleMaster : NodeRole := "master".
Definition RoleStorage : NodeRole := "storage".

Abbreviation NodeStatus := string (only parsing).
Definition StatusOnline : NodeStatus := "online".
Definition StatusOffline : NodeStatus := "offline".
Definition StatusStarting : NodeStatus := "starting".
Definition StatusStopping : NodeStatus := "stopping".

Record NodeInfo := mkNodeInfo {
  ni_ID : uuid;
  ni_IP : string;
  ni_Port : Z;
  ni_Role : NodeRole;
  ni_Status : NodeStatus;
  ni_Priority : Z;
  ni_LastHeartbeat : Z }.

#[export] Instance NodeInfo_eq_dec : EqDecision NodeInfo.
Proof. solve_decision. Defined.

Definition ni_set_Role (r : NodeRole) (p : NodeInfo) : NodeInfo :=
  mkNodeInfo (ni_ID p) (ni_IP p) (ni_Port p) r (ni_Status p) (ni_Priority p) (ni_LastHeartbeat p).
Definition ni_set_Status (st : NodeStatus) (p : NodeInfo) : NodeInfo :=
  mkNodeInfo (ni_ID p) (ni_IP p) (ni_Port p) (ni_Role p) st (ni_Priority p) (ni_LastHeartbeat p).
Definition ni_set_LastHeartbeat (t : Z) (p : NodeInfo) : NodeInfo :=
  mkNodeInfo (ni_ID p) (ni_IP p) (ni_Port p) (ni_Role p) (ni_Status p) (ni_Priority p) t.

Abbreviation MessageType := string (only parsing).
Definition MessageHeartbeat : MessageType := "heartbeat".
Definition MessageElection : MessageType := "election".
Definition MessageDiscovery : MessageType := "discovery".
Definition MessageNodeJoined : MessageType := "node_joined".
Definition MessageNodeLeft : MessageType := "node_left".
Definition MessageCoordinator : MessageType := "coordinator".
Definition MessageOK : MessageType := "ok".
Definition MessageLockRequest : MessageType := "lock_request".
Definition MessageLockAck : MessageType := "lock_ack".
Definition MessageLockAcquired : MessageType := "lock_acquired".
Definition MessageLockRelease : MessageType := "lock_release".
Definition MessageLockAbort : MessageType := "lock_abort".
Definition MessageFileStore : MessageType := "file_store".
Definition MessageFileStoreAck : MessageType := "file_storage_ack".
Definition MessageFileRetrieve : MessageType := "file_retrieve".
Definition MessageFileRetrieveResponse : MessageType := "file_retrieve_response".
Definition MessageFileDelete : MessageType := "file_delete".
Definition MessageMetadataRequest : MessageType := "metadata_request".
Definition MessageMetadataResponse : MessageType := "metadata_response".
Definition MessageReplicateFile : MessageType := "replicate_file".
Definition MessageAPIFileDelete : MessageType := "api_file_delete".
Definition MessageStreamUploadInit : MessageType := "stream_upload_init".
Definition MessageStreamUploadReady : MessageType := "stream_upload_ready".
Definition MessageStreamDownloadInit : MessageType := "stream_download_init".
Definition MessageStreamDownloadReady : MessageType := "stream_download_ready".
Definition MessageStreamStoreAck : MessageType := "stream_store_ack".

(** ** Messages *)

(** A JSON document. A number the program can read is an integer; any other
    number is [JFloat]. *)
Inductive json : Type :=
| JNull
| JBool (b : bool)
| JNum (z : Z)
| JFloat
| JStr (s : string)
| JArr (l : list json)
| JObj (m : list (string * json)).

(** [json.RawMessage]: the bytes of the payload, read as the document they
    hold; [None] when there are none or they are not a JSON document. *)
Abbreviation RawMessage := (option json) (only parsing).

Record Message := mkMessage {
  msg_Type : MessageType;
  msg_From : uuid;
  msg_To : uuid;
  msg_Payload : RawMessage }.

Record MessageWithTime := mkMessageWithTime {
  mwt_Message : Message;
  mwt_LogicalTime : Z }.

(** ** Locks *)

Abbreviation LockStatus := string (only parsing).
Definition StatusPending : LockStatus := "pending".
Definition StatusGranted : LockStatus := "granted".
Definition StatusReleased : LockStatus := "released".

Definition LOCK_TIMEOUT : Z := 30 * Second.

Record LockRequest := mkLockRequest {
  lr_ResourceID : string;
  lr_NodeID : uuid;
  lr_LogicalTime : Z;
  lr_Status : LockStatus;
  lr_RequestedAt : Z }.

#[export] Instance LockRequest_eq_dec : EqDecision LockRequest.
Proof. solve_decision. Defined.

(** [GraphNodeStatus]; a missing map entry reads as the empty string. *)
Abbreviation GraphNodeStatus := string (only parsing).
Definition GraphNodeStatusNotVisited : GraphNodeStatus := "not_visited".
Definition GraphNodeStatusVisiting : GraphNodeStatus := "visiting".
Definition GraphNodeStatusVisited : GraphNodeStatus := "visited".

(** ** Files *)

(** [PendingUpload], [FileStoreResponse], [FileRetrieveRequest] and
    [FileRetrieveResponse] are declared and not used. *)
Record PendingUpload := mkPendingUpload {
  pu_FileID : uuid;
  pu_Filename : string;
  pu_Hash : string;
  pu_ExpectedNodes : list uuid;
  pu_ReceivedAcks : gmap uuid string;
  pu_CreatedAt : Z }.

Record FileStoreRequest := mkFileStoreRequest {
  fsr_FileID : uuid;
  fsr_Filename : string;
  fsr_ContentType : string;
  fsr_Size : Z;
  fsr_Data : list byte }.

Record FileStoreResponse := mkFileStoreResponse { fsp_Hash : string; fsp_FileID : uuid }.

Record FileRetrieveRequest := mkFileRetrieveRequest { frq_RequestID : string; frq_Hash : string }.

Record FileRetrieveResponse := mkFileRetrieveResponse {
  frs_RequestID : string;
  frs_FileID : uuid;
  frs_Filename : string;
  frs_Hash : string;
  frs_Data : list byte;
  frs_Error : string }.

Record GlobalFileInfo := mkGlobalFileInfo {
  gfi_FileID : uuid;
  gfi_Filename : string;
  gfi_Hash : string;
  gfi_Size : Z;
  gfi_ContentType : string;
  gfi_Replicas : list uuid }.

Definition gfi_set_Replicas (rs : list uuid) (f : GlobalFileInfo) : GlobalFileInfo :=
  mkGlobalFileInfo (gfi_FileID f) (gfi_Filename f) (gfi_Hash f) (gfi_Size f)
    (gfi_ContentType f) rs.

(** [Done] is a channel that is only ever closed: open ([false]) or closed. *)
Record MetadataSyncState := mkMetadataSyncState {
  mss_RequestID : string;
  mss_ExpectedNodes : Z;
  mss_ReceivedNodes : gmap uuid bool;
  mss_Done : bool }.

Record MetadataRequest := mkMetadataRequest { mrq_RequestID : string }.

Record NodeFileMetadata := mkNodeFileMetadata {
  nfm_FileID : uuid;
  nfm_Filename : string;
  nfm_Hash : string;
  nfm_Size : Z;
  nfm_ContentType : string }.

Record MetadataResponse := mkMetadataResponse {
  mrs_RequestID : string;
  mrs_NodeID : uuid;
  mrs_Files : list NodeFileMetadata }.

Record ReplicateFileRequest := mkReplicateFileRequest {
  rfr_FileID : uuid;
  rfr_Filename : string;
  rfr_Hash : string;
  rfr_SourceNode : uuid;
  rfr_TargetNodes : list uuid }.

Record APIFileDeleteRequest := mkAPIFileDeleteRequest {
  adr_RequestID : string;
  adr_FileID : uuid;
  adr_Hash : string }.

Record APIFileDeleteResponse := mkAPIFileDeleteResponse {
  ads_RequestID : string;
  ads_Success : bool;
  ads_Error : string }.

(** ** Streaming *)

Record StreamUploadInitRequest := mkStreamUploadInitRequest {
  sui_RequestID : string;
  sui_FileID : uuid;
  sui_Filename : string;
  sui_ContentType : string;
  sui_Size : Z }.

Record StorageNodeAddr := mkStorageNodeAddr {
  sna_NodeID : uuid;
  sna_Addr : string }.

Record StreamUploadReadyResponse := mkStreamUploadReadyResponse {
  sur_RequestID : string;
  sur_SessionID : string;
  sur_StorageNodes : list StorageNodeAddr;
  sur_Success : bool;
  sur_Error : string }.

Record StreamDownloadInitRequest := mkStreamDownloadInitRequest {
  sdi_RequestID : string;
  sdi_FileID : uuid;
  sdi_Hash : string }.

Record StreamDownloadReadyResponse := mkStreamDownloadReadyResponse {
  sdr_RequestID : string;
  sdr_StorageAddr : string;
  sdr_Filename : string;
  sdr_Size : Z;
  sdr_Hash : string;
  sdr_Success : bool;
  sdr_Error : string }.

Record StreamStoreAck := mkStreamStoreAck {
  ssa_SessionID : string;
  ssa_FileID : uuid;
  ssa_Hash : string;
  ssa_NodeID : uuid;
  ssa_Success : bool;
  ssa_Error : string }.

Record StreamSession := mkStreamSession {
  ss_SessionID : string;
  ss_FileID : uuid;
  ss_Filename : string;
  ss_ContentType : string;
  ss_Size : Z;
  ss_ExpectedNodes : list uuid;
  ss_ReceivedAcks : gmap uuid string;
  ss_CreatedAt : Z }.

Definition ss_set_ReceivedAcks (m : gmap uuid string) (s : StreamSession) : StreamSession :=
  mkStreamSession (ss_SessionID s) (ss_FileID s) (ss_Filename s) (ss_ContentType s)
    (ss_Size s) (ss_ExpectedNodes s) m (ss_CreatedAt s).

(** ** Concrete text forms, for the examples *)

From Stdlib Require Import DecimalString DecimalN.

Definition decimal_uuids : UuidText.
Proof.
  refine {| uuid_String u := NilEmpty.string_of_uint (N.to_uint u);
            uuid_Parse s := N.of_uint <$> NilEmpty.uint_of_string s |}.
  intros u. rewrite NilEmpty.usu. simpl. by rewrite DecimalN.Unsigned.of_to.
Defined.

Definition zigzag (t : Z) : N := Z.to_N (if 0 <=? t then 2 * t else - 2 * t - 1).
Definition unzigzag (n : N) : Z :=
  let z := Z.of_N n in if Z.even z then z / 2 else - ((z + 1) / 2).

Lemma unzigzag_zigzag t : unzigzag (zigzag t) = t.
Proof.
  unfold unzigzag, zigzag. destruct (Z.leb_spec 0 t); rewrite Z2N.id by lia.
  - rewrite Z.even_mul. simpl orb. cbv iota. rewrite Z.mul_comm, Z.div_mul; lia.
  - replace (Z.even (-2 * t - 1)) with false.
    + replace (-2 * t - 1 + 1) with ((- t) * 2) by lia. rewrite Z.div_mul; lia.
    + rewrite Z.even_sub, Z.even_mul. done.
Qed.

Definition decimal_times : TimeText.
Proof.
  refine {| time_Marshal t := NilEmpty.string_of_uint (N.to_uint (zigzag t));
            time_Unmarshal s := (λ d, unzigzag (N.of_uint d)) <$> NilEmpty.uint_of_string s |}.
  intros t. rewrite NilEmpty.usu. simpl. by rewrite DecimalN.Unsigned.of_to, unzigzag_zigzag.
Defined.
