(* ===== verification/Lamport.v ===== *)
(** * Lamport timestamps: [backend/dfs/common/lamport.go]

    The comparison functions of the lock protocol, and the theorems that make
    them a total order on (time, node) pairs, so that every node sorts the
    same requests in the same way. *)

From S2P Require Import Prelude GoStd Types.

Section lamport.
Context `{UuidText}.

Definition CompareLamport (t1 : Z) (id1 : uuid) (t2 : Z) (id2 : uuid) : Z :=
  if t1 <? t2 then -1
  else if t1 >? t2 then 1
  else
    let s1 := uuid_String id1 in
    let s2 := uuid_String id2 in
    if string_lt s1 s2 then -1
    else if string_lt s2 s1 then 1
    else 0.

Definition LessLamport (t1 : Z) (id1 : uuid) (t2 : Z) (id2 : uuid) : bool :=
  CompareLamport t1 id1 t2 id2 =? -1.

Definition CompareMessageLamport (m1 m2 : MessageWithTime) : Z :=
  CompareLamport (mwt_LogicalTime m1) (msg_From (mwt_Message m1))
    (mwt_LogicalTime m2) (msg_From (mwt_Message m2)).

(** [common.CompareLockRequests]: the "less" of the lock queues. *)
Definition CompareLockRequests (a b : LockRequest) : bool :=
  if negb (lr_LogicalTime a =? lr_LogicalTime b)
  then lr_LogicalTime a <? lr_LogicalTime b
  else string_lt (uuid_String (lr_NodeID a)) (uuid_String (lr_NodeID b)).

(** ** Helper lemmas *)

Lemma CompareLamport_lt t1 i1 t2 i2 :
  CompareLamport t1 i1 t2 i2 = -1 ↔
  t1 < t2 ∨ (t1 = t2 ∧ string_lt (uuid_String i1) (uuid_String i2) = true).
Proof.
  unfold CompareLamport. rewrite Z.gtb_ltb.
  destruct (Z.ltb_spec t1 t2); [split; auto; lia|].
  destruct (Z.ltb_spec t2 t1); [split; lia|].
  destruct (string_lt (uuid_String i1) (uuid_String i2)) eqn:E1;
    [split; auto; right; split; [lia|done]|].
  destruct (string_lt (uuid_String i2) (uuid_String i1)); split; try done;
    intros [?|[_ ?]]; try lia; done.
Qed.

Lemma CompareLamport_gt t1 i1 t2 i2 :
  CompareLamport t1 i1 t2 i2 = 1 ↔ CompareLamport t2 i2 t1 i1 = -1.
Proof.
  rewrite CompareLamport_lt. unfold CompareLamport. rewrite Z.gtb_ltb.
  destruct (Z.ltb_spec t1 t2); [split; [done|lia]|].
  destruct (Z.ltb_spec t2 t1); [split; auto; lia|].
  destruct (string_lt (uuid_String i1) (uuid_String i2)) eqn:E1.
  - apply string_lt_asym in E1. split; [done|]. rewrite E1. intros [?|[_ ?]]; [lia|done].
  - destruct (string_lt (uuid_String i2) (uuid_String i1)) eqn:E2;
      split; try done; try (intros [?|[_ ?]]; [lia|done]).
    intros _. right. split; [lia|done].
Qed.

Lemma CompareLamport_values t1 i1 t2 i2 :
  CompareLamport t1 i1 t2 i2 = -1 ∨ CompareLamport t1 i1 t2 i2 = 0 ∨
  CompareLamport t1 i1 t2 i2 = 1.
Proof. unfold CompareLamport. repeat case_match; auto. Qed.

Lemma CompareLamport_eq t1 i1 t2 i2 :
  CompareLamport t1 i1 t2 i2 = 0 ↔ t1 = t2 ∧ i1 = i2.
Proof.
  unfold CompareLamport. rewrite Z.gtb_ltb. split.
  - destruct (Z.ltb_spec t1 t2); [done|]. destruct (Z.ltb_spec t2 t1); [done|].
    destruct (string_lt (uuid_String i1) (uuid_String i2)) eqn:E1; [done|].
    destruct (string_lt (uuid_String i2) (uuid_String i1)) eqn:E2; [done|].
    intros _. split; [lia|]. apply (inj uuid_String). by apply string_lt_total.
  - intros [-> ->]. by rewrite Z.ltb_irrefl, string_lt_irrefl.
Qed.

Lemma CompareLockRequests_Lamport a b :
  CompareLockRequests a b =
  LessLamport (lr_LogicalTime a) (lr_NodeID a) (lr_LogicalTime b) (lr_NodeID b).
Proof.
  unfold CompareLockRequests, LessLamport, CompareLamport. rewrite Z.gtb_ltb.
  destruct (Z.eqb_spec (lr_LogicalTime a) (lr_LogicalTime b)) as [->|Hne]; simpl.
  - rewrite Z.ltb_irrefl. by repeat case_match.
  - destruct (Z.ltb_spec (lr_LogicalTime a) (lr_LogicalTime b)); [done|].
    destruct (Z.ltb_spec (lr_LogicalTime b) (lr_LogicalTime a)); [done|lia].
Qed.

Lemma LessLamport_iff t1 i1 t2 i2 :
  LessLamport t1 i1 t2 i2 = true ↔ CompareLamport t1 i1 t2 i2 = -1.
Proof. apply Z.eqb_eq. Qed.

Lemma CompareLamport_trans t1 i1 t2 i2 t3 i3 :
  CompareLamport t1 i1 t2 i2 = -1 → CompareLamport t2 i2 t3 i3 = -1 →
  CompareLamport t1 i1 t3 i3 = -1.
Proof.
  rewrite !CompareLamport_lt.
  intros [?|[-> H1]] [?|[-> H2]]; try (left; lia).
  right. split; [done|]. by eapply string_lt_trans.
Qed.

Lemma CompareLockRequests_irrefl a : CompareLockRequests a a = false.
Proof.
  unfold CompareLockRequests. by rewrite Z.eqb_refl, string_lt_irrefl.
Qed.

Lemma CompareLockRequests_asym a b :
  CompareLockRequests a b = true → CompareLockRequests b a = false.
Proof.
  rewrite !CompareLockRequests_Lamport, LessLamport_iff. intros Hab.
  apply CompareLamport_gt in Hab. apply Z.eqb_neq. lia.
Qed.

Lemma CompareLockRequests_trans a b c :
  CompareLockRequests a b = true → CompareLockRequests b c = true →
  CompareLockRequests a c = true.
Proof.
  rewrite !CompareLockRequests_Lamport, !LessLamport_iff. apply CompareLamport_trans.
Qed.

(** Two requests the queue order cannot tell apart come from the same node
    at the same logical time. *)
Lemma CompareLockRequests_total a b :
  CompareLockRequests a b = false → CompareLockRequests b a = false →
  lr_LogicalTime a = lr_LogicalTime b ∧ lr_NodeID a = lr_NodeID b.
Proof.
  rewrite !CompareLockRequests_Lamport. unfold LessLamport. rewrite !Z.eqb_neq.
  intros Hab Hba. apply CompareLamport_eq.
  destruct (CompareLamport_values (lr_LogicalTime a) (lr_NodeID a)
    (lr_LogicalTime b) (lr_NodeID b)) as [?|[?|Hgt]]; [done|done|].
  apply CompareLamport_gt in Hgt. done.
Qed.

Lemma CompareLockRequests_cotrans a b c :
  CompareLockRequests a b = false → CompareLockRequests b c = false →
  CompareLockRequests a c = false.
Proof.
  intros Hab Hbc. destruct (CompareLockRequests a c) eqn:Hac; [|done].
  destruct (CompareLockRequests b a) eqn:Hba.
  - by rewrite (CompareLockRequests_trans b a c) in Hbc.
  - destruct (CompareLockRequests_total a b) as [Ht Hi]; [done|done|].
    rewrite CompareLockRequests_Lamport in *. by rewrite Ht, Hi, Hbc in Hac.
Qed.

(** ** Properties *)

(** [CompareLamport] is a total order on (time, node) pairs: it answers
    0 exactly for equal pairs, answers 1 exactly when the swapped comparison
    answers -1, is transitive, and is determined by the time first. *)
Theorem CompareLamport_total_order t1 i1 t2 i2 t3 i3 :
  (CompareLamport t1 i1 t2 i2 = 0 ↔ t1 = t2 ∧ i1 = i2) ∧
  (CompareLamport t1 i1 t2 i2 = 1 ↔ CompareLamport t2 i2 t1 i1 = -1) ∧
  (CompareLamport t1 i1 t2 i2 = -1 ∨ CompareLamport t1 i1 t2 i2 = 0 ∨
   CompareLamport t1 i1 t2 i2 = 1) ∧
  (CompareLamport t1 i1 t2 i2 = -1 → CompareLamport t2 i2 t3 i3 = -1 →
   CompareLamport t1 i1 t3 i3 = -1) ∧
  (t1 < t2 → CompareLamport t1 i1 t2 i2 = -1).
Proof.
  split_and!.
  - apply CompareLamport_eq.
  - apply CompareLamport_gt.
  - apply CompareLamport_values.
  - apply CompareLamport_trans.
  - intros. apply CompareLamport_lt. by left.
Qed.
End lamport.
