(* ===== verification/WaitFor.v ===== *)
(** * Deadlock detection: [backend/dfs/common/waitfor-graph.go]

    [HasCycle] and the depth-first search [dfs] over the wait-for graph, with
    the three-colour map threaded through the recursion as in the source, and
    the proof that the search terminates and finds a cycle exactly when the
    graph has one. The order in which Go ranges over a map is the parameter
    [MapRange]; every theorem holds for every order. *)

From S2P Require Import Prelude GoStd Types.

Abbreviation Graph := (gmap uuid (gmap uuid bool)) (only parsing).
Abbreviation Visited := (gmap uuid GraphNodeStatus) (only parsing).

Section waitfor.
Context `{MapRange}.

(** [visited[n]], with the zero value for a missing key. *)
Definition status (visited : Visited) (n : uuid) : GraphNodeStatus :=
  default "" (visited !! n).

(** The keys [range graph[n]] goes through (none for a missing [n]). *)
Definition edges_of (graph : Graph) (n : uuid) : list uuid :=
  (go_range (default ∅ (graph !! n))).*1.

Abbreviation DfsResult := (option (bool * list uuid * Visited)) (only parsing).

(** The loop [for edge := range graph[nodeID]] of [dfs]; [visit] is the
    recursive call. *)
Fixpoint dfs_edges (visit : uuid → Visited → DfsResult) (nodeID : uuid)
    (path : list uuid) (es : list uuid) (visited : Visited) : DfsResult :=
  match es with
  | [] => Some (false, [], <[nodeID := GraphNodeStatusVisited]> visited)
  | edge :: es' =>
    if decide (status visited edge = GraphNodeStatusVisiting)
    then Some (true, path ++ [edge], visited)
    else if decide (status visited edge = GraphNodeStatusNotVisited)
    then match visit edge visited with
         | Some (true, cyclePath, visited') => Some (true, cyclePath, visited')
         | Some (false, _, visited') => dfs_edges visit nodeID path es' visited'
         | None => None
         end
    else dfs_edges visit nodeID path es' visited
  end.

(** [dfs]; [None] when the fuel runs out. *)
Fixpoint dfs (fuel : nat) (nodeID : uuid) (graph : Graph) (visited : Visited)
    (path : list uuid) : DfsResult :=
  match fuel with
  | O => None
  | S fuel' =>
    let path := path ++ [nodeID] in
    let visited := <[nodeID := GraphNodeStatusVisiting]> visited in
    dfs_edges (λ edge v, dfs fuel' edge graph v path) nodeID path
      (edges_of graph nodeID) visited
  end.

Fixpoint HasCycle_loop (fuel : nat) (graph : Graph) (nodes : list uuid)
    (visited : Visited) : option (bool * list uuid) :=
  match nodes with
  | [] => Some (false, [])
  | node :: nodes' =>
    if decide (status visited node = GraphNodeStatusNotVisited) then
      match dfs fuel node graph visited [] with
      | Some (true, cyclePath, _) => Some (true, cyclePath)
      | Some (false, _, visited') => HasCycle_loop fuel graph nodes' visited'
      | None => None
      end
    else HasCycle_loop fuel graph nodes' visited
  end.

(** A search can nest once per node of the graph. *)
Definition HasCycle_fuel (graph : Graph) : option (bool * list uuid) :=
  if decide (size graph = 0)%nat then Some (false, [])
  else
    HasCycle_loop (size graph) graph (go_range graph).*1
      ((λ _, GraphNodeStatusNotVisited) <$> graph).

Definition HasCycle (graph : Graph) : bool * list uuid :=
  default (false, []) (HasCycle_fuel graph).

(** ** Specification *)

(** [u] waits for [v]. *)
Definition waits (g : Graph) (u v : uuid) : Prop :=
  ∃ m, g !! u = Some m ∧ is_Some (m !! v).

Definition cyclic (g : Graph) : Prop := ∃ u, tc (waits g) u u.

(** Consecutive elements of [l] wait for each other. *)
Definition wait_chain (g : Graph) (l : list uuid) : Prop :=
  ∀ i u v, l !! i = Some u → l !! S i = Some v → waits g u v.

(** [l] runs into a node it has already gone through. *)
Definition closes (l : list uuid) : Prop :=
  ∃ l1 x l2, l = l1 ++ x :: l2 ++ [x].

(** ** Invariant of the search *)

Record search_inv (g : Graph) (visited : Visited) (path : list uuid) : Prop := {
  si_dom : ∀ u, is_Some (visited !! u) ↔ is_Some (g !! u);
  si_gray : ∀ u, status visited u = GraphNodeStatusVisiting ↔ u ∈ path;
  si_closed : ∀ u v, status visited u = GraphNodeStatusVisited → waits g u v →
    is_Some (g !! v) → status visited v = GraphNodeStatusVisited;
  si_acyclic : ∀ u, status visited u = GraphNodeStatusVisited → ¬ tc (waits g) u u;
  si_values : ∀ u, is_Some (g !! u) →
    status visited u = GraphNodeStatusNotVisited ∨
    status visited u = GraphNodeStatusVisiting ∨
    status visited u = GraphNodeStatusVisited }.

Definition white (visited : Visited) : nat :=
  size (filter (λ kv, kv.2 = GraphNodeStatusNotVisited) visited).

Lemma status_insert visited u s v :
  status (<[u := s]> visited) v = if decide (u = v) then s else status visited v.
Proof. unfold status. rewrite lookup_insert. by case_decide. Qed.

Lemma status_some visited u :
  status visited u ≠ "" → is_Some (visited !! u).
Proof. unfold status. destruct (visited !! u); simpl; [eauto|done]. Qed.

Lemma white_insert_gray visited u :
  status visited u = GraphNodeStatusNotVisited →
  white visited = S (white (<[u := GraphNodeStatusVisiting]> visited)).
Proof.
  intros Hu. unfold white. rewrite map_filter_insert_False by done.
  assert (visited !! u = Some GraphNodeStatusNotVisited) as Hlu.
  { destruct (status_some visited u) as [x Hx]; [by rewrite Hu|].
    unfold status in Hu. rewrite Hx in Hu |- *. simpl in Hu. by subst. }
  rewrite map_filter_delete.
  rewrite map_size_delete_Some
    by (exists GraphNodeStatusNotVisited; by apply map_lookup_filter_Some_2).
  assert (size (filter (λ kv : uuid * GraphNodeStatus,
    kv.2 = GraphNodeStatusNotVisited) visited) ≠ 0)%nat; [|lia].
  apply (map_size_ne_0_lookup_2 _ u). eexists. by apply map_lookup_filter_Some_2.
Qed.

Lemma white_insert_le visited u s :
  s ≠ GraphNodeStatusNotVisited → (white (<[u := s]> visited) ≤ white visited)%nat.
Proof.
  intros Hs. unfold white. rewrite map_filter_insert_False by done.
  rewrite map_filter_delete. rewrite map_size_delete. case_match; unfold id; lia.
Qed.

Lemma elem_of_edges_of g u v : v ∈ edges_of g u ↔ waits g u v.
Proof.
  unfold edges_of, waits. rewrite list_elem_of_fmap. split.
  - intros ([v' b] & -> & Hin%elem_of_go_range). simpl.
    destruct (g !! u) as [m|]; simpl in Hin; [eauto|by rewrite lookup_empty in Hin].
  - intros (m & Hm & b & Hb). exists (v, b). split; [done|].
    apply elem_of_go_range. by rewrite Hm.
Qed.

Lemma wait_chain_snoc g l u v :
  wait_chain g (l ++ [u]) → waits g u v → wait_chain g (l ++ [u] ++ [v]).
Proof.
  intros Hl Huv i a b Ha Hb. rewrite app_assoc in Ha, Hb.
  destruct (decide (S i < length (l ++ [u]))%nat) as [Hlt|Hge].
  - rewrite lookup_app_l in Ha, Hb by lia. eauto.
  - assert (i = length l) as ->.
    { apply lookup_lt_Some in Hb. rewrite !length_app in *. simpl in *. lia. }
    rewrite lookup_app_l in Ha by (rewrite length_app; simpl; lia).
    rewrite lookup_app_r in Ha by lia. rewrite Nat.sub_diag in Ha.
    rewrite lookup_app_r in Hb by (rewrite length_app; simpl; lia).
    replace (S (length l) - length (l ++ [u]))%nat with 0%nat in Hb
      by (rewrite length_app; simpl; lia).
    simpl in *. by simplify_eq.
Qed.

Lemma waits_source g u v : waits g u v → is_Some (g !! u).
Proof. intros (m & -> & _). eauto. Qed.

Lemma tc_source g u v : tc (waits g) u v → is_Some (g !! u).
Proof. destruct 1; by eapply waits_source. Qed.

(** From a black node only black nodes are reachable. *)
Lemma black_reach g visited path u v :
  search_inv g visited path → status visited u = GraphNodeStatusVisited →
  tc (waits g) u v → is_Some (g !! v) → status visited v = GraphNodeStatusVisited.
Proof.
  intros Hinv Hu Htc. revert Hu. induction Htc as [u v Huv|u w v Huw Hwv IH];
    intros Hu Hv; [by eapply si_closed|].
  apply IH; [|done]. eapply si_closed; [done..|].
  by eapply tc_source.
Qed.

Lemma inv_enter g visited path u :
  search_inv g visited path → status visited u = GraphNodeStatusNotVisited →
  search_inv g (<[u := GraphNodeStatusVisiting]> visited) (path ++ [u]).
Proof.
  intros Hinv Hu. assert (is_Some (visited !! u)) as Hsome
    by (apply status_some; by rewrite Hu).
  constructor.
  - intros v. rewrite lookup_insert. case_decide as E; [subst|apply (si_dom _ _ _ Hinv)].
    rewrite <-(si_dom _ _ _ Hinv v). split; eauto.
  - intros v. rewrite status_insert, elem_of_app, list_elem_of_singleton.
    rewrite <-(si_gray _ _ _ Hinv v). case_decide as Hd; subst; naive_solver.
  - intros a b. rewrite !status_insert. repeat case_decide; subst; try done.
    + intros Ha Hab Hb. pose proof (si_closed _ _ _ Hinv a b Ha Hab Hb) as Hbv.
      by rewrite Hu in Hbv.
    + apply (si_closed _ _ _ Hinv).
  - intros a. rewrite status_insert. case_decide; [done|apply (si_acyclic _ _ _ Hinv)].
  - intros a Ha. rewrite status_insert. case_decide; [auto|by apply (si_values _ _ _ Hinv)].
Qed.

(** A node turns black when all its successors are black. *)
Lemma inv_leave g visited path u :
  search_inv g visited (path ++ [u]) → u ∉ path →
  (∀ v, waits g u v → is_Some (g !! v) → status visited v = GraphNodeStatusVisited) →
  search_inv g (<[u := GraphNodeStatusVisited]> visited) path.
Proof.
  intros Hinv Hfresh Hsucc.
  assert (status visited u = GraphNodeStatusVisiting) as Hu
    by (apply (si_gray _ _ _ Hinv); set_solver).
  assert (is_Some (visited !! u)) as Hsome by (apply status_some; by rewrite Hu).
  constructor.
  - intros v. rewrite lookup_insert. case_decide as E; [subst|apply (si_dom _ _ _ Hinv)].
    rewrite <-(si_dom _ _ _ Hinv v). split; eauto.
  - intros v. rewrite status_insert. case_decide; [subst; naive_solver|].
    rewrite (si_gray _ _ _ Hinv v), elem_of_app, list_elem_of_singleton. naive_solver.
  - intros a b. rewrite !status_insert. repeat case_decide; subst; try done; eauto.
    apply (si_closed _ _ _ Hinv).
  - intros a. rewrite status_insert.
    case_decide; [subst a|apply (si_acyclic _ _ _ Hinv)].
    intros _ Htc. inversion Htc as [? ? Huu|? v ? Huv Hvu]; subst.
    + destruct Huu as (m & Hm & ?). rewrite (Hsucc u) in Hu; [done|by exists m|eauto].
    + assert (status visited u = GraphNodeStatusVisited) as Hb; [|by rewrite Hu in Hb].
      destruct Huv as (m & Hm & Hv). eapply black_reach; [done| |done|eauto].
      apply Hsucc; [by exists m|].
      by eapply tc_source.
  - intros a Ha. rewrite status_insert. case_decide; [auto|by apply (si_values _ _ _ Hinv)].
Qed.

(** What a call of [dfs] (or of its loop) promises. *)
Definition dfs_post (g : Graph) (visited0 : Visited) (path : list uuid)
    (node : uuid) (r : DfsResult) : Prop :=
  match r with
  | None => False
  | Some (true, p, _) => wait_chain g p ∧ closes p
  | Some (false, _, visited) =>
    search_inv g visited path ∧ status visited node = GraphNodeStatusVisited ∧
    (white visited ≤ white visited0)%nat ∧
    (∀ u, status visited0 u = GraphNodeStatusVisited →
          status visited u = GraphNodeStatusVisited)
  end.

Lemma dfs_edges_spec g visit path node es visited :
  (∀ e v, (white v ≤ white visited)%nat → search_inv g v (path ++ [node]) →
     status v e = GraphNodeStatusNotVisited → waits g node e →
     dfs_post g v (path ++ [node]) e (visit e v)) →
  search_inv g visited (path ++ [node]) → node ∉ path →
  wait_chain g (path ++ [node]) →
  (∀ e, e ∈ es → waits g node e) →
  (∀ e, waits g node e → e ∈ es ∨ (is_Some (g !! e) →
     status visited e = GraphNodeStatusVisited)) →
  dfs_post g visited path node (dfs_edges visit node (path ++ [node]) es visited).
Proof.
  revert visited. induction es as [|e es IH];
    intros visited Hvisit Hinv Hfresh Hchain Hes Hall; simpl.
  - split_and!.
    + apply inv_leave; [done..|]. intros v Hv Hsome.
      destruct (Hall v Hv) as [Hin|]; [by apply not_elem_of_nil in Hin|auto].
    + by rewrite status_insert, decide_True.
    + by apply white_insert_le.
    + intros u Hu. rewrite status_insert. by case_decide.
  - assert (waits g node e) as He by set_solver.
    case_decide as Hgray.
    { split; [rewrite <-app_assoc; by apply wait_chain_snoc|].
      apply (si_gray _ _ _ Hinv), list_elem_of_split in Hgray as (l1 & l2 & Hl).
      exists l1, e, l2. by rewrite Hl, <-app_assoc. }
    case_decide as Hwhite.
    + pose proof (Hvisit e visited ltac:(lia) Hinv Hwhite He) as Hpost.
      destruct (visit e visited) as [[[[] p] visited']|]; simpl in Hpost |- *; [done| |done].
      destruct Hpost as (Hinv' & He' & Hw & Hmono).
      assert (dfs_post g visited' path node
        (dfs_edges visit node (path ++ [node]) es visited')) as Hrec.
      { apply IH; [|done..|set_solver|].
        - intros e' v Hv. apply Hvisit. lia.
        - intros e' Hwe. destruct (Hall e' Hwe) as [[->|]%elem_of_cons|]; auto. }
      destruct (dfs_edges visit node (path ++ [node]) es visited')
        as [[[[] ?] ?]|]; simpl in *; try done.
      destruct Hrec as (? & ? & ? & ?). split_and!; [done|done|lia|auto].
    + apply IH; [done..|set_solver|].
      intros e' Hwe. destruct (Hall e' Hwe) as [[->|]%elem_of_cons|]; auto.
      right. intros Hs. destruct (si_values _ _ _ Hinv _ Hs) as [?|[?|?]]; done.
Qed.

Lemma dfs_spec g fuel node visited path :
  (white visited ≤ fuel)%nat → search_inv g visited path →
  status visited node = GraphNodeStatusNotVisited →
  wait_chain g (path ++ [node]) →
  dfs_post g visited path node (dfs fuel node g visited path).
Proof.
  revert node visited path. induction fuel as [|fuel IH];
    intros node visited path Hf Hinv Hnode Hchain; simpl.
  { rewrite (white_insert_gray _ _ Hnode) in Hf. lia. }
  assert (node ∉ path) as Hfresh.
  { intros Hin%(si_gray _ _ _ Hinv). by rewrite Hnode in Hin. }
  pose proof (white_insert_gray _ _ Hnode) as Hwhite.
  assert (dfs_post g (<[node:=GraphNodeStatusVisiting]> visited) path node
    (dfs_edges (λ edge v, dfs fuel edge g v (path ++ [node])) node (path ++ [node])
       (edges_of g node) (<[node:=GraphNodeStatusVisiting]> visited))) as Hrec.
  { apply dfs_edges_spec; [|by apply inv_enter|done..| |].
    - intros e v Hv Hi He Hwe. apply IH; [lia|done|done|].
      rewrite <-app_assoc. by apply wait_chain_snoc.
    - intros e. apply elem_of_edges_of.
    - intros e He. left. by apply elem_of_edges_of. }
  destruct (dfs_edges _ node (path ++ [node]) (edges_of g node) _)
    as [[[[] ?] ?]|]; simpl in *; try done.
  destruct Hrec as (? & ? & ? & Hm). split_and!; [done|done|lia|].
  intros u Hu. apply Hm. rewrite status_insert. case_decide; [subst|done].
  by rewrite Hu in Hnode.
Qed.

Definition loop_post (g : Graph) (r : option (bool * list uuid)) : Prop :=
  match r with
  | None => False
  | Some (true, p) => wait_chain g p ∧ closes p
  | Some (false, p) => p = [] ∧ ¬ cyclic g
  end.

Lemma HasCycle_loop_spec g fuel nodes visited :
  (white visited ≤ fuel)%nat → search_inv g visited [] →
  (∀ u, is_Some (g !! u) → u ∈ nodes ∨ status visited u = GraphNodeStatusVisited) →
  loop_post g (HasCycle_loop fuel g nodes visited).
Proof.
  revert visited. induction nodes as [|node nodes IH]; intros visited Hf Hinv Hall; simpl.
  - split; [done|]. intros [u Hu]. apply (si_acyclic _ _ _ Hinv u); [|done].
    destruct (Hall u) as [Hin|]; [|by apply not_elem_of_nil in Hin|done].
    by eapply tc_source.
  - case_decide as Hn.
    + pose proof (dfs_spec g fuel node visited [] Hf Hinv Hn) as Hpost.
      destruct (dfs fuel node g visited []) as [[[[] p] visited']|]; simpl in *.
      * apply Hpost. by intros [|i] a b; simpl.
      * destruct Hpost as (? & ? & ? & Hm); [by intros [|i] a b; simpl|].
        apply IH; [lia|done|].
        intros u Hu. destruct (Hall u Hu) as [[->|]%elem_of_cons|]; auto.
      * apply Hpost. by intros [|i] a b; simpl.
    + apply IH; [done..|]. intros u Hu.
      destruct (Hall u Hu) as [[->|]%elem_of_cons|]; auto.
      destruct (si_values _ _ _ Hinv _ Hu) as [?|[Hg|?]]; [done| |auto].
      apply (si_gray _ _ _ Hinv) in Hg. by apply not_elem_of_nil in Hg.
Qed.

Lemma init_inv g : search_inv g ((λ _, GraphNodeStatusNotVisited) <$> g) [].
Proof.
  assert (∀ u, status ((λ _, GraphNodeStatusNotVisited) <$> g) u =
    match g !! u with Some _ => GraphNodeStatusNotVisited | None => "" end) as Hst.
  { intros u. unfold status. rewrite lookup_fmap. by destruct (g !! u). }
  constructor.
  - intros u. by rewrite lookup_fmap, fmap_is_Some.
  - intros u. rewrite Hst, elem_of_nil. by destruct (g !! u).
  - intros u v. rewrite Hst. by destruct (g !! u).
  - intros u. rewrite Hst. by destruct (g !! u).
  - intros u [m Hm]. rewrite Hst, Hm. auto.
Qed.

Lemma HasCycle_fuel_spec g : loop_post g (HasCycle_fuel g).
Proof.
  unfold HasCycle_fuel. case_decide as Hs.
  - apply map_size_empty_iff in Hs as ->. split; [done|].
    intros [u [m Hm]%tc_source]. by rewrite lookup_empty in Hm.
  - apply HasCycle_loop_spec; [|apply init_inv|].
    + unfold white. rewrite <-(map_size_fmap (λ _, GraphNodeStatusNotVisited) g).
      apply map_size_filter.
    + intros u [m Hm]. left. apply list_elem_of_fmap. exists (u, m).
      split; [done|]. by apply elem_of_go_range.
Qed.

(** A closing chain is a cycle of the wait-for relation. *)
Lemma chain_tc g l x l2 y :
  wait_chain g (x :: l2 ++ y :: l) → tc (waits g) x y.
Proof.
  revert x. induction l2 as [|z l2 IH]; intros x Hc; simpl in Hc.
  - apply tc_once. by apply (Hc 0%nat).
  - eapply tc_l; [by apply (Hc 0%nat)|]. apply IH.
    intros i u v Hu Hv. by apply (Hc (S i)).
Qed.

Lemma closing_chain_cyclic g p : wait_chain g p → closes p → cyclic g.
Proof.
  intros Hc (l1 & x & l2 & ->). exists x. apply (chain_tc g [] x l2 x).
  intros i u v Hu Hv. apply (Hc (length l1 + i)%nat).
  - rewrite lookup_app_r by lia. by replace (length l1 + i - length l1)%nat with i by lia.
  - rewrite lookup_app_r by lia.
    by replace (S (length l1 + i) - length l1)%nat with (S i) by lia.
Qed.

Lemma HasCycle_iff g : (HasCycle g).1 = true ↔ cyclic g.
Proof.
  pose proof (HasCycle_fuel_spec g) as Hspec. unfold HasCycle.
  destruct (HasCycle_fuel g) as [[[] p]|]; simpl in *; [| |done]; destruct Hspec.
  - split; [|done]. intros _. by eapply closing_chain_cyclic.
  - by split.
Qed.

(** ** Properties *)

(** C39: the depth-first search always terminates within its fuel (one level
    per node of the graph), and it reports a cycle exactly when the
    wait-for relation has one, whatever the iteration order of the maps. *)
Theorem HasCycle_correct g :
  is_Some (HasCycle_fuel g) ∧ ((HasCycle g).1 = true ↔ cyclic g).
Proof.
  split; [|apply HasCycle_iff].
  pose proof (HasCycle_fuel_spec g) as Hspec. by destruct (HasCycle_fuel g) as [[[] p]|]; eauto.
Qed.

(** When [HasCycle] answers true, the path it returns is a chain of
    waiting nodes whose last node occurs before in the path: it ends with a
    cycle; when it answers false the path is empty. *)
Theorem HasCycle_path g b p :
  HasCycle g = (b, p) →
  (b = true → wait_chain g p ∧ closes p) ∧ (b = false → p = []).
Proof.
  pose proof (HasCycle_fuel_spec g) as Hspec. unfold HasCycle.
  destruct (HasCycle_fuel g) as [[[] p']|]; simpl in *; [| |done];
    intros [= <- <-]; naive_solver.
Qed.
End waitfor.

Definition two_cycle : Graph :=
  {[ 1%N := {[ 2%N := true ]}; 2%N := {[ 1%N := true ]} ]}.

Lemma HasCycle_path_witness :
  (true = true → wait_chain two_cycle [2%N; 1%N; 2%N] ∧ closes [2%N; 1%N; 2%N]) ∧
  (true = false → [2%N; 1%N; 2%N] = []).
Proof.
  apply (@HasCycle_path canonical_range two_cycle true [2%N; 1%N; 2%N]).
  vm_compute. reflexivity.
Defined.
