(* ===== verification/HashRing.v ===== *)
(** * Consistent hashing: [backend/dfs/hashing/hash.go]

    The ring of virtual nodes, its operations, and the placement theorems:
    which nodes a file goes to, that every replica list is duplicate free and
    as long as the cluster allows, and that the membership changes of the ring
    move only the files they have to move. *)

From S2P Require Import Prelude GoStd Hashes Types.

Definition DEFAULT_VIRTUAL_NODES : Z := 150.

Record HashRing := mkHashRing {
  hr_ring : list N;              (* sorted positions *)
  hr_nodeMap : gmap N uuid;      (* position -> node id *)
  hr_nodes : gmap uuid NodeInfo;
  hr_virtualNodes : Z }.

Definition NewHashRing (virtualNodes : Z) : HashRing :=
  let virtualNodes := if virtualNodes <=? 0 then DEFAULT_VIRTUAL_NODES else virtualNodes in
  mkHashRing [] ∅ ∅ virtualNodes.

Definition HashKey (key : string) : N := ChecksumIEEE (bytes_of key).

Section ring.
Context `{UuidText}.

Definition generateVirtualNodeKey (nodeID : uuid) (i : Z) : string :=
  uuid_String nodeID +:+ "#" +:+ itoa i.

(** The loop of [AddNode] over [i < virtualNodes]. *)
Fixpoint add_virtual (id : uuid) (ixs : list Z) (ring : list N) (nodeMap : gmap N uuid)
    : list N * gmap N uuid :=
  match ixs with
  | [] => (ring, nodeMap)
  | i :: ixs' =>
    let hash := HashKey (generateVirtualNodeKey id i) in
    add_virtual id ixs' (ring ++ [hash]) (<[hash := id]> nodeMap)
  end.

Definition virtual_indices (h : HashRing) : list Z :=
  Z.of_nat <$> seq 0 (Z.to_nat (hr_virtualNodes h)).

Definition AddNode (node : NodeInfo) (h : HashRing) : HashRing :=
  match hr_nodes h !! ni_ID node with
  | Some _ => h
  | None =>
    let '(ring, nodeMap) :=
      add_virtual (ni_ID node) (virtual_indices h) (hr_ring h) (hr_nodeMap h) in
    mkHashRing (SliceStable N.ltb ring) nodeMap (<[ni_ID node := node]> (hr_nodes h))
      (hr_virtualNodes h)
  end.

(** The loop of [RemoveNode]; [h.nodeMap[hash]] of a missing key is
    [uuid.Nil]. *)
Fixpoint remove_positions (id : uuid) (ring : list N) (nodeMap : gmap N uuid)
    : list N * gmap N uuid :=
  match ring with
  | [] => ([], nodeMap)
  | hash :: ring' =>
    if decide (default uuid_Nil (nodeMap !! hash) = id)
    then remove_positions id ring' (delete hash nodeMap)
    else let '(newRing, m) := remove_positions id ring' nodeMap in (hash :: newRing, m)
  end.

Definition RemoveNode (nodeID : uuid) (h : HashRing) : HashRing :=
  match hr_nodes h !! nodeID with
  | None => h
  | Some _ =>
    let '(ring, nodeMap) := remove_positions nodeID (hr_ring h) (hr_nodeMap h) in
    mkHashRing ring nodeMap (delete nodeID (hr_nodes h)) (hr_virtualNodes h)
  end.

(** The position the search of [FindNodesForFile] starts at. *)
Definition find_start (h : HashRing) (hash : N) : nat :=
  let idx := Search (length (hr_ring h)) (λ i, (hash <=? hr_ring h !!! i)%N) in
  if decide (idx = length (hr_ring h)) then 0%nat else idx.

(** Its loop over [i < len(ring)]. *)
Fixpoint find_walk (h : HashRing) (idx n : nat) (ixs : list nat) (seen : gset uuid)
    (result : list NodeInfo) : list NodeInfo :=
  match ixs with
  | [] => result
  | i :: ixs' =>
    if decide (length result < n)%nat then
      let pos := ((idx + i) mod length (hr_ring h))%nat in
      let nodeID := default uuid_Nil (hr_nodeMap h !! (hr_ring h !!! pos)) in
      if decide (nodeID ∈ seen) then find_walk h idx n ixs' seen result
      else
        match hr_nodes h !! nodeID with
        | Some node => find_walk h idx n ixs' ({[nodeID]} ∪ seen) (result ++ [node])
        | None => find_walk h idx n ixs' ({[nodeID]} ∪ seen) result
        end
    else result
  end.

(** The callers pass a constant [n]; a negative one would make [make] panic. *)
Definition FindNodesForFile (fileID : uuid) (n : nat) (h : HashRing) : list NodeInfo :=
  if decide (length (hr_ring h) = 0%nat) then []
  else
    let hash := HashKey (uuid_String fileID) in
    find_walk h (find_start h hash) n (seq 0 (length (hr_ring h))) ∅ [].

Definition GetNodeCount (h : HashRing) : Z := Z.of_nat (size (hr_nodes h)).

Definition GetAllNodes `{MapRange} (h : HashRing) : list NodeInfo :=
  (go_range (hr_nodes h)).*2.

(** ** The order in which the ring offers its nodes to a file *)

Definition owner (h : HashRing) (p : N) : uuid := default uuid_Nil (hr_nodeMap h !! p).

(** The first occurrence of every identifier that is not in [seen]. *)
Fixpoint firsts (seen : gset uuid) (l : list uuid) : list uuid :=
  match l with
  | [] => []
  | x :: l' =>
    if decide (x ∈ seen) then firsts seen l' else x :: firsts ({[x]} ∪ seen) l'
  end.

(** Clockwise from [hash]: the positions at or above it, then the others. *)
Definition clockwise (h : HashRing) (hash : N) : list N :=
  filter (λ p, hash ≤ p)%N (hr_ring h) ++ filter (λ p, ¬ hash ≤ p)%N (hr_ring h).

Definition preference (h : HashRing) (fileID : uuid) : list uuid :=
  firsts ∅ (owner h <$> clockwise h (HashKey (uuid_String fileID))).

(** ** Invariants *)

(** What holds of every ring the operations build. *)
Record ring_ok (h : HashRing) : Prop := {
  ok_sorted : ordered N.ltb (hr_ring h);
  ok_keys : ∀ id node, hr_nodes h !! id = Some node → ni_ID node = id;
  ok_virtual : 0 < hr_virtualNodes h }.

(** What holds as long as no two virtual nodes hash to the same position. *)
Record ring_wf (h : HashRing) : Prop := {
  wf_ok : ring_ok h;
  wf_nodup : NoDup (hr_ring h);
  wf_dom : ∀ p, is_Some (hr_nodeMap h !! p) ↔ p ∈ hr_ring h;
  wf_owner : ∀ p o, hr_nodeMap h !! p = Some o → is_Some (hr_nodes h !! o);
  wf_reach : ∀ o, is_Some (hr_nodes h !! o) → ∃ p, hr_nodeMap h !! p = Some o }.

Definition positions (h : HashRing) (id : uuid) : list N :=
  (λ i, HashKey (generateVirtualNodeKey id i)) <$> virtual_indices h.

(** [id]'s virtual nodes collide neither with each other nor with the ring. *)
Definition no_collision (h : HashRing) (id : uuid) : Prop :=
  NoDup (positions h id ++ hr_ring h).

#[export] Instance no_collision_dec h id : Decision (no_collision h id).
Proof. unfold no_collision. apply _. Defined.

(** ** Lists of first occurrences *)

Lemma elem_of_firsts seen l x : x ∈ firsts seen l ↔ x ∈ l ∧ x ∉ seen.
Proof.
  revert seen. induction l as [|y l IH]; intros seen; simpl; [set_solver|].
  case_decide.
  - rewrite IH, elem_of_cons. set_solver.
  - rewrite !elem_of_cons, IH. destruct (decide (x = y)); set_solver.
Qed.

Lemma NoDup_firsts seen l : NoDup (firsts seen l).
Proof.
  revert seen. induction l as [|y l IH]; intros seen; simpl; [constructor|].
  case_decide; [done|]. constructor; [rewrite elem_of_firsts; set_solver|done].
Qed.

Lemma firsts_filter (P : uuid → Prop) `{∀ x, Decision (P x)} seen l :
  firsts seen (filter P l) = filter P (firsts seen l).
Proof.
  assert (∀ s1 s2 l, (∀ x, P x → x ∈ s1 ↔ x ∈ s2) →
    firsts s1 (filter P l) = filter P (firsts s2 l)) as Hgen; [|by apply Hgen].
  clear seen l. intros s1 s2 l. revert s1 s2.
  induction l as [|y l IH]; intros s1 s2 Hs; [done|].
  rewrite filter_cons. simpl. destruct (decide (P y)) as [Hy|Hy]; simpl.
  - destruct (decide (y ∈ s1)) as [Hin|Hin]; destruct (decide (y ∈ s2)) as [Hin2|Hin2];
      try (exfalso; naive_solver).
    + by apply IH.
    + rewrite filter_cons, decide_True by done. f_equal. apply IH.
      intros x Hx. rewrite !elem_of_union, (Hs x Hx). done.
  - destruct (decide (y ∈ s2)); [by apply IH|].
    rewrite filter_cons, decide_False by done. apply IH.
    intros x Hx. rewrite elem_of_union, elem_of_singleton, (Hs x Hx). naive_solver.
Qed.

Lemma take_filter_ne (y : uuid) n l :
  y ∉ take n l → take n (filter (λ x, x ≠ y) l) = take n l.
Proof.
  revert n. induction l as [|x l IH]; intros [|n] Hy; try done.
  simpl in Hy. apply not_elem_of_cons in Hy as [Hne Hy].
  rewrite filter_cons, decide_True by done. simpl. by rewrite IH.
Qed.

(** ** The walk of [FindNodesForFile] *)

Lemma find_walk_spec h idx n ixs seen result :
  (length result ≤ n)%nat →
  find_walk h idx n ixs seen result =
  take n (result ++ omap (λ o, hr_nodes h !! o) (firsts seen
    ((λ i, owner h (hr_ring h !!! ((idx + i) mod length (hr_ring h))%nat)) <$> ixs))).
Proof.
  revert seen result. induction ixs as [|i ixs IH]; intros seen result Hle; simpl.
  - rewrite app_nil_r. by rewrite take_ge.
  - case_decide as Hlt; [|rewrite take_app_le, take_ge by lia; done].
    set (p := hr_ring h !!! ((idx + i) mod length (hr_ring h))%nat).
    change (default uuid_Nil (hr_nodeMap h !! p)) with (owner h p).
    case_decide as Hseen; [by apply IH|]. simpl.
    destruct (hr_nodes h !! owner h p) as [node|] eqn:E;
      rewrite IH by (rewrite ?length_app; simpl; lia); [by rewrite <-app_assoc|done].
Qed.

Lemma rotate_indices (ring : list N) idx :
  (idx < length ring)%nat →
  (λ i, ring !!! ((idx + i) mod length ring)%nat) <$> seq 0 (length ring) =
  drop idx ring ++ take idx ring.
Proof.
  intros Hidx. apply list_eq. intros i.
  destruct (decide (i < length ring)%nat) as [Hi|Hi].
  - rewrite list_lookup_fmap, lookup_seq_lt by done. simpl.
    destruct (decide (i < length ring - idx)%nat) as [Hlt|Hge].
    + rewrite lookup_app_l by (rewrite length_drop; lia).
      rewrite lookup_drop, Nat.mod_small by lia.
      symmetry. apply list_lookup_lookup_total_lt. lia.
    + rewrite lookup_app_r by (rewrite length_drop; lia).
      rewrite length_drop, lookup_take_lt by lia.
      replace ((idx + i) mod length ring)%nat with (i - (length ring - idx))%nat.
      * symmetry. apply list_lookup_lookup_total_lt. lia.
      * apply (Nat.mod_unique _ _ 1); lia.
  - rewrite !lookup_ge_None_2; [done| |].
    + rewrite length_app, length_drop, length_take. lia.
    + rewrite length_fmap, length_seq. lia.
Qed.

Lemma ordered_le ring i j a b :
  ordered N.ltb ring → (i ≤ j)%nat → ring !! i = Some a → ring !! j = Some b → (a ≤ b)%N.
Proof.
  intros Hs. revert i j. induction Hs as [|x l Hl IH Hx]; intros [|i] [|j] Hij Ha Hb;
    simpl in *; simplify_eq; try lia; try done.
  - rewrite Forall_forall in Hx. apply N.ltb_ge, Hx. by eapply list_elem_of_lookup_2.
  - eapply (IH i j); [lia|done|done].
Qed.

(** Binary search splits the sorted ring at the first position that is not
    below the hash. *)
Lemma search_split ring hash :
  ordered N.ltb ring →
  let idx := Search (length ring) (λ i, (hash <=? ring !!! i)%N) in
  (idx ≤ length ring)%nat ∧
  filter (λ p, hash ≤ p)%N ring = drop idx ring ∧
  filter (λ p, ¬ hash ≤ p)%N ring = take idx ring.
Proof.
  intros Hs. set (f := λ i, (hash <=? ring !!! i)%N). set (idx := Search _ f).
  destruct (Search_spec (length ring) f) as (Hle & Hlo & Hhi).
  { intros a b Hab Ha. unfold f in *. apply N.leb_le in Ha. apply N.leb_le.
    destruct (lookup_lt_is_Some_2 ring a) as [x Hx]; [lia|].
    destruct (lookup_lt_is_Some_2 ring b) as [y Hy]; [lia|].
    rewrite (list_lookup_total_correct _ _ _ Hx) in Ha.
    rewrite (list_lookup_total_correct _ _ _ Hy).
    pose proof (ordered_le ring a b x y Hs ltac:(lia) Hx Hy). lia. }
  fold idx in Hle, Hlo, Hhi.
  assert (∀ p, p ∈ take idx ring → ¬ (hash ≤ p)%N) as Hlow.
  { intros p [i [Hi Hlt]%lookup_take_Some]%list_elem_of_lookup.
    specialize (Hlo i Hlt). unfold f in Hlo. apply N.leb_gt in Hlo.
    rewrite (list_lookup_total_correct _ _ _ Hi) in Hlo. lia. }
  assert (∀ p, p ∈ drop idx ring → (hash ≤ p)%N) as Hhigh.
  { intros p [i Hi]%list_elem_of_lookup. rewrite lookup_drop in Hi.
    assert (idx < length ring)%nat as Hlt by (apply lookup_lt_Some in Hi; lia).
    destruct (lookup_lt_is_Some_2 ring idx Hlt) as [x Hx].
    specialize (Hhi Hlt). unfold f in Hhi. apply N.leb_le in Hhi.
    rewrite (list_lookup_total_correct _ _ _ Hx) in Hhi.
    pose proof (ordered_le ring idx (idx + i) x p Hs ltac:(lia) Hx Hi). lia. }
  split; [done|]. clearbody idx.
  split; rewrite <-(take_drop idx ring) at 1; rewrite filter_app.
  - rewrite filter_none by (intros p Hp; by apply Hlow).
    rewrite filter_all by (intros p Hp; by apply Hhigh). done.
  - rewrite filter_all by (intros p Hp; by apply Hlow).
    rewrite filter_none, app_nil_r; [done|].
    intros p Hp. specialize (Hhigh p Hp). lia.
Qed.

Lemma clockwise_rotation h hash :
  ordered N.ltb (hr_ring h) → hr_ring h ≠ [] →
  let idx := find_start h hash in
  (idx < length (hr_ring h))%nat ∧
  drop idx (hr_ring h) ++ take idx (hr_ring h) = clockwise h hash.
Proof.
  intros Hs Hne. destruct (search_split (hr_ring h) hash Hs) as (Hle & Hhi & Hlo).
  unfold clockwise, find_start. rewrite Hhi, Hlo.
  assert (length (hr_ring h) ≠ 0)%nat by (by destruct (hr_ring h)).
  case_decide as E; [|split; [lia|done]].
  rewrite E, drop_all, firstn_all, app_nil_l. simpl. rewrite app_nil_r. split; [lia|done].
Qed.

(** Every operation on a file's nodes follows its preference list. *)
Lemma FindNodesForFile_preference f n h :
  ring_ok h →
  FindNodesForFile f n h = take n (omap (λ o, hr_nodes h !! o) (preference h f)).
Proof.
  intros Hok. unfold FindNodesForFile, preference. case_decide as E.
  - apply nil_length_inv in E. unfold clockwise. rewrite E. by destruct n.
  - assert (hr_ring h ≠ []) as Hne by (by destruct (hr_ring h)).
    destruct (clockwise_rotation h (HashKey (uuid_String f)) (ok_sorted _ Hok) Hne)
      as (Hlt & Hrot).
    rewrite find_walk_spec by (simpl; lia). rewrite app_nil_l, <-Hrot.
    rewrite <-rotate_indices by done. by rewrite <-list_fmap_compose.
Qed.

(** ** The operations and the invariants *)

Lemma add_virtual_spec id ixs ring m :
  let ps := (λ i, HashKey (generateVirtualNodeKey id i)) <$> ixs in
  (add_virtual id ixs ring m).1 = ring ++ ps ∧
  ∀ p, (add_virtual id ixs ring m).2 !! p = if decide (p ∈ ps) then Some id else m !! p.
Proof.
  revert ring m. induction ixs as [|i ixs IH]; intros ring m; simpl.
  - split; [by rewrite app_nil_r|done].
  - set (x := HashKey _). destruct (IH (ring ++ [x]) (<[x:=id]> m)) as [-> Hm].
    split; [by rewrite <-app_assoc|]. intros p. rewrite Hm, lookup_insert.
    destruct (decide (p ∈ _ <$> ixs)) as [Hin|Hin].
    + by rewrite decide_True by (by right).
    + destruct (decide (x = p)) as [->|Hne].
      * by rewrite decide_True by left.
      * rewrite decide_False; [done|]. intros [?|?]%elem_of_cons; naive_solver.
Qed.

Lemma AddNode_new node h :
  hr_nodes h !! ni_ID node = None →
  let h' := AddNode node h in
  hr_ring h' = SliceStable N.ltb (hr_ring h ++ positions h (ni_ID node)) ∧
  (∀ p, hr_nodeMap h' !! p =
    if decide (p ∈ positions h (ni_ID node)) then Some (ni_ID node) else hr_nodeMap h !! p) ∧
  hr_nodes h' = <[ni_ID node := node]> (hr_nodes h) ∧
  hr_virtualNodes h' = hr_virtualNodes h.
Proof.
  intros Hnew. unfold AddNode. rewrite Hnew.
  pose proof (add_virtual_spec (ni_ID node) (virtual_indices h) (hr_ring h) (hr_nodeMap h))
    as [H1 H2].
  destruct (add_virtual _ _ _ _) as [ring m]. simpl in *. subst. done.
Qed.

Lemma remove_positions_spec id ring m :
  NoDup ring → (∀ p, p ∈ ring → is_Some (m !! p)) →
  (remove_positions id ring m).1 = filter (λ p, default uuid_Nil (m !! p) ≠ id) ring ∧
  ∀ p, (remove_positions id ring m).2 !! p =
    if decide (p ∈ ring ∧ m !! p = Some id) then None else m !! p.
Proof.
  intros Hnd. revert m. induction Hnd as [|x ring Hx Hnd IH]; intros m Hm.
  { split; [done|]. intros p. rewrite decide_False; [done|]. intros [?%not_elem_of_nil _]. done. }
  simpl. destruct (Hm x) as [o Ho]; [by left|]. rewrite filter_cons.
  case_decide as Hd.
  - rewrite Ho in Hd. simpl in Hd. subst o.
    destruct (IH (delete x m)) as [H1 H2].
    { intros p Hp. rewrite lookup_delete_ne by (by intros ->). apply Hm. by right. }
    split.
    + rewrite decide_False by (rewrite Ho; simpl; naive_solver). rewrite H1.
      apply filter_ext_elem. intros p Hp. rewrite lookup_delete_ne; [done|by intros ->].
    + intros p. rewrite H2. rewrite lookup_delete. destruct (decide (x = p)) as [->|Hne].
      * rewrite (decide_True (P := p ∈ p :: ring ∧ _)) by (split; [by left|done]).
        by case_decide.
      * apply decide_ext. rewrite elem_of_cons. naive_solver.
  - destruct (IH m) as [H1 H2]; [intros p Hp; apply Hm; by right|].
    destruct (remove_positions id ring m) as [ring' m']. simpl in *. split.
    + rewrite decide_True by done. by subst.
    + intros p. rewrite H2. apply decide_ext. rewrite elem_of_cons.
      rewrite Ho in Hd. simpl in Hd. split; [tauto|].
      intros [[->|?] Hp]; [|done]. rewrite Ho in Hp. by simplify_eq.
Qed.

Lemma RemoveNode_wf_eq id h :
  ring_wf h → is_Some (hr_nodes h !! id) →
  let h' := RemoveNode id h in
  hr_ring h' = filter (λ p, owner h p ≠ id) (hr_ring h) ∧
  (∀ p, hr_nodeMap h' !! p =
    if decide (hr_nodeMap h !! p = Some id) then None else hr_nodeMap h !! p) ∧
  hr_nodes h' = delete id (hr_nodes h) ∧ hr_virtualNodes h' = hr_virtualNodes h.
Proof.
  intros Hwf [node Hid]. unfold RemoveNode. rewrite Hid.
  destruct (remove_positions_spec id (hr_ring h) (hr_nodeMap h) (wf_nodup _ Hwf)) as [H1 H2].
  { intros p. by apply wf_dom. }
  destruct (remove_positions _ _ _) as [ring m]. simpl in *. split_and!; try done.
  intros p. rewrite H2. apply decide_ext. split; [tauto|].
  intros Hp. split; [|done]. apply (wf_dom _ Hwf). by rewrite Hp.
Qed.

Lemma owner_some h p o :
  ring_wf h → p ∈ hr_ring h → owner h p = o → hr_nodeMap h !! p = Some o.
Proof.
  intros Hwf Hp <-. apply (wf_dom _ Hwf) in Hp as [o Ho]. unfold owner. by rewrite Ho.
Qed.

Lemma ordered_filter (P : N → Prop) `{∀ x, Decision (P x)} l :
  ordered N.ltb l → ordered N.ltb (filter P l).
Proof.
  unfold ordered. induction 1 as [|x l Hl IH Hx]; [constructor|].
  rewrite filter_cons. case_decide; [|done]. constructor; [done|].
  rewrite Forall_forall in *. intros y [_ Hy]%list_elem_of_filter. auto.
Qed.

Lemma ordered_sorted l : ordered N.ltb (SliceStable N.ltb l).
Proof.
  apply SliceStable_ordered.
  - intros x y. rewrite N.ltb_lt, N.ltb_ge. lia.
  - intros x y z. rewrite !N.ltb_ge. lia.
Qed.

Lemma NewHashRing_wf vn : ring_wf (NewHashRing vn).
Proof.
  unfold NewHashRing. constructor; simpl.
  - constructor; simpl; [constructor| |].
    + intros id node Hn. by rewrite lookup_empty in Hn.
    + unfold DEFAULT_VIRTUAL_NODES. destruct (Z.leb_spec vn 0); lia.
  - constructor.
  - intros p. rewrite lookup_empty, elem_of_nil. split; [by intros [??]|done].
  - intros p o Hp. by rewrite lookup_empty in Hp.
  - intros o [? Ho]. by rewrite lookup_empty in Ho.
Qed.

Lemma AddNode_ok node h : ring_ok h → ring_ok (AddNode node h).
Proof.
  intros Hok. destruct (hr_nodes h !! ni_ID node) as [x|] eqn:E.
  { unfold AddNode. by rewrite E. }
  destruct (AddNode_new node h E) as (H1 & H2 & H3 & H4). constructor.
  - rewrite H1. apply ordered_sorted.
  - intros id n. rewrite H3, lookup_insert. case_decide; [naive_solver|].
    by apply (ok_keys _ Hok).
  - rewrite H4. apply (ok_virtual _ Hok).
Qed.

Lemma remove_positions_sub id ring m :
  ordered N.ltb ring →
  ordered N.ltb (remove_positions id ring m).1 ∧
  ∀ p, p ∈ (remove_positions id ring m).1 → p ∈ ring.
Proof.
  intros Ho. revert m. induction Ho as [|x ring Hr IH Hx]; intros m; [by split; [constructor|]|].
  simpl. case_decide.
  - destruct (IH (delete x m)) as [? ?]. split; [done|]. intros p Hp. right. auto.
  - destruct (IH m) as [H1 H2]. destruct (remove_positions id ring m) as [r m']. simpl in *.
    split; [|set_solver]. constructor; [done|]. rewrite Forall_forall in *. auto.
Qed.

Lemma RemoveNode_ok id h : ring_ok h → ring_ok (RemoveNode id h).
Proof.
  intros Hok. unfold RemoveNode. destruct (hr_nodes h !! id); [|done].
  pose proof (remove_positions_sub id (hr_ring h) (hr_nodeMap h) (ok_sorted _ Hok)) as [? _].
  destruct (remove_positions _ _ _) as [r m]. simpl in *. constructor; simpl; [done| |].
  - intros i nd [_ Hn]%lookup_delete_Some. by apply (ok_keys _ Hok).
  - apply (ok_virtual _ Hok).
Qed.

Lemma elem_of_virtual_indices h : 0 < hr_virtualNodes h → 0 ∈ virtual_indices h.
Proof.
  intros Hv. unfold virtual_indices. apply list_elem_of_fmap. exists 0%nat.
  split; [done|]. apply elem_of_seq. lia.
Qed.

Lemma AddNode_wf node h :
  ring_wf h → no_collision h (ni_ID node) → ring_wf (AddNode node h).
Proof.
  intros Hwf Hnc. destruct (hr_nodes h !! ni_ID node) as [x|] eqn:E.
  { unfold AddNode. by rewrite E. }
  pose proof (AddNode_new node h E) as (H1 & H2 & H3 & H4).
  apply NoDup_app in Hnc as (Hnd & Hdis & _).
  constructor.
  - apply AddNode_ok, Hwf.
  - rewrite H1, SliceStable_perm, (comm app). apply NoDup_app. split_and!; [done|done|apply Hwf].
  - intros p. rewrite H2, H1, elem_of_SliceStable, elem_of_app, <-(wf_dom _ Hwf).
    case_decide; naive_solver.
  - intros p o. rewrite H2, H3, lookup_insert_is_Some. case_decide; [naive_solver|].
    intros Hp%(wf_owner _ Hwf). destruct (decide (ni_ID node = o)); auto.
  - intros o. rewrite H3, lookup_insert_is_Some. intros [<-|[Hne Ho]].
    + exists (HashKey (generateVirtualNodeKey (ni_ID node) 0)). rewrite H2.
      rewrite decide_True; [done|]. apply list_elem_of_fmap. exists 0.
      split; [done|]. apply elem_of_virtual_indices, Hwf.
    + destruct (wf_reach _ Hwf o Ho) as [p Hp]. exists p. rewrite H2, decide_False; [done|].
      intros Hin. apply (Hdis p Hin). apply (wf_dom _ Hwf). by rewrite Hp.
Qed.

Lemma RemoveNode_wf id h : ring_wf h → ring_wf (RemoveNode id h).
Proof.
  intros Hwf. destruct (hr_nodes h !! id) as [x|] eqn:E; [|unfold RemoveNode; by rewrite E].
  destruct (RemoveNode_wf_eq id h Hwf) as (H1 & H2 & H3 & H4); [by rewrite E|].
  constructor.
  - apply RemoveNode_ok, Hwf.
  - rewrite H1. apply NoDup_filter, Hwf.
  - intros p. rewrite H2, H1, list_elem_of_filter, <-(wf_dom _ Hwf). unfold owner.
    destruct (hr_nodeMap h !! p) as [o|] eqn:Ep; simpl.
    + case_decide as Hd; [simplify_eq; split; [by intros []|naive_solver]|].
      split; [|eauto]. intros _. split; [by intros ->|eauto].
    + split; [by intros []|by intros [_ []]].
  - intros p o. rewrite H2, H3. case_decide as Hd; [done|]. intros Hp.
    rewrite lookup_delete_ne by congruence. by eapply wf_owner.
  - intros o. rewrite H3. intros [n [Hne Hn]%lookup_delete_Some].
    destruct (wf_reach _ Hwf o) as [p Hp]; [by rewrite Hn|]. exists p.
    rewrite H2, Hp, decide_False; [done|congruence].
Qed.

(** On a well-formed ring the preference list of a file holds exactly the
    registered nodes. *)
Lemma elem_of_preference h f o :
  ring_wf h → o ∈ preference h f ↔ is_Some (hr_nodes h !! o).
Proof.
  intros Hwf. unfold preference, clockwise. rewrite elem_of_firsts.
  rewrite list_elem_of_fmap. split.
  - intros [(p & -> & Hp) _].
    assert (p ∈ hr_ring h) as Hin
      by (apply elem_of_app in Hp as [Hp|Hp]; by apply list_elem_of_filter in Hp as [_ Hp]).
    eapply (wf_owner _ Hwf p). by apply owner_some.
  - intros Ho. split; [|set_solver]. destruct (wf_reach _ Hwf o Ho) as [p Hp].
    exists p. split; [unfold owner; by rewrite Hp|].
    assert (p ∈ hr_ring h) by (apply (wf_dom _ Hwf); by rewrite Hp).
    rewrite elem_of_app, !list_elem_of_filter.
    destruct (decide (HashKey (uuid_String f) ≤ p)%N); tauto.
Qed.

Lemma omap_lookup_ids (m : gmap uuid NodeInfo) (l : list uuid) :
  (∀ o, o ∈ l → is_Some (m !! o)) →
  (∀ id node, m !! id = Some node → ni_ID node = id) →
  ni_ID <$> omap (λ o, m !! o) l = l.
Proof.
  intros Hl Hk. induction l as [|x l IH]; [done|]. csimpl.
  destruct (Hl x) as [node Hn]; [by left|]. rewrite Hn. csimpl.
  rewrite (Hk _ _ Hn), IH; [done|]. intros o Ho. apply Hl. by right.
Qed.

Lemma NoDup_omap_lookup (m : gmap uuid NodeInfo) (l : list uuid) :
  (∀ id node, m !! id = Some node → ni_ID node = id) →
  NoDup l → NoDup (ni_ID <$> omap (λ o, m !! o) l) ∧
  (∀ node, node ∈ omap (λ o, m !! o) l → m !! ni_ID node = Some node ∧ ni_ID node ∈ l).
Proof.
  intros Hk. induction 1 as [|x l Hx Hnd IH]; [split; [constructor|set_solver]|]. csimpl.
  destruct IH as [IH1 IH2]. destruct (m !! x) as [node|] eqn:E; csimpl.
  - pose proof (Hk _ _ E) as Hid. split.
    + constructor; [|done]. rewrite Hid. intros (nd & Hn & Hin)%list_elem_of_fmap.
      destruct (IH2 nd Hin). congruence.
    + intros nd [->|Hin]%elem_of_cons.
      * rewrite Hid. split; [done|by left].
      * destruct (IH2 nd Hin). split; [done|by right].
  - split; [done|]. intros nd Hin. destruct (IH2 nd Hin). split; [done|by right].
Qed.

Lemma ids_of_find f n h :
  ring_wf h → ni_ID <$> FindNodesForFile f n h = take n (preference h f).
Proof.
  intros Hwf. rewrite FindNodesForFile_preference by apply Hwf.
  rewrite fmap_take, omap_lookup_ids; [done| |apply Hwf].
  intros o Ho. by apply (elem_of_preference h f) in Ho.
Qed.

Lemma length_preference h f : ring_wf h → length (preference h f) = size (hr_nodes h).
Proof.
  intros Hwf. rewrite <-(size_dom (hr_nodes h)).
  assert (dom (hr_nodes h) = list_to_set (preference h f)) as ->.
  { apply set_eq. intros o.
    by rewrite elem_of_list_to_set, elem_of_dom, (elem_of_preference h f). }
  symmetry. apply size_list_to_set. apply NoDup_firsts.
Qed.

Lemma clockwise_filter h h' (P : N → Prop) `{∀ p, Decision (P p)} hash :
  hr_ring h' = filter P (hr_ring h) →
  clockwise h' hash = filter P (clockwise h hash).
Proof.
  intros Hr. unfold clockwise. rewrite Hr, filter_app.
  by rewrite !(filter_filter_comm _ P).
Qed.

Lemma preference_remove id h f :
  ring_wf h → is_Some (hr_nodes h !! id) →
  preference (RemoveNode id h) f = filter (λ o, o ≠ id) (preference h f).
Proof.
  intros Hwf Hid. destruct (RemoveNode_wf_eq id h Hwf Hid) as (H1 & H2 & _ & _).
  unfold preference. rewrite (clockwise_filter _ _ _ _ H1).
  rewrite <-firsts_filter, filter_fmap. f_equal. apply list_fmap_ext.
  intros i p Hp. unfold owner at 1. rewrite H2.
  apply list_elem_of_lookup_2, list_elem_of_filter in Hp as [Hne _].
  rewrite decide_False; [done|]. unfold owner in Hne. intros E. by rewrite E in Hne.
Qed.

Lemma omap_delete (m : gmap uuid NodeInfo) id (l : list uuid) :
  id ∉ l → omap (λ o, delete id m !! o) l = omap (λ o, m !! o) l.
Proof.
  intros Hid. induction l as [|x l IH]; [done|]. csimpl.
  apply not_elem_of_cons in Hid as [Hne Hid]. by rewrite lookup_delete_ne, IH.
Qed.

#[local] Instance ring_order_antisym : AntiSymm (=) (λ x y, (y <? x)%N = false).
Proof. intros x y. rewrite !N.ltb_ge. lia. Qed.

Lemma AddNode_RemoveNode_eq node h :
  ring_wf h → no_collision h (ni_ID node) → hr_nodes h !! ni_ID node = None →
  RemoveNode (ni_ID node) (AddNode node h) = h.
Proof.
  intros Hwf Hnc Hnew. pose proof (AddNode_wf node h Hwf Hnc) as Hwf'.
  pose proof (AddNode_new node h Hnew) as (A1 & A2 & A3 & A4).
  set (id := ni_ID node) in *. set (h' := AddNode node h) in *.
  assert (is_Some (hr_nodes h' !! id)) as Hid by (rewrite A3, lookup_insert_eq; eauto).
  pose proof (RemoveNode_wf_eq id h' Hwf' Hid) as (R1 & R2 & R3 & R4).
  assert (∀ p, hr_nodeMap h' !! p = Some id ↔ p ∈ positions h id) as Hpos.
  { intros p. rewrite A2. case_decide; [done|]. split; [|done].
    intros Hp%(wf_owner _ Hwf). rewrite Hnew in Hp. by destruct Hp. }
  apply NoDup_app in Hnc as (_ & Hdis & _).
  destruct (RemoveNode id h') as [ring m nodes vn] eqn:E. simpl in *. subst nodes vn.
  assert (ring = hr_ring h) as ->.
  { apply (StronglySorted_unique (λ x y, (y <? x)%N = false)).
    - subst. apply ordered_filter. rewrite A1. apply ordered_sorted.
    - apply (ok_sorted _ (wf_ok _ Hwf)).
    - subst ring. rewrite A1, SliceStable_perm, filter_app.
      rewrite filter_all, filter_none, app_nil_r; [done| |].
      + intros p Hp%Hpos. unfold owner. rewrite Hp. naive_solver.
      + intros p Hp Ho. apply (Hdis p); [|done]. apply Hpos.
        apply owner_some; [done| |done].
        rewrite A1, elem_of_SliceStable. set_solver. }
  assert (m = hr_nodeMap h) as ->.
  { apply map_eq. intros p. rewrite R2. case_decide as Hd.
    - apply Hpos in Hd. destruct (hr_nodeMap h !! p) eqn:Ep; [|done].
      exfalso. apply (Hdis p Hd). apply (wf_dom _ Hwf). by rewrite Ep.
    - rewrite A2, decide_False; [done|]. by rewrite <-Hpos. }
  rewrite A3, A4, delete_insert_id by done. by destruct h.
Qed.

(** ** Properties *)

(** C34: on every ring, collisions of virtual nodes included, a file gets at
    most [n] nodes, all registered, no two with the same identifier, and the
    answer is the clockwise walk of the ring from the file's hash: binary
    search and wrap-around compute the preference list. *)
Theorem FindNodesForFile_sound f n h :
  ring_ok h →
  FindNodesForFile f n h = take n (omap (λ o, hr_nodes h !! o) (preference h f)) ∧
  (length (FindNodesForFile f n h) ≤ n)%nat ∧
  NoDup (ni_ID <$> FindNodesForFile f n h) ∧
  (∀ node, node ∈ FindNodesForFile f n h → hr_nodes h !! ni_ID node = Some node).
Proof.
  intros Hok. rewrite FindNodesForFile_preference by done.
  destruct (NoDup_omap_lookup (hr_nodes h) (preference h f) (ok_keys _ Hok)) as [H1 H2].
  { apply NoDup_firsts. }
  split_and!; [done|rewrite length_take; lia| |].
  - rewrite fmap_take. by eapply sublist_NoDup; [|apply sublist_take].
  - intros node Hn. apply H2. eapply elem_of_subseteq; [apply subseteq_take|done].
Qed.

(** Without collisions every file gets as many distinct nodes as it asks
    for, or every node of the cluster when there are fewer. *)
Theorem FindNodesForFile_complete f n h :
  ring_wf h →
  length (FindNodesForFile f n h) = (n `min` size (hr_nodes h))%nat.
Proof.
  intros Hwf. rewrite <-(length_fmap ni_ID), ids_of_find by done.
  by rewrite length_take, length_preference.
Qed.

Lemma take_omap_some (m : gmap uuid NodeInfo) n (l : list uuid) :
  (∀ o, o ∈ l → is_Some (m !! o)) →
  take n (omap (λ o, m !! o) l) = omap (λ o, m !! o) (take n l).
Proof.
  revert n. induction l as [|x l IH]; intros [|n] Hl; try done. csimpl.
  destruct (Hl x) as [node Hn]; [by left|]. rewrite Hn. csimpl.
  rewrite IH; [done|]. intros o Ho. apply Hl. by right.
Qed.

Lemma RemoveNode_stable_eq id f n h :
  ring_wf h →
  id ∉ (ni_ID <$> FindNodesForFile f n h) →
  FindNodesForFile f n (RemoveNode id h) = FindNodesForFile f n h.
Proof.
  intros Hwf Hid. destruct (hr_nodes h !! id) as [node|] eqn:E;
    [|unfold RemoveNode; by rewrite E].
  assert (is_Some (hr_nodes h !! id)) as Hs by eauto.
  rewrite ids_of_find in Hid by done.
  rewrite !FindNodesForFile_preference by (try apply RemoveNode_ok; apply Hwf).
  destruct (RemoveNode_wf_eq id h Hwf Hs) as (_ & _ & -> & _).
  rewrite preference_remove, omap_delete by (done || (rewrite list_elem_of_filter; naive_solver)).
  rewrite !take_omap_some, take_filter_ne; [done|done| |].
  - intros o. by apply elem_of_preference.
  - intros o [_ Ho]%list_elem_of_filter. by apply (elem_of_preference h f).
Qed.

(** C35: on a well-formed ring, in which no two nodes have a virtual node at the
    same position, removing a node leaves the nodes of every file it did not
    serve exactly as they were. *)
Theorem RemoveNode_stable id f n h :
  ring_wf h →
  id ∉ (ni_ID <$> FindNodesForFile f n h) →
  FindNodesForFile f n (RemoveNode id h) = FindNodesForFile f n h.
Proof. apply RemoveNode_stable_eq. Qed.

(** Adding a node and removing it again restores the ring exactly:
    positions, owners and members. *)
Theorem AddNode_RemoveNode node h :
  ring_wf h → no_collision h (ni_ID node) → hr_nodes h !! ni_ID node = None →
  RemoveNode (ni_ID node) (AddNode node h) = h.
Proof. apply AddNode_RemoveNode_eq. Qed.

(** C37: adding a node, whose virtual nodes collide with none of a well-formed
    ring, moves a file only if the new node serves it: any file whose nodes do
    not include the new one keeps its nodes, in their order. *)
Theorem AddNode_minimal node f n h :
  ring_wf h → no_collision h (ni_ID node) → hr_nodes h !! ni_ID node = None →
  ni_ID node ∉ (ni_ID <$> FindNodesForFile f n (AddNode node h)) →
  FindNodesForFile f n (AddNode node h) = FindNodesForFile f n h.
Proof.
  intros Hwf Hnc Hnew Hnot. symmetry.
  rewrite <-(AddNode_RemoveNode_eq node h) at 1 by done.
  apply RemoveNode_stable_eq; [by apply AddNode_wf|done].
Qed.

(** The rings a master can reach without a collision of virtual nodes. *)
Inductive ring_reachable : HashRing → Prop :=
| rr_new vn : ring_reachable (NewHashRing vn)
| rr_add node h : ring_reachable h → no_collision h (ni_ID node) →
    ring_reachable (AddNode node h)
| rr_remove id h : ring_reachable h → ring_reachable (RemoveNode id h).

Lemma reachable_wf h : ring_reachable h → ring_wf h.
Proof.
  induction 1; [apply NewHashRing_wf|by apply AddNode_wf|by apply RemoveNode_wf].
Qed.
End ring.

(** ** A concrete ring *)

#[local] Existing Instance decimal_uuids.

Definition example_node (id : uuid) : NodeInfo :=
  mkNodeInfo id "10.0.0.1" 9000 RoleStorage StatusOnline 1 0.

Definition example_ring : HashRing :=
  AddNode (example_node 2)
    (AddNode (example_node 1) (NewHashRing 2)).

Lemma example_reachable : ring_reachable example_ring.
Proof.
  unfold example_ring. apply rr_add; [apply rr_add; [apply rr_new|]|].
  - by apply (bool_decide_unpack (no_collision _ _)); vm_compute.
  - by apply (bool_decide_unpack (no_collision _ _)); vm_compute.
Qed.

Lemma example_no_collision_3 : no_collision example_ring 3%N.
Proof. by apply (bool_decide_unpack (no_collision _ _)); vm_compute. Qed.

Lemma FindNodesForFile_sound_witness :
  (length (FindNodesForFile 7%N 1 example_ring) ≤ 1)%nat.
Proof.
  apply (FindNodesForFile_sound 7%N 1 example_ring).
  apply wf_ok, reachable_wf, example_reachable.
Defined.

Lemma FindNodesForFile_complete_witness :
  length (FindNodesForFile 7%N 3 example_ring) = 2%nat.
Proof.
  apply (FindNodesForFile_complete 7%N 3 example_ring).
  apply reachable_wf, example_reachable.
Defined.

Lemma RemoveNode_stable_witness :
  ∃ id, FindNodesForFile 7%N 1 (RemoveNode id example_ring) =
    FindNodesForFile 7%N 1 example_ring.
Proof.
  exists 2%N.
  apply (RemoveNode_stable 2%N 7%N 1 example_ring).
  - apply reachable_wf, example_reachable.
  - apply (bool_decide_unpack (2%N ∉ _)). vm_compute. exact I.
Defined.

Lemma AddNode_RemoveNode_witness :
  RemoveNode 3%N (AddNode (example_node 3) example_ring) =
  example_ring.
Proof.
  apply (AddNode_RemoveNode (example_node 3) example_ring).
  - apply reachable_wf, example_reachable.
  - apply example_no_collision_3.
  - vm_compute. reflexivity.
Defined.

Lemma AddNode_minimal_witness :
  ∃ f, FindNodesForFile f 1 (AddNode (example_node 3) example_ring) =
    FindNodesForFile f 1 example_ring.
Proof.
  exists 7%N.
  apply (AddNode_minimal (example_node 3) 7%N 1 example_ring).
  - apply reachable_wf, example_reachable.
  - apply example_no_collision_3.
  - vm_compute. reflexivity.
  - apply (bool_decide_unpack (3%N ∉ _)). vm_compute. exact I.
Defined.
