(* ===== verification/Protocol.v ===== *)
(** * The binary streaming protocol: [backend/dfs/streaming/protocol.go]

    The 64-byte stream header and the download request: encoders that fill a
    fixed buffer, decoders that read from a byte stream, and the round trips.
    A reader is the list of bytes it still delivers before end of file. *)

From S2P Require Import Prelude GoStd Hashes.

(** ** Buffers and readers *)

(** [copy(buf[lo:hi], src)] *)
Definition copy_slice (buf : list byte) (lo hi : nat) (src : list byte) : list byte :=
  let n := ((hi - lo) `min` length src)%nat in
  take lo buf ++ take n src ++ drop (lo + n) buf.

(** [buf[lo:hi]] *)
Definition slice {A} (lo hi : nat) (buf : list A) : list A := take (hi - lo) (drop lo buf).

Definition zeros (n : nat) : list byte := replicate n x00.

(** [io.ReadFull(r, buf)] for a buffer of [n] bytes: an error when the stream
    ends first. *)
Definition ReadFull (n : nat) (r : list byte) : option (list byte) * list byte :=
  if decide (n ≤ length r)%nat then (Some (take n r), drop n r) else (None, []).

(** [binary.BigEndian] *)
Definition PutUint (k : nat) (z : Z) : list byte := be_bytes k (Z.to_N z).
Definition GetUint (l : list byte) : Z := Z.of_N (be_N l 0).

(** ** The protocol *)

Definition HeaderSize : nat := 64.
Definition DefaultChunkSize : Z := 4 * 1024 * 1024.
Definition StreamPortOffset : Z := 100.
Definition MagicUpload : byte := x01.
Definition MagicDownload : byte := x02.

Record StreamHeader := mkStreamHeader {
  sh_Magic : byte;
  sh_SessionID : string;
  sh_FileSize : Z;
  sh_ChunkSize : Z }.

(** The bytes [StreamHeader.Encode] hands to [w.Write]. *)
Definition StreamHeader_Encode (h : StreamHeader) : list byte :=
  let buf := zeros HeaderSize in
  let buf := copy_slice buf 0 1 [sh_Magic h] in
  let sessionBytes := bytes_of (sh_SessionID h) in
  let sessionBytes :=
    if decide (36 < length sessionBytes)%nat then take 36 sessionBytes else sessionBytes in
  let buf := copy_slice buf 1 37 sessionBytes in
  let buf := copy_slice buf 37 45 (PutUint 8 (uint64 (sh_FileSize h))) in
  let buf := copy_slice buf 45 49 (PutUint 4 (uint32 (sh_ChunkSize h))) in
  buf.

(** [trimNull] scans from the end for the last byte that is not zero. *)
Fixpoint trim_rev (l : list byte) : list byte :=
  match l with
  | [] => []
  | b :: l' => if decide (b = x00) then trim_rev l' else l
  end.

Definition trimNull (b : list byte) : list byte := rev (trim_rev (rev b)).

Inductive DecodeError := ErrRead | ErrMagic (b : byte).

Definition nth_byte (i : nat) (buf : list byte) : byte := nth i buf x00.

Definition parse_header (buf : list byte) : StreamHeader :=
  mkStreamHeader (nth_byte 0 buf) (string_of (trimNull (slice 1 37 buf)))
    (int64 (GetUint (slice 37 45 buf))) (int32 (GetUint (slice 45 49 buf))).

Definition DecodeHeader (r : list byte) : (DecodeError + StreamHeader) * list byte :=
  match ReadFull HeaderSize r with
  | (None, r') => (inl ErrRead, r')
  | (Some buf, r') =>
    let header := parse_header buf in
    if decide (sh_Magic header ≠ MagicUpload ∧ sh_Magic header ≠ MagicDownload)
    then (inl (ErrMagic (sh_Magic header)), r')
    else (inr header, r')
  end.

Record DownloadRequest := mkDownloadRequest { dr_Hash : string }.

Definition DownloadRequestSize : nat := 65.

Definition DownloadRequest_Encode (r : DownloadRequest) : list byte :=
  let buf := zeros DownloadRequestSize in
  let buf := copy_slice buf 0 1 [MagicDownload] in
  copy_slice buf 1 65 (bytes_of (dr_Hash r)).

Definition DecodeDownloadRequest (r : list byte)
    : (DecodeError + DownloadRequest) * list byte :=
  match ReadFull DownloadRequestSize r with
  | (None, r') => (inl ErrRead, r')
  | (Some buf, r') =>
    if decide (nth_byte 0 buf ≠ MagicDownload) then (inl (ErrMagic (nth_byte 0 buf)), r')
    else (inr (mkDownloadRequest (string_of (trimNull (slice 1 65 buf)))), r')
  end.

(** ** Helper lemmas *)

Lemma length_copy_slice buf lo hi src :
  (lo ≤ hi ≤ length buf)%nat → length (copy_slice buf lo hi src) = length buf.
Proof.
  intros H. unfold copy_slice.
  rewrite !length_app, !length_take, length_drop. lia.
Qed.

Lemma length_PutUint k z : length (PutUint k z) = k.
Proof. apply length_be_bytes. Qed.

Lemma be_N_acc l acc : be_N l acc = (acc * 256 ^ N.of_nat (length l) + be_N l 0)%N.
Proof.
  revert acc. induction l as [|b l IH]; intros acc; [simpl; lia|].
  cbn [be_N length]. rewrite IH, (IH (0 * 256 + byte_N b)%N).
  rewrite Nat2N.inj_succ, N.pow_succ_r'. lia.
Qed.

Lemma be_N_be_bytes k n : be_N (be_bytes k n) 0 = (n mod 256 ^ N.of_nat k)%N.
Proof.
  induction k as [|k IH]; [simpl; by rewrite N.mod_1_r|].
  cbn [be_bytes be_N]. rewrite be_N_acc, IH, length_be_bytes, byte_N_byte.
  rewrite N.shiftr_div_pow2, Nat2N.inj_succ, N.pow_succ_r', N.mul_comm.
  replace (2 ^ (8 * N.of_nat k))%N with (256 ^ N.of_nat k)%N
    by (change 256%N with (2 ^ 8)%N; by rewrite <-N.pow_mul_r).
  rewrite (N.mul_comm 256 (256 ^ _)), N.Div0.mod_mul_r. lia.
Qed.

Lemma GetUint_PutUint k z :
  0 <= z < 256 ^ Z.of_nat k → GetUint (PutUint k z) = z.
Proof.
  intros Hz. unfold GetUint, PutUint. rewrite be_N_be_bytes, N.mod_small; [lia|].
  apply N2Z.inj_lt. rewrite N2Z.inj_pow, Z2N.id by lia. rewrite nat_N_Z. lia.
Qed.

Lemma trim_rev_zeros n l : trim_rev (zeros n ++ l) = trim_rev l.
Proof. unfold zeros. induction n as [|n IH]; [done|]. simpl. by rewrite IH. Qed.

Lemma rev_zeros n : rev (zeros n) = zeros n.
Proof. unfold zeros. rewrite rev_alt. apply reverse_replicate. Qed.

(** A byte string that does not end in a zero byte. *)
Definition no_trailing_nul (l : list byte) : Prop := last l ≠ Some x00.

#[export] Instance no_trailing_nul_dec l : Decision (no_trailing_nul l).
Proof. unfold no_trailing_nul. apply _. Defined.

Lemma trimNull_pad l n : no_trailing_nul l → trimNull (l ++ zeros n) = l.
Proof.
  intros Hl. unfold trimNull. rewrite rev_app_distr, rev_zeros, trim_rev_zeros.
  assert (trim_rev (rev l) = rev l) as ->; [|by rewrite rev_involutive].
  unfold no_trailing_nul in Hl. destruct l as [|b l _] using rev_ind; [done|].
  rewrite last_snoc in Hl. rewrite rev_app_distr. simpl. rewrite decide_False; congruence.
Qed.

(** What [trimNull] returns never ends in a zero byte, and differs from its
    argument only by zero bytes at the end. *)
Lemma trimNull_spec l :
  no_trailing_nul (trimNull l) ∧ ∃ n, l = trimNull l ++ zeros n.
Proof.
  unfold trimNull, no_trailing_nul.
  assert (∀ k, last (rev (trim_rev k)) ≠ Some x00 ∧ ∃ n, k = zeros n ++ trim_rev k) as Hk.
  { induction k as [|b k [IH1 [n IH2]]]; [split; [done|by exists 0%nat]|]. simpl.
    case_decide as Hb; [subst b; split; [done|]; exists (S n); simpl; by f_equal|].
    split; [simpl; rewrite last_snoc; congruence|by exists 0%nat]. }
  destruct (Hk (rev l)) as [H1 [n H2]]. split; [done|]. exists n.
  apply (f_equal (@rev byte)) in H2. rewrite rev_involutive, rev_app_distr in H2.
  by rewrite rev_zeros in H2.
Qed.

Lemma copy_slice_app a b c src :
  (length src ≤ length b)%nat →
  copy_slice (a ++ b ++ c) (length a) (length a + length b) src =
  a ++ src ++ drop (length src) b ++ c.
Proof.
  intros H. unfold copy_slice. rewrite Nat.min_r by lia.
  rewrite take_app_length, (take_ge src) by lia.
  rewrite drop_app_ge by lia. f_equal. f_equal.
  replace (length a + length src - length a)%nat with (length src) by lia.
  by rewrite drop_app_le by lia.
Qed.

Lemma copy_slice_fill a n c lo hi src :
  length a = lo → (hi = lo + n)%nat → (length src ≤ n)%nat →
  copy_slice (a ++ zeros n ++ c) lo hi src = (a ++ src ++ zeros (n - length src)) ++ c.
Proof.
  intros <- -> H. pose proof (length_replicate n x00) as Hn.
  rewrite <-Hn at 2. rewrite copy_slice_app by (unfold zeros; lia).
  unfold zeros. rewrite drop_replicate. by rewrite !app_assoc.
Qed.

Lemma zeros_split n m : zeros (n + m) = zeros n ++ zeros m.
Proof. unfold zeros. apply replicate_add. Qed.

Lemma length_zeros n : length (zeros n) = n.
Proof. apply length_replicate. Qed.

(** The encoder's buffer as a concatenation of its fields. *)
Lemma StreamHeader_Encode_fields h :
  let s := take 36 (bytes_of (sh_SessionID h)) in
  StreamHeader_Encode h =
    [sh_Magic h] ++ (s ++ zeros (36 - length s)) ++ PutUint 8 (uint64 (sh_FileSize h)) ++
    PutUint 4 (uint32 (sh_ChunkSize h)) ++ zeros 15.
Proof.
  intros s. unfold StreamHeader_Encode.
  assert ((if decide (36 < length (bytes_of (sh_SessionID h)))%nat
    then take 36 (bytes_of (sh_SessionID h)) else bytes_of (sh_SessionID h)) = s) as ->.
  { case_decide; [done|]. unfold s. by rewrite take_ge by lia. }
  assert (length s ≤ 36)%nat as Hs by (unfold s; rewrite length_take; lia).
  pose proof (length_PutUint 8 (uint64 (sh_FileSize h))) as H8.
  pose proof (length_PutUint 4 (uint32 (sh_ChunkSize h))) as H4.
  set (p8 := PutUint 8 _) in *. set (p4 := PutUint 4 _) in *. clearbody p8 p4 s.
  change (zeros HeaderSize) with ([] ++ zeros 1 ++ zeros 63).
  rewrite copy_slice_fill by (done || simpl; lia). simpl (zeros (1 - _)).
  rewrite app_nil_r. change (zeros 63) with (zeros 36 ++ zeros 27).
  rewrite (copy_slice_fill _ 36 _ 1 37 s) by (done || simpl; lia).
  change (zeros 27) with (zeros 8 ++ zeros 19).
  rewrite (copy_slice_fill _ 8 _ 37 45 p8)
    by (rewrite ?length_app, ?length_zeros; simpl; lia).
  change (zeros 19) with (zeros 4 ++ zeros 15).
  rewrite (copy_slice_fill _ 4 _ 45 49 p4)
    by (rewrite ?length_app, ?length_zeros; simpl; lia).
  rewrite H8, H4. simpl (zeros (_ - _)). rewrite !app_nil_r. by rewrite <-!app_assoc.
Qed.

Lemma length_StreamHeader_Encode h : length (StreamHeader_Encode h) = HeaderSize.
Proof.
  rewrite StreamHeader_Encode_fields.
  rewrite !length_app, !length_PutUint, !length_zeros, length_take.
  change (length [sh_Magic h]) with 1%nat. unfold HeaderSize. lia.
Qed.

Lemma slice_app {A} (a b c : list A) lo hi :
  length a = lo → (hi = lo + length b)%nat → slice lo hi (a ++ b ++ c) = b.
Proof.
  intros <- ->. unfold slice. rewrite drop_app_length.
  replace (length a + length b - length a)%nat with (length b) by lia.
  apply take_app_length.
Qed.

(** Decoding an encoded header, the session identifier cut to 36 bytes. *)
Lemma parse_header_Encode h :
  in_int64 (sh_FileSize h) = true → in_int32 (sh_ChunkSize h) = true →
  parse_header (StreamHeader_Encode h) =
  mkStreamHeader (sh_Magic h) (string_of (trimNull (take 36 (bytes_of (sh_SessionID h)))))
    (sh_FileSize h) (sh_ChunkSize h).
Proof.
  intros H64 H32. rewrite StreamHeader_Encode_fields.
  set (s := take 36 (bytes_of (sh_SessionID h))).
  assert (length s ≤ 36)%nat as Hs by (unfold s; rewrite length_take; lia).
  set (sp := s ++ zeros (36 - length s)).
  assert (length sp = 36%nat) as Hsp by (unfold sp; rewrite length_app, length_zeros; lia).
  unfold parse_header. f_equal.
  - f_equal. rewrite (slice_app [sh_Magic h] sp) by (simpl; lia). unfold sp.
    destruct (trimNull_spec s) as [Hn [n Hz]].
    rewrite Hz at 1. rewrite <-app_assoc, <-zeros_split. by apply trimNull_pad.
  - rewrite (app_assoc [sh_Magic h]).
    rewrite (slice_app ([sh_Magic h] ++ sp) (PutUint 8 _))
      by (rewrite ?length_app, ?length_PutUint; simpl; lia).
    rewrite GetUint_PutUint; [by apply int64_uint64|].
    unfold uint64. apply Z.mod_pos_bound. lia.
  - rewrite (app_assoc [sh_Magic h]), (app_assoc ([sh_Magic h] ++ sp)).
    rewrite (slice_app (([sh_Magic h] ++ sp) ++ PutUint 8 _) (PutUint 4 _))
      by (rewrite ?length_app, ?length_PutUint; simpl; lia).
    rewrite GetUint_PutUint; [by apply int32_uint32|].
    unfold uint32. apply Z.mod_pos_bound. lia.
Qed.

Lemma ReadFull_app n a b : length a = n → ReadFull n (a ++ b) = (Some a, b).
Proof.
  intros <-. unfold ReadFull. rewrite decide_True by (rewrite length_app; lia).
  by rewrite take_app_length, drop_app_length.
Qed.

(** A header the protocol can carry. *)
Record header_ok (h : StreamHeader) : Prop := {
  ho_magic : sh_Magic h = MagicUpload ∨ sh_Magic h = MagicDownload;
  ho_session : (String.length (sh_SessionID h) ≤ 36)%nat;
  ho_nul : no_trailing_nul (bytes_of (sh_SessionID h));
  ho_size : in_int64 (sh_FileSize h) = true;
  ho_chunk : in_int32 (sh_ChunkSize h) = true }.

(** ** Properties *)

(** A header decodes to itself, and the decoder leaves the rest of the
    stream untouched: for every header with a known magic byte, a session
    identifier of at most 36 bytes that does not end in a zero byte, and sizes
    of the declared widths (negative ones included). *)
Theorem DecodeHeader_Encode h rest :
  header_ok h → DecodeHeader (StreamHeader_Encode h ++ rest) = (inr h, rest).
Proof.
  intros [Hm Hs Hn H64 H32]. unfold DecodeHeader.
  rewrite ReadFull_app by apply length_StreamHeader_Encode.
  rewrite parse_header_Encode by done.
  rewrite take_ge by (rewrite length_bytes_of; lia).
  rewrite <-(app_nil_r (bytes_of _)). change [] with (zeros 0).
  rewrite trimNull_pad, string_of_bytes_of by done. cbn [sh_Magic].
  rewrite decide_False by naive_solver. by destruct h.
Qed.

(** The encoded header has the documented layout: 64 bytes, the magic byte
    at 0, the identifier padded with zeros at 1..36, the file size big-endian
    at 37..44, the chunk size big-endian at 45..48 and 15 zero bytes. *)
Theorem StreamHeader_Encode_layout h :
  let buf := StreamHeader_Encode h in
  let s := take 36 (bytes_of (sh_SessionID h)) in
  length buf = 64%nat ∧
  slice 0 1 buf = [sh_Magic h] ∧
  slice 1 37 buf = s ++ zeros (36 - length s) ∧
  GetUint (slice 37 45 buf) = uint64 (sh_FileSize h) ∧
  GetUint (slice 45 49 buf) = uint32 (sh_ChunkSize h) ∧
  slice 49 64 buf = zeros 15.
Proof.
  intros buf s. split; [apply length_StreamHeader_Encode|]. unfold buf.
  rewrite StreamHeader_Encode_fields. fold s. set (sp := s ++ zeros (36 - length s)).
  assert (length sp = 36%nat) as Hsp
    by (unfold sp, s; rewrite length_app, length_zeros, length_take; lia).
  set (p8 := PutUint 8 (uint64 _)). set (p4 := PutUint 4 (uint32 _)).
  assert (length p8 = 8%nat) as H8 by apply length_PutUint.
  assert (length p4 = 4%nat) as H4 by apply length_PutUint.
  rewrite <-(app_nil_r (zeros 15)) at 5.
  split_and!.
  - done.
  - by rewrite (slice_app [_] sp) by (simpl; lia).
  - rewrite (app_assoc [_]), (slice_app ([_] ++ sp) p8) by (rewrite ?length_app; simpl; lia).
    apply GetUint_PutUint, Z.mod_pos_bound. lia.
  - rewrite (app_assoc [_]), (app_assoc ([_] ++ sp)).
    rewrite (slice_app (([_] ++ sp) ++ p8) p4) by (rewrite ?length_app; simpl; lia).
    apply GetUint_PutUint, Z.mod_pos_bound. lia.
  - rewrite (app_assoc [_]), (app_assoc ([_] ++ sp)), (app_assoc (([_] ++ sp) ++ p8)).
    by rewrite (slice_app ((([_] ++ sp) ++ p8) ++ p4) (zeros 15))
      by (rewrite ?length_app, ?length_zeros; simpl; lia).
Qed.

Lemma length_slice {A} lo hi (l : list A) : (length (slice lo hi l) ≤ hi - lo)%nat.
Proof. unfold slice. rewrite length_take. lia. Qed.

Lemma length_trimNull l : (length (trimNull l) ≤ length l)%nat.
Proof.
  destruct (trimNull_spec l) as [_ [n Hn]]. apply (f_equal length) in Hn.
  rewrite length_app in Hn. lia.
Qed.

(** A parsed header always fits the protocol, whatever the buffer holds. *)
Lemma parse_header_fits buf :
  let h := parse_header buf in
  (String.length (sh_SessionID h) ≤ 36)%nat ∧ no_trailing_nul (bytes_of (sh_SessionID h)) ∧
  in_int64 (sh_FileSize h) = true ∧ in_int32 (sh_ChunkSize h) = true.
Proof.
  simpl. rewrite <-length_bytes_of, bytes_of_string_of. split_and!.
  - pose proof (length_trimNull (slice 1 37 buf)). pose proof (length_slice 1 37 buf). lia.
  - apply trimNull_spec.
  - apply int64_range.
  - apply int32_range.
Qed.

(** [DecodeHeader] on every stream: fewer than 64 bytes is a read error;
    otherwise exactly 64 bytes are consumed, an unknown magic byte is reported,
    and an accepted header is always one the protocol can carry. *)
Theorem DecodeHeader_total r :
  ((length r < 64)%nat → DecodeHeader r = (inl ErrRead, [])) ∧
  ((64 ≤ length r)%nat →
   let b := nth_byte 0 r in
   if decide (b = MagicUpload ∨ b = MagicDownload)
   then ∃ h, DecodeHeader r = (inr h, drop 64 r) ∧ sh_Magic h = b ∧ header_ok h
   else DecodeHeader r = (inl (ErrMagic b), drop 64 r)).
Proof.
  unfold DecodeHeader, ReadFull, HeaderSize. split; intros Hlen.
  - by rewrite (decide_False (P := (64 ≤ length r)%nat)) by lia.
  - set (b := nth_byte 0 r). rewrite (decide_True (P := (64 ≤ length r)%nat)) by lia.
    assert (sh_Magic (parse_header (take 64 r)) = b) as Hb by (by destruct r).
    pose proof (parse_header_fits (take 64 r)) as (H1 & H2 & H3 & H4).
    set (h := parse_header (take 64 r)) in *. clearbody h.
    destruct (decide (b = MagicUpload ∨ b = MagicDownload)) as [Hok|Hno].
    + rewrite decide_False by (rewrite Hb; naive_solver).
      exists h. split_and!; [done|done|]. constructor; try done. by rewrite Hb.
    + rewrite decide_True by (rewrite Hb; naive_solver). by rewrite Hb.
Qed.

Lemma DownloadRequest_Encode_fields r :
  let s := take 64 (bytes_of (dr_Hash r)) in
  DownloadRequest_Encode r = [MagicDownload] ++ (s ++ zeros (64 - length s)) ++ [].
Proof.
  intros s. unfold DownloadRequest_Encode.
  change (zeros DownloadRequestSize) with ([] ++ zeros 1 ++ zeros 64).
  rewrite copy_slice_fill by (done || simpl; lia). simpl (zeros (1 - _)). rewrite app_nil_r.
  assert (∀ b, copy_slice (([] ++ [MagicDownload]) ++ zeros 64) 1 65 b =
    copy_slice (([] ++ [MagicDownload]) ++ zeros 64 ++ []) 1 65 (take 64 b)) as ->.
  { intros b. rewrite app_nil_r. unfold copy_slice. rewrite length_take.
    replace ((65 - 1) `min` (64 `min` length b))%nat with ((65 - 1) `min` length b)%nat by lia.
    rewrite take_take. by replace (((65 - 1) `min` length b) `min` 64)%nat
      with ((65 - 1) `min` length b)%nat by lia. }
  fold s. rewrite (copy_slice_fill _ 64 [] 1 65 s); [by rewrite <-!app_assoc|done|done|].
  unfold s. rewrite length_take. lia.
Qed.

(** A download request decodes to itself for every hash text of at most 64
    bytes that does not end in a zero byte (a SHA-256 text has exactly 64). *)
Theorem DecodeDownloadRequest_Encode r rest :
  (String.length (dr_Hash r) ≤ 64)%nat → no_trailing_nul (bytes_of (dr_Hash r)) →
  DecodeDownloadRequest (DownloadRequest_Encode r ++ rest) = (inr r, rest) ∧
  length (DownloadRequest_Encode r) = 65%nat.
Proof.
  intros Hs Hn. rewrite DownloadRequest_Encode_fields.
  rewrite <-length_bytes_of in Hs. rewrite take_ge by lia.
  set (p := bytes_of (dr_Hash r) ++ zeros (64 - length (bytes_of (dr_Hash r)))).
  assert (length p = 64%nat) as Hp by (unfold p; rewrite length_app, length_zeros; lia).
  assert (length ([MagicDownload] ++ p ++ []) = 65%nat) as Hl
    by (rewrite !length_app, Hp; done).
  split; [|done]. unfold DecodeDownloadRequest. rewrite ReadFull_app by done.
  rewrite (slice_app [MagicDownload] p) by (simpl; lia).
  unfold p. rewrite trimNull_pad, string_of_bytes_of by done. by destruct r.
Qed.

(** ** Witnesses *)

Definition example_header : StreamHeader :=
  mkStreamHeader MagicUpload "6ba7b810-9dad-11d1-80b4-00c04fd430c8" (-1) DefaultChunkSize.

Lemma DecodeHeader_Encode_witness :
  DecodeHeader (StreamHeader_Encode example_header ++ [x61]) = (inr example_header, [x61]).
Proof.
  apply (DecodeHeader_Encode example_header [x61]). constructor.
  - by left.
  - vm_compute. lia.
  - vm_compute. discriminate.
  - reflexivity.
  - reflexivity.
Defined.

Lemma DecodeHeader_total_witness :
  DecodeHeader [x01] = (inl ErrRead, []).
Proof. apply (DecodeHeader_total [x01]). simpl. lia. Defined.

Lemma DecodeDownloadRequest_Encode_witness :
  let r := mkDownloadRequest (sha256_hex (bytes_of "abc")) in
  DecodeDownloadRequest (DownloadRequest_Encode r ++ [x61]) = (inr r, [x61]) ∧
  length (DownloadRequest_Encode r) = 65%nat.
Proof.
  apply (DecodeDownloadRequest_Encode (mkDownloadRequest (sha256_hex (bytes_of "abc"))) [x61]).
  - vm_compute. lia.
  - vm_compute. discriminate.
Defined.
