(* ===== verification/Session.v ===== *)
(** * Upload sessions of a storage node: [backend/dfs/streaming/session.go]

    The session table, its expiry, and the proof that the periodic clean-up is
    invisible to [GetSession]: it removes only what no later lookup would
    return. The clock is an argument; the mutex makes every method atomic. *)

From S2P Require Import Prelude GoStd Types.

Definition SessionTimeout : Z := 5 * Minute.

Record UploadSession := mkUploadSession {
  us_SessionID : string;
  us_FileID : uuid;
  us_Filename : string;
  us_ContentType : string;
  us_Size : Z;
  us_CreatedAt : Z }.

Abbreviation SessionManager := (gmap string UploadSession).

Definition NewSessionManager : SessionManager := ∅.

(** [newID] is the identifier [uuid.New] draws, [now] the clock. *)
Definition CreateSession `{UuidText} (newID : uuid) (now : Z) (fileID : uuid)
    (filename contentType : string) (size : Z) (m : SessionManager)
    : UploadSession * SessionManager :=
  let session := mkUploadSession (uuid_String newID) fileID filename contentType size now in
  (session, <[us_SessionID session := session]> m).

Definition expired (now : Z) (s : UploadSession) : bool :=
  SessionTimeout <? now - us_CreatedAt s.

Definition GetSession (now : Z) (sessionID : string) (m : SessionManager)
    : option UploadSession :=
  match m !! sessionID with
  | None => None
  | Some session => if expired now session then None else Some session
  end.

Definition RemoveSession (sessionID : string) (m : SessionManager) : SessionManager :=
  delete sessionID m.

Definition AddSession (session : UploadSession) (m : SessionManager) : SessionManager :=
  <[us_SessionID session := session]> m.

(** The loop deletes every expired entry while it ranges over the map. *)
Definition CleanupExpired `{MapRange} (now : Z) (m : SessionManager) : SessionManager :=
  fold_left (λ acc kv, if expired now kv.2 then delete kv.1 acc else acc) (go_range m) m.

(** The clean-up goroutine: it runs [CleanupExpired] at each tick until the
    stop channel is closed. *)
Inductive CleanupEvent := CleanupTick (now : Z) | CleanupStop.

Fixpoint CleanupRoutine `{MapRange} (evs : list CleanupEvent) (m : SessionManager)
    : SessionManager :=
  match evs with
  | [] => m
  | CleanupTick now :: evs' => CleanupRoutine evs' (CleanupExpired now m)
  | CleanupStop :: _ => m
  end.

(** ** Helper lemmas *)

Section sessions.
Context `{MapRange}.

Lemma cleanup_fold now (l : list (string * UploadSession)) (m0 : SessionManager) id :
  fold_left (λ acc kv, if expired now kv.2 then delete kv.1 acc else acc) l m0 !! id =
  if existsb (λ kv : string * UploadSession, bool_decide (kv.1 = id) && expired now kv.2) l
  then None else m0 !! id.
Proof.
  revert m0. induction l as [|[k s] l IH]; intros m0; [done|]. simpl. rewrite IH.
  destruct (existsb _ l); [by rewrite orb_true_r|]. rewrite orb_false_r.
  destruct (expired now s); [|by rewrite andb_false_r].
  rewrite andb_true_r, lookup_delete. case_bool_decide; case_decide; done.
Qed.

Lemma CleanupExpired_lookup now (m : SessionManager) id :
  CleanupExpired now m !! id =
  match m !! id with
  | Some s => if expired now s then None else Some s
  | None => None
  end.
Proof.
  unfold CleanupExpired. rewrite cleanup_fold.
  destruct (existsb _ _) eqn:E.
  - apply existsb_exists in E as ([k s] & Hin%list_elem_of_In & Hb). simpl in Hb.
    apply andb_true_iff in Hb as [Hk Hs]. apply bool_decide_eq_true in Hk as ->.
    apply elem_of_go_range in Hin. by rewrite Hin, Hs.
  - destruct (m !! id) as [s|] eqn:Em; [|done].
    destruct (expired now s) eqn:Es; [|done]. exfalso.
    rewrite <-not_true_iff_false in E. apply E, existsb_exists. exists (id, s).
    split; [by apply list_elem_of_In, elem_of_go_range|]. simpl.
    by rewrite bool_decide_true, Es.
Qed.

Lemma expired_mono now now' s : now ≤ now' → expired now s = true → expired now' s = true.
Proof. unfold expired. rewrite !Z.ltb_lt. lia. Qed.

(** ** Properties *)

(** Whatever the clean-up goroutine has done by then, [GetSession] answers
    at time [t] as if it had never run: ticks at or before [t] remove only
    sessions that have expired by [t]. *)
Theorem CleanupRoutine_invisible evs t id m :
  (∀ now, CleanupTick now ∈ evs → now ≤ t) →
  GetSession t id (CleanupRoutine evs m) = GetSession t id m.
Proof.
  revert m. induction evs as [|[now|] evs IH]; intros m Hev; simpl; [done| |done].
  rewrite IH by (intros n Hn; apply Hev; by right).
  unfold GetSession. rewrite CleanupExpired_lookup.
  destruct (m !! id) as [s|]; [|done]. destruct (expired now s) eqn:E; [|done].
  rewrite (expired_mono now t); [done| |done]. apply Hev. by left.
Qed.

(** A session that was added is returned, unchanged, up to and including
    the instant its five minutes are over and never after; removing it or
    adding others does not change the answer for a different identifier. *)
Theorem GetSession_AddSession s t id m :
  GetSession t id (AddSession s m) =
    (if decide (us_SessionID s = id) then
       if t - us_CreatedAt s <=? SessionTimeout then Some s else None
     else GetSession t id m) ∧
  GetSession t id (RemoveSession (us_SessionID s) m) =
    (if decide (us_SessionID s = id) then None else GetSession t id m).
Proof.
  unfold GetSession, AddSession, RemoveSession, expired.
  rewrite lookup_insert, lookup_delete. case_decide; [|done]. split; [|done].
  by rewrite Z.ltb_antisym, if_negb.
Qed.
End sessions.

Lemma CleanupRoutine_invisible_witness :
  let m := AddSession (mkUploadSession "s" 1 "f" "text/plain" 3 0) ∅ in
  GetSession (6 * Minute) "s" (CleanupRoutine (H := canonical_range) [CleanupTick (6 * Minute)] m) =
  GetSession (6 * Minute) "s" m.
Proof.
  apply (@CleanupRoutine_invisible canonical_range).
  intros now Hnow. apply list_elem_of_singleton in Hnow. injection Hnow. lia.
Defined.
