(* ===== verification/Json.v ===== *)
(** * Messages on the wire: [encoding/json] on the structs of [types.go]

    What [json.Marshal] and [json.Unmarshal] do with the program's structs, on
    documents: member names from the struct tags, case-insensitive matching on
    input, unknown members ignored, absent members left at their zero value,
    [null] ignored for strings, numbers and UUIDs, a member of the wrong type reported
    after the others were read, a malformed UUID or time reported at once. The
    text of a document is not modelled; strings are taken to be valid UTF-8. *)

From Stdlib Require Import Ascii.
From S2P Require Import Prelude GoStd Hashes Types.

(** ** Reading members *)

(** How reading one value ends: no error, an error that lets the decoder go
    on, an error that stops it. *)
Inductive derr := DOk | DSaved | DAbort.

Definition derr_join (a b : derr) : derr :=
  match a, b with DAbort, _ | _, DAbort => DAbort | DSaved, _ | _, DSaved => DSaved | _, _ => DOk end.

(** Whether a value is stored in its field, and the error. *)
Definition outcome : Type := bool * derr.

(** Field names match exactly or under Unicode case folding; of the characters
    beyond ASCII only the Kelvin sign and the long s fold to a letter. *)
Definition lower (c : Ascii.ascii) : Ascii.ascii :=
  let n := Ascii.N_of_ascii c in
  if ((65 <=? n) && (n <=? 90))%N then Ascii.ascii_of_N (n + 32) else c.

Fixpoint fold_name (s : string) : string :=
  match s with
  | "" => ""
  | String "226"%char (String "132"%char (String "170"%char s')) => String "k" (fold_name s')
  | String "197"%char (String "191"%char s') => String "s" (fold_name s')
  | String c s' => String (lower c) (fold_name s')
  end%string.

Definition schema : Type := list (string * (json → outcome)).

Definition find_field (sch : schema) (k : string) : option (string * (json → outcome)) :=
  match List.find (λ f : string * (json → outcome), String.eqb f.1 k) sch with
  | Some f => Some f
  | None => List.find (λ f : string * (json → outcome), String.eqb (fold_name f.1) (fold_name k)) sch
  end.

Fixpoint walk_members (sch : schema) (kvs : list (string * json)) (acc : list (string * json))
    : list (string * json) * derr :=
  match kvs with
  | [] => (acc, DOk)
  | (k, v) :: kvs' =>
    match find_field sch k with
    | None => walk_members sch kvs' acc
    | Some (name, check) =>
      let '(store, e) := check v in
      let acc' := if store then (name, v) :: acc else acc in
      match e with
      | DAbort => (acc', DAbort)
      | _ => let '(r, e') := walk_members sch kvs' acc' in (r, derr_join e e')
      end
    end
  end.

(** Reading an object into a zero struct: the value each field ends with. *)
Definition object (sch : schema) (j : json) : list (string * json) * derr :=
  match j with
  | JObj kvs => walk_members sch kvs []
  | JNull => ([], DOk)
  | _ => ([], DSaved)
  end.

Definition slot (m : list (string * json)) (name : string) : json :=
  match List.find (λ kv : string * json, String.eqb kv.1 name) m with Some kv => kv.2 | None => JNull end.

Section json.
Context `{UuidText} `{TimeText}.

Definition check_string (j : json) : outcome :=
  match j with JStr _ => (true, DOk) | JNull => (false, DOk) | _ => (false, DSaved) end.
Definition check_bool (j : json) : outcome :=
  match j with JBool _ => (true, DOk) | JNull => (false, DOk) | _ => (false, DSaved) end.
Definition check_int (j : json) : outcome :=
  match j with
  | JNum z => if in_int64 z then (true, DOk) else (false, DSaved)
  | JNull => (false, DOk)
  | _ => (false, DSaved)
  end.
Definition check_uuid (j : json) : outcome :=
  match j with
  | JStr s => match uuid_Parse s with Some _ => (true, DOk) | None => (false, DAbort) end
  | JNull => (false, DOk)
  | _ => (false, DSaved)
  end.
Definition check_time (j : json) : outcome :=
  match j with
  | JStr s => match time_Unmarshal s with Some _ => (true, DOk) | None => (false, DAbort) end
  | JNull => (false, DOk)
  | _ => (false, DAbort)
  end.
(** [json.RawMessage] takes any document. *)
Definition check_raw (j : json) : outcome := (true, DOk).
Definition check_struct (sch : schema) (j : json) : outcome := (true, (object sch j).2).
Definition check_list (check : json → outcome) (j : json) : outcome :=
  match j with
  | JArr l => (true, fold_right (λ x e, derr_join (check x).2 e) DOk l)
  | JNull => (true, DOk)
  | _ => (false, DSaved)
  end.

Definition get_string (j : json) : string := match j with JStr s => s | _ => "" end.
Definition get_bool (j : json) : bool := match j with JBool b => b | _ => false end.
Definition get_int (j : json) : Z := match j with JNum z => z | _ => 0 end.
Definition get_uuid (j : json) : uuid :=
  match j with JStr s => default uuid_Nil (uuid_Parse s) | _ => uuid_Nil end.
(** The zero [time.Time] is the year 1; its offset to the epoch. *)
Definition zero_time : Z := -62135596800 * Second.
Definition get_time (j : json) : Z :=
  match j with JStr s => default zero_time (time_Unmarshal s) | _ => zero_time end.
Definition get_list {A} (f : json → A) (j : json) : list A :=
  match j with JArr l => f <$> l | _ => [] end.

(** Writing. *)
Definition put_uuid (u : uuid) : json := JStr (uuid_String u).
Definition put_time (t : Z) : json := JStr (time_Marshal t).
(** A nil slice is [null]; the program's slices that can be nil are empty. *)
Definition put_slice (l : list json) : json := match l with [] => JNull | _ => JArr l end.
(** A member tagged [omitempty]. *)
Definition omitempty (name s : string) : list (string * json) :=
  if String.eqb s "" then [] else [(name, JStr s)].

(** [json.Unmarshal(payload, &v)]: the value and whether [err == nil]; an
    absent or malformed payload is an error that leaves the zero value. *)
Definition Unmarshal {T} (of_json : json → T * derr) (zero : T) (payload : RawMessage) : T * bool :=
  match payload with
  | None => (zero, false)
  | Some j => let '(v, e) := of_json j in (v, match e with DOk => true | _ => false end)
  end.

(** The same when the handler gives up on an error. *)
Definition Unmarshal_ok {T} (of_json : json → T * derr) (payload : RawMessage) : option T :=
  match payload with
  | None => None
  | Some j => match of_json j with (v, DOk) => Some v | _ => None end
  end.

(** ** The structs *)

Definition string_to_json (s : string) : json := JStr s.
Definition string_of_json (j : json) : string * derr := (get_string j, (check_string j).2).

Definition NodeInfo_schema : schema :=
  [("id", check_uuid); ("ip", check_string); ("port", check_int); ("role", check_string);
   ("status", check_string); ("priority", check_int); ("last_heartbeat", check_time)].
Definition NodeInfo_to_json (x : NodeInfo) : json :=
  JObj [("id", put_uuid (ni_ID x)); ("ip", JStr (ni_IP x)); ("port", JNum (ni_Port x));
        ("role", JStr (ni_Role x)); ("status", JStr (ni_Status x));
        ("priority", JNum (ni_Priority x)); ("last_heartbeat", put_time (ni_LastHeartbeat x))].
Definition NodeInfo_of_json (j : json) : NodeInfo * derr :=
  let '(m, e) := object NodeInfo_schema j in
  (mkNodeInfo (get_uuid (slot m "id")) (get_string (slot m "ip")) (get_int (slot m "port"))
     (get_string (slot m "role")) (get_string (slot m "status")) (get_int (slot m "priority"))
     (get_time (slot m "last_heartbeat")), e).

(** [[]*NodeInfo]; a [null] element would be a nil pointer. *)
Definition NodeInfos_to_json (l : list NodeInfo) : json := JArr (NodeInfo_to_json <$> l).
Definition NodeInfos_of_json (j : json) : list (option NodeInfo) * derr :=
  (get_list (λ x, match x with JNull => None | _ => Some (NodeInfo_of_json x).1 end) j,
   (check_list (check_struct NodeInfo_schema) j).2).

Definition LockRequest_schema : schema :=
  [("resource_id", check_string); ("node_id", check_uuid); ("logical_time", check_int);
   ("lock_status", check_string); ("requested_at", check_time)].
Definition LockRequest_to_json (x : LockRequest) : json :=
  JObj [("resource_id", JStr (lr_ResourceID x)); ("node_id", put_uuid (lr_NodeID x));
        ("logical_time", JNum (lr_LogicalTime x)); ("lock_status", JStr (lr_Status x));
        ("requested_at", put_time (lr_RequestedAt x))].
Definition LockRequest_of_json (j : json) : LockRequest * derr :=
  let '(m, e) := object LockRequest_schema j in
  (mkLockRequest (get_string (slot m "resource_id")) (get_uuid (slot m "node_id"))
     (get_int (slot m "logical_time")) (get_string (slot m "lock_status"))
     (get_time (slot m "requested_at")), e).

Definition FileStoreRequest_to_json (x : FileStoreRequest) : json :=
  JObj [("file_id", put_uuid (fsr_FileID x)); ("filename", JStr (fsr_Filename x));
        ("content_type", JStr (fsr_ContentType x)); ("size", JNum (fsr_Size x));
        ("data", JStr (base64 (fsr_Data x)))].

Definition MetadataRequest_to_json (x : MetadataRequest) : json :=
  JObj [("request_id", JStr (mrq_RequestID x))].
Definition MetadataRequest_of_json (j : json) : MetadataRequest * derr :=
  let '(m, e) := object [("request_id", check_string)] j in
  (mkMetadataRequest (get_string (slot m "request_id")), e).

Definition NodeFileMetadata_schema : schema :=
  [("file_id", check_uuid); ("filename", check_string); ("hash", check_string);
   ("size", check_int); ("content_type", check_string)].
Definition NodeFileMetadata_to_json (x : NodeFileMetadata) : json :=
  JObj [("file_id", put_uuid (nfm_FileID x)); ("filename", JStr (nfm_Filename x));
        ("hash", JStr (nfm_Hash x)); ("size", JNum (nfm_Size x));
        ("content_type", JStr (nfm_ContentType x))].
Definition NodeFileMetadata_of_json (j : json) : NodeFileMetadata * derr :=
  let '(m, e) := object NodeFileMetadata_schema j in
  (mkNodeFileMetadata (get_uuid (slot m "file_id")) (get_string (slot m "filename"))
     (get_string (slot m "hash")) (get_int (slot m "size")) (get_string (slot m "content_type")), e).

Definition MetadataResponse_schema : schema :=
  [("request_id", check_string); ("node_id", check_uuid);
   ("files", check_list (check_struct NodeFileMetadata_schema))].
Definition MetadataResponse_to_json (x : MetadataResponse) : json :=
  JObj [("request_id", JStr (mrs_RequestID x)); ("node_id", put_uuid (mrs_NodeID x));
        ("files", JArr (NodeFileMetadata_to_json <$> mrs_Files x))].
Definition MetadataResponse_of_json (j : json) : MetadataResponse * derr :=
  let '(m, e) := object MetadataResponse_schema j in
  (mkMetadataResponse (get_string (slot m "request_id")) (get_uuid (slot m "node_id"))
     (get_list (λ x, (NodeFileMetadata_of_json x).1) (slot m "files")), e).

Definition ReplicateFileRequest_schema : schema :=
  [("file_id", check_uuid); ("filename", check_string); ("hash", check_string);
   ("source_node", check_uuid); ("target_nodes", check_list check_uuid)].
Definition ReplicateFileRequest_to_json (x : ReplicateFileRequest) : json :=
  JObj [("file_id", put_uuid (rfr_FileID x)); ("filename", JStr (rfr_Filename x));
        ("hash", JStr (rfr_Hash x)); ("source_node", put_uuid (rfr_SourceNode x));
        ("target_nodes", JArr (put_uuid <$> rfr_TargetNodes x))].
Definition ReplicateFileRequest_of_json (j : json) : ReplicateFileRequest * derr :=
  let '(m, e) := object ReplicateFileRequest_schema j in
  (mkReplicateFileRequest (get_uuid (slot m "file_id")) (get_string (slot m "filename"))
     (get_string (slot m "hash")) (get_uuid (slot m "source_node"))
     (get_list get_uuid (slot m "target_nodes")), e).

Definition APIFileDeleteRequest_schema : schema :=
  [("request_id", check_string); ("file_id", check_uuid); ("hash", check_string)].
Definition APIFileDeleteRequest_to_json (x : APIFileDeleteRequest) : json :=
  JObj [("request_id", JStr (adr_RequestID x)); ("file_id", put_uuid (adr_FileID x));
        ("hash", JStr (adr_Hash x))].
Definition APIFileDeleteRequest_of_json (j : json) : APIFileDeleteRequest * derr :=
  let '(m, e) := object APIFileDeleteRequest_schema j in
  (mkAPIFileDeleteRequest (get_string (slot m "request_id")) (get_uuid (slot m "file_id"))
     (get_string (slot m "hash")), e).

Definition APIFileDeleteResponse_schema : schema :=
  [("request_id", check_string); ("success", check_bool); ("error", check_string)].
Definition APIFileDeleteResponse_to_json (x : APIFileDeleteResponse) : json :=
  JObj ([("request_id", JStr (ads_RequestID x)); ("success", JBool (ads_Success x))] ++
        omitempty "error" (ads_Error x)).
Definition APIFileDeleteResponse_of_json (j : json) : APIFileDeleteResponse * derr :=
  let '(m, e) := object APIFileDeleteResponse_schema j in
  (mkAPIFileDeleteResponse (get_string (slot m "request_id")) (get_bool (slot m "success"))
     (get_string (slot m "error")), e).

Definition StreamUploadInitRequest_schema : schema :=
  [("request_id", check_string); ("file_id", check_uuid); ("filename", check_string);
   ("content_type", check_string); ("size", check_int)].
Definition StreamUploadInitRequest_to_json (x : StreamUploadInitRequest) : json :=
  JObj [("request_id", JStr (sui_RequestID x)); ("file_id", put_uuid (sui_FileID x));
        ("filename", JStr (sui_Filename x)); ("content_type", JStr (sui_ContentType x));
        ("size", JNum (sui_Size x))].
Definition StreamUploadInitRequest_of_json (j : json) : StreamUploadInitRequest * derr :=
  let '(m, e) := object StreamUploadInitRequest_schema j in
  (mkStreamUploadInitRequest (get_string (slot m "request_id")) (get_uuid (slot m "file_id"))
     (get_string (slot m "filename")) (get_string (slot m "content_type"))
     (get_int (slot m "size")), e).

Definition StorageNodeAddr_schema : schema :=
  [("node_id", check_uuid); ("addr", check_string)].
Definition StorageNodeAddr_to_json (x : StorageNodeAddr) : json :=
  JObj [("node_id", put_uuid (sna_NodeID x)); ("addr", JStr (sna_Addr x))].
Definition StorageNodeAddr_of_json (j : json) : StorageNodeAddr * derr :=
  let '(m, e) := object StorageNodeAddr_schema j in
  (mkStorageNodeAddr (get_uuid (slot m "node_id")) (get_string (slot m "addr")), e).

Definition StreamUploadReadyResponse_schema : schema :=
  [("request_id", check_string); ("session_id", check_string);
   ("storage_nodes", check_list (check_struct StorageNodeAddr_schema));
   ("success", check_bool); ("error", check_string)].
Definition StreamUploadReadyResponse_to_json (x : StreamUploadReadyResponse) : json :=
  JObj ([("request_id", JStr (sur_RequestID x)); ("session_id", JStr (sur_SessionID x));
         ("storage_nodes", put_slice (StorageNodeAddr_to_json <$> sur_StorageNodes x));
         ("success", JBool (sur_Success x))] ++ omitempty "error" (sur_Error x)).
Definition StreamUploadReadyResponse_of_json (j : json) : StreamUploadReadyResponse * derr :=
  let '(m, e) := object StreamUploadReadyResponse_schema j in
  (mkStreamUploadReadyResponse (get_string (slot m "request_id")) (get_string (slot m "session_id"))
     (get_list (λ x, (StorageNodeAddr_of_json x).1) (slot m "storage_nodes"))
     (get_bool (slot m "success")) (get_string (slot m "error")), e).

Definition StreamDownloadInitRequest_schema : schema :=
  [("request_id", check_string); ("file_id", check_uuid); ("hash", check_string)].
Definition StreamDownloadInitRequest_to_json (x : StreamDownloadInitRequest) : json :=
  JObj [("request_id", JStr (sdi_RequestID x)); ("file_id", put_uuid (sdi_FileID x));
        ("hash", JStr (sdi_Hash x))].
Definition StreamDownloadInitRequest_of_json (j : json) : StreamDownloadInitRequest * derr :=
  let '(m, e) := object StreamDownloadInitRequest_schema j in
  (mkStreamDownloadInitRequest (get_string (slot m "request_id")) (get_uuid (slot m "file_id"))
     (get_string (slot m "hash")), e).

Definition StreamDownloadReadyResponse_schema : schema :=
  [("request_id", check_string); ("storage_addr", check_string); ("filename", check_string);
   ("size", check_int); ("hash", check_string); ("success", check_bool); ("error", check_string)].
Definition StreamDownloadReadyResponse_to_json (x : StreamDownloadReadyResponse) : json :=
  JObj ([("request_id", JStr (sdr_RequestID x)); ("storage_addr", JStr (sdr_StorageAddr x));
         ("filename", JStr (sdr_Filename x)); ("size", JNum (sdr_Size x));
         ("hash", JStr (sdr_Hash x)); ("success", JBool (sdr_Success x))] ++
        omitempty "error" (sdr_Error x)).
Definition StreamDownloadReadyResponse_of_json (j : json) : StreamDownloadReadyResponse * derr :=
  let '(m, e) := object StreamDownloadReadyResponse_schema j in
  (mkStreamDownloadReadyResponse (get_string (slot m "request_id"))
     (get_string (slot m "storage_addr")) (get_string (slot m "filename"))
     (get_int (slot m "size")) (get_string (slot m "hash")) (get_bool (slot m "success"))
     (get_string (slot m "error")), e).

Definition StreamStoreAck_schema : schema :=
  [("session_id", check_string); ("file_id", check_uuid); ("hash", check_string);
   ("node_id", check_uuid); ("success", check_bool); ("error", check_string)].
Definition StreamStoreAck_to_json (x : StreamStoreAck) : json :=
  JObj ([("session_id", JStr (ssa_SessionID x)); ("file_id", put_uuid (ssa_FileID x));
         ("hash", JStr (ssa_Hash x)); ("node_id", put_uuid (ssa_NodeID x));
         ("success", JBool (ssa_Success x))] ++ omitempty "error" (ssa_Error x)).
Definition StreamStoreAck_of_json (j : json) : StreamStoreAck * derr :=
  let '(m, e) := object StreamStoreAck_schema j in
  (mkStreamStoreAck (get_string (slot m "session_id")) (get_uuid (slot m "file_id"))
     (get_string (slot m "hash")) (get_uuid (slot m "node_id")) (get_bool (slot m "success"))
     (get_string (slot m "error")), e).

(** The anonymous struct that announces a session to a storage node. *)
Record SessionData := mkSessionData {
  sd_SessionID : string;
  sd_FileID : uuid;
  sd_Filename : string;
  sd_ContentType : string;
  sd_Size : Z }.
Definition SessionData_schema : schema :=
  [("session_id", check_string); ("file_id", check_uuid); ("filename", check_string);
   ("content_type", check_string); ("size", check_int)].
Definition SessionData_to_json (x : SessionData) : json :=
  JObj [("session_id", JStr (sd_SessionID x)); ("file_id", put_uuid (sd_FileID x));
        ("filename", JStr (sd_Filename x)); ("content_type", JStr (sd_ContentType x));
        ("size", JNum (sd_Size x))].
Definition SessionData_of_json (j : json) : SessionData * derr :=
  let '(m, e) := object SessionData_schema j in
  (mkSessionData (get_string (slot m "session_id")) (get_uuid (slot m "file_id"))
     (get_string (slot m "filename")) (get_string (slot m "content_type"))
     (get_int (slot m "size")), e).

(** The envelope. *)
Definition Message_schema : schema :=
  [("type", check_string); ("from", check_uuid); ("to", check_uuid); ("payload", check_raw)].
Definition Message_to_json (x : Message) : json :=
  JObj ([("type", JStr (msg_Type x)); ("from", put_uuid (msg_From x)); ("to", put_uuid (msg_To x))]
        ++ match msg_Payload x with Some p => [("payload", p)] | None => [] end).
Definition Message_of_json (j : json) : Message * derr :=
  let '(m, e) := object Message_schema j in
  (mkMessage (get_string (slot m "type")) (get_uuid (slot m "from")) (get_uuid (slot m "to"))
     (snd <$> List.find (λ kv : string * json, String.eqb kv.1 "payload") m), e).

Definition MessageWithTime_schema : schema :=
  [("message", check_struct Message_schema); ("logical_time", check_int)].
Definition MessageWithTime_to_json (x : MessageWithTime) : json :=
  JObj [("message", Message_to_json (mwt_Message x)); ("logical_time", JNum (mwt_LogicalTime x))].
Definition MessageWithTime_of_json (j : json) : MessageWithTime * derr :=
  let '(m, e) := object MessageWithTime_schema j in
  (mkMessageWithTime (Message_of_json (slot m "message")).1 (get_int (slot m "logical_time")), e).

(** ** Round trips *)

(** [T]'s values that satisfy [ok] survive the wire. *)
Class JsonCodec {T} (to_json : T → json) (of_json : json → T * derr) (ok : T → Prop) :=
  json_roundtrip : ∀ x, ok x → of_json (to_json x) = (x, DOk).

Lemma get_put_uuid u : get_uuid (put_uuid u) = u.
Proof. simpl. by rewrite uuid_Parse_String. Qed.

Lemma get_put_time t : get_time (put_time t) = t.
Proof. simpl. by rewrite time_Unmarshal_Marshal. Qed.

Lemma check_put_uuid u : check_uuid (put_uuid u) = (true, DOk).
Proof. simpl. by rewrite uuid_Parse_String. Qed.

Lemma check_put_time t : check_time (put_time t) = (true, DOk).
Proof. simpl. by rewrite time_Unmarshal_Marshal. Qed.

Lemma check_int_ok z : in_int64 z = true → check_int (JNum z) = (true, DOk).
Proof. intros Hz. unfold check_int. by rewrite Hz. Qed.

Lemma check_list_ok {A} (check : json → outcome) (f : A → json) (l : list A) :
  (∀ x, x ∈ l → (check (f x)).2 = DOk) → check_list check (JArr (f <$> l)) = (true, DOk).
Proof.
  intros Hl. unfold check_list. f_equal. induction l as [|x l IH]; [done|]. csimpl.
  rewrite Hl by set_solver. rewrite IH by set_solver. done.
Qed.

Lemma check_list_slice {A} (check : json → outcome) (f : A → json) (l : list A) :
  (∀ x, x ∈ l → (check (f x)).2 = DOk) → check_list check (put_slice (f <$> l)) = (true, DOk).
Proof. intros Hl. destruct l; [done|]. by apply (check_list_ok check f). Qed.

(** A member that was stored satisfies its check. *)
Lemma walk_members_stored sch kvs acc m e : walk_members sch kvs acc = (m, e) →
  ∀ kv, kv ∈ m → kv ∈ acc ∨ ∃ check, (kv.1, check) ∈ sch ∧ (check kv.2).1 = true.
Proof.
  revert acc m e. induction kvs as [|[k v] kvs IH]; intros acc m e; cbn [walk_members].
  { intros [= <- _] kv Hkv. by left. }
  destruct (find_field sch k) as [[name check]|] eqn:Ef; [|apply IH].
  assert ((name, check) ∈ sch) as Hin.
  { apply list_elem_of_In. unfold find_field in Ef. destruct (List.find _ sch) as [f|] eqn:E1.
    - injection Ef as ->. apply List.find_some in E1 as [? _]; done.
    - apply List.find_some in Ef as [? _]; done. }
  destruct (check v) as [store e1] eqn:Ec. set (acc' := if store then (name, v) :: acc else acc).
  assert (∀ kv, kv ∈ acc' → kv ∈ acc ∨ ∃ check, (kv.1, check) ∈ sch ∧ (check kv.2).1 = true) as Hacc.
  { intros kv. subst acc'. destruct store; [|by left]. rewrite elem_of_cons. intros [->|?]; [|by left].
    right. exists check. split; [done|]. cbn [snd]. by rewrite Ec. }
  intros E kv Hkv. destruct e1.
  1,2: destruct (walk_members sch kvs acc') as [r e'] eqn:E'; injection E as -> _;
    destruct (IH _ _ _ E' kv Hkv); auto.
  injection E as <- _. auto.
Qed.

Lemma object_slot sch j m e name : object sch j = (m, e) →
  slot m name = JNull ∨ ∃ check, (name, check) ∈ sch ∧ (check (slot m name)).1 = true.
Proof.
  intros Ho. unfold slot. destruct (List.find _ m) as [[k v]|] eqn:Ef; [|by left].
  apply List.find_some in Ef as [Hin Ek]. apply String.eqb_eq in Ek. cbn [fst] in Ek. subst k.
  apply list_elem_of_In in Hin. right.
  destruct j; cbn [object] in Ho; try (injection Ho as <- _; by apply not_elem_of_nil in Hin).
  by destruct (walk_members_stored _ _ _ _ _ Ho _ Hin) as [?%not_elem_of_nil|].
Qed.

Lemma check_struct_ok sch j : (object sch j).2 = DOk → check_struct sch j = (true, DOk).
Proof. unfold check_struct. by intros ->. Qed.

Lemma get_list_put {A} (f : A → json) (g : json → A) (l : list A) :
  (∀ x, x ∈ l → g (f x) = x) → get_list g (JArr (f <$> l)) = l.
Proof.
  intros Hl. simpl. induction l as [|x l IH]; [done|]. csimpl.
  rewrite Hl by set_solver. rewrite IH; [done|set_solver].
Qed.

Lemma get_list_slice {A} (f : A → json) (g : json → A) (l : list A) :
  (∀ x, x ∈ l → g (f x) = x) → get_list g (put_slice (f <$> l)) = l.
Proof. intros Hl. destruct l; [done|]. by apply (get_list_put f). Qed.

(** One member read. *)
Lemma walk_step sch k v kvs acc name check :
  find_field sch k = Some (name, check) → check v = (true, DOk) →
  walk_members sch ((k, v) :: kvs) acc = walk_members sch kvs ((name, v) :: acc).
Proof.
  intros Hf Hc. simpl. rewrite Hf, Hc. by destruct (walk_members _ _ _) as [? []].
Qed.
End json.

#[export] Hint Resolve check_put_uuid check_put_time check_int_ok get_put_uuid get_put_time
  check_list_ok check_list_slice check_struct_ok get_list_put get_list_slice : go.

Ltac json_check := first [reflexivity | by eauto with go].

(** Round trip of a struct: read the members one by one, then the fields. *)
Ltac json_walk :=
  repeat (erewrite walk_step; [|reflexivity|json_check]);
  cbn [walk_members].

Ltac json_fields :=
  unfold slot; cbn [List.find String.eqb Ascii.eqb Bool.eqb fst snd];
  match goal with |- (_, DOk) = (?x, DOk) => destruct x end;
  f_equal; f_equal; json_check.

Tactic Notation "codec" reference(dec) reference(enc) := unfold dec, enc, object; json_walk; json_fields.

(** Members tagged [omitempty]: an empty string is not written and reads back
    as the zero value. *)
Tactic Notation "codec_omit" reference(dec) reference(enc) constr(err) :=
  unfold dec, enc, object, omitempty;
  let E := fresh in
  destruct (String.eqb_spec err "") as [E|E]; cbn [app]; json_walk;
  unfold slot; cbn [List.find String.eqb Ascii.eqb Bool.eqb fst snd];
  rewrite ?get_put_uuid; f_equal;
  match goal with |- _ = ?x => destruct x end; simpl in *; subst; f_equal; json_check.

Section codecs.
Context `{UuidText} `{TimeText}.

Lemma NodeInfo_json x :
  in_int64 (ni_Port x) = true → in_int64 (ni_Priority x) = true →
  NodeInfo_of_json (NodeInfo_to_json x) = (x, DOk).
Proof. intros H1 H2. codec NodeInfo_of_json NodeInfo_to_json. Qed.

Lemma LockRequest_json x :
  in_int64 (lr_LogicalTime x) = true →
  LockRequest_of_json (LockRequest_to_json x) = (x, DOk).
Proof. intros H1. codec LockRequest_of_json LockRequest_to_json. Qed.

Lemma MetadataRequest_json x : MetadataRequest_of_json (MetadataRequest_to_json x) = (x, DOk).
Proof. codec MetadataRequest_of_json MetadataRequest_to_json. Qed.

Lemma NodeFileMetadata_json x :
  in_int64 (nfm_Size x) = true →
  NodeFileMetadata_of_json (NodeFileMetadata_to_json x) = (x, DOk).
Proof. intros H1. codec NodeFileMetadata_of_json NodeFileMetadata_to_json. Qed.

Lemma StorageNodeAddr_json x : StorageNodeAddr_of_json (StorageNodeAddr_to_json x) = (x, DOk).
Proof. codec StorageNodeAddr_of_json StorageNodeAddr_to_json. Qed.

Lemma ReplicateFileRequest_json x :
  ReplicateFileRequest_of_json (ReplicateFileRequest_to_json x) = (x, DOk).
Proof.
  unfold ReplicateFileRequest_of_json, ReplicateFileRequest_to_json, object.
  assert (check_list check_uuid (JArr (put_uuid <$> rfr_TargetNodes x)) = (true, DOk))
    by (apply check_list_ok; intros; by rewrite check_put_uuid).
  json_walk. json_fields.
Qed.

Lemma APIFileDeleteRequest_json x :
  APIFileDeleteRequest_of_json (APIFileDeleteRequest_to_json x) = (x, DOk).
Proof. codec APIFileDeleteRequest_of_json APIFileDeleteRequest_to_json. Qed.

Lemma StreamUploadInitRequest_json x :
  in_int64 (sui_Size x) = true →
  StreamUploadInitRequest_of_json (StreamUploadInitRequest_to_json x) = (x, DOk).
Proof. intros H1. codec StreamUploadInitRequest_of_json StreamUploadInitRequest_to_json. Qed.

Lemma StreamDownloadInitRequest_json x :
  StreamDownloadInitRequest_of_json (StreamDownloadInitRequest_to_json x) = (x, DOk).
Proof. codec StreamDownloadInitRequest_of_json StreamDownloadInitRequest_to_json. Qed.

Lemma SessionData_json x :
  in_int64 (sd_Size x) = true → SessionData_of_json (SessionData_to_json x) = (x, DOk).
Proof. intros H1. codec SessionData_of_json SessionData_to_json. Qed.

Lemma decoder_ok {T} sch (f : list (string * json) → T) j x :
  (let '(m, e) := object sch j in (f m, e)) = (x, DOk) → (object sch j).2 = DOk.
Proof. destruct (object sch j). by intros [= _ ->]. Qed.

Lemma NodeInfos_json l :
  Forall (λ x, in_int64 (ni_Port x) = true ∧ in_int64 (ni_Priority x) = true) l →
  NodeInfos_of_json (NodeInfos_to_json l) = (Some <$> l, DOk).
Proof.
  rewrite Forall_forall. intros Hl. unfold NodeInfos_of_json, NodeInfos_to_json.
  rewrite check_list_ok.
  - f_equal. simpl. induction l as [|x l IH]; [done|]. csimpl. rewrite IH by set_solver.
    destruct (Hl x) as [H1 H2]; [set_solver|]. by rewrite NodeInfo_json.
  - intros x Hx. destruct (Hl x Hx) as [H1 H2].
    exact (decoder_ok _ _ _ _ (NodeInfo_json x H1 H2)).
Qed.

Lemma APIFileDeleteResponse_json x :
  APIFileDeleteResponse_of_json (APIFileDeleteResponse_to_json x) = (x, DOk).
Proof. codec_omit APIFileDeleteResponse_of_json APIFileDeleteResponse_to_json (ads_Error x). Qed.

Lemma StreamDownloadReadyResponse_json x :
  in_int64 (sdr_Size x) = true →
  StreamDownloadReadyResponse_of_json (StreamDownloadReadyResponse_to_json x) = (x, DOk).
Proof.
  intros H1.
  codec_omit StreamDownloadReadyResponse_of_json StreamDownloadReadyResponse_to_json (sdr_Error x).
Qed.

Lemma StreamStoreAck_json x : StreamStoreAck_of_json (StreamStoreAck_to_json x) = (x, DOk).
Proof. codec_omit StreamStoreAck_of_json StreamStoreAck_to_json (ssa_Error x). Qed.

Lemma StreamUploadReadyResponse_json x :
  StreamUploadReadyResponse_of_json (StreamUploadReadyResponse_to_json x) = (x, DOk).
Proof.
  assert (check_list (check_struct StorageNodeAddr_schema)
    (put_slice (StorageNodeAddr_to_json <$> sur_StorageNodes x)) = (true, DOk)).
  { apply check_list_slice. intros a _. exact (decoder_ok _ _ _ _ (StorageNodeAddr_json a)). }
  assert (get_list (λ x, (StorageNodeAddr_of_json x).1)
    (put_slice (StorageNodeAddr_to_json <$> sur_StorageNodes x)) = sur_StorageNodes x)
    by (apply get_list_slice; intros a _; by rewrite StorageNodeAddr_json).
  codec_omit StreamUploadReadyResponse_of_json StreamUploadReadyResponse_to_json (sur_Error x).
Qed.

Lemma MetadataResponse_json x :
  Forall (λ f, in_int64 (nfm_Size f) = true) (mrs_Files x) →
  MetadataResponse_of_json (MetadataResponse_to_json x) = (x, DOk).
Proof.
  rewrite Forall_forall. intros Hx.
  assert (check_list (check_struct NodeFileMetadata_schema)
    (JArr (NodeFileMetadata_to_json <$> mrs_Files x)) = (true, DOk)).
  { apply check_list_ok. intros a Ha.
    exact (decoder_ok _ _ _ _ (NodeFileMetadata_json a (Hx a Ha))). }
  assert (get_list (λ x, (NodeFileMetadata_of_json x).1)
    (JArr (NodeFileMetadata_to_json <$> mrs_Files x)) = mrs_Files x) as Hl
    by (apply get_list_put; intros a Ha; by rewrite NodeFileMetadata_json by auto).
  unfold MetadataResponse_of_json, MetadataResponse_to_json, object. json_walk.
  unfold slot; cbn [List.find String.eqb Ascii.eqb Bool.eqb fst snd].
  rewrite Hl, get_put_uuid. by destruct x.
Qed.

Lemma Message_json x : Message_of_json (Message_to_json x) = (x, DOk).
Proof.
  unfold Message_of_json, Message_to_json, object.
  destruct x as [ty from to [p|]]; cbn [msg_Payload app]; json_walk; unfold slot;
    cbn [List.find String.eqb Ascii.eqb Bool.eqb fst snd]; f_equal; simpl;
    rewrite ?uuid_Parse_String; done.
Qed.

Lemma MessageWithTime_json x :
  in_int64 (mwt_LogicalTime x) = true →
  MessageWithTime_of_json (MessageWithTime_to_json x) = (x, DOk).
Proof.
  intros H1.
  assert (check_struct Message_schema (Message_to_json (mwt_Message x)) = (true, DOk)).
  { apply check_struct_ok. exact (decoder_ok _ _ _ _ (Message_json (mwt_Message x))). }
  unfold MessageWithTime_of_json, MessageWithTime_to_json, object. json_walk.
  unfold slot; cbn [List.find String.eqb Ascii.eqb Bool.eqb fst snd].
  rewrite Message_json. destruct x; done.
Qed.

(** ** Properties *)

(** What [SendMessage] encodes is what [handleConnection] decodes: an
    envelope with any type, sender, recipient, payload (also an absent one)
    and machine-integer logical time is read back exactly, without an error. *)
Theorem MessageWithTime_wire x :
  in_int64 (mwt_LogicalTime x) = true →
  Unmarshal MessageWithTime_of_json x (Some (MessageWithTime_to_json x)) = (x, true).
Proof. intros Hx. unfold Unmarshal. by rewrite MessageWithTime_json. Qed.

(** The payloads of the lock, election, metadata and streaming messages
    are read back by their handlers as they were marshalled, whatever strings
    and identifiers they hold, provided their integers are machine integers. *)
Theorem payloads_wire ni lr mr rf su ss ack :
  in_int64 (ni_Port ni) = true → in_int64 (ni_Priority ni) = true →
  in_int64 (lr_LogicalTime lr) = true → in_int64 (sui_Size su) = true →
  in_int64 (sd_Size ss) = true →
  Forall (λ f, in_int64 (nfm_Size f) = true) (mrs_Files mr) →
  Unmarshal_ok NodeInfo_of_json (Some (NodeInfo_to_json ni)) = Some ni ∧
  Unmarshal_ok LockRequest_of_json (Some (LockRequest_to_json lr)) = Some lr ∧
  Unmarshal_ok MetadataResponse_of_json (Some (MetadataResponse_to_json mr)) = Some mr ∧
  Unmarshal_ok ReplicateFileRequest_of_json (Some (ReplicateFileRequest_to_json rf)) = Some rf ∧
  Unmarshal_ok StreamUploadInitRequest_of_json (Some (StreamUploadInitRequest_to_json su)) = Some su ∧
  Unmarshal_ok SessionData_of_json (Some (SessionData_to_json ss)) = Some ss ∧
  Unmarshal_ok StreamStoreAck_of_json (Some (StreamStoreAck_to_json ack)) = Some ack.
Proof.
  intros. unfold Unmarshal_ok.
  rewrite NodeInfo_json, LockRequest_json, MetadataResponse_json, ReplicateFileRequest_json,
    StreamUploadInitRequest_json, SessionData_json, StreamStoreAck_json by done.
  done.
Qed.
End codecs.

#[local] Existing Instance decimal_uuids.
#[local] Existing Instance decimal_times.

Lemma MessageWithTime_wire_witness :
  let m := mkMessageWithTime (mkMessage MessageLockAck 7 3 (Some (JStr "r"))) 12 in
  Unmarshal MessageWithTime_of_json m (Some (MessageWithTime_to_json m)) = (m, true).
Proof. apply MessageWithTime_wire. reflexivity. Defined.

Lemma payloads_wire_witness :
  Unmarshal_ok LockRequest_of_json
    (Some (LockRequest_to_json (mkLockRequest "r" 5 9 StatusPending 100)))
  = Some (mkLockRequest "r" 5 9 StatusPending 100).
Proof.
  refine (proj1 (proj2 (payloads_wire
    (mkNodeInfo 5 "10.0.0.1" 8000 RoleStorage StatusOnline 3 0)
    (mkLockRequest "r" 5 9 StatusPending 100)
    (mkMetadataResponse "q" 5 [mkNodeFileMetadata 1 "f" "h" 3 "text/plain"])
    (mkReplicateFileRequest 1 "f" "h" 5 [6%N]) (mkStreamUploadInitRequest "q" 1 "f" "t" 3)
    (mkSessionData "s" 1 "f" "t" 3) (mkStreamStoreAck "s" 1 "h" 5 true "") _ _ _ _ _ _)));
    try reflexivity.
  repeat constructor.
Defined.

(** Reading is lenient the way the library is: names match without regard to
    case, unknown members are skipped, an ill-typed member is an error. *)
Example read_examples :
  Unmarshal_ok MetadataRequest_of_json
    (Some (JObj [("x", JNull); ("REQUEST_ID", JStr "q")])) = Some (mkMetadataRequest "q") ∧
  Unmarshal_ok MetadataRequest_of_json (Some (JObj [("request_id", JNum 3)])) = None ∧
  Unmarshal_ok MetadataRequest_of_json (Some JNull) = Some (mkMetadataRequest "") ∧
  Unmarshal_ok MetadataRequest_of_json None = None.
Proof. by vm_compute. Qed.
