(* ===== verification/Fs.v ===== *)
(** * Files: the parts of [os] and [path/filepath] that the storage uses

    Paths are cleaned lexically; a disk is a map of regular files and a set of
    directories. Any system call may fail for a reason outside the model (no
    space, no permission, a name too long): a list of faults, one for each
    call, decides it. There are no symbolic links. *)

From Stdlib Require Import Ascii.
From S2P Require Import Prelude GoStd Types.

(** ** Paths *)

Record path := mkPath { rooted : bool; comps : list string }.

#[export] Instance path_eq_dec : EqDecision path.
Proof. solve_decision. Defined.
#[export] Program Instance path_countable : Countable path :=
  inj_countable' (λ p, (rooted p, comps p)) (λ x, mkPath x.1 x.2) _.
Next Obligation. by intros []. Qed.

Fixpoint split_slash (s : string) : list string :=
  match s with
  | "" => [""]
  | String c s' =>
    if Ascii.eqb c "/" then "" :: split_slash s'
    else match split_slash s' with
         | [] => [String c ""]
         | x :: l => String c x :: l
         end
  end%string.

(** One component of [filepath.Clean]; the cleaned prefix is reversed. *)
Definition clean_step (root : bool) (acc : list string) (c : string) : list string :=
  if decide (c = "" ∨ c = ".") then acc
  else if decide (c = "..") then
    match acc with
    | [] => if root then [] else [".."]
    | x :: acc' => if decide (x = "..") then ".." :: acc else acc'
    end
  else c :: acc.

Definition starts_slash (s : string) : bool :=
  match s with String c _ => Ascii.eqb c "/" | "" => false end%string.

(** [filepath.Join]: empty elements are ignored. *)
Definition Join (elems : list string) : path :=
  let elems := filter (λ e, e ≠ "") elems in
  let root := match elems with e :: _ => starts_slash e | [] => false end in
  mkPath root (rev (fold_left (clean_step root) (mjoin (split_slash <$> elems)) [])).

Definition Dir (p : path) : path := mkPath (rooted p) (take (pred (length (comps p))) (comps p)).

(** [path + suffix] *)
Definition path_append (p : path) (suffix : string) : path :=
  mkPath (rooted p) (take (pred (length (comps p))) (comps p) ++
    match last (comps p) with Some c => [c +:+ suffix] | None => [] end).

(** The proper ancestors of a path. *)
Definition prefixes (p : path) : list path :=
  (λ n, mkPath (rooted p) (take n (comps p))) <$> seq 0 (length (comps p)).

(** The name of one file: nothing for [Clean] to do. *)
Definition plain (c : string) : Prop := split_slash c = [c] ∧ c ≠ "" ∧ c ≠ "." ∧ c ≠ "..".

(** ** Disks *)

(** A regular file holds bytes, a document the program marshalled, or the
    strict prefix of one that a failed write left. *)
Inductive content := Raw (l : list byte) | Doc (j : json) | Torn.

Record Disk := mkDisk {
  dk_files : gmap path content;
  dk_dirs : gset path;
  (** what the next system calls do: succeed, or fail (a write after so many bytes) *)
  dk_faults : list (option nat) }.

Definition with_files (f : gmap path content → gmap path content) (d : Disk) : Disk :=
  mkDisk (f (dk_files d)) (dk_dirs d) (dk_faults d).

Inductive errno := ENOENT | ENOTDIR | EISDIR | ENOTEMPTY | EOTHER.

Definition IsNotExist (e : errno) : bool := match e with ENOENT => true | _ => false end.

(** The working directory, its ancestors and the root exist. *)
Definition is_dir (d : Disk) (p : path) : bool :=
  forallb (λ c, String.eqb c "..") (comps p) || bool_decide (p ∈ dk_dirs d).
Definition is_file (d : Disk) (p : path) : bool := bool_decide (is_Some (dk_files d !! p)).

(** Why a path does not resolve to an entry of an existing directory. *)
Definition resolve (d : Disk) (p : path) : option errno :=
  if existsb (is_file d) (prefixes p) then Some ENOTDIR
  else if is_dir d (Dir p) then None else Some ENOENT.

Definition next_fault (d : Disk) : option nat * Disk :=
  match dk_faults d with
  | [] => (None, d)
  | f :: fs => (f, mkDisk (dk_files d) (dk_dirs d) fs)
  end.

(** A call that either fails without an effect or does its work. *)
Definition syscall (d : Disk) (call : Disk → errno + Disk) : option errno * Disk :=
  let '(f, d) := next_fault d in
  match f with
  | Some _ => (Some EOTHER, d)
  | None => match call d with inl e => (Some e, d) | inr d' => (None, d') end
  end.

Definition os_MkdirAll (p : path) (d : Disk) : option errno * Disk :=
  syscall d (λ d,
    if existsb (is_file d) (prefixes p ++ [p]) then inl ENOTDIR
    else inr (mkDisk (dk_files d) (dk_dirs d ∪ list_to_set (prefixes p ++ [p])) (dk_faults d))).

(** [os.Create] truncates an existing file. *)
Definition os_Create (p : path) (d : Disk) : option errno * Disk :=
  syscall d (λ d,
    match resolve d p with
    | Some e => inl e
    | None => if is_dir d p then inl EISDIR else inr (with_files <[p := Raw []]> d)
    end).

(** Writing a whole stream to a file just created; a fault leaves a prefix. *)
Definition os_copy (p : path) (l : list byte) (d : Disk) : option errno * Disk :=
  let '(f, d) := next_fault d in
  match f with
  | Some k => (Some EOTHER, with_files <[p := Raw (take k l)]> d)
  | None => (None, with_files <[p := Raw l]> d)
  end.

(** [os.WriteFile] of a document: create or truncate, then write. *)
Definition os_WriteFile (p : path) (j : json) (d : Disk) : option errno * Disk :=
  match resolve d p with
  | Some e => let '(f, d) := next_fault d in
              (Some (match f with Some _ => EOTHER | None => e end), d)
  | None =>
    if is_dir d p then let '(f, d) := next_fault d in (Some EISDIR, d)
    else
      let '(f, d) := next_fault d in
      match f with
      | Some O => (Some EOTHER, d)
      | Some (S _) => (Some EOTHER, with_files <[p := Torn]> d)
      | None => (None, with_files <[p := Doc j]> d)
      end
  end.

(** [os.Rename] of a regular file. *)
Definition os_Rename (p q : path) (d : Disk) : option errno * Disk :=
  syscall d (λ d,
    match resolve d p, resolve d q with
    | Some e, _ | _, Some e => inl e
    | None, None =>
      match dk_files d !! p with
      | None => inl ENOENT
      | Some c => if is_dir d q then inl EISDIR
                  else inr (with_files (λ m, <[q := c]> (delete p m)) d)
      end
    end).

Definition below (p q : path) : bool :=
  bool_decide (rooted p = rooted q ∧ comps p `prefix_of` comps q ∧ p ≠ q).

(** [os.Remove] of a file or an empty directory. *)
Definition os_Remove (p : path) (d : Disk) : option errno * Disk :=
  syscall d (λ d,
    match resolve d p with
    | Some e => inl e
    | None =>
      if is_file d p then inr (with_files (delete p) d)
      else if bool_decide (p ∈ dk_dirs d) then
        if existsb (below p) (elements (dk_dirs d) ++ (map_to_list (dk_files d)).*1)
        then inl ENOTEMPTY
        else inr (mkDisk (dk_files d) (dk_dirs d ∖ {[p]}) (dk_faults d))
      else if is_dir d p then inl EOTHER else inl ENOENT
    end).

(** An open file; reading a directory fails. *)
Inductive File := RegularFile (c : content) | DirFile.

Definition os_Open (p : path) (d : Disk) : (errno + File) * Disk :=
  let '(f, d) := next_fault d in
  (match f with
   | Some _ => inl EOTHER
   | None =>
     match resolve d p with
     | Some e => inl e
     | None =>
       match dk_files d !! p with
       | Some c => inr (RegularFile c)
       | None => if is_dir d p then inr DirFile else inl ENOENT
       end
     end
   end, d).

(** [os.ReadFile] *)
Definition os_ReadFile (p : path) (d : Disk) : (errno + content) * Disk :=
  match os_Open p d with
  | (inl e, d) => (inl e, d)
  | (inr DirFile, d) => (inl EISDIR, d)
  | (inr (RegularFile c), d) => (inr c, d)
  end.

(** ** Lemmas on paths *)

Fixpoint no_slash (s : string) : bool :=
  match s with "" => true | String c s' => negb (Ascii.eqb c "/") && no_slash s' end%string.

Lemma split_no_slash s : no_slash s = true → split_slash s = [s].
Proof.
  induction s as [|c s IH]; [done|]. simpl. destruct (Ascii.eqb c "/"); [done|].
  simpl. intros Hs. by rewrite IH.
Qed.

Lemma no_slash_app s t : no_slash (s +:+ t) = no_slash s && no_slash t.
Proof.
  induction s as [|c s IH]; [done|]. change (String c s +:+ t) with (String c (s +:+ t)).
  simpl. by rewrite IH, andb_assoc.
Qed.

Lemma plain_intro s : no_slash s = true → (2 < String.length s)%nat → plain s.
Proof.
  intros Hs Hl. split; [by apply split_no_slash|].
  split_and!; intros ->; simpl in Hl; lia.
Qed.

Lemma clean_plain root acc c : plain c → clean_step root acc c = c :: acc.
Proof.
  intros (_ & H1 & H2 & H3). unfold clean_step.
  rewrite decide_False by (intros [?|?]; done). by rewrite decide_False.
Qed.

Lemma clean_plains root es acc :
  Forall plain es → fold_left (clean_step root) es acc = rev es ++ acc.
Proof.
  intros Hes. revert acc. induction Hes as [|e es He _ IH]; intros acc; [done|]. simpl.
  rewrite clean_plain, IH by done. by rewrite <-app_assoc.
Qed.

Lemma split_plains es : Forall plain es → mjoin (split_slash <$> es) = es.
Proof.
  induction 1 as [|e es [He _] _ IH]; [done|]. csimpl. by rewrite He, IH.
Qed.

(** Joining plain names to a base appends them to the cleaned base. *)
Lemma Join_plain base es :
  Forall plain es →
  Join (base :: es) = mkPath (rooted (Join [base])) (comps (Join [base]) ++ es).
Proof.
  intros Hes. unfold Join.
  assert (filter (λ e, e ≠ "") es = es) as Hf.
  { apply filter_all. intros x Hx. rewrite Forall_forall in Hes.
    by destruct (Hes x Hx) as (_ & ? & _). }
  assert (base = "" → starts_slash (hd "" es) = false) as Hroot.
  { intros _. destruct Hes as [|e es (He & He' & _)]; [done|]. simpl.
    destruct e as [|c e]; [done|]. simpl in *. by destruct (Ascii.eqb c "/"). }
  rewrite !filter_cons, Hf. case_decide as Hb; simpl.
  - rewrite split_plains, app_nil_r by done.
    rewrite fold_left_app, clean_plains by done. by rewrite rev_app_distr, rev_involutive.
  - assert (base = "") as -> by (by destruct (decide (base = ""))).
    rewrite split_plains, clean_plains by done. rewrite app_nil_r, rev_involutive.
    destruct es as [|e es]; [done|]. specialize (Hroot eq_refl). simpl in *. by rewrite Hroot.
Qed.

Lemma Dir_snoc r l x : Dir (mkPath r (l ++ [x])) = mkPath r l.
Proof.
  unfold Dir. simpl. rewrite length_app. simpl.
  replace (pred (length l + 1)) with (length l) by lia. by rewrite take_app_length.
Qed.

Lemma path_append_snoc r l x s :
  path_append (mkPath r (l ++ [x])) s = mkPath r (l ++ [x +:+ s]).
Proof.
  unfold path_append. simpl. rewrite length_app, last_snoc. simpl.
  replace (pred (length l + 1)) with (length l) by lia. by rewrite take_app_length.
Qed.

Lemma elem_of_prefixes p q :
  q ∈ prefixes p ↔ ∃ n, (n < length (comps p))%nat ∧ q = mkPath (rooted p) (take n (comps p)).
Proof.
  unfold prefixes. rewrite list_elem_of_fmap. split.
  - intros (n & -> & Hn). apply elem_of_seq in Hn. exists n. split; [lia|done].
  - intros (n & Hn & ->). exists n. split; [done|]. apply elem_of_seq. lia.
Qed.
