(* ===== verification/LocalStorage.v ===== *)
(** * The content store of a storage node: [backend/dfs/storage/]

    [local_storage.go] and [metadata.go]: files named by the hash of their
    content, a metadata document beside each, and an index that is kept in
    memory and rewritten through a temporary file. The state is the receiver
    together with the disk it works on; a method runs to its end before the
    next one starts. The clock is an argument. *)

From Stdlib Require Import Ascii.
From S2P Require Import Prelude GoStd Hashes Types Json Fs.

Record FileMetadata := mkFileMetadata {
  fm_FileID : uuid;
  fm_Filename : string;
  fm_Hash : string;
  fm_Size : Z;
  fm_ContentType : string;
  fm_StoredAt : Z;
  fm_Status : string }.

(** [LocalStorage] and the disk. The index is a map; [None] is the nil map. *)
Record Store := mkStore {
  st_basePath : string;
  st_index : option (gmap string FileMetadata);
  st_disk : Disk }.

(** An error of a method, with the text [fmt.Errorf] puts in front of it. *)
Inductive error :=
| PathError (op : string) (p : path) (e : errno)
| SyntaxError
| Errorf (msg : string)
| Wrap (msg : string) (e : error).

(** How the operating system words an error. *)
Class ErrnoText := errno_text : string → path → errno → string.

Fixpoint error_text `{ErrnoText} (e : error) : string :=
  match e with
  | PathError op p e => errno_text op p e
  | SyntaxError => "unexpected end of JSON input"
  | Errorf msg => msg
  | Wrap msg e => msg +:+ ": " +:+ error_text e
  end.

Section codec.
Context `{UuidText} `{TimeText}.

Definition FileMetadata_schema : schema :=
  [("file_id", check_uuid); ("filename", check_string); ("hash", check_string);
   ("size", check_int); ("content_type", check_string); ("stored_at", check_time);
   ("status", check_string)].
Definition FileMetadata_to_json (x : FileMetadata) : json :=
  JObj [("file_id", put_uuid (fm_FileID x)); ("filename", JStr (fm_Filename x));
        ("hash", JStr (fm_Hash x)); ("size", JNum (fm_Size x));
        ("content_type", JStr (fm_ContentType x)); ("stored_at", put_time (fm_StoredAt x));
        ("status", JStr (fm_Status x))].
Definition FileMetadata_of_json (j : json) : FileMetadata * derr :=
  let '(m, e) := object FileMetadata_schema j in
  (mkFileMetadata (get_uuid (slot m "file_id")) (get_string (slot m "filename"))
     (get_string (slot m "hash")) (get_int (slot m "size")) (get_string (slot m "content_type"))
     (get_time (slot m "stored_at")) (get_string (slot m "status")), e).

Lemma FileMetadata_json x :
  in_int64 (fm_Size x) = true → FileMetadata_of_json (FileMetadata_to_json x) = (x, DOk).
Proof. intros H1. codec FileMetadata_of_json FileMetadata_to_json. Qed.

(** [json.Marshal(s.index)]: the keys in increasing order. *)
Definition index_to_json (index : gmap string FileMetadata) : json :=
  JObj ((λ kv : string * FileMetadata, (kv.1, FileMetadata_to_json kv.2)) <$>
    SliceStable (λ a b : string * FileMetadata, string_lt a.1 b.1) (map_to_list index)).

(** [json.Unmarshal(data, &s.index)]: members are added to the map in place; a
    value whose decoding is given up is not stored. *)
Fixpoint index_of_members (kvs : list (string * json)) (index : gmap string FileMetadata)
    : gmap string FileMetadata * derr :=
  match kvs with
  | [] => (index, DOk)
  | (k, v) :: kvs' =>
    match FileMetadata_of_json v with
    | (_, DAbort) => (index, DAbort)
    | (x, e) => let '(index', e') := index_of_members kvs' (<[k := x]> index) in
                (index', derr_join e e')
    end
  end.

Definition index_of_json (j : json) (index : option (gmap string FileMetadata))
    : option (gmap string FileMetadata) * derr :=
  match j with
  | JObj kvs => let '(index', e) := index_of_members kvs (default ∅ index) in (Some index', e)
  | JNull => (None, DOk)
  | _ => (index, DSaved)
  end.
End codec.

Section storage.
Context `{UuidText} `{TimeText} `{MapRange} {O : Type}.

Abbreviation M := (GoM Store O).

(** A system call on the disk; [op] names it in the error. *)
Definition sys (op : string) (p : path) (call : Disk → option errno * Disk) : M (option error) :=
  λ s, let '(e, d) := call (st_disk s) in
       ([], Ret (PathError op p <$> e, mkStore (st_basePath s) (st_index s) d)).

Definition Open (p : path) : M (error + File) :=
  λ s, let '(r, d) := os_Open p (st_disk s) in
       ([], Ret (match r with inl e => inl (PathError "open" p e) | inr f => inr f end,
                 mkStore (st_basePath s) (st_index s) d)).

Definition ReadFile (p : path) : M (errno + content) :=
  λ s, let '(r, d) := os_ReadFile p (st_disk s) in
       ([], Ret (r, mkStore (st_basePath s) (st_index s) d)).

Definition basePath : M string := gets st_basePath.

(** [defer f()] around the rest of the method. *)
Definition defer {A} (f : M ()) (body : M A) : M A := r ← body; _ ← f; mret r.

(** [if err := m; err != nil { return err }] *)
Definition check {A} (wrap : error → error) (m : M (option error)) (k : M (error + A)) : M (error + A) :=
  e ← m; match e with Some e => mret (inl (wrap e)) | None => k end.

(** [hash[:2]] *)
Definition prefix2 (hash : string) : M string :=
  if (String.length hash <? 2)%nat then panic "slice bounds out of range"
  else mret (String.substring 0 2 hash).

Definition filePath (hash : string) : M path :=
  b ← basePath; p ← prefix2 hash; mret (Join [b; "data"; p; hash +:+ ".dat"]).

Definition metadataFilePath (hash : string) : M path :=
  b ← basePath; p ← prefix2 hash; mret (Join [b; "data"; p; hash +:+ ".metadata.json"]).

Definition indexPath : M path := b ← basePath; mret (Join [b; "index.json"]).

Definition SaveIndex : M (option error) :=
  index ← gets st_index;
  let jsonStr := match index with Some m => index_to_json m | None => JNull end in
  ip ← indexPath;
  let tmpPath := path_append ip ".tmp" in
  e ← sys "write" tmpPath (os_WriteFile tmpPath jsonStr);
  match e with
  | Some e => mret (Some e)
  | None => ip ← indexPath; sys "rename" tmpPath (os_Rename tmpPath ip)
  end.

(** [s.index[k] = v] *)
Definition index_set (k : string) (v : FileMetadata) : M () :=
  index ← gets st_index;
  match index with
  | None => panic "assignment to entry in nil map"
  | Some m => modify (λ s, mkStore (st_basePath s) (Some (<[k := v]> m)) (st_disk s))
  end.

Definition index_delete (k : string) : M () :=
  modify (λ s, mkStore (st_basePath s) (delete k <$> st_index s) (st_disk s)).

(** The stream to store: its bytes, and whether it ends in a read error
    (worded by the platform) instead of end of file. *)
Record Reader := mkReader { rd_data : list byte; rd_fails : bool }.

(** [nanos] is the clock reading in the name of the temporary file, [now] the
    one in [StoredAt]. *)
Definition SaveFile (nanos now : Z) (fileID : uuid) (filename contentType : string)
    (data : Reader) : M (error + FileMetadata) :=
  b ← basePath;
  check id (sys "mkdir" (Join [b]) (os_MkdirAll (Join [b])))
  (let tmpPath := Join [b; "temp-" +:+ itoa nanos] in
   defer (_ ← sys "remove" tmpPath (os_Remove tmpPath); skip)
   (check id (sys "open" tmpPath (os_Create tmpPath))
    (check id (sys "write" tmpPath (os_copy tmpPath (rd_data data)))
     (if rd_fails data then mret (inl (PathError "read" (mkPath false []) EOTHER)) else
      let size := Z.of_nat (length (rd_data data)) in
      let contentHashStr := sha256_hex (rd_data data) in
      finalPath ← filePath contentHashStr;
      check id (sys "mkdir" (Dir finalPath) (os_MkdirAll (Dir finalPath)))
      (check id (sys "rename" tmpPath (os_Rename tmpPath finalPath))
       (let metadata := mkFileMetadata fileID filename contentHashStr size contentType now "complete" in
        metadataFilePath ← metadataFilePath contentHashStr;
        check (Wrap "failed to write metadata file")
          (sys "write" metadataFilePath
             (os_WriteFile metadataFilePath (FileMetadata_to_json metadata)))
        (_ ← index_set contentHashStr metadata;
         check (Wrap "file saved but index update failed") SaveIndex
         (mret (inr metadata))))))))).

(** [err != nil && !os.IsNotExist(err)] *)
Definition unless_missing (e : option error) : option error :=
  match e with
  | Some (PathError _ _ n) => if IsNotExist n then None else e
  | _ => e
  end.

Definition DeleteFile (hash : string) : M (option error) :=
  path ← filePath hash;
  e ← sys "remove" path (os_Remove path);
  match unless_missing e with
  | Some e => mret (Some (Wrap "failed to delete file" e))
  | None =>
    let metadataFilePath := Join [hash +:+ ".metadata.json"] in
    e ← sys "remove" metadataFilePath (os_Remove metadataFilePath);
    match unless_missing e with
    | Some e => mret (Some (Wrap "failed to delete metadata file" e))
    | None =>
      _ ← index_delete hash;
      e ← SaveIndex;
      mret (Wrap "file deleted but index update failed" <$> e)
    end
  end.

Definition GetFile (hash : string) : M (error + (File * FileMetadata)) :=
  index ← gets st_index;
  match default ∅ index !! hash with
  | None => mret (inl (Errorf ("hash " +:+ hash +:+ " does not exist in the index")))
  | Some metadata =>
    p ← filePath hash;
    r ← Open p;
    mret (match r with inl e => inl e | inr f => inr (f, metadata) end)
  end.

Definition LoadIndex : M (option error) :=
  p ← indexPath;
  r ← ReadFile p;
  match r with
  | inl e => mret (if IsNotExist e then None else Some (PathError "open" p e))
  | inr (Doc j) =>
    index ← gets st_index;
    let '(index', e) := index_of_json j index in
    _ ← modify (λ s, mkStore (st_basePath s) index' (st_disk s));
    mret (match e with DOk => None | _ => Some SyntaxError end)
  | inr _ => mret (Some SyntaxError)
  end.

Definition GetAllMetadata : M (list FileMetadata) :=
  index ← gets st_index; mret (go_range (default ∅ index)).*2.
End storage.

Definition NewLocalStorage (basePath : string) (d : Disk) : Store := mkStore basePath (Some ∅) d.

(** ** Helper lemmas: the shape of the paths *)

(** [base/l1/l2/...] *)
Definition sub (B : path) (l : list string) : path := mkPath (rooted B) (comps B ++ l).

Lemma sub_inj B l l' : sub B l = sub B l' ↔ l = l'.
Proof. unfold sub. split; [|congruence]. intros [= E%(app_inv_head)]. done. Qed.

Lemma sub_nil B : sub B [] = B.
Proof. unfold sub. rewrite app_nil_r. by destruct B. Qed.

Lemma sub_ne_base B x l : B ≠ sub B (x :: l).
Proof. intros E. rewrite <-(sub_nil B) in E at 1. by apply sub_inj in E. Qed.

Lemma Dir_sub B l x : Dir (sub B (l ++ [x])) = sub B l.
Proof. unfold sub. rewrite app_assoc. apply Dir_snoc. Qed.

Lemma prefixes_sub B l q :
  q ∈ prefixes (sub B l) → q ∈ prefixes B ∨ ∃ n, (n < length l)%nat ∧ q = sub B (take n l).
Proof.
  rewrite !elem_of_prefixes. unfold sub. simpl. rewrite length_app. intros (n & Hn & ->).
  rewrite take_app. destruct (decide (n < length (comps B)))%nat.
  - left. exists n. split; [done|]. f_equal.
    replace (n - length (comps B))%nat with 0%nat by lia. by rewrite take_0, app_nil_r.
  - right. exists (n - length (comps B))%nat. split; [lia|]. by rewrite take_ge by lia.
Qed.

Lemma prefixes_not_sub B l : sub B l ∉ prefixes B.
Proof.
  rewrite elem_of_prefixes. intros (n & Hn & E). apply (f_equal (λ p, length (comps p))) in E.
  unfold sub in E. simpl in E. rewrite length_app, length_take in E. lia.
Qed.

(** What the store takes for a hash: 64 hexadecimal digits. *)
Definition wf_hash (h : string) : bool := all_hex h && (String.length h =? 64)%nat.

Lemma hex_no_slash h : all_hex h = true → no_slash h = true.
Proof.
  induction h as [|c h IH]; [done|]. simpl. rewrite !andb_true_iff. intros [Hc Hh].
  split; [|auto]. destruct (Ascii.eqb_spec c "/") as [->|]; done.
Qed.

Lemma length_string_app s t : String.length (s +:+ t) = (String.length s + String.length t)%nat.
Proof.
  induction s as [|c s IH]; [done|]. change (String c s +:+ t) with (String c (s +:+ t)).
  simpl. by rewrite IH.
Qed.

Lemma wf_hash_plain h sfx :
  wf_hash h = true → no_slash sfx = true → plain (h +:+ sfx).
Proof.
  unfold wf_hash. rewrite andb_true_iff, Nat.eqb_eq. intros [Hh Hl] Hs. apply plain_intro.
  - by rewrite no_slash_app, hex_no_slash.
  - rewrite length_string_app. lia.
Qed.

Lemma substring_2 h : (2 ≤ String.length h)%nat →
  ∃ a b t, h = String a (String b t) ∧ String.substring 0 2 h = String a (String b "").
Proof.
  destruct h as [|a [|b t]]; simpl; try lia. intros _. exists a, b, t. by destruct t.
Qed.

Lemma wf_hash_prefix h : wf_hash h = true → plain (String.substring 0 2 h).
Proof.
  unfold wf_hash. rewrite andb_true_iff, Nat.eqb_eq. intros [Hh Hl].
  destruct (substring_2 h) as (a & b & t & -> & ->); [lia|].
  simpl in Hh. rewrite !andb_true_iff in Hh. destruct Hh as (Ha & Hb & _).
  unfold plain. simpl.
  destruct (Ascii.eqb_spec a "/") as [->|]; [done|]. destruct (Ascii.eqb_spec b "/") as [->|]; [done|].
  split_and!; [done|done|done|]. intros [= -> ->]. done.
Qed.

Lemma sha_wf_hash l : wf_hash (sha256_hex l) = true.
Proof. unfold wf_hash. by rewrite sha256_hex_all_hex, length_sha256_hex. Qed.

Lemma app_suffix_inj a b sfx : a +:+ sfx = b +:+ sfx → a = b.
Proof.
  intros E. apply (f_equal bytes_of) in E. rewrite !bytes_of_app in E.
  apply app_inv_tail in E. rewrite <-(string_of_bytes_of a), E. apply string_of_bytes_of.
Qed.

Lemma no_slash_itoa z : no_slash (itoa z) = true.
Proof.
  assert (∀ x s, no_slash s = true → no_slash (pretty_N_go x s) = true) as Hgo.
  { intros x. induction (N.lt_wf_0 x) as [x _ IH]. intros s Hs.
    destruct (decide (x = 0)%N) as [->|Hx]; [by rewrite pretty_N_go_0|].
    rewrite pretty_N_go_step by lia. apply IH; [apply N.div_lt; lia|]. simpl. rewrite Hs.
    unfold pretty_N_char. by repeat case_match. }
  assert (∀ x : N, no_slash (pretty x) = true) as HN.
  { intros x. unfold pretty, pretty_N. case_decide; [done|]. by apply Hgo. }
  unfold itoa, pretty, pretty_Z. destruct z; [done|apply HN|]. rewrite no_slash_app. simpl. apply HN.
Qed.

Lemma temp_plain n : plain ("temp-" +:+ itoa n).
Proof. apply plain_intro; [rewrite no_slash_app; apply no_slash_itoa|rewrite length_string_app; simpl; lia]. Qed.

(** ** The paths of the store *)
Section layout.
Context (b : string).

Definition B : path := Join [b].
Definition tmp_path (n : Z) : path := sub B ["temp-" +:+ itoa n].
Definition data_path (h : string) : path :=
  sub B ["data"; String.substring 0 2 h; h +:+ ".dat"].
Definition meta_path (h : string) : path :=
  sub B ["data"; String.substring 0 2 h; h +:+ ".metadata.json"].
Definition index_path : path := sub B ["index.json"].
Definition index_tmp : path := sub B ["index.json.tmp"].

Lemma Dir_data_path h : Dir (data_path h) = sub B ["data"; String.substring 0 2 h].
Proof. apply (Dir_sub B ["data"; _]). Qed.

Lemma Join_tmp n : Join [b; "temp-" +:+ itoa n] = tmp_path n.
Proof. apply (Join_plain b [_]). repeat constructor; apply temp_plain. Qed.

Lemma Join_index : Join [b; "index.json"] = index_path.
Proof. apply (Join_plain b ["index.json"]). repeat constructor; done. Qed.

Lemma index_tmp_eq : path_append (Join [b; "index.json"]) ".tmp" = index_tmp.
Proof. rewrite Join_index. unfold index_path, sub. apply path_append_snoc. Qed.

Lemma Join_hash h sfx : wf_hash h = true → no_slash sfx = true →
  Join [b; "data"; String.substring 0 2 h; h +:+ sfx] =
  sub B ["data"; String.substring 0 2 h; h +:+ sfx].
Proof.
  intros Hh Hs. apply (Join_plain b ["data"; _; _]). repeat constructor; try done.
  all: try apply wf_hash_prefix; try apply wf_hash_plain; done.
Qed.

(** Different files have different paths. *)
Lemma data_path_inj h h' : data_path h = data_path h' → h = h'.
Proof. intros E%sub_inj. injection E. intros E' _. by apply app_suffix_inj in E'. Qed.

Lemma data_meta_ne h h' : wf_hash h = true → wf_hash h' = true → data_path h ≠ meta_path h'.
Proof.
  unfold wf_hash. rewrite !andb_true_iff, !Nat.eqb_eq. intros [_ H1] [_ H2] E%sub_inj.
  injection E. intros E' _. apply (f_equal String.length) in E'.
  rewrite !length_string_app in E'. simpl in E'. lia.
Qed.

Lemma data_other_ne h : data_path h ≠ index_path ∧ data_path h ≠ index_tmp ∧
  (∀ n, data_path h ≠ tmp_path n).
Proof. split_and!; [| |intros n]; intros E%sub_inj; discriminate E. Qed.

(** A disk on which the store can work: what it needs as a directory is not a
    file, and where it puts a file there is no directory. *)
Record layout (d : Disk) : Prop := {
  lay_base : ∀ p, p ∈ prefixes B ++ [B] → dk_files d !! p = None;
  lay_data : dk_files d !! sub B ["data"] = None;
  lay_sub : ∀ x, String.length x = 2%nat → dk_files d !! sub B ["data"; x] = None;
  lay_top : ∀ x, sub B [x] ∈ dk_dirs d → x = "data";
  lay_deep : ∀ x y, sub B ["data"; x; y] ∉ dk_dirs d }.

Lemma not_is_dir d l x : plain x → sub B (l ++ [x]) ∉ dk_dirs d → is_dir d (sub B (l ++ [x])) = false.
Proof.
  intros (_ & _ & _ & Hx) Hd. unfold is_dir. rewrite bool_decide_false by done.
  rewrite orb_false_r. unfold sub. simpl. rewrite app_assoc, forallb_app. simpl.
  destruct (String.eqb_spec x ".."); [done|]. by rewrite andb_false_r.
Qed.

Lemma is_file_false d p : dk_files d !! p = None → is_file d p = false.
Proof. intros Hp. apply bool_decide_eq_false. rewrite Hp. by intros [? ?]. Qed.

Lemma resolve_top d x : layout d → B ∈ dk_dirs d → resolve d (sub B [x]) = None.
Proof.
  intros Hd HB. unfold resolve. assert (Dir (sub B [x]) = sub B []) as -> by apply (Dir_sub B []).
  replace (existsb _ _) with false; [unfold is_dir|].
  - rewrite sub_nil. rewrite bool_decide_true; [by rewrite orb_true_r|done].
  - symmetry. apply not_true_iff_false. intros (q & Hq%list_elem_of_In & Hf)%existsb_exists.
    rewrite is_file_false in Hf; [done|]. apply (lay_base d Hd), elem_of_app.
    apply prefixes_sub in Hq as [?|(n & Hn & ->)]; [by left|right]. simpl in Hn.
    replace n with 0%nat by lia. rewrite sub_nil. by apply list_elem_of_singleton.
Qed.

Lemma resolve_deep d x y : layout d → String.length x = 2%nat → sub B ["data"; x] ∈ dk_dirs d →
  resolve d (sub B ["data"; x; y]) = None.
Proof.
  intros Hd Hx Hin. unfold resolve. assert (Dir (sub B ["data"; x; y]) = sub B ["data"; x]) as -> by apply (Dir_sub B ["data"; x]).
  replace (existsb _ _) with false; [unfold is_dir; by rewrite bool_decide_true, orb_true_r|].
  symmetry. apply not_true_iff_false. intros (q & Hq%list_elem_of_In & Hf)%existsb_exists.
  rewrite is_file_false in Hf; [done|].
  apply prefixes_sub in Hq as [?|(n & Hn & ->)]; [apply (lay_base d Hd); set_solver|].
  simpl in Hn. destruct n as [|[|[|n]]]; [|by apply lay_data|by apply lay_sub|lia].
  apply (lay_base d Hd), elem_of_app. right. rewrite sub_nil. by apply list_elem_of_singleton.
Qed.

(** The layout survives writing the store's own files and directories. *)
Lemma layout_files d p c : layout d →
  (∃ x, plain x ∧ x ≠ "data" ∧ p = sub B [x]) ∨ (∃ x y, p = sub B ["data"; x; y]) →
  layout (with_files <[p := c]> d).
Proof.
  intros Hd Hp.
  assert (∀ q, q ∈ prefixes B ++ [B] ∨ q = sub B ["data"] ∨ (∃ x, q = sub B ["data"; x]) → p ≠ q) as Hne.
  { intros q Hq ->. destruct Hq as [[Hq|Hq%list_elem_of_singleton]%elem_of_app|[->|[z ->]]].
    - destruct Hp as [(x & _ & _ & ->)|(x & y & ->)]; by apply prefixes_not_sub in Hq.
    - destruct Hp as [(x & _ & _ & E)|(x & y & E)]; rewrite Hq in E; by apply sub_ne_base in E.
    - destruct Hp as [(x & _ & ? & E%sub_inj)|(x & y & E%sub_inj)]; [congruence|done].
    - destruct Hp as [(x & _ & _ & E%sub_inj)|(x & y & E%sub_inj)]; done. }
  split; simpl.
  - intros q Hq. rewrite lookup_insert_ne by auto. by apply (lay_base d Hd).
  - rewrite lookup_insert_ne by auto. by apply (lay_data d Hd).
  - intros x Hx. rewrite lookup_insert_ne by eauto. by apply (lay_sub d Hd).
  - apply (lay_top d Hd).
  - apply (lay_deep d Hd).
Qed.

Lemma layout_delete d p : layout d → layout (with_files (delete p) d).
Proof.
  intros [H1 H2 H3 H4 H5]. split; simpl; intros *; rewrite ?lookup_delete_None; eauto.
Qed.

Lemma layout_mkdir d l fs :
  layout d → l = [] ∨ (∃ x, l = ["data"; x] ∧ String.length x = 2%nat) →
  existsb (is_file d) (prefixes (sub B l) ++ [sub B l]) = false ∧
  layout (mkDisk (dk_files d) (dk_dirs d ∪ list_to_set (prefixes (sub B l) ++ [sub B l])) fs).
Proof.
  intros Hd Hl.
  assert (∀ q, q ∈ prefixes (sub B l) ++ [sub B l] →
    q ∈ prefixes B ++ [B] ∨ q = sub B ["data"] ∨ (∃ x, q = sub B ["data"; x] ∧ String.length x = 2%nat)) as Hq.
  { intros q [Hq|Hq%list_elem_of_singleton]%elem_of_app.
    - apply prefixes_sub in Hq as [?|(n & Hn & ->)]; [left; set_solver|].
      destruct Hl as [->|(x & -> & Hx)]; simpl in Hn; [lia|].
      destruct n as [|[|n]]; [|by right; left|lia]. left. rewrite sub_nil. set_solver.
    - destruct Hl as [->|(x & -> & Hx)]; [|right; right; eauto]. left.
      rewrite sub_nil in Hq. set_solver. }
  split.
  - apply not_true_iff_false. intros (q & Hin%list_elem_of_In & Hf)%existsb_exists.
    rewrite is_file_false in Hf; [done|].
    destruct (Hq q Hin) as [?|[->|(x & -> & Hx)]];
      [by apply (lay_base d Hd)|by apply lay_data|by apply lay_sub].
  - destruct Hd as [H1 H2 H3 H4 H5]. split; simpl; [done|done|done| |].
    + intros x [?|Hx%elem_of_list_to_set]%elem_of_union; [auto|].
      destruct (Hq _ Hx) as [[Hp|Hp%list_elem_of_singleton]%elem_of_app|[E%sub_inj|(z & E%sub_inj & _)]].
      * by apply prefixes_not_sub in Hp.
      * symmetry in Hp. by apply sub_ne_base in Hp.
      * by injection E.
      * done.
    + intros x y [?|Hx%elem_of_list_to_set]%elem_of_union; [by apply (H5 x y)|].
      destruct (Hq _ Hx) as [[Hp|Hp%list_elem_of_singleton]%elem_of_app|[E%sub_inj|(z & E%sub_inj & _)]];
        [by apply prefixes_not_sub in Hp|symmetry in Hp; by apply sub_ne_base in Hp|done|done].
Qed.

(** ** System calls that no fault disturbs *)

Lemma MkdirAll_run p files dirs :
  existsb (is_file (mkDisk files dirs [])) (prefixes p ++ [p]) = false →
  os_MkdirAll p (mkDisk files dirs []) =
    (None, mkDisk files (dirs ∪ list_to_set (prefixes p ++ [p])) []).
Proof. intros H. unfold os_MkdirAll, syscall. simpl. by rewrite H. Qed.

Lemma Create_run p files dirs :
  resolve (mkDisk files dirs []) p = None → is_dir (mkDisk files dirs []) p = false →
  os_Create p (mkDisk files dirs []) = (None, mkDisk (<[p := Raw []]> files) dirs []).
Proof. intros H1 H2. unfold os_Create, syscall. simpl. by rewrite H1, H2. Qed.

Lemma copy_run p l files dirs :
  os_copy p l (mkDisk files dirs []) = (None, mkDisk (<[p := Raw l]> files) dirs []).
Proof. done. Qed.

Lemma WriteFile_run p j files dirs :
  resolve (mkDisk files dirs []) p = None → is_dir (mkDisk files dirs []) p = false →
  os_WriteFile p j (mkDisk files dirs []) = (None, mkDisk (<[p := Doc j]> files) dirs []).
Proof. intros H1 H2. unfold os_WriteFile. simpl. by rewrite H1, H2. Qed.

Lemma Rename_run p q c files dirs :
  resolve (mkDisk files dirs []) p = None → resolve (mkDisk files dirs []) q = None →
  files !! p = Some c → is_dir (mkDisk files dirs []) q = false →
  os_Rename p q (mkDisk files dirs []) = (None, mkDisk (<[q := c]> (delete p files)) dirs []).
Proof. intros H1 H2 H3 H4. unfold os_Rename, syscall. simpl. by rewrite H1, H2, H3, H4. Qed.

Lemma Remove_missing_run p files dirs :
  resolve (mkDisk files dirs []) p = None → files !! p = None →
  is_dir (mkDisk files dirs []) p = false →
  os_Remove p (mkDisk files dirs []) = (Some ENOENT, mkDisk files dirs []).
Proof.
  intros H1 H2 H3. unfold os_Remove, syscall. simpl. rewrite H1, is_file_false by done.
  pose proof H3 as H4. unfold is_dir in H4. apply orb_false_iff in H4 as [_ H4]. simpl in H4.
  by rewrite H4, H3.
Qed.

Lemma Remove_file_run p c files dirs :
  resolve (mkDisk files dirs []) p = None → files !! p = Some c →
  os_Remove p (mkDisk files dirs []) = (None, mkDisk (delete p files) dirs []).
Proof.
  intros H1 H2. unfold os_Remove, syscall, is_file. simpl. rewrite H1, H2.
  by rewrite bool_decide_true by done.
Qed.
End layout.

(** ** Methods that no fault disturbs *)
Section runs.
Context `{UuidText} `{TimeText} `{MapRange} {O : Type}.
Context (b : string).

Abbreviation at_disk idx files dirs := (mkStore b idx (mkDisk files dirs [])).

Lemma sys_run op p call idx d e d' :
  call d = (e, d') →
  sys (O := O) op p call (mkStore b idx d) = ([], Ret (PathError op p <$> e, mkStore b idx d')).
Proof. intros E. unfold sys. simpl. by rewrite E. Qed.

Lemma check_run {A} wrap m (k : GoM Store O (error + A)) s s1 :
  m s = ([], Ret (None, s1)) → check wrap m k s = k s1.
Proof. intros E. unfold check. by rewrite (bind_silent _ _ _ _ _ E). Qed.

Lemma sys_ok op p call idx d d' :
  call d = (None, d') →
  sys (O := O) op p call (mkStore b idx d) = ([], Ret (None, mkStore b idx d')).
Proof. intros E. by rewrite (sys_run _ _ _ _ _ _ _ E). Qed.

Lemma filePath_run h idx d : wf_hash h = true →
  filePath (O := O) h (mkStore b idx d) = ([], Ret (data_path b h, mkStore b idx d)).
Proof.
  intros Hh. unfold filePath. rewrite (bind_silent _ _ _ b (mkStore b idx d)) by done.
  assert (String.length h <? 2 = false)%nat as Hl
    by (unfold wf_hash in Hh; apply andb_true_iff in Hh as [_ ->%Nat.eqb_eq]; done).
  unfold prefix2. rewrite Hl.
  rewrite (bind_silent _ _ _ (String.substring 0 2 h) (mkStore b idx d)) by done.
  by rewrite Join_hash.
Qed.

Lemma metadataFilePath_run h idx d : wf_hash h = true →
  metadataFilePath (O := O) h (mkStore b idx d) = ([], Ret (meta_path b h, mkStore b idx d)).
Proof.
  intros Hh. unfold metadataFilePath. rewrite (bind_silent _ _ _ b (mkStore b idx d)) by done.
  assert (String.length h <? 2 = false)%nat as Hl
    by (unfold wf_hash in Hh; apply andb_true_iff in Hh as [_ ->%Nat.eqb_eq]; done).
  unfold prefix2. rewrite Hl.
  rewrite (bind_silent _ _ _ (String.substring 0 2 h) (mkStore b idx d)) by done.
  by rewrite Join_hash.
Qed.

Definition index_doc (idx : option (gmap string FileMetadata)) : json :=
  match idx with Some m => index_to_json m | None => JNull end.

(** The files after the index has been rewritten. *)
Definition with_index (j : json) (files : gmap path content) : gmap path content :=
  <[index_path b := Doc j]> (delete (index_tmp b) (<[index_tmp b := Doc j]> files)).

Lemma plain_index_tmp : plain "index.json.tmp".
Proof. done. Qed.
Lemma plain_index : plain "index.json".
Proof. done. Qed.

Lemma SaveIndex_run idx files dirs :
  layout b (mkDisk files dirs []) → B b ∈ dirs →
  SaveIndex (O := O) (at_disk idx files dirs) =
    ([], Ret (None, at_disk idx (with_index (index_doc idx) files) dirs)).
Proof.
  intros Hd HB. unfold SaveIndex. erewrite bind_silent by done. cbv zeta.
  unfold indexPath. erewrite bind_silent by (by erewrite bind_silent by done).
  rewrite index_tmp_eq. fold (index_doc idx).
  assert (∀ x, plain x → x ≠ "data" → is_dir (mkDisk files dirs []) (sub (B b) [x]) = false) as Hnd.
  { intros x Hx Hne. apply (not_is_dir b _ []); [done|]. intros Hin. by apply (lay_top b _ Hd) in Hin. }
  assert (layout b (mkDisk (<[index_tmp b := Doc (index_doc idx)]> files) dirs [])) as Hd1.
  { apply (layout_files b _ _ _ Hd). left. by exists "index.json.tmp". }
  erewrite bind_silent;
    [|apply sys_ok, WriteFile_run; [by apply resolve_top|by apply Hnd]].
  simpl. erewrite bind_silent by (by erewrite bind_silent by done). rewrite Join_index.
  apply sys_ok, Rename_run.
  - by apply resolve_top.
  - by apply resolve_top.
  - by rewrite lookup_insert_eq.
  - by apply Hnd.
Qed.

Definition dirs_of (p : path) : gset path := list_to_set (prefixes p ++ [p]).

(** The disk after [SaveFile] of the bytes [l]. *)
Definition saved_files (n : Z) (md : FileMetadata) (l : list byte)
    (idx : gmap string FileMetadata) (files : gmap path content) : gmap path content :=
  with_index (index_to_json (<[fm_Hash md := md]> idx))
    (<[meta_path b (fm_Hash md) := Doc (FileMetadata_to_json md)]>
       (<[data_path b (fm_Hash md) := Raw l]>
          (delete (tmp_path b n) (<[tmp_path b n := Raw l]> (<[tmp_path b n := Raw []]> files))))).

Definition saved_dirs (h : string) (dirs : gset path) : gset path :=
  dirs ∪ dirs_of (B b) ∪ dirs_of (sub (B b) ["data"; String.substring 0 2 h]).

Lemma sys_err op p call idx d e d' :
  call d = (Some e, d') →
  sys (O := O) op p call (mkStore b idx d) = ([], Ret (Some (PathError op p e), mkStore b idx d')).
Proof. intros E. by rewrite (sys_run _ _ _ _ _ _ _ E). Qed.

Lemma substring_2_length h : wf_hash h = true → String.length (String.substring 0 2 h) = 2%nat.
Proof.
  intros Hh. unfold wf_hash in Hh. apply andb_true_iff in Hh as [_ Hl%Nat.eqb_eq].
  destruct (substring_2 h) as (x & y & t & -> & ->); [lia|done].
Qed.

Lemma tmp_ne n : tmp_path b n ≠ index_path b ∧ tmp_path b n ≠ index_tmp b ∧
  (∀ h, tmp_path b n ≠ data_path b h) ∧ ∀ h, tmp_path b n ≠ meta_path b h.
Proof. split_and!; [| |intros h|intros h]; intros E%sub_inj; discriminate E. Qed.

(** The content is found under its hash. *)
Lemma saved_files_data n md l idx files : wf_hash (fm_Hash md) = true →
  saved_files n md l idx files !! data_path b (fm_Hash md) = Some (Raw l).
Proof.
  intros Hh. destruct (data_other_ne b (fm_Hash md)) as (D1 & D2 & _).
  pose proof (data_meta_ne b _ _ Hh Hh) as D4. unfold saved_files, with_index.
  rewrite lookup_insert_ne by done. rewrite lookup_delete_ne, !lookup_insert_ne by done.
  apply lookup_insert_eq.
Qed.

Lemma defer_run {A} (f : GoM Store O ()) (body : GoM Store O A) s r s1 s2 :
  body s = ([], Ret (r, s1)) → f s1 = ([], Ret ((), s2)) → defer f body s = ([], Ret (r, s2)).
Proof.
  intros E1 E2. unfold defer. rewrite (bind_silent _ _ _ _ _ E1).
  by rewrite (bind_silent _ _ _ _ _ E2).
Qed.

Lemma basePath_run idx d : basePath (O := O) (mkStore b idx d) = ([], Ret (b, mkStore b idx d)).
Proof. done. Qed.

Lemma not_dir_top F D x :
  layout b (mkDisk F D []) → plain x → x ≠ "data" → is_dir (mkDisk F D []) (sub (B b) [x]) = false.
Proof.
  intros HF Hp Hne. apply (not_is_dir b _ []); [done|]. intros Hin. by apply (lay_top b _ HF) in Hin.
Qed.

Lemma not_dir_deep F D x y :
  layout b (mkDisk F D []) → plain y → is_dir (mkDisk F D []) (sub (B b) ["data"; x; y]) = false.
Proof. intros HF Hp. apply (not_is_dir b _ ["data"; x]); [done|]. apply (lay_deep b _ HF). Qed.

Lemma layout_tmp n c F D :
  layout b (mkDisk F D []) → layout b (mkDisk (<[tmp_path b n := c]> F) D []).
Proof.
  intros HF. apply (layout_files b _ _ _ HF). left. eexists.
  split_and!; [apply temp_plain| |done]. done.
Qed.

Lemma layout_deep h sfx c F D :
  layout b (mkDisk F D []) →
  layout b (mkDisk (<[sub (B b) ["data"; String.substring 0 2 h; h +:+ sfx] := c]> F) D []).
Proof. intros HF. apply (layout_files b _ _ _ HF). right. eauto. Qed.

Lemma layout_with_index j F D :
  layout b (mkDisk F D []) → layout b (mkDisk (with_index j F) D []).
Proof.
  intros HF. assert (∀ x c F', plain x → x ≠ "data" → layout b (mkDisk F' D []) →
    layout b (mkDisk (<[sub (B b) [x] := c]> F') D [])) as Hins.
  { intros x c F' Hx Hne HF'. apply (layout_files b _ _ _ HF'). left. by exists x. }
  unfold with_index. apply Hins; [done|done|]. apply (layout_delete b (mkDisk _ D [])).
  by apply Hins.
Qed.

(** The directories [SaveFile] makes. *)
Lemma mkdir_base F D :
  layout b (mkDisk F D []) →
  os_MkdirAll (B b) (mkDisk F D []) = (None, mkDisk F (D ∪ dirs_of (B b)) []) ∧
  layout b (mkDisk F (D ∪ dirs_of (B b)) []) ∧ B b ∈ D ∪ dirs_of (B b).
Proof.
  intros HF. destruct (layout_mkdir b _ [] [] HF (or_introl eq_refl)) as [Hf Hd].
  rewrite sub_nil in Hf, Hd. split_and!; [by apply MkdirAll_run|done|].
  unfold dirs_of. set_solver.
Qed.

Lemma mkdir_sub F D h :
  layout b (mkDisk F D []) → wf_hash h = true →
  let P := sub (B b) ["data"; String.substring 0 2 h] in
  os_MkdirAll P (mkDisk F D []) = (None, mkDisk F (D ∪ dirs_of P) []) ∧
  layout b (mkDisk F (D ∪ dirs_of P) []) ∧ P ∈ D ∪ dirs_of P.
Proof.
  intros HF Hh P. pose proof (substring_2_length h Hh) as Hx.
  destruct (layout_mkdir b _ ["data"; String.substring 0 2 h] []
    HF (or_intror (ex_intro _ _ (conj eq_refl Hx)))) as [Hf Hd].
  split_and!; [by apply MkdirAll_run|done|]. unfold dirs_of. set_solver.
Qed.

Lemma SaveFile_run n now fid fn ct l idx files dirs :
  layout b (mkDisk files dirs []) →
  let h := sha256_hex l in
  let md := mkFileMetadata fid fn h (Z.of_nat (length l)) ct now "complete" in
  SaveFile (O := O) n now fid fn ct (mkReader l false) (at_disk (Some idx) files dirs) =
    ([], Ret (inr md, at_disk (Some (<[h := md]> idx)) (saved_files n md l idx files)
                        (saved_dirs h dirs))) ∧
  layout b (mkDisk (saved_files n md l idx files) (saved_dirs h dirs) []).
Proof.
  intros Hd h md. pose proof (sha_wf_hash l) as Hh. fold h in Hh.
  destruct (tmp_ne n) as (T1 & T2 & T3 & T4).
  destruct (mkdir_base _ _ Hd) as (R1 & Hd1 & HB). set (dirs1 := dirs ∪ dirs_of (B b)) in *.
  pose proof (layout_tmp n (Raw []) _ _ Hd1) as Hd1'.
  pose proof (layout_tmp n (Raw l) _ _ Hd1') as Hd2.
  set (files2 := <[tmp_path b n := Raw l]> _) in Hd2.
  destruct (mkdir_sub _ _ h Hd2 Hh) as (R2 & Hd3 & Hsub).
  change (dirs1 ∪ dirs_of _) with (saved_dirs h dirs) in *.
  assert (B b ∈ saved_dirs h dirs) as HB' by (unfold saved_dirs; fold dirs1; set_solver).
  pose proof (layout_delete b _ (tmp_path b n) Hd3) as Hd4.
  pose proof (layout_deep h ".dat" (Raw l) _ _ Hd4) as Hd5. fold (data_path b h) in Hd5.
  pose proof (layout_deep h ".metadata.json" (Doc (FileMetadata_to_json md)) _ _ Hd5) as Hd6.
  fold (meta_path b h) in Hd6. simpl in Hd4, Hd5, Hd6.
  pose proof (layout_with_index (index_to_json (<[h := md]> idx)) _ _ Hd6) as Hd7.
  pose proof (substring_2_length h Hh) as Hx.
  pose proof (wf_hash_plain h ".dat" Hh eq_refl) as Hp1.
  pose proof (wf_hash_plain h ".metadata.json" Hh eq_refl) as Hp2.
  assert (saved_files n md l idx files !! tmp_path b n = None) as Hgone.
  { unfold saved_files, with_index. rewrite !lookup_insert_ne by auto.
    rewrite lookup_delete_ne, !lookup_insert_ne by auto. apply lookup_delete_eq. }
  split; [|exact Hd7].
  unfold SaveFile. rewrite (bind_silent _ _ _ _ _ (basePath_run _ _)). cbv zeta.
  rewrite Join_tmp. change (Join [b]) with (B b).
  rewrite (check_run _ _ _ _ _ (sys_ok _ _ _ _ _ _ R1)).
  eapply defer_run.
  - rewrite (check_run _ _ _ _ _ (sys_ok _ _ _ _ _ _ (Create_run _ _ _
      (resolve_top _ _ _ Hd1 HB) (not_dir_top _ _ _ Hd1 (temp_plain n) ltac:(done))))).
    rewrite (check_run _ _ _ _ _ (sys_ok _ _ _ _ _ _ (copy_run _ _ _ _))).
    cbn [rd_fails rd_data]. cbv zeta. fold h files2.
    rewrite (bind_silent _ _ _ _ _ (filePath_run _ _ _ Hh)).
    rewrite Dir_data_path, (check_run _ _ _ _ _ (sys_ok _ _ _ _ _ _ R2)).
    rewrite (check_run _ _ _ _ _ (sys_ok _ _ _ _ _ _ (Rename_run _ _ (Raw l) _ _
      (resolve_top _ _ _ Hd3 HB') (resolve_deep _ _ _ _ Hd3 Hx Hsub) (lookup_insert_eq _ _ _)
      (not_dir_deep _ _ _ _ Hd3 Hp1)))). cbv zeta. fold md.
    rewrite (bind_silent _ _ _ _ _ (metadataFilePath_run _ _ _ Hh)).
    rewrite (check_run _ _ _ _ _ (sys_ok _ _ _ _ _ _ (WriteFile_run _ _ _ _
      (resolve_deep _ _ _ _ Hd5 Hx Hsub) (not_dir_deep _ _ _ _ Hd5 Hp2)))).
    rewrite (bind_silent _ _ _ () (at_disk (Some (<[h := md]> idx)) _ _)) by done.
    rewrite (check_run _ _ _ _ _ (SaveIndex_run _ _ _ Hd6 HB')). reflexivity.
  - rewrite (bind_silent _ _ _ _ _ (sys_err _ _ _ _ _ _ _ (Remove_missing_run _ _ _
      (resolve_top _ _ _ Hd7 HB') Hgone (not_dir_top _ _ _ Hd7 (temp_plain n) ltac:(done))))).
    reflexivity.
Qed.
End runs.

(** ** Methods under any faults *)

(** A silent method that cannot panic, whatever the faults. *)
Definition hoare {O A} (P : Store → Prop) (m : GoM Store O A) (Q : A → Store → Prop) : Prop :=
  ∀ s, P s → ∃ a s', m s = ([], Ret (a, s')) ∧ Q a s'.

Section hoare.
Context {O : Type}.

Lemma hoare_ret {A} (a : A) (P : Store → Prop) (Q : A → Store → Prop) :
  (∀ s, P s → Q a s) → hoare P (mret a : GoM Store O A) Q.
Proof. intros HQ s Hs. exists a, s. auto. Qed.

Lemma hoare_bind {A C} (m : GoM Store O A) (f : A → GoM Store O C) P R Q :
  hoare P m R → (∀ a, hoare (R a) (f a) Q) → hoare P (m ≫= f) Q.
Proof.
  intros Hm Hf s Hs. destruct (Hm s Hs) as (a & s1 & E & HR).
  destruct (Hf a s1 HR) as (c & s2 & E2 & HQ). exists c, s2.
  by rewrite (bind_silent _ _ _ _ _ E).
Qed.

Lemma hoare_pre {A} (m : GoM Store O A) (P P' : Store → Prop) Q :
  hoare P' m Q → (∀ s, P s → P' s) → hoare P m Q.
Proof. intros Hm HP s Hs. eauto. Qed.

Lemma hoare_post {A} (m : GoM Store O A) P (Q Q' : A → Store → Prop) :
  hoare P m Q' → (∀ a s, Q' a s → Q a s) → hoare P m Q.
Proof. intros Hm HQ s Hs. destruct (Hm s Hs) as (a & s' & E & H). eauto. Qed.

Lemma hoare_check {A} wrap m (k : GoM Store O (error + A)) P R E Q :
  hoare P m (λ e s, match e with None => R s | Some _ => E s end) →
  (∀ er s, E s → Q (inl er) s) → hoare R k Q → hoare P (check wrap m k) Q.
Proof.
  intros Hm HE Hk. eapply hoare_bind; [exact Hm|]. intros [er|]; [|exact Hk].
  apply hoare_ret. intros s Hs. by apply HE.
Qed.

Lemma hoare_defer {A} (f : GoM Store O ()) (body : GoM Store O A) P (Q : A → Store → Prop) :
  hoare P body Q → (∀ a, hoare (Q a) f (λ _, Q a)) → hoare P (defer f body) Q.
Proof.
  intros Hb Hf. eapply hoare_bind; [exact Hb|]. intros a.
  eapply hoare_bind; [apply Hf|]. intros u. by apply hoare_ret.
Qed.

Lemma hoare_sys op p call (P : Store → Prop) (Q : option error → Store → Prop) :
  (∀ s e d', P s → call (st_disk s) = (e, d') →
    Q (PathError op p <$> e) (mkStore (st_basePath s) (st_index s) d')) →
  hoare P (sys (O := O) op p call) Q.
Proof.
  intros HQ s Hs. unfold sys. destruct (call (st_disk s)) as [e d'] eqn:E.
  do 2 eexists. split; [done|]. by apply HQ.
Qed.
End hoare.

(** The entries a call can change: everything else stays. *)
Definition touches (ps : list path) (d d' : Disk) : Prop :=
  ∀ q, q ∉ ps → dk_files d' !! q = dk_files d !! q ∧ (q ∈ dk_dirs d → q ∈ dk_dirs d').

Lemma touches_refl ps d fs : touches ps d (mkDisk (dk_files d) (dk_dirs d) fs).
Proof. done. Qed.

Lemma next_fault_disk d f d' : next_fault d = (f, d') →
  dk_files d' = dk_files d ∧ dk_dirs d' = dk_dirs d.
Proof. unfold next_fault. destruct (dk_faults d); by intros [= <- <-]. Qed.

Lemma syscall_touches ps call d e d' :
  (∀ d1 d2, call d1 = inr d2 → touches ps d1 d2) →
  syscall d call = (e, d') → touches ps d d'.
Proof.
  intros Hcall. unfold syscall. destruct (next_fault d) as [f d1] eqn:Ef.
  apply next_fault_disk in Ef as [Ef Ed]. unfold touches.
  destruct f; [intros [= <- <-]; intros q _; by rewrite Ef, Ed|].
  destruct (call d1) eqn:Ec; intros [= <- <-] q Hq; [by rewrite Ef, Ed|].
  destruct (Hcall _ _ Ec q Hq) as [H1 H2]. rewrite Ef in H1. rewrite Ed in H2. auto.
Qed.

Lemma Create_touches p d e d' : os_Create p d = (e, d') → touches [p] d d'.
Proof.
  apply syscall_touches. intros d1 d2. destruct (resolve d1 p); [done|].
  destruct (is_dir d1 p); [done|]. intros [= <-] q Hq. simpl.
  rewrite lookup_insert_ne by set_solver. auto.
Qed.

Lemma Remove_touches p d e d' : os_Remove p d = (e, d') → touches [p] d d'.
Proof.
  apply syscall_touches. intros d1 d2. destruct (resolve d1 p); [done|].
  destruct (is_file d1 p); [intros [= <-] q Hq; simpl; rewrite lookup_delete_ne by set_solver; auto|].
  case_bool_decide; [|by destruct (is_dir d1 p)]. destruct (existsb _ _); [done|].
  intros [= <-] q Hq. simpl. split; [done|]. set_solver.
Qed.

Lemma MkdirAll_touches p d e d' : os_MkdirAll p d = (e, d') → touches [] d d'.
Proof.
  apply syscall_touches. intros d1 d2. destruct (existsb _ _); [done|].
  intros [= <-] q Hq. simpl. set_solver.
Qed.

Lemma Rename_touches p q d e d' : os_Rename p q d = (e, d') → touches [p; q] d d'.
Proof.
  apply syscall_touches. intros d1 d2. destruct (resolve d1 p); [done|].
  destruct (resolve d1 q); [done|]. destruct (dk_files d1 !! p); [|done].
  destruct (is_dir d1 q); [done|]. intros [= <-] r Hr. simpl.
  rewrite lookup_insert_ne, lookup_delete_ne by set_solver. auto.
Qed.

Lemma copy_touches p l d e d' : os_copy p l d = (e, d') → touches [p] d d'.
Proof.
  unfold os_copy, touches. destruct (next_fault d) as [f d1] eqn:Ef.
  apply next_fault_disk in Ef as [Ef Ed].
  destruct f; intros [= <- <-] q Hq; simpl; rewrite lookup_insert_ne, Ef, Ed by set_solver; auto.
Qed.

Lemma WriteFile_touches p j d e d' : os_WriteFile p j d = (e, d') → touches [p] d d'.
Proof.
  unfold os_WriteFile, touches. destruct (next_fault d) as [f d1] eqn:Ef.
  apply next_fault_disk in Ef as [Ef Ed].
  destruct (resolve d p); [intros [= <- <-] q Hq; by rewrite Ef, Ed|].
  destruct (is_dir d p); [intros [= <- <-] q Hq; by rewrite Ef, Ed|].
  destruct f as [[|k]|]; intros [= <- <-] q Hq; simpl;
    rewrite ?lookup_insert_ne, ?Ef, ?Ed by set_solver; auto.
Qed.

Lemma Rename_result p q c d e d' : dk_files d !! p = Some c → os_Rename p q d = (e, d') →
  (e = None ∧ dk_files d' !! q = Some c) ∨ (e ≠ None ∧ dk_files d' !! q = dk_files d !! q).
Proof.
  intros Hp. unfold os_Rename, syscall. destruct (next_fault d) as [f d1] eqn:Ef.
  apply next_fault_disk in Ef as [Ef Ed]. destruct f; [intros [= <- <-]; right; by rewrite Ef|].
  destruct (resolve d1 p); [intros [= <- <-]; right; by rewrite Ef|].
  destruct (resolve d1 q); [intros [= <- <-]; right; by rewrite Ef|].
  rewrite Ef, Hp. destruct (is_dir d1 q); intros [= <- <-]; [right; by rewrite Ef|].
  left. simpl. by rewrite lookup_insert_eq.
Qed.

Lemma WriteFile_result p j d d' : os_WriteFile p j d = (None, d') → dk_files d' !! p = Some (Doc j).
Proof.
  unfold os_WriteFile. destruct (next_fault d) as [f d1].
  destruct (resolve d p); [by destruct f|]. destruct (is_dir d p); [done|].
  destruct f as [[|k]|]; intros [= <-]; [apply lookup_insert_eq].
Qed.

#[export] Hint Resolve Create_touches Remove_touches MkdirAll_touches Rename_touches
  copy_touches WriteFile_touches : go.

(** Every indexed file is on the disk under its hash, with a content of that
    hash; the recorded size is that of a content of that hash (of this very
    content, as long as SHA-256 has no collision). *)
Definition content_ok (b : string) (idx : gmap string FileMetadata) (d : Disk) : Prop :=
  ∀ h m, idx !! h = Some m →
    wf_hash h = true ∧ fm_Hash m = h ∧
    sub (B b) ["data"; String.substring 0 2 h] ∈ dk_dirs d ∧
    (∃ l, dk_files d !! data_path b h = Some (Raw l) ∧ sha256_hex l = h) ∧
    ∃ l, sha256_hex l = h ∧ fm_Size m = Z.of_nat (length l).

Lemma sub_ne_data b h h' : data_path b h' ≠ sub (B b) ["data"; String.substring 0 2 h].
Proof. intros E%sub_inj. discriminate E. Qed.

Section faulty_save.
Context `{UuidText} `{TimeText} {O : Type}.
Context (b : string) (idx : gmap string FileMetadata) (d0 : Disk) (n : Z).
Context (md : FileMetadata) (l : list byte).
Context (Hmd : fm_Hash md = sha256_hex l) (Hsize : fm_Size md = Z.of_nat (length l)).

Abbreviation h := (sha256_hex l).

(** The store during [SaveFile]: consistent, its index the old one or the old
    one with the new entry, the other files as they were. *)
Definition saving (idx' : gmap string FileMetadata) (s : Store) : Prop :=
  st_basePath s = b ∧ st_index s = Some idx' ∧ content_ok b idx' (st_disk s) ∧
  ∀ h', h' ≠ h → dk_files (st_disk s) !! data_path b h' = dk_files d0 !! data_path b h'.

Lemma saving_touches idx' s ps d' :
  saving idx' s → touches ps (st_disk s) d' → (∀ x y, sub (B b) ["data"; x; y +:+ ".dat"] ∉ ps) →
  (∀ x, sub (B b) ["data"; x] ∉ ps) →
  saving idx' (mkStore (st_basePath s) (st_index s) d').
Proof.
  intros (Hb & Hi & Hc & Hk) Ht Hps Hps'.
  assert (∀ h', dk_files d' !! data_path b h' = dk_files (st_disk s) !! data_path b h') as Hsame
    by (intros h'; apply Ht, Hps).
  split_and!; [done|done| |intros h' Hh'; simpl; rewrite Hsame; auto].
  intros h' m Hm. destruct (Hc h' m Hm) as (H1' & H2 & H3 & H4 & H5). simpl.
  split_and!; [done|done| |by rewrite Hsame|done]. by apply Ht.
Qed.

Lemma saving_sys idx' op p call ps :
  (∀ d e d', call d = (e, d') → touches ps d d') →
  (∀ x y, sub (B b) ["data"; x; y +:+ ".dat"] ∉ ps) → (∀ x, sub (B b) ["data"; x] ∉ ps) →
  hoare (saving idx') (sys (O := O) op p call) (λ _, saving idx').
Proof.
  intros Ht Hps Hps'. apply hoare_sys. intros s e d' Hs E. by eapply saving_touches; eauto.
Qed.

(** The renaming puts the new content in place. *)
Lemma saving_rename idx' s op :
  saving idx' s → dk_files (st_disk s) !! tmp_path b n = Some (Raw l) →
  ∃ e d', sys (O := O) op (tmp_path b n) (os_Rename (tmp_path b n) (data_path b h)) s =
    ([], Ret (e, mkStore (st_basePath s) (st_index s) d')) ∧
  saving idx' (mkStore (st_basePath s) (st_index s) d') ∧
  (e = None → dk_files d' !! data_path b h = Some (Raw l) ∧
     sub (B b) ["data"; String.substring 0 2 h] ∈ dk_dirs d').
Proof.
  intros Hs Htmp. unfold sys.
  destruct (os_Rename _ _ (st_disk s)) as [e d'] eqn:E. do 2 eexists. split; [done|].
  pose proof (Rename_touches _ _ _ _ _ E) as Ht. destruct Hs as (Hb & Hi & Hc & Hk).
  assert (∀ h', h' ≠ h → dk_files d' !! data_path b h' = dk_files (st_disk s) !! data_path b h') as Hother.
  { intros h' Hne. apply Ht. intros [Hq|[Hq|Hq%not_elem_of_nil]%elem_of_cons]%elem_of_cons; [| |done].
    - by apply data_other_ne in Hq.
    - by apply data_path_inj in Hq. }
  assert (dk_files d' !! data_path b h = dk_files (st_disk s) !! data_path b h ∧ e ≠ None ∨
          dk_files d' !! data_path b h = Some (Raw l) ∧
          is_dir d' (Dir (data_path b h)) = true) as Hnew.
  { revert E. unfold os_Rename, syscall. destruct (next_fault (st_disk s)) as [f d1] eqn:Ef.
    apply next_fault_disk in Ef as [Ef Ed]. destruct f; [intros [= <- <-]; left; by rewrite Ef|].
    destruct (resolve d1 (tmp_path b n)); [intros [= <- <-]; left; by rewrite Ef|].
    destruct (resolve d1 (data_path b h)) eqn:Er; [intros [= <- <-]; left; by rewrite Ef|].
    rewrite Ef, Htmp. destruct (is_dir d1 _); intros [= <- <-]; [left; by rewrite Ef|].
    right. simpl. rewrite lookup_insert_eq. split; [done|]. unfold resolve in Er.
    destruct (existsb _ _); [done|].
    destruct (is_dir d1 (Dir _)) eqn:Ed'; [exact Ed'|done]. }
  rewrite Dir_data_path in Hnew. split.
  - split_and!; [done|done| |intros h' Hne; simpl; rewrite Hother by done; by apply Hk].
    intros h' m Hm. destruct (Hc h' m Hm) as (H1' & H2 & H3 & H4 & H5). simpl.
    split_and!; [done|done| | |done].
    + apply Ht; [|done]. intros [Hq|[Hq|Hq%not_elem_of_nil]%elem_of_cons]%elem_of_cons; [| |done].
      * by apply sub_inj in Hq.
      * symmetry in Hq. by apply sub_ne_data in Hq.
    + destruct (decide (h' = h)) as [->|Hne]; [|by rewrite Hother].
      destruct Hnew as [[-> _]|[-> _]]; [done|]. by exists l.
  - intros He. destruct Hnew as [[_ Hne]|[Hf Hd]]; [|split; [done|]].
    + destruct e; done.
    + unfold is_dir in Hd. apply orb_true_iff in Hd as [Hd|Hd%bool_decide_eq_true]; [|done].
      exfalso. apply forallb_forall with (x := String.substring 0 2 h) in Hd.
      * apply String.eqb_eq in Hd. destruct (wf_hash_prefix h (sha_wf_hash l)) as (_ & _ & _ & ?). done.
      * unfold sub. simpl. apply list_elem_of_In, elem_of_app. right. set_solver.
Qed.

(** The content is in place. *)
Definition placed (s : Store) : Prop :=
  dk_files (st_disk s) !! data_path b h = Some (Raw l) ∧
  sub (B b) ["data"; String.substring 0 2 h] ∈ dk_dirs (st_disk s).

Lemma placed_sys idx' op p call ps :
  (∀ d e d', call d = (e, d') → touches ps d d') →
  (∀ x y, sub (B b) ["data"; x; y +:+ ".dat"] ∉ ps) → (∀ x, sub (B b) ["data"; x] ∉ ps) →
  hoare (λ s, saving idx' s ∧ placed s) (sys (O := O) op p call) (λ _ s, saving idx' s ∧ placed s).
Proof.
  intros Ht Hps Hps'. apply hoare_sys. intros s e d' [Hs [Hp Hd]] E.
  split; [by eapply saving_touches; eauto|]. pose proof (Ht _ _ _ E) as Htt.
  split; simpl; [|by apply Htt]. rewrite <-Hp. apply Htt, Hps.
Qed.

Lemma saving_index_set :
  hoare (λ s, saving idx s ∧ placed s) (index_set (O := O) h md)
    (λ _, saving (<[h := md]> idx)).
Proof.
  intros s [(Hb & Hi & Hc & Hk) [Hp Hd]]. unfold index_set.
  rewrite (bind_silent _ _ _ (Some idx) s) by (unfold gets; by rewrite Hi).
  do 2 eexists. split; [done|]. split_and!; simpl; [done|done| |done].
  intros h' m. rewrite lookup_insert. case_decide as Hh; [|apply Hc].
  subst h'. intros [= <-]. split_and!; [apply sha_wf_hash|done|done|eauto|eauto].
Qed.

Lemma notin_tmp : (∀ x y, sub (B b) ["data"; x; y +:+ ".dat"] ∉ [tmp_path b n]) ∧
  (∀ x, sub (B b) ["data"; x] ∉ [tmp_path b n]).
Proof. split; intros *; by intros ?%list_elem_of_singleton%sub_inj. Qed.

Lemma notin_index : (∀ x y, sub (B b) ["data"; x; y +:+ ".dat"] ∉ [index_tmp b; index_path b]) ∧
  (∀ x, sub (B b) ["data"; x] ∉ [index_tmp b; index_path b]).
Proof.
  split; intros *; intros [E%sub_inj|E%list_elem_of_singleton%sub_inj]%elem_of_cons; discriminate.
Qed.

Lemma notin_meta : (∀ x y, sub (B b) ["data"; x; y +:+ ".dat"] ∉ [meta_path b h]) ∧
  (∀ x, sub (B b) ["data"; x] ∉ [meta_path b h]).
Proof.
  split; intros *; intros E%list_elem_of_singleton%sub_inj; [|discriminate].
  injection E. intros E' _. apply (f_equal (λ s, last (bytes_of s))) in E'.
  by rewrite !bytes_of_app, !last_app in E'.
Qed.

Lemma indexPath_run s : st_basePath s = b → indexPath (O := O) s = ([], Ret (index_path b, s)).
Proof.
  intros Hs. unfold indexPath. rewrite (bind_silent _ _ _ b s) by (unfold basePath, gets; by rewrite Hs).
  by rewrite Join_index.
Qed.

Lemma filePath_at s h' : st_basePath s = b → wf_hash h' = true →
  filePath (O := O) h' s = ([], Ret (data_path b h', s)) ∧
  metadataFilePath (O := O) h' s = ([], Ret (meta_path b h', s)).
Proof.
  intros <- Hh. destruct s. split; [by apply filePath_run|by apply metadataFilePath_run].
Qed.

Lemma saving_SaveIndex idx' :
  hoare (saving idx') (SaveIndex (O := O)) (λ _, saving idx').
Proof.
  destruct notin_index as [N1 N2].
  intros s Hs. unfold SaveIndex. rewrite (bind_silent _ _ _ (st_index s) s) by done.
  cbv zeta. rewrite (bind_silent _ _ _ _ _ (indexPath_run s (proj1 Hs))).
  assert (path_append (index_path b) ".tmp" = index_tmp b) as ->
    by (rewrite <-Join_index; apply index_tmp_eq).
  fold (index_doc (st_index s)). generalize (index_doc (st_index s)). intros j.
  revert s Hs. eapply hoare_bind.
  - eapply (saving_sys _ _ _ _ [index_tmp b; index_path b]); [|done|done].
    intros d e d' E q Hq. apply WriteFile_touches in E. apply E. set_solver.
  - intros [e|]; [by apply hoare_ret|]. intros s1 Hs1.
    rewrite (bind_silent _ _ _ _ _ (indexPath_run s1 (proj1 Hs1))). revert s1 Hs1.
    eapply (saving_sys _ _ _ _ [index_tmp b; index_path b]); [|done|done].
    intros d e d' E. by apply Rename_touches in E.
Qed.

Definition save_post (r : error + FileMetadata) (s : Store) : Prop :=
  match r with
  | inl _ => saving idx s ∨ saving (<[h := md]> idx) s
  | inr m => m = md ∧ saving (<[h := md]> idx) s
  end.

Lemma save_post_defer (r : error + FileMetadata) :
  hoare (save_post r)
    (_ ← sys (O := O) "remove" (tmp_path b n) (os_Remove (tmp_path b n)); skip)
    (λ _, save_post r).
Proof.
  destruct notin_tmp as [N1 N2].
  assert (∀ idx', hoare (saving idx')
    (_ ← sys (O := O) "remove" (tmp_path b n) (os_Remove (tmp_path b n)); skip)
    (λ _, saving idx')) as Hrm.
  { intros idx'. eapply hoare_bind with (R := λ _, saving idx'); [|intros e; by apply (hoare_ret ())].
    eapply saving_sys; [eauto with go|done|done]. }
  intros s Hs. destruct r; simpl in *.
  - destruct Hs as [Hs|Hs]; destruct (Hrm _ s Hs) as (a & s' & E & H'); eauto 6.
  - destruct Hs as [Hm Hs]; destruct (Hrm _ s Hs) as (a & s' & E & H'); eauto 6.
Qed.

(** From the renaming on. *)
Lemma save_tail now fid fn ct :
  md = mkFileMetadata fid fn h (Z.of_nat (length l)) ct now "complete" →
  hoare (λ s, saving idx s ∧ dk_files (st_disk s) !! tmp_path b n = Some (Raw l))
    (check (O := O) id
       (sys "rename" (tmp_path b n) (os_Rename (tmp_path b n) (data_path b h)))
       (metadataFilePath ← metadataFilePath h;
        check (Wrap "failed to write metadata file")
          (sys "write" metadataFilePath (os_WriteFile metadataFilePath (FileMetadata_to_json md)))
        (_ ← index_set h md;
         check (Wrap "file saved but index update failed") SaveIndex (mret (inr md)))))
    save_post.
Proof.
  intros Hmd'. eapply hoare_check with (E := saving idx).
  - intros s [Hs Htmp]. destruct (saving_rename idx s "rename" Hs Htmp) as (e & d' & E & Hs' & Hp).
    rewrite E. do 2 eexists. split; [done|]. destruct e; [exact Hs'|].
    instantiate (1 := λ s, saving idx s ∧ placed s). split; [exact Hs'|by apply Hp].
  - intros er s Hs. by left.
  - destruct notin_meta as [N1 N2]. intros s Hs.
    rewrite (bind_silent _ _ _ _ _ (proj2 (filePath_at s h (proj1 (proj1 Hs)) (sha_wf_hash l)))).
    revert s Hs. eapply hoare_check with (E := saving idx) (R := λ s, saving idx s ∧ placed s).
    + eapply hoare_post; [eapply placed_sys; [eauto with go|done|done]|].
      intros [e|] s Hs; [apply Hs|done].
    + intros er s Hs. by left.
    + eapply hoare_bind; [apply saving_index_set|]. intros u.
      eapply hoare_check with (E := saving (<[h := md]> idx)) (R := saving (<[h := md]> idx)).
      * eapply hoare_post; [apply saving_SaveIndex|]. by intros [e|] s Hs.
      * intros er s Hs. by right.
      * apply hoare_ret. intros s Hs. done.
Qed.

(** From making the directory on. *)
Lemma save_place now fid fn ct :
  md = mkFileMetadata fid fn h (Z.of_nat (length l)) ct now "complete" →
  hoare (λ s, saving idx s ∧ dk_files (st_disk s) !! tmp_path b n = Some (Raw l))
    (check (O := O) id
       (sys "mkdir" (Dir (data_path b h)) (os_MkdirAll (Dir (data_path b h))))
       (check id (sys "rename" (tmp_path b n) (os_Rename (tmp_path b n) (data_path b h)))
          (metadataFilePath ← metadataFilePath h;
           check (Wrap "failed to write metadata file")
             (sys "write" metadataFilePath (os_WriteFile metadataFilePath (FileMetadata_to_json md)))
             (_ ← index_set h md;
              check (Wrap "file saved but index update failed") SaveIndex (mret (inr md))))))
    save_post.
Proof.
  intros Hmd'.
  eapply hoare_check with (E := saving idx)
    (R := λ s, saving idx s ∧ dk_files (st_disk s) !! tmp_path b n = Some (Raw l));
    [|intros er s' Hs'; by left|by eapply save_tail].
  apply hoare_sys. intros s' e d' [Hs' Ht] E. apply MkdirAll_touches in E.
  assert (saving idx (mkStore (st_basePath s') (st_index s') d')) as Hs2
    by (eapply (saving_touches _ _ []); [done|done|set_solver|set_solver]).
  destruct e; [done|]. split; [done|]. simpl. rewrite <-Ht. apply E. set_solver.
Qed.

(** [SaveFile] as a whole. *)
Lemma SaveFile_hoare fails now fid fn ct :
  md = mkFileMetadata fid fn h (Z.of_nat (length l)) ct now "complete" →
  hoare (saving idx) (SaveFile (O := O) n now fid fn ct (mkReader l fails)) save_post.
Proof.
  intros Hmd' s Hs. unfold SaveFile. destruct notin_tmp as [N1 N2].
  rewrite (bind_silent _ _ _ b s) by (unfold basePath, gets; by rewrite (proj1 Hs)).
  cbv zeta. rewrite Join_tmp. cbn [rd_data rd_fails]. rewrite <-Hmd'.
  revert s Hs. eapply hoare_check with (E := saving idx) (R := saving idx);
    [|intros er s Hs; by left|].
  { eapply hoare_post; [eapply (saving_sys _ _ _ _ []); [eauto with go|set_solver|set_solver]|].
    by intros [e|] s Hs. }
  apply hoare_defer; [|apply save_post_defer].
  eapply hoare_check with (E := saving idx) (R := saving idx); [|intros er s Hs; by left|].
  { eapply hoare_post; [eapply saving_sys; [eauto with go|done|done]|]. by intros [e|] s Hs. }
  eapply hoare_check with (E := saving idx)
    (R := λ s, saving idx s ∧ dk_files (st_disk s) !! tmp_path b n = Some (Raw l));
    [|intros er s Hs; by left|].
  { apply hoare_sys. intros s e d' Hs E.
    assert (saving idx (mkStore (st_basePath s) (st_index s) d')) as Hs'
      by (eapply saving_touches; eauto with go).
    unfold os_copy in E. destruct (next_fault _) as [f d1]. destruct f; injection E as <- <-; [done|].
    split; [done|]. simpl. apply lookup_insert_eq. }
  destruct fails; [apply hoare_ret; intros s [Hs _]; by left|].
  intros s [Hs Htmp].
  rewrite (bind_silent _ _ _ _ _ (proj1 (filePath_at s h (proj1 Hs) (sha_wf_hash l)))).
  by apply (save_place now fid fn ct Hmd').
Qed.
End faulty_save.

(** ** Reading the index back *)
Section reload.
Context `{UuidText} `{TimeText}.

Lemma index_of_members_fold (l : list (string * FileMetadata)) index :
  Forall (λ kv, in_int64 (fm_Size kv.2) = true) l →
  index_of_members ((λ kv : string * FileMetadata, (kv.1, FileMetadata_to_json kv.2)) <$> l) index =
    (fold_left (λ m kv, <[kv.1 := kv.2]> m) l index, DOk).
Proof.
  intros Hl. revert index. induction Hl as [|[k x] l Hx _ IH]; intros index; [done|].
  csimpl. rewrite FileMetadata_json by done. by rewrite IH.
Qed.

Lemma fold_insert_lookup {A} (l : list (string * A)) (m : gmap string A) k :
  NoDup l.*1 →
  (∀ x, (k, x) ∈ l → fold_left (λ m kv, <[kv.1 := kv.2]> m) l m !! k = Some x) ∧
  (k ∉ l.*1 → fold_left (λ m kv, <[kv.1 := kv.2]> m) l m !! k = m !! k).
Proof.
  revert m. induction l as [|[k' x'] l IH]; intros m Hl; [by split; [set_solver|]|].
  csimpl in *. apply NoDup_cons in Hl as [Hk Hl]. destruct (IH (<[k' := x']> m) Hl) as [H1 H2].
  split.
  - intros x [[= -> ->]|Hx]%elem_of_cons; [|auto]. rewrite H2 by done. apply lookup_insert_eq.
  - intros Hn. rewrite H2 by set_solver. apply lookup_insert_ne. set_solver.
Qed.

(** Unmarshalling what [json.Marshal] made of an index gives the index. *)
Lemma index_roundtrip (idx : gmap string FileMetadata) :
  map_Forall (λ _ m, in_int64 (fm_Size m) = true) idx →
  index_of_json (index_to_json idx) (Some ∅) = (Some idx, DOk).
Proof.
  intros Hs. unfold index_of_json, index_to_json.
  set (l := SliceStable _ _).
  assert (l ≡ₚ map_to_list idx) as Hl by apply SliceStable_perm.
  rewrite index_of_members_fold.
  2:{ apply Forall_forall. intros [k x] Hx. rewrite Hl in Hx.
      apply elem_of_map_to_list in Hx. exact (Hs k x Hx). }
  simpl. do 2 f_equal. apply map_eq. intros k.
  assert (NoDup l.*1) as Hnd by (rewrite Hl; apply NoDup_fst_map_to_list).
  destruct (fold_insert_lookup l ∅ k Hnd) as [H1 H2].
  destruct (idx !! k) as [x|] eqn:Ek.
  - apply H1. rewrite Hl. by apply elem_of_map_to_list.
  - rewrite H2; [done|]. intros ([k' x'] & -> & Hx)%list_elem_of_fmap. rewrite Hl in Hx.
    apply elem_of_map_to_list in Hx. simpl in Ek. congruence.
Qed.

Lemma LoadIndex_run {O} b idx d :
  dk_faults d = [] → resolve d (index_path b) = None →
  dk_files d !! index_path b = Some (Doc (index_to_json idx)) →
  map_Forall (λ _ m, in_int64 (fm_Size m) = true) idx →
  LoadIndex (O := O) (NewLocalStorage b d) = ([], Ret (None, mkStore b (Some idx) d)).
Proof.
  intros Hf Hr Hi Hs. unfold LoadIndex, NewLocalStorage.
  rewrite (bind_silent _ _ _ _ _ (indexPath_run b (mkStore b (Some ∅) d) eq_refl)).
  rewrite (bind_silent _ _ _ (inr (Doc (index_to_json idx))) (mkStore b (Some ∅) d)).
  - rewrite (bind_silent _ _ _ (Some ∅) (mkStore b (Some ∅) d)) by done.
    by rewrite index_roundtrip.
  - unfold ReadFile, os_ReadFile, os_Open, next_fault. simpl. by rewrite Hf, Hr, Hi.
Qed.
End reload.

(** ** Deleting *)
Section deleting.
Context `{UuidText} `{TimeText} {O : Type}.
Context (b : string).

(** The relative path [DeleteFile] removes. *)
Definition relative_metadata (h : string) : path := mkPath false [h +:+ ".metadata.json"].

Lemma Join_relative h : wf_hash h = true →
  Join [h +:+ ".metadata.json"] = relative_metadata h.
Proof.
  intros Hh. pose proof (Join_plain "" [h +:+ ".metadata.json"]) as Hj.
  unfold Join in Hj. rewrite filter_cons_False in Hj by (intros Hn; by apply Hn).
  apply Hj. repeat constructor; by apply wf_hash_plain.
Qed.

(** Nothing in the working directory has that name. *)
Definition cwd_clear (h : string) (files : gmap path content) (dirs : gset path) : Prop :=
  files !! mkPath false [] = None ∧ files !! relative_metadata h = None ∧
  relative_metadata h ∉ dirs.

Lemma Remove_relative h files dirs : wf_hash h = true → cwd_clear h files dirs →
  os_Remove (relative_metadata h) (mkDisk files dirs []) = (Some ENOENT, mkDisk files dirs []).
Proof.
  intros Hh (H1 & H2 & H3). apply Remove_missing_run; [|done|].
  - unfold resolve, relative_metadata, prefixes. simpl. by rewrite is_file_false.
  - unfold is_dir. rewrite bool_decide_false by done. rewrite orb_false_r. simpl.
    destruct (wf_hash_plain h ".metadata.json" Hh eq_refl) as (_ & _ & _ & Hn).
    by destruct (String.eqb_spec (h +:+ ".metadata.json") "..").
Qed.

Lemma Remove_data h files dirs :
  layout b (mkDisk files dirs []) → wf_hash h = true →
  sub (B b) ["data"; String.substring 0 2 h] ∈ dirs →
  ∃ e, os_Remove (data_path b h) (mkDisk files dirs []) =
         (e, mkDisk (delete (data_path b h) files) dirs []) ∧ (e = None ∨ e = Some ENOENT).
Proof.
  intros Hd Hh Hin. pose proof (resolve_deep b _ _ (h +:+ ".dat") Hd (substring_2_length h Hh) Hin) as Hr.
  destruct (files !! data_path b h) as [c|] eqn:Ec.
  - exists None. split; [|by left]. by eapply Remove_file_run.
  - exists (Some ENOENT). split; [|by right]. rewrite delete_id by done.
    apply Remove_missing_run; [done|done|].
    apply not_dir_deep; [done|]. by apply wf_hash_plain.
Qed.

Lemma layout_delete' p files dirs :
  layout b (mkDisk files dirs []) → layout b (mkDisk (delete p files) dirs []).
Proof. apply (layout_delete b (mkDisk files dirs [])). Qed.

Lemma DeleteFile_run h idx files dirs :
  layout b (mkDisk files dirs []) → B b ∈ dirs → wf_hash h = true →
  sub (B b) ["data"; String.substring 0 2 h] ∈ dirs → cwd_clear h files dirs →
  DeleteFile (O := O) h (mkStore b (Some idx) (mkDisk files dirs [])) =
    ([], Ret (None, mkStore b (Some (delete h idx))
       (mkDisk (with_index b (index_to_json (delete h idx)) (delete (data_path b h) files)) dirs []))).
Proof.
  intros Hd HB Hh Hin Hc. destruct (Remove_data h files dirs Hd Hh Hin) as (e & Hrm & He).
  unfold DeleteFile. rewrite (bind_silent _ _ _ _ _ (filePath_run b h _ _ Hh)).
  rewrite (bind_silent _ _ _ _ _ (sys_run b _ _ _ _ _ _ _ Hrm)).
  replace (unless_missing _) with (@None error) by (destruct He as [-> | ->]; done).
  rewrite Join_relative by done. cbv zeta.
  assert (cwd_clear h (delete (data_path b h) files) dirs) as Hc'.
  { destruct Hc as (H1' & H2 & H3). split_and!; rewrite ?lookup_delete_None; auto. }
  rewrite (bind_silent _ _ _ _ _ (sys_run b _ _ _ _ _ _ _ (Remove_relative h _ _ Hh Hc'))).
  simpl. rewrite (bind_silent _ _ _ () (mkStore b (Some (delete h idx)) (mkDisk (delete (data_path b h) files) dirs []))) by done.
  by rewrite (bind_silent _ _ _ _ _ (SaveIndex_run b _ _ _ (layout_delete' _ _ _ Hd) HB)).
Qed.

Lemma GetFile_run h idx d m c :
  dk_faults d = [] → idx !! h = Some m → wf_hash h = true →
  resolve d (data_path b h) = None → dk_files d !! data_path b h = Some c →
  GetFile (O := O) h (mkStore b (Some idx) d) =
    ([], Ret (inr (RegularFile c, m), mkStore b (Some idx) d)).
Proof.
  intros Hf Hm Hh Hr Hc. unfold GetFile.
  rewrite (bind_silent _ _ _ (Some idx) (mkStore b (Some idx) d)) by done. simpl. rewrite Hm.
  rewrite (bind_silent _ _ _ _ _ (filePath_run b h _ _ Hh)).
  rewrite (bind_silent _ _ _ (inr (RegularFile c)) (mkStore b (Some idx) d)); [done|].
  unfold Open, os_Open, next_fault. simpl. by rewrite Hf, Hr, Hc.
Qed.
End deleting.

(** The store is below the working directory, not the directory itself. *)
Lemma cwd_not_sub b x : comps (B b) ≠ [] → sub (B b) [x] = mkPath false [] → False.
Proof. intros _ [= _ E]. by apply app_nil in E as [_ ?]. Qed.

Lemma relative_not_sub b x h : comps (B b) ≠ [] → sub (B b) [x] = relative_metadata h → False.
Proof.
  unfold sub, relative_metadata. destruct (comps (B b)) as [|y l]; [done|].
  intros _ [= _ _ E]. by destruct l.
Qed.

(** ** Properties *)
Section properties.
Context `{UuidText} `{TimeText} {O : Type}.
Context (b : string).

(** C32: when no system call fails, [SaveFile] of a stream of bytes succeeds,
    answers with their SHA-256 as hash and their number as size, and from then
    on [GetFile] of that hash opens exactly these bytes with that metadata;
    no temporary file is left. *)
Theorem SaveFile_GetFile n now fid fn ct l idx files dirs :
  layout b (mkDisk files dirs []) →
  let h := sha256_hex l in
  let md := mkFileMetadata fid fn h (Z.of_nat (length l)) ct now "complete" in
  ∃ s', SaveFile (O := O) n now fid fn ct (mkReader l false)
          (mkStore b (Some idx) (mkDisk files dirs [])) = ([], Ret (inr md, s')) ∧
    GetFile (O := O) h s' = ([], Ret (inr (RegularFile (Raw l), md), s')) ∧
    dk_files (st_disk s') !! tmp_path b n = None ∧
    dk_files (st_disk s') !! meta_path b h = Some (Doc (FileMetadata_to_json md)).
Proof.
  intros Hd h md. destruct (SaveFile_run (O := O) b n now fid fn ct l idx files dirs Hd) as [E Hd'].
  fold h md in E, Hd'. eexists. split; [exact E|].
  pose proof (sha_wf_hash l) as Hh. fold h in Hh. pose proof (tmp_ne b n) as (T1 & T2 & T3 & T4).
  destruct (data_other_ne b h) as (D1 & D2 & D3).
  pose proof (data_meta_ne b h h Hh Hh) as D4.
  split; [|split].
  - apply GetFile_run; [done|apply lookup_insert_eq|done| |].
    + apply resolve_deep; [done|by apply substring_2_length|].
      unfold saved_dirs, dirs_of. set_solver.
    + by apply (saved_files_data b n md).
  - simpl. unfold saved_files, with_index. rewrite !lookup_insert_ne by auto.
    rewrite lookup_delete_ne, !lookup_insert_ne by auto. apply lookup_delete_eq.
  - assert (meta_path b h ≠ index_path b ∧ meta_path b h ≠ index_tmp b) as [M1 M2]
      by (split; intros E'%sub_inj; discriminate E').
    simpl. unfold saved_files, with_index. rewrite lookup_insert_ne by auto.
    rewrite lookup_delete_ne, !lookup_insert_ne by auto. apply lookup_insert_eq.
Qed.

(** C33: whatever system calls fail, and even when the stream ends in a read
    error, [SaveFile] does not panic and leaves the store consistent: the index
    is the old one or the old one with the new entry (the latter whenever it
    reports success), every indexed file is in place with a content of its
    hash, and no file of another hash has changed. *)
Theorem SaveFile_consistent n now fid fn ct l fails idx d :
  content_ok b idx d →
  let h := sha256_hex l in
  let md := mkFileMetadata fid fn h (Z.of_nat (length l)) ct now "complete" in
  ∃ r s' idx', SaveFile (O := O) n now fid fn ct (mkReader l fails) (mkStore b (Some idx) d) =
      ([], Ret (r, s')) ∧
    st_index s' = Some idx' ∧ (idx' = idx ∨ idx' = <[h := md]> idx) ∧
    (∀ m, r = inr m → m = md ∧ idx' = <[h := md]> idx) ∧
    content_ok b idx' (st_disk s') ∧
    ∀ h', h' ≠ h → dk_files (st_disk s') !! data_path b h' = dk_files d !! data_path b h'.
Proof.
  intros Hc h md.
  destruct (SaveFile_hoare (O := O) b idx d n md l eq_refl eq_refl fails now fid fn ct eq_refl
    (mkStore b (Some idx) d)) as (r & s' & E & Hpost); [by split_and!|].
  exists r, s'. destruct r as [er|m]; simpl in Hpost.
  - destruct Hpost as [(_ & Hi & Hc' & Hk)|(_ & Hi & Hc' & Hk)]; eexists;
      (split_and!; [done|done|auto|done|done|done]).
  - destruct Hpost as [-> (_ & Hi & Hc' & Hk)]. eexists. split_and!; [done|done|auto| |done|done].
    by intros m [= <-].
Qed.

(** When no system call fails, [DeleteFile] of a stored hash succeeds: the
    content is gone from the disk, the hash from the index, [GetFile] of it is
    an error, every other entry and every other file of the store is
    untouched; doing it again succeeds and changes the index no more. *)
Theorem DeleteFile_forgets h m idx files dirs :
  layout b (mkDisk files dirs []) → B b ∈ dirs → content_ok b idx (mkDisk files dirs []) →
  idx !! h = Some m → cwd_clear h files dirs → comps (B b) ≠ [] →
  ∃ s', DeleteFile (O := O) h (mkStore b (Some idx) (mkDisk files dirs [])) = ([], Ret (None, s')) ∧
    st_index s' = Some (delete h idx) ∧
    dk_files (st_disk s') !! data_path b h = None ∧
    (∀ p, p ≠ data_path b h → p ≠ index_path b → p ≠ index_tmp b →
       dk_files (st_disk s') !! p = files !! p) ∧
    GetFile (O := O) h s' =
      ([], Ret (inl (Errorf ("hash " +:+ h +:+ " does not exist in the index")), s')) ∧
    ∃ s'', DeleteFile (O := O) h s' = ([], Ret (None, s'')) ∧ st_index s'' = Some (delete h idx).
Proof.
  intros Hd HB Hc Hm Hcwd Hb. destruct (Hc h m Hm) as (Hh & _ & Hin & _ & _).
  pose proof (DeleteFile_run (O := O) b h idx files dirs Hd HB Hh Hin Hcwd) as E.
  destruct (data_other_ne b h) as (D1 & D2 & _).
  eexists. split; [exact E|]. split_and!; [done| | | |].
  - simpl. unfold with_index. rewrite lookup_insert_ne, lookup_delete_ne, lookup_insert_ne by auto.
    apply lookup_delete_eq.
  - intros p P1 P2 P3. simpl. unfold with_index.
    by rewrite lookup_insert_ne, lookup_delete_ne, lookup_insert_ne, lookup_delete_ne by auto.
  - unfold GetFile. erewrite bind_silent by done. simpl. by rewrite lookup_delete_eq.
  - eexists. split; [apply DeleteFile_run; [|done|done|done|]|].
    + by apply layout_with_index, layout_delete'.
    + destruct Hcwd as (C1 & C2 & C3). unfold with_index.
      split_and!; [| |done]; rewrite lookup_insert_ne, lookup_delete_ne, lookup_insert_ne,
        lookup_delete_None by (intros E'; first [by eapply cwd_not_sub in E'|by eapply relative_not_sub in E']); auto.
    + simpl. f_equal. by rewrite delete_id by apply lookup_delete_eq.
Qed.

(** [DeleteFile] removes the path "<hash>.metadata.json" of the working
    directory instead of the metadata file of the store: after a file was
    saved and deleted, both without an error, its metadata document is still
    on the disk, next to the content that is gone. *)
Theorem DeleteFile_leaves_metadata n now fid fn ct l idx files dirs :
  layout b (mkDisk files dirs []) →
  let h := sha256_hex l in
  let md := mkFileMetadata fid fn h (Z.of_nat (length l)) ct now "complete" in
  cwd_clear h (saved_files b n md l idx files) (saved_dirs b h dirs) →
  ∃ s', (SaveFile (O := O) n now fid fn ct (mkReader l false) ≫= λ _, DeleteFile h)
          (mkStore b (Some idx) (mkDisk files dirs [])) = ([], Ret (None, s')) ∧
    dk_files (st_disk s') !! data_path b h = None ∧
    dk_files (st_disk s') !! meta_path b h = Some (Doc (FileMetadata_to_json md)).
Proof.
  intros Hd h md Hcwd. destruct (SaveFile_run (O := O) b n now fid fn ct l idx files dirs Hd) as [E Hd'].
  fold h md in E, Hd'. pose proof (sha_wf_hash l) as Hh. fold h in Hh.
  destruct (data_other_ne b h) as (D1 & D2 & _). pose proof (data_meta_ne b h h Hh Hh) as D4.
  assert (meta_path b h ≠ index_path b ∧ meta_path b h ≠ index_tmp b) as [M1 M2]
    by (split; intros E'%sub_inj; discriminate E').
  eexists. split.
  - rewrite (bind_silent _ _ _ _ _ E). apply DeleteFile_run; [done| |done| |done];
      unfold saved_dirs, dirs_of; set_solver.
  - simpl. unfold saved_files, with_index. split.
    + rewrite lookup_insert_ne, lookup_delete_ne, lookup_insert_ne by auto. apply lookup_delete_eq.
    + rewrite lookup_insert_ne, lookup_delete_ne, lookup_insert_ne, lookup_delete_ne,
        lookup_insert_ne, lookup_delete_ne, lookup_insert_ne by auto. apply lookup_insert_eq.
Qed.

(** The index survives a restart: after [SaveIndex], a new storage on the
    same directory that loads the index has exactly the same entries. *)
Theorem SaveIndex_LoadIndex idx files dirs :
  layout b (mkDisk files dirs []) → B b ∈ dirs →
  map_Forall (λ _ m, in_int64 (fm_Size m) = true) idx →
  ∃ s', SaveIndex (O := O) (mkStore b (Some idx) (mkDisk files dirs [])) = ([], Ret (None, s')) ∧
    ∃ s'', LoadIndex (O := O) (NewLocalStorage b (st_disk s')) = ([], Ret (None, s'')) ∧
      st_index s'' = Some idx ∧ st_disk s'' = st_disk s'.
Proof.
  intros Hd HB Hs. eexists. split; [by apply SaveIndex_run|].
  eexists. split; [apply (LoadIndex_run b idx); [done| | |done]|done].
  - apply resolve_top; [|done]. by apply layout_with_index.
  - simpl. apply lookup_insert_eq.
Qed.

(** The index file is replaced atomically: whatever call fails, after
    [SaveIndex] it holds either what it held before or the complete new
    document, and the latter when no error is reported. *)
Theorem SaveIndex_atomic idx d :
  ∃ e s', SaveIndex (O := O) (mkStore b (Some idx) d) = ([], Ret (e, s')) ∧
    st_index s' = Some idx ∧
    (dk_files (st_disk s') !! index_path b = Some (Doc (index_to_json idx)) ∨
     e ≠ None ∧ dk_files (st_disk s') !! index_path b = dk_files d !! index_path b).
Proof.
  unfold SaveIndex. rewrite (bind_silent _ _ _ (Some idx) (mkStore b (Some idx) d)) by done. cbv zeta.
  rewrite (bind_silent _ _ _ _ _ (indexPath_run b (mkStore b (Some idx) d) eq_refl)).
  assert (path_append (index_path b) ".tmp" = index_tmp b) as ->
    by (rewrite <-Join_index; apply index_tmp_eq).
  assert (index_path b ≠ index_tmp b) as Hne by (intros E%sub_inj; discriminate E).
  destruct (os_WriteFile (index_tmp b) (index_to_json idx) d) as [e1 d1] eqn:E1.
  rewrite (bind_silent _ _ _ _ _ (sys_run b _ _ _ _ _ _ _ E1)).
  pose proof (WriteFile_touches _ _ _ _ _ E1 (index_path b) ltac:(set_solver)) as [T1 _].
  destruct e1 as [e1|]; [simpl; do 2 eexists; split_and!; [done|done|right; by split]|].
  simpl. rewrite (bind_silent _ _ _ _ _ (indexPath_run b (mkStore b (Some idx) d1) eq_refl)).
  destruct (os_Rename (index_tmp b) (index_path b) d1) as [e2 d2] eqn:E2.
  rewrite (sys_run b _ _ _ _ _ _ _ E2). do 2 eexists. split_and!; [done|done|]. simpl.
  rewrite <-T1. eapply Rename_result in E2; [|by eapply WriteFile_result].
  destruct E2 as [[-> E2]|[He E2]]; [by left|right]. split; [by destruct e2|done].
Qed.

(** A hash of fewer than two bytes makes [DeleteFile] panic, in any state
    of the store. *)
Theorem DeleteFile_short_hash_panics hash s :
  (String.length hash < 2)%nat →
  DeleteFile (O := O) hash s = ([], Panic "slice bounds out of range").
Proof.
  intros Hl. unfold DeleteFile, filePath, prefix2. apply Nat.ltb_lt in Hl. rewrite Hl.
  apply bind_panic. rewrite (bind_silent _ _ _ (st_basePath s) s) by done. by apply bind_panic.
Qed.
End properties.

(** ** Examples: a fresh node stores, reloads and deletes a file *)

#[local] Existing Instance decimal_uuids.
#[local] Existing Instance decimal_times.

Lemma layout_fresh b : layout b (mkDisk ∅ ∅ []).
Proof. by split. Qed.

Definition example_base : string := "./data/node-1".
Definition example_bytes : list byte := bytes_of "abc".
Definition example_hash : string := Eval vm_compute in sha256_hex example_bytes.
Definition example_md : FileMetadata :=
  mkFileMetadata 7 "abc.txt" example_hash 3 "text/plain" 1000 "complete".
Definition example_files : gmap path content :=
  saved_files example_base 99 example_md example_bytes ∅ ∅.
Definition example_dirs : gset path := saved_dirs example_base example_hash ∅.

Lemma example_hash_eq : sha256_hex example_bytes = example_hash.
Proof. vm_compute. reflexivity. Qed.

Lemma example_layout : layout example_base (mkDisk example_files example_dirs []).
Proof.
  pose proof (SaveFile_run (O := ()) example_base 99 1000 7 "abc.txt" "text/plain" example_bytes ∅ ∅ ∅
    (layout_fresh _)) as [_ Hd].
  rewrite example_hash_eq in Hd. exact Hd.
Qed.

Lemma example_clear : cwd_clear example_hash example_files example_dirs.
Proof.
  split_and!; [vm_compute; reflexivity..|].
  refine (proj1 (bool_decide_eq_false _) _). vm_compute. reflexivity.
Qed.

Lemma example_base_in : B example_base ∈ example_dirs.
Proof. refine (proj1 (bool_decide_eq_true _) _). vm_compute. reflexivity. Qed.

Lemma example_content : content_ok example_base {[ example_hash := example_md ]}
  (mkDisk example_files example_dirs []).
Proof.
  intros h m [<- <-]%lookup_singleton_Some. split_and!; [by vm_compute|done| | |].
  - refine (proj1 (bool_decide_eq_true _) _). vm_compute. reflexivity.
  - exists example_bytes. split; [vm_compute; reflexivity|apply example_hash_eq].
  - exists example_bytes. split; [apply example_hash_eq|done].
Qed.

Lemma SaveFile_GetFile_witness :
  ∃ s', SaveFile (O := ()) 99 1000 7 "abc.txt" "text/plain" (mkReader example_bytes false)
          (NewLocalStorage example_base (mkDisk ∅ ∅ [])) =
        ([], Ret (inr (mkFileMetadata 7 "abc.txt" (sha256_hex example_bytes) 3 "text/plain" 1000 "complete"), s')).
Proof.
  destruct (SaveFile_GetFile (O := ()) example_base 99 1000 7 "abc.txt" "text/plain" example_bytes ∅ ∅ ∅
    (layout_fresh _)) as (s' & E & _).
  exists s'. exact E.
Defined.

Lemma SaveFile_consistent_witness :
  ∃ r s', SaveFile (O := ()) 99 1000 7 "abc.txt" "text/plain" (mkReader example_bytes false)
          (mkStore example_base (Some ∅) (mkDisk ∅ ∅ [None; None; None; None; Some 3%nat])) =
        ([], Ret (r, s')).
Proof.
  destruct (SaveFile_consistent (O := ()) example_base 99 1000 7 "abc.txt" "text/plain" example_bytes false
    ∅ (mkDisk ∅ ∅ [None; None; None; None; Some 3%nat])) as (r & s' & idx' & E & _).
  - intros h m. by rewrite lookup_empty.
  - by exists r, s'.
Defined.

Lemma DeleteFile_forgets_witness :
  ∃ s', DeleteFile (O := ()) example_hash
    (mkStore example_base (Some {[ example_hash := example_md ]}) (mkDisk example_files example_dirs [])) =
    ([], Ret (None, s')).
Proof.
  destruct (DeleteFile_forgets (O := ()) example_base example_hash example_md
    {[ example_hash := example_md ]} example_files example_dirs) as (s' & E & _).
  - exact example_layout.
  - exact example_base_in.
  - exact example_content.
  - apply lookup_singleton_eq.
  - exact example_clear.
  - vm_compute. discriminate.
  - by exists s'.
Defined.

Lemma DeleteFile_leaves_metadata_witness :
  ∃ s', (SaveFile (O := ()) 99 1000 7 "abc.txt" "text/plain" (mkReader example_bytes false)
           ≫= λ _, DeleteFile (sha256_hex example_bytes))
          (NewLocalStorage example_base (mkDisk ∅ ∅ [])) = ([], Ret (None, s')).
Proof.
  destruct (DeleteFile_leaves_metadata (O := ()) example_base 99 1000 7 "abc.txt" "text/plain"
    example_bytes ∅ ∅ ∅ (layout_fresh _)) as (s' & E & _).
  - rewrite example_hash_eq. exact example_clear.
  - exists s'. exact E.
Defined.

Lemma SaveIndex_LoadIndex_witness :
  ∃ s', SaveIndex (O := ())
    (mkStore example_base (Some {[ example_hash := example_md ]}) (mkDisk example_files example_dirs [])) =
    ([], Ret (None, s')).
Proof.
  destruct (SaveIndex_LoadIndex (O := ()) example_base {[ example_hash := example_md ]}
    example_files example_dirs) as (s' & E & _).
  - exact example_layout.
  - exact example_base_in.
  - intros k m [_ <-]%lookup_singleton_Some. reflexivity.
  - by exists s'.
Defined.

Lemma DeleteFile_short_hash_panics_witness :
  DeleteFile (O := ()) "a" (NewLocalStorage example_base (mkDisk ∅ ∅ [])) =
    ([], Panic "slice bounds out of range").
Proof. apply DeleteFile_short_hash_panics. simpl. lia. Defined.
