(* ===== verification/Csv.v ===== *)
(** * The files that the experiments write: [backend/internal/experiments/csv.go]

    Opening a file for writing or appending, and [encoding/csv], of which the
    program uses a writer with its defaults: commas, quotes where they are
    needed, a line feed after each record. The disk is that of [Fs.v]. *)

From Stdlib.Strings Require Import Ascii.
From S2P Require Import Prelude GoStd Types Json Hashes Fs.

(** ** [encoding/csv] *)



Definition quote : ascii := ascii_of_nat 34.
Definition newline : ascii := ascii_of_nat 10.
Definition return_ : ascii := ascii_of_nat 13.

Fixpoint contains (p : ascii → bool) (s : string) : bool :=
  match s with
  | "" => false
  | String c s' => p c || contains p s'
  end%string.

(** The white space of Unicode, in UTF-8. *)
Definition spaces : list (list N) :=
  (map (λ c : N, [c]) [9; 10; 11; 12; 13; 32] ++ [[194; 133]; [194; 160]; [225; 154; 128]] ++
   map (λ c : N, [226; 128; c]) [128; 129; 130; 131; 132; 133; 134; 135; 136; 137; 138; 168; 169; 175] ++
   [[226; 129; 159]; [227; 128; 128]])%N.

Definition starts_with_space (s : string) : bool :=
  existsb (λ w, bool_decide (w = take (length w) (N_of_ascii <$> String.list_ascii_of_string s))) spaces.

Definition fieldNeedsQuotes (field : string) : bool :=
  if String.eqb field "" then false
  else if String.eqb field "\." then true
  else contains (λ c, bool_decide (c ∈ [newline; return_; quote; ","%char])) field || starts_with_space field.

(** A quoted field: quotes are doubled. *)
Fixpoint doubled (s : string) : string :=
  match s with
  | "" => ""
  | String c s' => if decide (c = quote) then String quote (String quote (doubled s')) else String c (doubled s')
  end%string.

Definition csv_field (field : string) : string :=
  if fieldNeedsQuotes field then String quote (doubled field +:+ String quote "") else field.

Fixpoint csv_fields (record : list string) : string :=
  match record with
  | [] => ""
  | [f] => csv_field f
  | f :: record' => csv_field f +:+ String "," (csv_fields record')
  end.

Definition csv_line (record : list string) : list byte := bytes_of (csv_fields record +:+ String newline "").

(** ** Files that are open for writing *)

(** [os.OpenFile] with [O_CREATE|O_WRONLY] and [O_APPEND] or [O_TRUNC]. *)
Definition os_OpenFile (p : path) (append_ : bool) (d : Disk) : option errno * Disk :=
  syscall d (λ d,
    match resolve d p with
    | Some e => inl e
    | None =>
      if is_dir d p then inl EISDIR
      else match dk_files d !! p with
           | Some _ => inr (if append_ then d else with_files <[p := Raw []]> d)
           | None => inr (with_files <[p := Raw []]> d)
           end
    end).

(** The bytes of a file that this program writes. *)
Definition file_bytes (p : path) (d : Disk) : list byte :=
  match dk_files d !! p with Some (Raw l) => l | _ => [] end.

(** [f.Stat] of an open file: its size, unless the call fails. *)
Definition f_Stat (p : path) (d : Disk) : option Z * Disk :=
  let '(f, d) := next_fault d in
  (match f with Some _ => None | None => Some (Z.of_nat (length (file_bytes p d))) end, d).

(** [f.Write] at the end of the file; a fault leaves a prefix. *)
Definition f_Write (p : path) (l : list byte) (d : Disk) : option errno * Disk :=
  let '(f, d) := next_fault d in
  match f with
  | Some k => (Some EOTHER, with_files <[p := Raw (file_bytes p d ++ take k l)]> d)
  | None => (None, with_files <[p := Raw (file_bytes p d ++ l)]> d)
  end.

(** ** [CSVWriter] *)

(** The writer of an open file; an error of its buffer stays. *)
Record CSVWriter := mkCSVWriter { cw_file : path; cw_error : bool }.

(** [w.Write] and [w.Flush], for a record shorter than the buffer: [true] is a
    nil error. *)
Definition csv_Write (record : list string) (w : CSVWriter) (d : Disk) : bool * CSVWriter * Disk :=
  if cw_error w then (false, w, d)
  else match f_Write (cw_file w) (csv_line record) d with
       | (Some _, d) => (false, mkCSVWriter (cw_file w) true, d)
       | (None, d) => (true, w, d)
       end.

(** [f.Close] *)
Definition f_Close (d : Disk) : bool * Disk :=
  let '(f, d) := next_fault d in (match f with Some _ => false | None => true end, d).

Definition NewCSVWriter (p : path) (header : list string) (appendFile : bool) (d : Disk) : (string + CSVWriter) * Disk :=
  match os_MkdirAll (Dir p) d with
  | (Some _, d) => (inl "mkdir", d)
  | (None, d) =>
    match os_OpenFile p appendFile d with
    | (Some _, d) => (inl "open csv", d)
    | (None, d) =>
      let w := mkCSVWriter p false in
      let '(needHeader, d) :=
        if appendFile then match f_Stat p d with (Some size, d) => (size =? 0, d) | (None, d) => (false, d) end
        else (true, d) in
      if needHeader && negb (bool_decide (header = [])) then
        match csv_Write header w d with
        | (true, w, d) => (inr w, d)
        | (false, _, d) => (inl "flush header", (f_Close d).2)
        end
      else (inr w, d)
    end
  end.

Definition CSVWriter_Close (w : CSVWriter) (d : Disk) : bool * Disk :=
  if cw_error w then (false, (f_Close d).2) else f_Close d.

(** The records of an experiment, in order; the result of [Write] is not looked
    at. *)
Fixpoint write_records (records : list (list string)) (w : CSVWriter) (d : Disk) : CSVWriter * Disk :=
  match records with
  | [] => (w, d)
  | r :: records' => let '(_, w, d) := csv_Write r w d in write_records records' w d
  end.

(** ** What a reader of the format makes of it

    A reader of quoted fields, as a specification: where it is in a field, the
    field and the fields of the record so far. *)
Inductive ReadMode := FieldStart | Bare | Quoted | QuoteSeen.

Definition step_char (c : ascii) (mode : ReadMode) : option (ReadMode * option ascii * option bool) :=
  let plain (mode : ReadMode) := Some (mode, Some c, None) in
  let ended :=
    if decide (c = ","%char) then Some (FieldStart, None, Some false)
    else if decide (c = newline) then Some (FieldStart, None, Some true) else None in
  match mode with
  | FieldStart => if decide (c = quote) then Some (Quoted, None, None) else match ended with Some r => Some r | None => plain Bare end
  | Bare => match ended with Some r => Some r | None => plain Bare end
  | Quoted => if decide (c = quote) then Some (QuoteSeen, None, None) else plain Quoted
  | QuoteSeen => if decide (c = quote) then plain Quoted else ended
  end.

Fixpoint csv_read (mode : ReadMode) (field : string) (record : list string) (s : string) : option (list (list string)) :=
  match s with
  | "" => match mode, record with FieldStart, [] => Some [] | _, _ => None end
  | String c s' =>
    match step_char c mode with
    | None => None
    | Some (mode, add, ended) =>
      let field := match add with Some a => field +:+ String a "" | None => field end in
      match ended with
      | None => csv_read mode field record s'
      | Some false => csv_read mode "" (record ++ [field])%list s'
      | Some true => (λ rs, (record ++ [field])%list :: rs) <$> csv_read mode "" [] s'
      end
    end
  end%string.

(** ** Helper lemmas *)

Lemma string_app_assoc (a b c : string) : (a +:+ b) +:+ c = a +:+ (b +:+ c).
Proof. induction a as [|x a IH]; [done|]. exact (f_equal (String x) IH). Qed.

Lemma string_app_nil (a : string) : a +:+ "" = a.
Proof. induction a as [|x a IH]; [done|]. exact (f_equal (String x) IH). Qed.

(** A field that needs no quotes holds no separator and no quote. *)
Definition plain_char (c : ascii) : bool := negb (bool_decide (c ∈ [newline; return_; quote; ","%char])).

Lemma plain_char_ne c : plain_char c = true → c ≠ newline ∧ c ≠ quote ∧ c ≠ ","%char.
Proof. unfold plain_char. intros Hc%negb_true_iff%bool_decide_eq_false. set_solver. Qed.

Lemma read_bare field s rest record : contains (λ c, bool_decide (c ∈ [newline; return_; quote; ","%char])) s = false →
  csv_read Bare field record (s +:+ rest) = csv_read Bare (field +:+ s) record rest.
Proof.
  revert field. induction s as [|c s IH]; intros field; [intros _; by rewrite string_app_nil|]. cbn [contains].
  intros [Hc Hs]%orb_false_iff. destruct (plain_char_ne c) as (H1' & H2' & H3'); [unfold plain_char; by rewrite Hc|].
  change (String c s +:+ rest) with (String c (s +:+ rest)). cbn [csv_read]. unfold step_char.
  rewrite !decide_False by done. rewrite IH by done. by rewrite string_app_assoc.
Qed.

Lemma read_quoted field s rest record :
  csv_read Quoted field record (doubled s +:+ rest) = csv_read Quoted (field +:+ s) record rest.
Proof.
  revert field. induction s as [|c s IH]; intros field; [by rewrite string_app_nil|]. cbn [doubled].
  destruct (decide (c = quote)) as [->|Hc].
  - change (String quote (String quote (doubled s)) +:+ rest) with (String quote (String quote (doubled s +:+ rest))).
    cbn [csv_read]. unfold step_char. rewrite !decide_True by done. rewrite IH. by rewrite string_app_assoc.
  - change (String c (doubled s) +:+ rest) with (String c (doubled s +:+ rest)). cbn [csv_read]. unfold step_char.
    rewrite decide_False by done. rewrite IH. by rewrite string_app_assoc.
Qed.

(** After a field, the separator decides. *)
Definition after_field (record : list string) (field : string) (c : ascii) (rest : string) : option (list (list string)) :=
  if decide (c = ","%char) then csv_read FieldStart "" (record ++ [field]) rest
  else (λ rs, (record ++ [field]) :: rs) <$> csv_read FieldStart "" [] rest.

Lemma read_field f c rest record : c = ","%char ∨ c = newline →
  csv_read FieldStart "" record (csv_field f +:+ String c rest) = after_field record f c rest.
Proof.
  intros Hc. assert (c ≠ quote) as Hq by (by destruct Hc as [-> | ->]).
  assert (∀ mode field, mode ≠ Quoted → csv_read mode field record (String c rest) = after_field record field c rest) as Hend.
  { intros mode field Hm. cbn [csv_read]. unfold step_char, after_field. destruct mode; [| |done|];
      rewrite ?(decide_False (P := c = quote)) by done;
      (destruct Hc as [-> | ->]; [rewrite decide_True by done; done|rewrite decide_False, decide_True by done; done]). }
  unfold csv_field. destruct (fieldNeedsQuotes f) eqn:En.
  - change (String quote (doubled f +:+ String quote "") +:+ String c rest) with
      (String quote ((doubled f +:+ String quote "") +:+ String c rest)). cbn [csv_read]. unfold step_char at 1.
    rewrite decide_True by done. rewrite string_app_assoc, read_quoted.
    change (String quote "" +:+ String c rest) with (String quote (String c rest)).
    change (csv_read Quoted ("" +:+ f) record (String quote (String c rest))) with (csv_read QuoteSeen f record (String c rest)).
    by apply Hend.
  - destruct f as [|x f]; [by apply Hend|]. unfold fieldNeedsQuotes in En.
    change (String.eqb (String x f) "") with false in En.
    assert (contains (λ c, bool_decide (c ∈ [newline; return_; quote; ","%char])) (String x f) = false) as Hf.
    { revert En. destruct (String.eqb (String x f) "\."); [done|]. by intros [? _]%orb_false_iff. }
    cbn [contains] in Hf. apply orb_false_iff in Hf as [Hx Hf].
    destruct (plain_char_ne x) as (H1' & H2' & H3'); [unfold plain_char; by rewrite Hx|].
    change (String x f +:+ String c rest) with (String x (f +:+ String c rest)). cbn [csv_read]. unfold step_char at 1.
    rewrite !decide_False by done. rewrite read_bare by done. by apply Hend.
Qed.

Lemma read_record r rest record : r ≠ [] →
  csv_read FieldStart "" record (csv_fields r +:+ String newline rest) =
    (λ rs, (record ++ r) :: rs) <$> csv_read FieldStart "" [] rest.
Proof.
  revert record. induction r as [|f r IH]; intros record; [done|]. intros _. destruct r as [|g r].
  - cbn [csv_fields]. rewrite read_field by (by right). unfold after_field. by rewrite decide_False.
  - change (csv_fields (f :: g :: r)) with (csv_field f +:+ String "," (csv_fields (g :: r))).
    rewrite string_app_assoc. change (String "," (csv_fields (g :: r)) +:+ String newline rest) with
      (String "," (csv_fields (g :: r) +:+ String newline rest)).
    rewrite read_field by (by left). unfold after_field. rewrite decide_True by done. rewrite IH by done. by rewrite <-app_assoc.
Qed.

Fixpoint csv_text (records : list (list string)) : string :=
  match records with
  | [] => ""
  | r :: records' => csv_fields r +:+ String newline (csv_text records')
  end.

(** ** Properties *)

(** What the writer of the experiments puts in a file can be read again,
    whatever the fields hold: a reader of quoted fields gets the records back. *)
Theorem csv_readable records : Forall (λ r, r ≠ []) records → csv_read FieldStart "" [] (csv_text records) = Some records.
Proof.
  intros Hr. induction Hr as [|r records Hne _ IH]; [done|]. cbn [csv_text]. by rewrite read_record, IH.
Qed.

Lemma bytes_of_text records : bytes_of (csv_text records) = mjoin (csv_line <$> records).
Proof.
  induction records as [|r records IH]; [done|]. cbn [csv_text fmap list_fmap mjoin list_join]. unfold csv_line at 1.
  rewrite !bytes_of_app, <-app_assoc. f_equal. change (String newline (csv_text records)) with (String newline "" +:+ csv_text records).
  by rewrite bytes_of_app, IH.
Qed.

(** A disk without faults on which a file can be opened. *)
Record writable (p : path) (d : Disk) : Prop := mkWritable {
  wr_faults : dk_faults d = [];
  wr_dirs : existsb (is_file d) (prefixes (Dir p) ++ [Dir p]) = false;
  wr_path : existsb (is_file d) (prefixes p) = false;
  wr_bytes : ∀ c, dk_files d !! p = Some c → ∃ l, c = Raw l;
  wr_file : is_dir (mkDisk (dk_files d) (dk_dirs d ∪ list_to_set (prefixes (Dir p) ++ [Dir p])) []) p = false }.

Lemma f_Write_run p l d : dk_faults d = [] → f_Write p l d = (None, with_files <[p := Raw (file_bytes p d ++ l)]> d).
Proof. intros Hf. unfold f_Write, next_fault. by rewrite Hf. Qed.

Lemma file_bytes_insert p l d : file_bytes p (with_files <[p := Raw l]> d) = l.
Proof. unfold file_bytes. simpl. by rewrite lookup_insert_eq. Qed.

Lemma write_records_run records p d : dk_faults d = [] →
  ∃ d', write_records records (mkCSVWriter p false) d = (mkCSVWriter p false, d') ∧ dk_faults d' = [] ∧
    file_bytes p d' = file_bytes p d ++ bytes_of (csv_text records) ∧ ∀ q, q ≠ p → dk_files d' !! q = dk_files d !! q.
Proof.
  revert d. induction records as [|r records IH]; intros d Hf; [exists d; by rewrite app_nil_r|].
  cbn [write_records]. unfold csv_Write. cbn [cw_error cw_file]. rewrite f_Write_run by done.
  destruct (IH (with_files <[p := Raw (file_bytes p d ++ csv_line r)]> d)) as (d' & E & Hf' & Hb & Ho); [done|].
  exists d'. split; [exact E|]. split; [done|]. split.
  - rewrite Hb, file_bytes_insert, !bytes_of_text. cbn [fmap list_fmap mjoin list_join]. by rewrite app_assoc.
  - intros q Hq. rewrite Ho by done. simpl. by rewrite lookup_insert_ne.
Qed.

(** What a file holds before the first record. *)
Definition csv_start (header : list string) (append_ : bool) (old : list byte) : list byte :=
  if append_ && negb (bool_decide (old = [])) then old
  else if decide (header = []) then [] else csv_line header.

Lemma open_run p header append_ d : writable p d → ∃ d1,
  NewCSVWriter p header append_ d = (inr (mkCSVWriter p false), d1) ∧ dk_faults d1 = [] ∧
  file_bytes p d1 = csv_start header append_ (file_bytes p d) ∧ ∀ q, q ≠ p → dk_files d1 !! q = dk_files d !! q.
Proof.
  intros [W1 W2 W3 _ W4]. destruct d as [files dirs faults]. cbn [dk_faults dk_files dk_dirs] in *. subst faults.
  unfold NewCSVWriter, os_MkdirAll, syscall, next_fault at 1. cbn [dk_faults]. rewrite W2. cbn [dk_files dk_dirs dk_faults].
  set (d := mkDisk files (dirs ∪ list_to_set (prefixes (Dir p) ++ [Dir p])) []) in *. unfold os_OpenFile, syscall, next_fault at 1.
  change (dk_faults d) with ([] : list (option nat)). cbv beta iota zeta.
  assert (resolve d p = None) as ->.
  { unfold resolve. change (existsb (is_file d) (prefixes p)) with (existsb (is_file (mkDisk files dirs [])) (prefixes p)). rewrite W3.
    unfold is_dir. rewrite (bool_decide_true (Dir p ∈ dk_dirs d)) by (simpl; set_solver). by rewrite orb_true_r. }
  rewrite W4. unfold csv_start.
  assert (∃ d1, (match dk_files d !! p with
            | Some _ => inr (if append_ then d else with_files <[p:=Raw []]> d)
            | None => inr (with_files <[p:=Raw []]> d) end : errno + Disk) = inr d1 ∧ dk_faults d1 = [] ∧
            file_bytes p d1 = (if append_ then file_bytes p (mkDisk files dirs []) else []) ∧
            ∀ q, q ≠ p → dk_files d1 !! q = files !! q) as (d1 & -> & Hf1 & Hb1 & Ho1).
  { change (dk_files d) with files. destruct (files !! p) as [c|] eqn:Ec.
    - destruct append_; [by exists d|]. eexists. split_and!; [done|done|apply file_bytes_insert|].
      intros q Hq. simpl. by rewrite lookup_insert_ne.
    - eexists. split_and!; [done|done| |intros q Hq; simpl; by rewrite lookup_insert_ne].
      rewrite file_bytes_insert. unfold file_bytes. simpl. rewrite Ec. by destruct append_. }
  assert ((if append_ then match f_Stat p d1 with (Some size, d0) => (size =? 0, d0) | (None, d0) => (false, d0) end
           else (true, d1)) = (negb append_ || bool_decide (file_bytes p d1 = []), d1)) as ->.
  { destruct append_; [|done]. unfold f_Stat, next_fault. rewrite Hf1. f_equal. by destruct (file_bytes p d1). }
  assert (negb append_ || bool_decide (file_bytes p d1 = []) = negb (append_ && negb (bool_decide (file_bytes p (mkDisk files dirs []) = [])))) as ->.
  { destruct append_; [|done]. rewrite Hb1. cbn [negb orb andb]. by rewrite negb_involutive. }
  destruct (append_ && negb _) eqn:Ea; cbn [negb andb].
  { exists d1. split_and!; [done|done| |done]. apply andb_prop in Ea as [-> _]. exact Hb1. }
  assert (file_bytes p d1 = []) as Hb1'.
  { rewrite Hb1. destruct append_; [|done]. cbn [andb] in Ea. by apply negb_false_iff, bool_decide_eq_true in Ea. }
  destruct (decide (header = [])) as [->|Hh]; [by exists d1|]. rewrite bool_decide_false by done. cbn [negb].
  unfold csv_Write. cbn [cw_error cw_file]. rewrite f_Write_run by done. eexists. split_and!; [reflexivity|done| |].
  - rewrite file_bytes_insert, Hb1'. done.
  - intros q Hq. simpl. rewrite lookup_insert_ne by done. by apply Ho1.
Qed.

(** On a disk that works, the file of an experiment holds the header and
    then the records in order; a new experiment replaces what was there, and
    one that appends keeps it and writes the header only into an empty file.
    No other file is touched. *)
Theorem experiment_file p header append_ records d : writable p d →
  ∃ w d1 w' d2, NewCSVWriter p header append_ d = (inr w, d1) ∧ write_records records w d1 = (w', d2) ∧
    CSVWriter_Close w' d2 = (true, d2) ∧
    file_bytes p d2 = csv_start header append_ (file_bytes p d) ++ bytes_of (csv_text records) ∧
    ∀ q, q ≠ p → dk_files d2 !! q = dk_files d !! q.
Proof.
  intros Hw. destruct (open_run p header append_ d Hw) as (d1 & E1 & Hf1 & Hb1 & Ho1).
  destruct (write_records_run records p d1 Hf1) as (d2 & E2 & Hf2 & Hb2 & Ho2).
  exists (mkCSVWriter p false), d1, (mkCSVWriter p false), d2. split_and!; [done|done| |by rewrite Hb2, Hb1|].
  - unfold CSVWriter_Close, f_Close, next_fault. cbn [cw_error]. by rewrite Hf2.
  - intros q Hq. by rewrite Ho2, Ho1.
Qed.

Lemma csv_readable_witness : csv_read FieldStart "" [] (csv_text [["a,b"; ""; "say " +:+ String quote (String newline "x")]; ["1"]]) =
  Some [["a,b"; ""; "say " +:+ String quote (String newline "x")]; ["1"]].
Proof. apply csv_readable. repeat constructor; discriminate. Defined.

Definition results : path := mkPath false ["experiments"; "lock.csv"].

Lemma experiment_file_witness : ∃ w d1 w' d2,
  NewCSVWriter results ["run"] false (mkDisk {[ results := Raw (bytes_of "old") ]} ∅ []) = (inr w, d1) ∧
  write_records [["1"]; ["2"]] w d1 = (w', d2) ∧
  file_bytes results d2 = bytes_of ("run" +:+ String newline ("1" +:+ String newline ("2" +:+ String newline ""))).
Proof.
  destruct (experiment_file results ["run"] false [["1"]; ["2"]] (mkDisk {[ results := Raw (bytes_of "old") ]} ∅ []))
    as (w & d1 & w' & d2 & E1 & E2 & _ & Hb & _).
  { split; [reflexivity|reflexivity|reflexivity| |reflexivity]. intros c [= <-]. by eexists. }
  exists w, d1, w', d2. split; [exact E1|]. split; [exact E2|]. rewrite Hb. vm_compute. reflexivity.
Defined.
