(* ===== verification/StreamServer.v ===== *)
(** * The stream server of a storage node: [backend/dfs/streaming/stream.go]

    One accepted connection, from its magic byte to its end: uploads into the
    store, downloads out of it. The client side of the connection is the bytes
    it sends before it stops (with end of file or an error), and how many
    bytes it takes before writes to it fail. What the other goroutines do to
    the session table while the handler sleeps is an argument. *)

From S2P Require Import Prelude GoStd Hashes Types Json Protocol Session Fs LocalStorage.

(** [StreamServer]: its session table, its storage, and whether an upload
    callback is set. *)
Record StreamServer := mkStreamServer {
  sv_sessions : SessionManager;
  sv_storage : Store;
  sv_hasCallback : bool }.

Definition NewStreamServer (t : Store) : StreamServer := mkStreamServer NewSessionManager t false.
Definition GetSessionManager (s : StreamServer) : SessionManager := sv_sessions s.
Definition SetUploadCompleteCallback (s : StreamServer) : StreamServer := mkStreamServer (sv_sessions s) (sv_storage s) true.

(** The server together with the connection being served. *)
Record Exchange := mkExchange {
  ex_server : StreamServer;
  ex_in : list byte;
  ex_in_fails : bool;
  ex_budget : option nat }.

(** What the handler does besides changing the server's state. *)
Inductive SAct :=
| SWrite (l : list byte)
| SSleep (d : Z)
| SUploadComplete (sessionID fileID hash : string).

(** The other goroutines and the clock, at each of the handler's attempts to
    find the session: the clock, and what happens to the table meanwhile. *)
Record World := mkWorld {
  w_now : nat → Z;
  w_step : nat → SessionManager → SessionManager }.

Section server.
Context `{UuidText} `{TimeText} `{ErrnoText}.

Abbreviation M := (GoM Exchange SAct).

Definition with_server (f : StreamServer → StreamServer) (e : Exchange) : Exchange :=
  mkExchange (f (ex_server e)) (ex_in e) (ex_in_fails e) (ex_budget e).

Definition with_sessions (f : SessionManager → SessionManager) (s : StreamServer) : StreamServer :=
  mkStreamServer (f (sv_sessions s)) (sv_storage s) (sv_hasCallback s).

(** A method of the storage. *)
Definition storage {A} (m : GoM Store SAct A) : M A :=
  zoom (λ e, sv_storage (ex_server e))
    (λ t, with_server (λ s, mkStreamServer (sv_sessions s) t (sv_hasCallback s))) m.

(** [io.ReadFull(conn, buf)] for a buffer of [n] bytes. *)
Definition conn_ReadFull (n : nat) : M (option (list byte)) := λ e,
  let '(r, rest) := ReadFull n (ex_in e) in
  ([], Ret (r, mkExchange (ex_server e) rest (ex_in_fails e) (ex_budget e))).

(** [conn.Write(l)]: whether all of it was written. *)
Definition conn_Write (l : list byte) : M bool := λ e,
  match ex_budget e with
  | None => ([SWrite l], Ret (true, e))
  | Some k =>
    ([SWrite (take k l)],
     Ret (bool_decide (length l ≤ k)%nat,
          mkExchange (ex_server e) (ex_in e) (ex_in_fails e) (Some (k - length l)%nat)))
  end.

(** [io.LimitReader(conn, n)], read to its end. *)
Definition conn_Limit (n : Z) : M Reader := λ e,
  if Z.of_nat (length (ex_in e)) <? n then
    ([], Ret (mkReader (ex_in e) (ex_in_fails e),
              mkExchange (ex_server e) [] (ex_in_fails e) (ex_budget e)))
  else
    ([], Ret (mkReader (take (Z.to_nat n) (ex_in e)) false,
              mkExchange (ex_server e) (drop (Z.to_nat n) (ex_in e)) (ex_in_fails e) (ex_budget e))).

(** One byte of status, 64 of hash, 256 of error text. *)
Definition upload_response (success : bool) (hash errMsg : string) : list byte :=
  let resp := zeros 321 in
  if success then copy_slice (copy_slice resp 0 1 [x01]) 1 65 (bytes_of hash)
  else copy_slice (copy_slice resp 0 1 [x00]) 65 321 (bytes_of errMsg).

Definition sendUploadResponse (success : bool) (hash errMsg : string) : M () :=
  _ ← conn_Write (upload_response success hash errMsg); skip.

Definition sendDownloadError (errMsg : string) : M () :=
  let header := mkStreamHeader MagicDownload "error" (-1) 0 in
  _ ← conn_Write (StreamHeader_Encode header);
  let errBytes := copy_slice (zeros 256) 0 256 (bytes_of errMsg) in
  _ ← conn_Write errBytes;
  skip.

(** The header, put together from its bytes with shifts. *)
Definition or_bytes (l : list (byte * Z)) : Z :=
  fold_left Z.lor ((λ bs : byte * Z, Z.shiftl (Z.of_N (byte_N bs.1)) bs.2) <$> l) 0.

Definition manual_header (fullBuf : list byte) : StreamHeader :=
  let b i := nth_byte i fullBuf in
  mkStreamHeader (b 0%nat) (string_of (trimNull (slice 1 37 fullBuf)))
    (int64 (or_bytes [(b 37%nat, 56); (b 38%nat, 48); (b 39%nat, 40); (b 40%nat, 32);
                      (b 41%nat, 24); (b 42%nat, 16); (b 43%nat, 8); (b 44%nat, 0)]))
    (int32 (or_bytes [(b 45%nat, 24); (b 46%nat, 16); (b 47%nat, 8); (b 48%nat, 0)])).

(** Up to ten looks at the session table, 100 ms apart. *)
Fixpoint find_session (w : World) (sessionID : string) (retry todo : nat) : M (option UploadSession) :=
  match todo with
  | O => mret None
  | S todo' =>
    _ ← modify (with_server (with_sessions (w_step w retry)));
    sessions ← gets (λ e, sv_sessions (ex_server e));
    match GetSession (w_now w retry) sessionID sessions with
    | Some session => mret (Some session)
    | None =>
      if (retry <? 9)%nat then
        _ ← emit (SSleep (100 * Millisecond)); find_session w sessionID (S retry) todo'
      else find_session w sessionID (S retry) todo'
    end
  end.

(** [nanos] and [now]: the clock when the file is stored. *)
Definition handleUpload (w : World) (nanos now : Z) (firstByte : byte) : M () :=
  rest ← conn_ReadFull (HeaderSize - 1);
  match rest with
  | None => skip
  | Some restBuf =>
    let header := manual_header (firstByte :: restBuf) in
    session ← find_session w (sh_SessionID header) 0 10;
    match session with
    | None => sendUploadResponse false "" "invalid or expired session"
    | Some session =>
      limitedReader ← conn_Limit (sh_FileSize header);
      r ← storage (SaveFile nanos now (us_FileID session) (us_Filename session)
                     (us_ContentType session) limitedReader);
      match r with
      | inl err => sendUploadResponse false "" ("failed to save file: " +:+ error_text err)
      | inr meta =>
        _ ← modify (with_server (with_sessions (RemoveSession (sh_SessionID header))));
        cb ← gets (λ e, sv_hasCallback (ex_server e));
        _ ← (if cb : bool then
               emit (SUploadComplete (sh_SessionID header) (uuid_String (us_FileID session)) (fm_Hash meta))
             else skip);
        sendUploadResponse true (fm_Hash meta) ""
      end
    end
  end.

(** One [reader.Read]: a chunk, the end of the file ([Some []]) or an error. *)
Definition file_Read (f : File) (rest : list byte) : M (option (list byte * list byte)) := λ e,
  let s := ex_server e in
  let d := st_disk (sv_storage s) in
  let '(flt, d') := next_fault d in
  let e' := with_server (λ s, mkStreamServer (sv_sessions s)
    (mkStore (st_basePath (sv_storage s)) (st_index (sv_storage s)) d') (sv_hasCallback s)) e in
  match flt, f with
  | Some _, _ | _, DirFile => ([], Ret (None, e'))
  | None, RegularFile _ =>
    if Z.of_nat (length rest) <=? DefaultChunkSize then ([], Ret (Some (rest, []), e'))
    else ([], Ret (Some (take (Z.to_nat DefaultChunkSize) rest, drop (Z.to_nat DefaultChunkSize) rest), e'))
  end.

(** The copy loop. Each round but the last sends at least one byte, so one
    round more than there are bytes is enough. *)
Fixpoint stream_file (fuel : nat) (f : File) (rest : list byte) : M () :=
  match fuel with
  | O => skip
  | S fuel' =>
    r ← file_Read f rest;
    match r with
    | None => skip
    | Some ([], _) => skip
    | Some (chunk, rest') =>
      ok ← conn_Write chunk;
      if ok : bool then stream_file fuel' f rest' else skip
    end
  end.

(** The bytes of an open file; content files are never documents. *)
Definition file_bytes (f : File) : list byte :=
  match f with RegularFile (Raw l) => l | _ => [] end.

Definition handleDownload : M () :=
  rest ← conn_ReadFull (DownloadRequestSize - 1);
  match rest with
  | None => skip
  | Some restBuf =>
    let hash := string_of (trimNull (take 64 restBuf)) in
    r ← storage (GetFile hash);
    match r with
    | inl err => sendDownloadError ("file not found: " +:+ error_text err)
    | inr (reader, meta) =>
      (* hash[:36] *)
      if (String.length hash <? 36)%nat then panic "slice bounds out of range" else
      let header := mkStreamHeader MagicDownload (String.substring 0 36 hash)
                      (fm_Size meta) DefaultChunkSize in
      ok ← conn_Write (StreamHeader_Encode header);
      if ok : bool then stream_file (S (length (file_bytes reader))) reader (file_bytes reader) else skip
    end
  end.

Definition handleConnection (w : World) (nanos now : Z) : M () :=
  magic ← conn_ReadFull 1;
  match magic with
  | Some [b] =>
    if decide (b = MagicUpload) then handleUpload w nanos now b
    else if decide (b = MagicDownload) then handleDownload
    else skip
  | _ => skip
  end.
End server.

(** The bytes the client receives. *)
Definition written (o : list SAct) : list byte :=
  mjoin ((λ a, match a with SWrite l => l | _ => [] end) <$> o).

(** ** Helper lemmas: the header *)

(** The bytes of a number joined with shifts and ors. *)
Fixpoint flat_or (l : list byte) : Z :=
  match l with
  | [] => 0
  | b :: l' => Z.lor (Z.shiftl (Z.of_N (byte_N b)) (8 * Z.of_nat (length l'))) (flat_or l')
  end.

Lemma lor_shift8 (a : Z) (b : byte) :
  0 <= a → a * 256 + Z.of_N (byte_N b) = Z.lor (Z.shiftl a 8) (Z.of_N (byte_N b)).
Proof.
  intros Ha. pose proof (byte_N_lt b) as Hb. rewrite <-Z.shiftl_mul_pow2 with (n := 8) by lia.
  rewrite <-Z.add_nocarry_lor; [done|].
  apply Z.bits_inj'. intros k Hk. rewrite Z.land_spec, Z.bits_0.
  destruct (Z.ltb_spec k 8) as [Hk8|Hk8].
  - by rewrite Z.shiftl_spec_low by lia.
  - rewrite (Z.bits_above_log2 (Z.of_N (byte_N b)) k); [by rewrite andb_false_r|lia|].
    destruct (decide (byte_N b = 0)%N) as [->|Hb0]; [simpl; lia|].
    apply Z.lt_le_trans with 8; [|done]. apply Z.log2_lt_pow2; [lia|].
    change (2 ^ 8) with 256. lia.
Qed.

Lemma be_N_flat l acc :
  Z.of_N (be_N l acc) = Z.lor (Z.shiftl (Z.of_N acc) (8 * Z.of_nat (length l))) (flat_or l).
Proof.
  revert acc. induction l as [|b l IH]; intros acc.
  - simpl. by rewrite Z.shiftl_0_r, Z.lor_0_r.
  - cbn [be_N flat_or length]. rewrite IH, N2Z.inj_add, N2Z.inj_mul.
    change (Z.of_N 256) with 256. rewrite lor_shift8 by lia.
    rewrite Z.shiftl_lor, Z.shiftl_shiftl by lia. rewrite Z.lor_assoc. do 3 f_equal. lia.
Qed.

Lemma or_bytes_8 a b c d e f g h :
  or_bytes [(a, 56); (b, 48); (c, 40); (d, 32); (e, 24); (f, 16); (g, 8); (h, 0)] =
  GetUint [a; b; c; d; e; f; g; h].
Proof.
  unfold GetUint. rewrite be_N_flat. unfold or_bytes. csimpl. cbn [flat_or length Z.of_nat].
  change (Z.shiftl (Z.of_N 0) _) with 0. rewrite !Z.lor_0_l, Z.lor_0_r, !Z.lor_assoc. done.
Qed.

Lemma or_bytes_4 a b c d :
  or_bytes [(a, 24); (b, 16); (c, 8); (d, 0)] = GetUint [a; b; c; d].
Proof.
  unfold GetUint. rewrite be_N_flat. unfold or_bytes. csimpl. cbn [flat_or length Z.of_nat].
  change (Z.shiftl (Z.of_N 0) _) with 0. rewrite !Z.lor_0_l, Z.lor_0_r, !Z.lor_assoc. done.
Qed.

Lemma slice_nth buf lo n : (lo + n ≤ length buf)%nat →
  slice lo (lo + n) buf = (λ i, nth_byte i buf) <$> seq lo n.
Proof.
  unfold slice, nth_byte. replace (lo + n - lo)%nat with n by lia.
  revert lo. induction n as [|n IH]; intros lo Hl; [by rewrite take_0|].
  simpl. rewrite <-IH by lia.
  rewrite (drop_S buf (nth lo buf x00) lo); [done|].
  destruct (nth_lookup_or_length buf lo x00) as [Hn|Hn]; [done|lia].
Qed.

Lemma manual_header_parse buf : length buf = HeaderSize → manual_header buf = parse_header buf.
Proof.
  intros Hl. unfold manual_header, parse_header.
  rewrite or_bytes_8, or_bytes_4.
  assert (slice 37 45 buf = (λ i, nth_byte i buf) <$> seq 37 8) as ->
    by (apply (slice_nth buf 37 8); rewrite Hl; unfold HeaderSize; lia).
  assert (slice 45 49 buf = (λ i, nth_byte i buf) <$> seq 45 4) as ->
    by (apply (slice_nth buf 45 4); rewrite Hl; unfold HeaderSize; lia).
  done.
Qed.

(** ** Helper lemmas: the handler *)

(** The session table at attempt [r + k], from attempt [r] on. *)
Definition table (w : World) (r k : nat) (t : SessionManager) : SessionManager :=
  fold_left (λ t j, w_step w j t) (seq r (S k)) t.

Lemma table_S w r k t : table w r (S k) t = table w (S r) k (w_step w r t).
Proof. done. Qed.

Definition set_table (t : SessionManager) (e : Exchange) : Exchange :=
  with_server (with_sessions (λ _, t)) e.

Abbreviation sleep := (SSleep (100 * Millisecond)).
Abbreviation table_of e := (sv_sessions (ex_server e)).

Lemma find_session_hit w sid r todo k e session :
  (k < todo)%nat → (r + todo ≤ 10)%nat →
  (∀ j, (j < k)%nat → GetSession (w_now w (r + j)) sid (table w r j (table_of e)) = None) →
  GetSession (w_now w (r + k)) sid (table w r k (table_of e)) = Some session →
  find_session w sid r todo e =
    (replicate k sleep, Ret (Some session, set_table (table w r k (table_of e)) e)).
Proof.
  revert r todo e. induction k as [|k IH]; intros r [|todo] e Hk Hr Hmiss Hhit; try lia.
  - cbn [find_session]. erewrite bind_silent by reflexivity. erewrite bind_silent by reflexivity.
    rewrite Nat.add_0_r in Hhit. unfold table in Hhit. simpl in Hhit |- *.
    rewrite Hhit. done.
  - cbn [find_session]. erewrite bind_silent by reflexivity. erewrite bind_silent by reflexivity.
    pose proof (Hmiss 0%nat ltac:(lia)) as H0. rewrite Nat.add_0_r in H0; unfold table in H0; simpl in H0 |- *.
    rewrite H0. destruct (Nat.ltb_spec r 9) as [_|?]; [|lia].
    erewrite bind_run; [|reflexivity|].
    2:{ apply (IH (S r)); [lia|lia| |].
        - intros j Hj. specialize (Hmiss (S j) ltac:(lia)). rewrite Nat.add_succ_r in Hmiss. exact Hmiss.
        - rewrite Nat.add_succ_r in Hhit. exact Hhit. }
    done.
Qed.

Lemma find_session_miss w sid r todo e :
  (r + todo = 10)%nat →
  (∀ j, (j < todo)%nat → GetSession (w_now w (r + j)) sid (table w r j (table_of e)) = None) →
  ∃ t, find_session w sid r todo e =
    (replicate (pred todo) sleep, Ret (None, set_table t e)).
Proof.
  revert r e. induction todo as [|todo IH]; intros r e Hr Hmiss.
  { exists (table_of e). by destruct e as [[]]. }
  cbn [find_session]. erewrite bind_silent by reflexivity. erewrite bind_silent by reflexivity.
  pose proof (Hmiss 0%nat ltac:(lia)) as H0. rewrite Nat.add_0_r in H0; unfold table in H0; simpl in H0 |- *.
  rewrite H0.
  destruct (IH (S r) (set_table (w_step w r (table_of e)) e)) as [t Ht]; [lia| |].
  { intros j Hj. specialize (Hmiss (S j) ltac:(lia)). rewrite Nat.add_succ_r in Hmiss. exact Hmiss. }
  exists t. destruct (Nat.ltb_spec r 9) as [Hr9|Hr9].
  - erewrite bind_run; [|reflexivity|exact Ht]. destruct todo; [lia|]. done.
  - destruct todo; [|lia]. exact Ht.
Qed.

Lemma length_upload_response ok hash err : length (upload_response ok hash err) = 321%nat.
Proof.
  unfold upload_response. pose proof (length_zeros 321) as Hz.
  assert (∀ b, length (copy_slice (zeros 321) 0 1 [b]) = 321%nat) as Hc
    by (intros b; rewrite length_copy_slice; lia).
  destruct ok; rewrite length_copy_slice; rewrite ?Hc; lia.
Qed.

Lemma conn_ReadFull_app n e a rest : ex_in e = a ++ rest → length a = n →
  conn_ReadFull n e = ([], Ret (Some a, mkExchange (ex_server e) rest (ex_in_fails e) (ex_budget e))).
Proof. intros Hin Ha. unfold conn_ReadFull. by rewrite Hin, ReadFull_app. Qed.

Lemma header_split hd :
  ∃ tail, StreamHeader_Encode hd = sh_Magic hd :: tail ∧ length tail = (HeaderSize - 1)%nat.
Proof.
  pose proof (length_StreamHeader_Encode hd) as Hl. rewrite StreamHeader_Encode_fields in *.
  cbn [app] in *. eexists. split; [done|]. simpl in Hl. unfold HeaderSize in *. simpl. lia.
Qed.

Lemma header_back hd : header_ok hd → manual_header (StreamHeader_Encode hd) = hd.
Proof.
  intros [_ Hs Hn H64 H32]. rewrite manual_header_parse by apply length_StreamHeader_Encode.
  rewrite parse_header_Encode by done. rewrite take_ge by (rewrite length_bytes_of; lia).
  rewrite <-(app_nil_r (bytes_of _)). change [] with (zeros 0).
  rewrite trimNull_pad, string_of_bytes_of by done. by destruct hd.
Qed.

(** What [io.LimitReader] lets through. *)
Definition limited (n : Z) (body : list byte) (fails : bool) : Reader :=
  if Z.of_nat (length body) <? n then mkReader body fails
  else mkReader (take (Z.to_nat n) body) false.

Section upload.
Context `{UuidText} `{TimeText} `{ErrnoText}.
Context (w : World) (b : string) (idx : gmap string FileMetadata) (files : gmap path content)
  (dirs : gset path) (sess : SessionManager) (cb : bool) (hd : StreamHeader) (body : list byte) (fl : bool).
Context (Hok : header_ok hd) (Hmagic : sh_Magic hd = MagicUpload).

Abbreviation server := (mkStreamServer sess (mkStore b (Some idx) (mkDisk files dirs [])) cb).

(** The handler reads the header it was sent and goes on to the sessions. *)
Lemma upload_header nanos now :
  handleConnection w nanos now (mkExchange server (StreamHeader_Encode hd ++ body) fl None) =
  (session ← find_session w (sh_SessionID hd) 0 10;
    match session with
    | None => sendUploadResponse false "" "invalid or expired session"
    | Some session =>
      limitedReader ← conn_Limit (sh_FileSize hd);
      r ← storage (SaveFile nanos now (us_FileID session) (us_Filename session)
                     (us_ContentType session) limitedReader);
      match r with
      | inl err => sendUploadResponse false "" ("failed to save file: " +:+ error_text err)
      | inr meta =>
        _ ← modify (with_server (with_sessions (RemoveSession (sh_SessionID hd))));
        cb ← gets (λ e, sv_hasCallback (ex_server e));
        _ ← (if cb : bool then
               emit (SUploadComplete (sh_SessionID hd) (uuid_String (us_FileID session)) (fm_Hash meta))
             else skip);
        sendUploadResponse true (fm_Hash meta) ""
      end
    end) (mkExchange server body fl None).
Proof.
  destruct (header_split hd) as (tail & Etail & Hlen).
  unfold handleConnection. rewrite Etail. cbn [app].
  rewrite (bind_silent _ _ _ _ _ (conn_ReadFull_app 1
    (mkExchange server (sh_Magic hd :: tail ++ body) fl None) [sh_Magic hd] (tail ++ body) eq_refl eq_refl)).
  rewrite Hmagic, decide_True by done. unfold handleUpload. cbn [ex_server ex_in_fails ex_budget].
  rewrite (bind_silent _ _ _ _ _ (conn_ReadFull_app _
    (mkExchange server (tail ++ body) fl None) tail body eq_refl Hlen)).
  rewrite <-Hmagic, <-Etail, header_back by done. reflexivity.
Qed.

Context (k : nat) (session : UploadSession).
Context (Hk : (k < 10)%nat)
  (Hmiss : ∀ j, (j < k)%nat → GetSession (w_now w j) (sh_SessionID hd) (table w 0 j sess) = None)
  (Hhit : GetSession (w_now w k) (sh_SessionID hd) (table w 0 k sess) = Some session).

Lemma upload_run nanos now data :
  layout b (mkDisk files dirs []) →
  limited (sh_FileSize hd) body fl = mkReader data false →
  let h := sha256_hex data in
  let md := mkFileMetadata (us_FileID session) (us_Filename session) h (Z.of_nat (length data))
              (us_ContentType session) now "complete" in
  ∃ rest,
  handleConnection w nanos now (mkExchange server (StreamHeader_Encode hd ++ body) fl None) =
    (replicate k sleep ++
       (if cb then [SUploadComplete (sh_SessionID hd) (uuid_String (us_FileID session)) h] else []) ++
       [SWrite (upload_response true h "")],
     Ret ((), mkExchange
       (mkStreamServer (RemoveSession (sh_SessionID hd) (table w 0 k sess))
          (mkStore b (Some (<[h := md]> idx))
             (mkDisk (saved_files b nanos md data idx files) (saved_dirs b h dirs) [])) cb)
       rest fl None)).
Proof.
  intros Hd Hlim h md. rewrite upload_header.
  destruct (SaveFile_run (O := SAct) b nanos now (us_FileID session) (us_Filename session)
    (us_ContentType session) data idx files dirs Hd) as [Esave _]. fold h md in Esave.
  assert (∀ e, ex_in e = body → ex_in_fails e = fl → ∃ rest, conn_Limit (sh_FileSize hd) e =
    ([], Ret (mkReader data false, mkExchange (ex_server e) rest fl (ex_budget e)))) as Hl.
  { intros e <- <-. unfold conn_Limit. unfold limited in Hlim.
    destruct (Z.of_nat (length (ex_in e)) <? sh_FileSize hd); rewrite Hlim; eauto.
    }
  destruct (Hl (set_table (table w 0 k sess) (mkExchange server body fl None)) eq_refl eq_refl) as [rest Erest].
  exists rest. erewrite bind_run; [reflexivity|apply (find_session_hit w _ 0 10 k); [done|lia|done|done]|].
  cbv beta iota. rewrite (bind_silent _ _ _ _ _ Erest).
  erewrite bind_silent by (unfold storage, zoom; cbn; rewrite Esave; reflexivity).
  cbv iota beta. erewrite bind_silent by reflexivity. erewrite bind_silent by reflexivity.
  cbn [sv_hasCallback ex_server with_server]. destruct cb; reflexivity.
Qed.
End upload.

Section download.
Context `{UuidText} `{TimeText} `{ErrnoText}.

Lemma written_app o1 o2 : written (o1 ++ o2) = written o1 ++ written o2.
Proof. unfold written. rewrite fmap_app. apply join_app. Qed.

Lemma stream_file_run fuel c rest sess b idx files dirs cb inp fl :
  (length rest < fuel)%nat →
  let e := mkExchange (mkStreamServer sess (mkStore b idx (mkDisk files dirs [])) cb) inp fl None in
  ∃ o, stream_file fuel (RegularFile c) rest e = (o, Ret ((), e)) ∧ written o = rest.
Proof.
  intros Hf e. revert rest Hf. induction fuel as [|fuel IH]; intros rest Hf; [lia|].
  cbn [stream_file].
  assert (∀ r, (if Z.of_nat (length rest) <=? DefaultChunkSize then (rest, [])
    else (take (Z.to_nat DefaultChunkSize) rest, drop (Z.to_nat DefaultChunkSize) rest)) = r →
    file_Read (RegularFile c) rest e = ([], Ret (Some r, e))) as Hread.
  { intros r <-. unfold file_Read, e. simpl. by destruct (_ <=? _). }
  assert (∃ chunk rest', rest = chunk ++ rest' ∧ (rest ≠ [] → chunk ≠ []) ∧
    file_Read (RegularFile c) rest e = ([], Ret (Some (chunk, rest'), e))) as (chunk & rest' & E1 & E2 & E3).
  { destruct (Z.of_nat (length rest) <=? DefaultChunkSize).
    - exists rest, []. rewrite app_nil_r. split_and!; [done|done|by apply Hread].
    - eexists _, _. split; [symmetry; apply take_drop|]. split; [|by apply Hread].
      intros Hne. destruct rest; [done|]. destruct (Z.to_nat DefaultChunkSize) eqn:Ez; [|done].
      unfold DefaultChunkSize in Ez. lia. }
  rewrite (bind_silent _ _ _ _ _ E3). destruct chunk as [|x chunk].
  - exists []. split; [done|]. destruct rest; [done|]. by destruct (E2 ltac:(done)).
  - destruct (IH rest') as (o & Eo & Ho).
    { subst rest. rewrite length_app in Hf. simpl in Hf. lia. }
    eexists. split.
    + erewrite bind_run; [reflexivity|reflexivity|exact Eo].
    + rewrite written_app, Ho. unfold written. simpl. rewrite app_nil_r. by subst rest.
Qed.

Lemma request_split h : String.length h = 64%nat → no_trailing_nul (bytes_of h) →
  DownloadRequest_Encode (mkDownloadRequest h) = MagicDownload :: bytes_of h.
Proof.
  intros Hl Hn. rewrite DownloadRequest_Encode_fields. cbn [dr_Hash].
  assert (length (bytes_of h) = 64%nat) as Hb by (by rewrite length_bytes_of).
  rewrite take_ge, Hb by lia. simpl. by rewrite !app_nil_r.
Qed.

(** Downloading a stored file. *)
Lemma download_run w nanos now h l m sess b idx d cb rest fl :
  dk_faults d = [] → String.length h = 64%nat → no_trailing_nul (bytes_of h) →
  GetFile (O := SAct) h (mkStore b idx d) =
    ([], Ret (inr (RegularFile (Raw l), m), mkStore b idx d)) →
  let server := mkStreamServer sess (mkStore b idx d) cb in
  let hd := mkStreamHeader MagicDownload (String.substring 0 36 h) (fm_Size m) DefaultChunkSize in
  ∃ o, handleConnection w nanos now
      (mkExchange server (DownloadRequest_Encode (mkDownloadRequest h) ++ rest) fl None) =
    (o, Ret ((), mkExchange server rest fl None)) ∧
  written o = StreamHeader_Encode hd ++ l.
Proof.
  intros Hf Hlen Hn Hget server hd. rewrite request_split by done.
  destruct d as [files dirs fs]. simpl in Hf. subst fs.
  destruct (stream_file_run (S (length l)) (Raw l) l sess b idx files dirs cb rest fl) as (o & Eo & Ho);
    [lia|].
  exists ([SWrite (StreamHeader_Encode hd)] ++ o). split.
  - unfold handleConnection. cbn [app].
    rewrite (bind_silent _ _ _ _ _ (conn_ReadFull_app 1
      (mkExchange server (MagicDownload :: bytes_of h ++ rest) fl None) [MagicDownload] _ eq_refl eq_refl)).
    rewrite decide_False by done. rewrite decide_True by done.
    unfold handleDownload. cbn [ex_server ex_in_fails ex_budget].
    assert (length (bytes_of h) = 64%nat) as Hb by (by rewrite length_bytes_of).
    rewrite (bind_silent _ _ _ _ _ (conn_ReadFull_app 64
      (mkExchange server (bytes_of h ++ rest) fl None) (bytes_of h) rest eq_refl Hb)).
    rewrite take_ge by lia. rewrite <-(app_nil_r (bytes_of h)). change [] with (zeros 0).
    rewrite trimNull_pad, string_of_bytes_of by done. cbv zeta.
    erewrite bind_silent by (unfold storage, zoom; cbn; rewrite Hget; reflexivity).
    cbv beta iota. rewrite Hlen. change (64 <? 36)%nat with false. cbv beta iota zeta.
    eapply (bind_run _ _ _ [SWrite (StreamHeader_Encode hd)]); [reflexivity|exact Eo].
  - rewrite written_app, Ho. unfold written. simpl. by rewrite app_nil_r.
Qed.
End download.

Lemma written_sleeps k : written (replicate k sleep) = [].
Proof. by induction k. Qed.

Lemma all_hex_substring n k s : all_hex s = true → all_hex (String.substring n k s) = true.
Proof.
  revert n k. induction s as [|c s IH]; intros n k; [by destruct n, k|].
  simpl. rewrite andb_true_iff. intros [Hc Hs].
  destruct n; [|by apply IH]. destruct k; [done|]. simpl. rewrite Hc. by apply IH.
Qed.

Lemma all_hex_no_nul s : all_hex s = true → no_trailing_nul (bytes_of s).
Proof.
  unfold no_trailing_nul. intros Hs Hl. apply last_Some in Hl as [l' E].
  assert (s = string_of l' +:+ string_of [x00]) as ->.
  { rewrite <-(string_of_bytes_of s), E. rewrite <-(string_of_bytes_of (_ +:+ _)).
    by rewrite bytes_of_app, !bytes_of_string_of. }
  clear E. induction (string_of l') as [|c t IH]; [done|].
  change (String c t +:+ string_of [x00]) with (String c (t +:+ string_of [x00])) in Hs.
  simpl in Hs. apply andb_true_iff in Hs as [_ Hs]. auto.
Qed.

Lemma length_substring n k s : (n + k ≤ String.length s)%nat → String.length (String.substring n k s) = k.
Proof.
  revert n k. induction s as [|c s IH]; intros n k Hl; simpl in *; [by destruct n, k; simpl in *; try lia|].
  destruct n; [|apply IH; lia]. destruct k; [done|]. simpl. rewrite IH; [done|lia].
Qed.

(** ** Properties *)
Section properties.
Context `{UuidText} `{TimeText} `{ErrnoText}.
Context (w : World) (b : string) (idx : gmap string FileMetadata) (files : gmap path content)
  (dirs : gset path) (sess : SessionManager) (cb : bool).

Abbreviation server := (mkStreamServer sess (mkStore b (Some idx) (mkDisk files dirs [])) cb).

(** The session is found at attempt [k] of the ten, not before. *)
Definition found_at (sid : string) (k : nat) (session : UploadSession) : Prop :=
  (k < 10)%nat ∧
  (∀ j, (j < k)%nat → GetSession (w_now w j) sid (table w 0 j sess) = None) ∧
  GetSession (w_now w k) sid (table w 0 k sess) = Some session.

(** The upload handler's own parsing of the header, with shifts and ors,
    agrees with [DecodeHeader] on every header [DecodeHeader] accepts. *)
Theorem manual_header_DecodeHeader r h rest :
  DecodeHeader r = (inr h, rest) → manual_header (take HeaderSize r) = h.
Proof.
  unfold DecodeHeader, ReadFull. case_decide; [|done]. cbv zeta.
  rewrite manual_header_parse by (rewrite length_take; lia).
  case_decide; [done|]. by intros [= <- _].
Qed.

(** An upload whose session is known (possibly only after some of the
    ten attempts) and whose data arrives in full is stored under the SHA-256
    of the data; the session is used up, the master is notified once with that
    hash, and the answer is a success of 321 bytes that carries it. *)
Theorem upload_stores hd data rest fl k session nanos now :
  header_ok hd → sh_Magic hd = MagicUpload → found_at (sh_SessionID hd) k session →
  layout b (mkDisk files dirs []) → sh_FileSize hd = Z.of_nat (length data) →
  let h := sha256_hex data in
  ∃ o s', handleConnection w nanos now (mkExchange server (StreamHeader_Encode hd ++ data ++ rest) fl None) =
      (o, Ret ((), s')) ∧
    written o = upload_response true h "" ∧
    o = replicate k sleep ++
        (if cb then [SUploadComplete (sh_SessionID hd) (uuid_String (us_FileID session)) h] else []) ++
        [SWrite (upload_response true h "")] ∧
    table_of s' !! sh_SessionID hd = None ∧
    dk_faults (st_disk (sv_storage (ex_server s'))) = [] ∧
    ∃ m, fm_Size m = Z.of_nat (length data) ∧ GetFile (O := SAct) h (sv_storage (ex_server s')) =
      ([], Ret (inr (RegularFile (Raw data), m), sv_storage (ex_server s'))).
Proof.
  intros Hok Hm (Hk & Hmiss & Hhit) Hd Hsize h.
  assert (limited (sh_FileSize hd) (data ++ rest) fl = mkReader data false) as Hlim.
  { unfold limited. rewrite Hsize, length_app, Nat2Z.id.
    destruct (Z.ltb_spec (Z.of_nat (length data + length rest)) (Z.of_nat (length data))); [lia|].
    by rewrite take_app_length. }
  destruct (upload_run w b idx files dirs sess cb hd _ fl Hok Hm k session Hk Hmiss Hhit nanos now data Hd Hlim)
    as [rest' E]. do 2 eexists. split; [exact E|]. split; [|split; [done|split; [|split; [done|]]]].
  - rewrite !written_app, written_sleeps.
    unfold written. destruct cb; simpl; by rewrite app_nil_r.
  - apply lookup_delete_eq.
  - destruct (SaveFile_run (O := SAct) b nanos now (us_FileID session) (us_Filename session)
      (us_ContentType session) data idx files dirs Hd) as [_ Hd']. fold h in Hd'.
    eexists. split; [|apply GetFile_run; [done|apply lookup_insert_eq|apply sha_wf_hash| |]].
    + reflexivity.
    + apply resolve_deep; [done|apply substring_2_length, sha_wf_hash|].
      unfold saved_dirs, dirs_of. set_solver.
    + exact (saved_files_data b nanos (mkFileMetadata (us_FileID session) (us_Filename session) h
        (Z.of_nat (length data)) (us_ContentType session) now "complete") data idx files (sha_wf_hash data)).
Qed.

(** A stream that ends early is accepted as a complete upload: when the
    client stops (with end of file) after fewer bytes than its header
    announced, the bytes that did arrive are stored, the session is used up
    and the answer is a success with the hash of the part. *)
Theorem upload_truncated_accepted hd data k session nanos now :
  header_ok hd → sh_Magic hd = MagicUpload → found_at (sh_SessionID hd) k session →
  layout b (mkDisk files dirs []) → Z.of_nat (length data) < sh_FileSize hd →
  let h := sha256_hex data in
  ∃ o s' m, handleConnection w nanos now (mkExchange server (StreamHeader_Encode hd ++ data) false None) =
      (o, Ret ((), s')) ∧
    written o = upload_response true h "" ∧
    table_of s' !! sh_SessionID hd = None ∧
    st_index (sv_storage (ex_server s')) = Some (<[h := m]> idx) ∧
    fm_Size m = Z.of_nat (length data).
Proof.
  intros Hok Hm (Hk & Hmiss & Hhit) Hd Hsize h.
  assert (limited (sh_FileSize hd) data false = mkReader data false) as Hlim.
  { unfold limited. destruct (Z.ltb_spec (Z.of_nat (length data)) (sh_FileSize hd)); [done|lia]. }
  destruct (upload_run w b idx files dirs sess cb hd _ false Hok Hm k session Hk Hmiss Hhit nanos now data Hd Hlim)
    as [rest' E]. do 3 eexists. split; [exact E|]. split_and!; [|apply lookup_delete_eq|done|done].
  rewrite !written_app, written_sleeps. unfold written. destruct cb; simpl; by rewrite app_nil_r.
Qed.

(** An upload whose session is not in the table at any of the ten attempts
    (unknown, or expired) stores nothing: the storage is untouched, the master
    is not notified, and the answer is a failure of 321 bytes. *)
Theorem upload_unknown_session hd data fl nanos now :
  header_ok hd → sh_Magic hd = MagicUpload →
  (∀ j, (j < 10)%nat → GetSession (w_now w j) (sh_SessionID hd) (table w 0 j sess) = None) →
  ∃ s', handleConnection w nanos now (mkExchange server (StreamHeader_Encode hd ++ data) fl None) =
      (replicate 9 sleep ++ [SWrite (upload_response false "" "invalid or expired session")], Ret ((), s')) ∧
    sv_storage (ex_server s') = sv_storage server.
Proof.
  intros Hok Hm Hmiss. rewrite upload_header by done.
  destruct (find_session_miss w (sh_SessionID hd) 0 10 (mkExchange server data fl None) eq_refl Hmiss)
    as [t Et].
  eexists. split.
  - eapply bind_run; [exact Et|]. reflexivity.
  - done.
Qed.

(** What was uploaded is what is downloaded: after an upload that arrived
    in full, a download request for the hash of the answer is answered by a
    header with the size of the data, followed by exactly the data. *)
Theorem upload_download hd data fl k session nanos now w' fl' nanos' now' :
  header_ok hd → sh_Magic hd = MagicUpload → found_at (sh_SessionID hd) k session →
  layout b (mkDisk files dirs []) → sh_FileSize hd = Z.of_nat (length data) →
  let h := sha256_hex data in
  ∃ o1 s1 o2 s2,
    handleConnection w nanos now (mkExchange server (StreamHeader_Encode hd ++ data) fl None) =
      (o1, Ret ((), s1)) ∧
    written o1 = upload_response true h "" ∧
    handleConnection w' nanos' now'
      (mkExchange (ex_server s1) (DownloadRequest_Encode (mkDownloadRequest h)) fl' None) =
      (o2, Ret ((), s2)) ∧
    DecodeHeader (written o2) =
      (inr (mkStreamHeader MagicDownload (String.substring 0 36 h) (Z.of_nat (length data)) DefaultChunkSize),
       data).
Proof.
  intros Hok Hm (Hk & Hmiss & Hhit) Hd Hsize h.
  assert (limited (sh_FileSize hd) data fl = mkReader data false) as Hlim.
  { unfold limited. rewrite Hsize, Z.ltb_irrefl, Nat2Z.id. by rewrite take_ge by lia. }
  destruct (upload_run w b idx files dirs sess cb hd _ fl Hok Hm k session Hk Hmiss Hhit nanos now data Hd Hlim)
    as [rest' E]. fold h in E.
  set (md := mkFileMetadata _ _ h _ _ _ _) in E.
  destruct (SaveFile_run (O := SAct) b nanos now (us_FileID session) (us_Filename session)
    (us_ContentType session) data idx files dirs Hd) as [_ Hd']. fold h in Hd'. fold md in Hd'.
  assert (GetFile (O := SAct) h (mkStore b (Some (<[h := md]> idx))
      (mkDisk (saved_files b nanos md data idx files) (saved_dirs b h dirs) [])) =
    ([], Ret (inr (RegularFile (Raw data), md), mkStore b (Some (<[h := md]> idx))
      (mkDisk (saved_files b nanos md data idx files) (saved_dirs b h dirs) [])))) as Hget.
  { apply GetFile_run; [done|apply lookup_insert_eq|apply sha_wf_hash| |].
    - apply resolve_deep; [done|apply substring_2_length, sha_wf_hash|].
      unfold saved_dirs, dirs_of. set_solver.
    - exact (saved_files_data b nanos md data idx files (sha_wf_hash data)). }
  pose proof (length_sha256_hex data) as Hlen. pose proof (sha256_hex_all_hex data) as Hhex.
  fold h in Hlen, Hhex.
  destruct (download_run w' nanos' now' h data md (RemoveSession (sh_SessionID hd) (table w 0 k sess))
    b _ (mkDisk _ _ []) cb [] fl' eq_refl Hlen (all_hex_no_nul h Hhex) Hget) as (o2 & E2 & Ho2).
  rewrite app_nil_r in E2. do 4 eexists. split; [exact E|]. split; [|split; [exact E2|]].
  - rewrite !written_app, written_sleeps. unfold written. destruct cb; simpl; by rewrite app_nil_r.
  - rewrite Ho2. unfold DecodeHeader. rewrite ReadFull_app by apply length_StreamHeader_Encode.
    rewrite <-manual_header_parse, header_back; [done| |apply length_StreamHeader_Encode].
    constructor; simpl; [by right|rewrite length_substring; lia| | |done].
    + by apply all_hex_no_nul, all_hex_substring.
    + rewrite <-Hsize. apply (ho_size hd Hok).
Qed.
End properties.

(** ** Examples: one upload of three bytes *)

#[local] Existing Instance decimal_uuids.
#[local] Existing Instance decimal_times.
#[local] Instance plain_errors : ErrnoText := λ op _ _, op.

Definition quiet_world : World := mkWorld (λ _, 1000) (λ _ t, t).
Definition example_session : UploadSession := mkUploadSession "s1" 7 "abc.txt" "text/plain" 3 0.
Definition example_upload (size : Z) : StreamHeader := mkStreamHeader MagicUpload "s1" size DefaultChunkSize.
Definition example_server : StreamServer :=
  mkStreamServer {[ "s1" := example_session ]} (NewLocalStorage example_base (mkDisk ∅ ∅ [])) true.

Lemma example_upload_ok size : in_int64 size = true → header_ok (example_upload size).
Proof.
  intros Hs. constructor; [by left|simpl; lia|vm_compute; discriminate|done|reflexivity].
Qed.

Lemma example_found : found_at quiet_world {[ "s1" := example_session ]} "s1" 0 example_session.
Proof. split_and!; [lia|intros j Hj; lia|reflexivity]. Qed.

Lemma manual_header_DecodeHeader_witness :
  manual_header (take HeaderSize (StreamHeader_Encode (example_upload 3))) = example_upload 3.
Proof. apply (manual_header_DecodeHeader _ _ []). vm_compute. reflexivity. Defined.

Lemma upload_stores_witness :
  ∃ o s', handleConnection quiet_world 99 1000 (mkExchange example_server
      (StreamHeader_Encode (example_upload 3) ++ example_bytes ++ []) false None) = (o, Ret ((), s')) ∧
    written o = upload_response true (sha256_hex example_bytes) "".
Proof.
  destruct (upload_stores quiet_world example_base ∅ ∅ ∅ {[ "s1" := example_session ]} true
    (example_upload 3) example_bytes [] false 0 example_session 99 1000) as (o & s' & E & Ho & _).
  - by apply example_upload_ok.
  - done.
  - exact example_found.
  - apply layout_fresh.
  - reflexivity.
  - exists o, s'. split; [exact E|exact Ho].
Defined.

Lemma upload_truncated_accepted_witness :
  ∃ o s', handleConnection quiet_world 99 1000 (mkExchange example_server
      (StreamHeader_Encode (example_upload 5000000000) ++ example_bytes) false None) = (o, Ret ((), s')) ∧
    written o = upload_response true (sha256_hex example_bytes) "".
Proof.
  destruct (upload_truncated_accepted quiet_world example_base ∅ ∅ ∅ {[ "s1" := example_session ]} true
    (example_upload 5000000000) example_bytes 0 example_session 99 1000) as (o & s' & m & E & Ho & _).
  - by apply example_upload_ok.
  - done.
  - exact example_found.
  - apply layout_fresh.
  - reflexivity.
  - exists o, s'. split; [exact E|exact Ho].
Defined.

Lemma upload_unknown_session_witness :
  ∃ s', handleConnection quiet_world 99 1000 (mkExchange
      (mkStreamServer ∅ (NewLocalStorage example_base (mkDisk ∅ ∅ [])) true)
      (StreamHeader_Encode (example_upload 3) ++ example_bytes) false None) =
    (replicate 9 sleep ++ [SWrite (upload_response false "" "invalid or expired session")], Ret ((), s')).
Proof.
  destruct (upload_unknown_session quiet_world example_base ∅ ∅ ∅ ∅ true
    (example_upload 3) example_bytes false 99 1000) as (s' & E & _).
  - by apply example_upload_ok.
  - done.
  - intros j Hj. unfold table. replace (fold_left _ _ _) with (∅ : SessionManager); [done|].
    generalize (S j) as m, 0%nat as r. induction m as [|m IH]; intros r; [done|]. apply (IH (S r)).
  - exists s'. exact E.
Defined.

Lemma upload_download_witness :
  ∃ o1 s1 o2 s2,
    handleConnection quiet_world 99 1000 (mkExchange example_server
      (StreamHeader_Encode (example_upload 3) ++ example_bytes) false None) = (o1, Ret ((), s1)) ∧
    handleConnection quiet_world 0 0 (mkExchange (ex_server s1)
      (DownloadRequest_Encode (mkDownloadRequest (sha256_hex example_bytes))) true None) = (o2, Ret ((), s2)) ∧
    (DecodeHeader (written o2)).2 = example_bytes.
Proof.
  destruct (upload_download quiet_world example_base ∅ ∅ ∅ {[ "s1" := example_session ]} true
    (example_upload 3) example_bytes false 0 example_session 99 1000 quiet_world true 0 0)
    as (o1 & s1 & o2 & s2 & E1 & _ & E2 & E3).
  - by apply example_upload_ok.
  - done.
  - exact example_found.
  - apply layout_fresh.
  - reflexivity.
  - exists o1, s1, o2, s2. split; [exact E1|]. split; [exact E2|]. by rewrite E3.
Defined.
