(* ===== verification/NodeState.v ===== *)
(** * The state of a node: [backend/dfs/node/node.go]

    The [Node] struct (without its elector, which wraps it), its peers table,
    its Lamport clock and its outgoing messages. A method is a state
    transformer that also lists what it does outwards, in order; a goroutine
    it starts is such an action. The clock of the machine ([now]) and fresh
    UUIDs are arguments. *)

From S2P Require Import Prelude GoStd Types Json Lamport HashRing Session Fs LocalStorage Protocol StreamServer.

(** The lock tables, guarded by [lockQueueMutex] and [waitForGraphMutex]. *)
Record Locks := mkLocks {
  lk_queue : gmap string (list LockRequest);
  lk_pendingAcks : gmap string (gmap uuid bool);
  lk_holders : gmap string uuid;
  lk_waitFor : gmap uuid (gmap uuid bool) }.

(** What only a master uses; a nil map or pointer is [None]. *)
Record Master := mkMaster {
  ma_hashRing : option HashRing;
  ma_globalFileIndex : option (gmap string GlobalFileInfo);
  ma_syncInProgress : bool;
  ma_pendingMetadataSync : option MetadataSyncState;
  ma_streamingSessions : gmap string StreamSession }.

Record Node := mkNode {
  n_ID : uuid;
  n_IP : string;
  n_AdvertiseIP : string;
  n_Port : Z;
  n_Priority : Z;
  n_Role : NodeRole;
  n_Status : NodeStatus;
  n_peers : gmap uuid NodeInfo;
  n_logicalTime : Z;
  n_locks : Locks;
  n_master : Master;
  (** the stream server, with the storage it shares with the node *)
  n_streamServer : StreamServer;
  (** [messageChan], a channel of capacity 100 *)
  n_messageChan : list Message }.

(** What a method does outwards. *)
Inductive NAct :=
| GoSend (ip : string) (port : Z) (msg : Message)      (* go n.SendMessage(ip, port, msg) *)
| Encode (m : MessageWithTime)                          (* json.NewEncoder(conn).Encode(m) *)
| GoSyncMetadata                                        (* go n.syncMetadataAfterElection() *)
| Dial (addr : string)                                  (* net.DialTimeout("tcp", addr, ...) *)
| Sleep (d : Z).                                        (* time.Sleep(d) *)

Definition set_Role (r : NodeRole) (n : Node) : Node :=
  mkNode (n_ID n) (n_IP n) (n_AdvertiseIP n) (n_Port n) (n_Priority n) r (n_Status n) (n_peers n)
    (n_logicalTime n) (n_locks n) (n_master n) (n_streamServer n) (n_messageChan n).
Definition set_Status (st : NodeStatus) (n : Node) : Node :=
  mkNode (n_ID n) (n_IP n) (n_AdvertiseIP n) (n_Port n) (n_Priority n) (n_Role n) st (n_peers n)
    (n_logicalTime n) (n_locks n) (n_master n) (n_streamServer n) (n_messageChan n).
Definition set_peers (ps : gmap uuid NodeInfo) (n : Node) : Node :=
  mkNode (n_ID n) (n_IP n) (n_AdvertiseIP n) (n_Port n) (n_Priority n) (n_Role n) (n_Status n) ps
    (n_logicalTime n) (n_locks n) (n_master n) (n_streamServer n) (n_messageChan n).
Definition set_logicalTime (t : Z) (n : Node) : Node :=
  mkNode (n_ID n) (n_IP n) (n_AdvertiseIP n) (n_Port n) (n_Priority n) (n_Role n) (n_Status n) (n_peers n)
    t (n_locks n) (n_master n) (n_streamServer n) (n_messageChan n).
Definition set_locks (lk : Locks) (n : Node) : Node :=
  mkNode (n_ID n) (n_IP n) (n_AdvertiseIP n) (n_Port n) (n_Priority n) (n_Role n) (n_Status n) (n_peers n)
    (n_logicalTime n) lk (n_master n) (n_streamServer n) (n_messageChan n).
Definition set_master (ma : Master) (n : Node) : Node :=
  mkNode (n_ID n) (n_IP n) (n_AdvertiseIP n) (n_Port n) (n_Priority n) (n_Role n) (n_Status n) (n_peers n)
    (n_logicalTime n) (n_locks n) ma (n_streamServer n) (n_messageChan n).
Definition set_streamServer (sv : StreamServer) (n : Node) : Node :=
  mkNode (n_ID n) (n_IP n) (n_AdvertiseIP n) (n_Port n) (n_Priority n) (n_Role n) (n_Status n) (n_peers n)
    (n_logicalTime n) (n_locks n) (n_master n) sv (n_messageChan n).
Definition set_messageChan (c : list Message) (n : Node) : Node :=
  mkNode (n_ID n) (n_IP n) (n_AdvertiseIP n) (n_Port n) (n_Priority n) (n_Role n) (n_Status n) (n_peers n)
    (n_logicalTime n) (n_locks n) (n_master n) (n_streamServer n) c.

Definition set_queue (q : gmap string (list LockRequest)) (l : Locks) : Locks :=
  mkLocks q (lk_pendingAcks l) (lk_holders l) (lk_waitFor l).
Definition set_pendingAcks (a : gmap string (gmap uuid bool)) (l : Locks) : Locks :=
  mkLocks (lk_queue l) a (lk_holders l) (lk_waitFor l).
Definition set_holders (h : gmap string uuid) (l : Locks) : Locks :=
  mkLocks (lk_queue l) (lk_pendingAcks l) h (lk_waitFor l).
Definition set_waitFor (g : gmap uuid (gmap uuid bool)) (l : Locks) : Locks :=
  mkLocks (lk_queue l) (lk_pendingAcks l) (lk_holders l) g.

Definition set_hashRing (r : option HashRing) (m : Master) : Master :=
  mkMaster r (ma_globalFileIndex m) (ma_syncInProgress m) (ma_pendingMetadataSync m) (ma_streamingSessions m).
Definition set_globalFileIndex (i : option (gmap string GlobalFileInfo)) (m : Master) : Master :=
  mkMaster (ma_hashRing m) i (ma_syncInProgress m) (ma_pendingMetadataSync m) (ma_streamingSessions m).
Definition set_syncInProgress (b : bool) (m : Master) : Master :=
  mkMaster (ma_hashRing m) (ma_globalFileIndex m) b (ma_pendingMetadataSync m) (ma_streamingSessions m).
Definition set_pendingMetadataSync (p : option MetadataSyncState) (m : Master) : Master :=
  mkMaster (ma_hashRing m) (ma_globalFileIndex m) (ma_syncInProgress m) p (ma_streamingSessions m).
Definition set_streamingSessions (s : gmap string StreamSession) (m : Master) : Master :=
  mkMaster (ma_hashRing m) (ma_globalFileIndex m) (ma_syncInProgress m) (ma_pendingMetadataSync m) s.

Abbreviation NodeM := (GoM Node NAct).

Section node.
Context `{UuidText} `{TimeText} `{MapRange}.

(** Methods on the parts of the node. *)
Definition locks {A} (m : GoM Locks NAct A) : NodeM A := zoom n_locks set_locks m.
Definition master {A} (m : GoM Master NAct A) : NodeM A := zoom n_master set_master m.
Definition storage {A} (m : GoM Store NAct A) : NodeM A :=
  zoom (λ n, sv_storage (n_streamServer n))
    (λ t n, set_streamServer (mkStreamServer (sv_sessions (n_streamServer n)) t
                                (sv_hasCallback (n_streamServer n))) n) m.

(** ** The Lamport clock: Go's [int] is a 64-bit integer *)

Definition IncrementAndGetLogicalTime : NodeM Z :=
  _ ← modify (λ n, set_logicalTime (int64 (n_logicalTime n + 1)) n);
  gets n_logicalTime.

Definition UpdateAndGetLogicalTime (receivedTime : Z) : NodeM Z :=
  _ ← modify (λ n, set_logicalTime (int64 (Z.max receivedTime (n_logicalTime n) + 1)) n);
  gets n_logicalTime.

(** ** The peers table *)

Definition GetNodeInfo (now : Z) (n : Node) : NodeInfo :=
  mkNodeInfo (n_ID n) (n_AdvertiseIP n) (n_Port n) (n_Role n) (n_Status n) (n_Priority n) now.

Definition AddPeer (now : Z) (peer : NodeInfo) : NodeM () :=
  modify (λ n, set_peers (<[ni_ID peer := ni_set_LastHeartbeat now peer]> (n_peers n)) n).

Definition GetPeer (peerID : uuid) : NodeM (option NodeInfo) :=
  gets (λ n, n_peers n !! peerID).

Definition GetPeers (n : Node) : list NodeInfo := (go_range (n_peers n)).*2.

Definition UpdatePeerRole (peerID : uuid) (role : NodeRole) : NodeM () :=
  modify (λ n, set_peers (alter (ni_set_Role role) peerID (n_peers n)) n).

Definition RemovePeer (peerID : uuid) : NodeM () :=
  modify (λ n, set_peers (delete peerID (n_peers n)) n).

(** ** Sending *)

Definition addr_of (ip : string) (port : Z) : string := ip +:+ ":" +:+ itoa port.

(** How one attempt to send goes: the connection fails, or the write does. *)
Inductive attempt := DialFails | EncodeFails | Delivered.

(** [SendMessage] with what happens at each of its attempts; [true] is a nil
    error. A failed dial sleeps, a failed write tries again at once, and each
    attempt that connects takes a new logical time. *)
Fixpoint send_loop (i todo : nat) (net : list attempt) (ip : string) (port : Z) (msg : Message) : NodeM bool :=
  match todo with
  | O => mret false
  | S todo' =>
    let a := match net with [] => Delivered | a :: _ => a end in
    let net' := tail net in
    _ ← emit (Dial (addr_of ip port));
    match a with
    | DialFails =>
      _ ← emit (Sleep (Z.of_nat (S i) * (500 * Millisecond)));
      send_loop (S i) todo' net' ip port msg
    | _ =>
      newTime ← IncrementAndGetLogicalTime;
      let msgWithTime := mkMessageWithTime msg newTime in
      match a with
      | EncodeFails => send_loop (S i) todo' net' ip port msg
      | _ => _ ← emit (Encode msgWithTime); mret true
      end
    end
  end.

Definition SendMessage (net : list attempt) (ip : string) (port : Z) (msg : Message) : NodeM bool :=
  send_loop 0 3 net ip port msg.

Definition BroadcastMessage (msg : Message) : NodeM () :=
  n ← get;
  for_each (GetPeers n) (λ p, emit (GoSend (ni_IP p) (ni_Port p) msg)).

(** ** Membership *)

Definition handleHeartbeat (now : Z) (msg : Message) : NodeM () :=
  match Unmarshal_ok NodeInfo_of_json (msg_Payload msg) with
  | None => skip
  | Some nodeInfo =>
    n ← get;
    match n_peers n !! msg_From msg with
    | Some peer =>
      modify (set_peers (<[msg_From msg :=
        ni_set_Status (ni_Status nodeInfo) (ni_set_LastHeartbeat now peer)]> (n_peers n)))
    | None =>
      modify (set_peers (<[msg_From msg := ni_set_LastHeartbeat now nodeInfo]> (n_peers n)))
    end
  end.

(** The discovery request that came in over the regular channel is logged. *)
Definition handleDiscovery (msg : Message) : NodeM () := skip.

Definition handleDiscoveryWithConnection (now : Z) (msg : Message) : NodeM () :=
  n ← get;
  let peers := GetPeers n ++ [GetNodeInfo now n] in
  let payload := NodeInfos_to_json peers in
  newTime ← IncrementAndGetLogicalTime;
  emit (Encode (mkMessageWithTime
    (mkMessage MessageDiscovery (n_ID n) (msg_From msg) (Some payload)) newTime)).

Definition hashRing_AddNode (info : NodeInfo) : NodeM () :=
  n ← get;
  match ma_hashRing (n_master n) with
  | Some ring =>
    if String.eqb (ni_Role info) RoleStorage
    then modify (set_master (set_hashRing (Some (AddNode info ring)) (n_master n)))
    else skip
  | None => skip
  end.

Definition handleNodeJoined (now : Z) (msg : Message) : NodeM () :=
  match Unmarshal_ok NodeInfo_of_json (msg_Payload msg) with
  | None => skip
  | Some nodeInfo =>
    _ ← AddPeer now nodeInfo;
    hashRing_AddNode (ni_set_LastHeartbeat now nodeInfo)
  end.

Definition RegisterStorageNode (now : Z) (nodeInfo : NodeInfo) : NodeM () :=
  _ ← AddPeer now nodeInfo; hashRing_AddNode (ni_set_LastHeartbeat now nodeInfo).

Definition handleNodeLeft (msg : Message) : NodeM () := RemovePeer (msg_From msg).

Definition sendHeartbeat (now : Z) : NodeM () :=
  n ← get;
  BroadcastMessage (mkMessage MessageHeartbeat (n_ID n) uuid_Nil
    (Some (NodeInfo_to_json (GetNodeInfo now n)))).

Definition announceJoin (now : Z) : NodeM () :=
  n ← get;
  BroadcastMessage (mkMessage MessageNodeJoined (n_ID n) uuid_Nil
    (Some (NodeInfo_to_json (GetNodeInfo now n)))).

(** The seed's answer: the connection, the write or the read failed, or a
    message came back. *)
Inductive seed_answer := SeedUnreachable | SeedWriteFails | SeedReadFails | SeedAnswers (m : MessageWithTime).

(** [DiscoverPeers]: [true] is a nil error. *)
Definition DiscoverPeers (now : Z) (seed : seed_answer) (seedIP : string) (seedPort : Z) : NodeM bool :=
  _ ← emit (Dial (addr_of seedIP seedPort));
  match seed with
  | SeedUnreachable => mret false
  | _ =>
    newTime ← IncrementAndGetLogicalTime;
    id ← gets n_ID;
    let msg := mkMessageWithTime (mkMessage MessageDiscovery id uuid_Nil None) newTime in
    match seed with
    | SeedUnreachable | SeedWriteFails => mret false
    | SeedReadFails => _ ← emit (Encode msg); mret false
    | SeedAnswers response =>
      _ ← emit (Encode msg);
      _ ← UpdateAndGetLogicalTime (mwt_LogicalTime response);
      match Unmarshal_ok NodeInfos_of_json (msg_Payload (mwt_Message response)) with
      | None => mret false
      | Some peers =>
        _ ← for_each peers (λ peer,
              match peer with
              | None => panic "invalid memory address or nil pointer dereference"
              | Some peer =>
                if decide (ni_ID peer = id) then skip else AddPeer now peer
              end);
        _ ← announceJoin now;
        mret true
      end
    end
  end.
End node.
