(* ===== verification/NodeLocks.v ===== *)
(** * Distributed locks: the lock part of [backend/dfs/node/node.go]

    Requests, acknowledgements, the critical section, timeouts and the
    deadlock detector, as the node runs them. Each handler holds
    [lockQueueMutex] around the tables it changes. *)

From S2P Require Import Prelude GoStd Types Json Lamport WaitFor NodeState.

Section locks.
Context `{UuidText} `{TimeText} `{MapRange}.

(** [n.lockQueue[k]], where a missing key reads as the empty queue. *)
Definition queue_of (resourceID : string) (l : Locks) : list LockRequest :=
  default [] (lk_queue l !! resourceID).

(** Append to the queue of the resource and sort it in place. *)
Definition enqueue (req : LockRequest) (l : Locks) : Locks :=
  set_queue (<[lr_ResourceID req :=
    SliceStable CompareLockRequests (queue_of (lr_ResourceID req) l ++ [req])]> (lk_queue l)) l.

(** Remove the first request of a node, if it has one. *)
Fixpoint remove_first (id : uuid) (q : list LockRequest) : option (list LockRequest) :=
  match q with
  | [] => None
  | req :: q' => if decide (lr_NodeID req = id) then Some q' else cons req <$> remove_first id q'
  end.

Definition dequeue (resourceID : string) (id : uuid) (l : Locks) : Locks :=
  match remove_first id (queue_of resourceID l) with
  | Some q => set_queue (<[resourceID := q]> (lk_queue l)) l
  | None => l
  end.

(** ** The handlers *)

Definition record_wait (req : LockRequest) (l : Locks) : Locks :=
  match lk_holders l !! lr_ResourceID req with
  | Some holder =>
    if decide (holder = lr_NodeID req) then l
    else set_waitFor (<[lr_NodeID req :=
           <[holder := true]> (default ∅ (lk_waitFor l !! lr_NodeID req))]> (lk_waitFor l)) l
  | None => l
  end.

Definition handleLockRequest (msg : Message) : NodeM () :=
  match Unmarshal_ok LockRequest_of_json (msg_Payload msg) with
  | None => skip
  | Some lockRequest =>
    _ ← modify (λ n, set_locks (record_wait lockRequest (enqueue lockRequest (n_locks n))) n);
    n ← get;
    match n_peers n !! msg_From msg with
    | None => skip
    | Some p =>
      let payload := string_to_json (lr_ResourceID lockRequest) in
      emit (GoSend (ni_IP p) (ni_Port p)
        (mkMessage MessageLockAck (n_ID n) (ni_ID p) (Some payload)))
    end
  end.

Definition add_ack (resourceID : string) (from : uuid) (l : Locks) : Locks :=
  set_pendingAcks (<[resourceID :=
    <[from := true]> (default ∅ (lk_pendingAcks l !! resourceID))]> (lk_pendingAcks l)) l.

Definition handleLockAck (msg : Message) : NodeM () :=
  match Unmarshal_ok string_of_json (msg_Payload msg) with
  | None => skip
  | Some resourceID => modify (λ n, set_locks (add_ack resourceID (msg_From msg) (n_locks n)) n)
  end.

Definition handleLockAcquired (msg : Message) : NodeM () :=
  match Unmarshal_ok string_of_json (msg_Payload msg) with
  | None => skip
  | Some resourceID =>
    modify (λ n, set_locks (set_holders (<[resourceID := msg_From msg]> (lk_holders (n_locks n))) (n_locks n)) n)
  end.

Definition handleLockRelease (msg : Message) : NodeM () :=
  match Unmarshal_ok string_of_json (msg_Payload msg) with
  | None => skip
  | Some resourceID =>
    modify (λ n,
      let l := n_locks n in
      let l := set_waitFor (delete (msg_From msg) <$> lk_waitFor l) l in
      let l := set_holders (delete resourceID (lk_holders l)) l in
      set_locks (dequeue resourceID (msg_From msg) l) n)
  end.

(** ** Acquiring and releasing *)

Definition RequestLock (now : Z) (resourceID : string) : NodeM () :=
  newTime ← IncrementAndGetLogicalTime;
  id ← gets n_ID;
  let lockRequest := mkLockRequest resourceID id newTime StatusPending now in
  _ ← modify (λ n,
        let l := enqueue lockRequest (n_locks n) in
        set_locks (set_pendingAcks (<[resourceID := ∅]> (lk_pendingAcks l)) l) n);
  BroadcastMessage (mkMessage MessageLockRequest id uuid_Nil (Some (LockRequest_to_json lockRequest))).

Definition ReleaseLock (resourceID : string) : NodeM () :=
  id ← gets n_ID;
  _ ← modify (λ n,
        let l := dequeue resourceID id (n_locks n) in
        set_locks (set_pendingAcks (delete resourceID (lk_pendingAcks l)) l) n);
  BroadcastMessage (mkMessage MessageLockRelease id uuid_Nil (Some (string_to_json resourceID))).

Definition fresh (now : Z) (req : LockRequest) : bool := now - lr_RequestedAt req <=? LOCK_TIMEOUT.

(** The loop that drops timed-out requests from the head of the queue. *)
Fixpoint drop_expired (now : Z) (id : uuid) (resourceID : string) (q : list LockRequest)
    (acks : gmap string (gmap uuid bool)) : list LockRequest * gmap string (gmap uuid bool) :=
  match q with
  | [] => ([], acks)
  | first :: q' =>
    if fresh now first then (q, acks)
    else drop_expired now id resourceID q'
           (if decide (lr_NodeID first = id) then delete resourceID acks else acks)
  end.

(** The acknowledgements that were received. *)
Definition count_acks (acks : gmap uuid bool) : nat :=
  length (filter (λ kv : uuid * bool, kv.2 = true) (map_to_list acks)).

Definition CanEnterCriticalSection (now : Z) (resourceID : string) : NodeM bool :=
  n ← get;
  let q := queue_of resourceID (n_locks n) in
  match q with
  | [] => mret false
  | _ =>
    let '(q, acks) := drop_expired now (n_ID n) resourceID q (lk_pendingAcks (n_locks n)) in
    _ ← modify (λ n, set_locks (set_pendingAcks acks
          (set_queue (<[resourceID := q]> (lk_queue (n_locks n))) (n_locks n))) n);
    match q with
    | [] => mret false
    | first :: _ =>
      if decide (lr_NodeID first ≠ n_ID n) then mret false
      else
        let expectedAcks := size (n_peers n) in
        if decide (expectedAcks = 0%nat) then mret true
        else
          let receivedAcks := count_acks (default ∅ (acks !! resourceID)) in
          mret (expectedAcks <=? receivedAcks)%nat
    end
  end.

Definition EnterCriticalSection (now : Z) (resourceID : string) : NodeM bool :=
  can ← CanEnterCriticalSection now resourceID;
  if can : bool then
    id ← gets n_ID;
    _ ← BroadcastMessage (mkMessage MessageLockAcquired id uuid_Nil (Some (string_to_json resourceID)));
    mret true
  else mret false.

(** [handleLockAbort]: release every resource this node has a request for. *)
Definition handleLockAbort (msg : Message) : NodeM () :=
  n ← get;
  let resourcesToRelease := (filter
    (λ kv : string * list LockRequest, existsb (λ req, bool_decide (lr_NodeID req = n_ID n)) kv.2 = true)
    (go_range (lk_queue (n_locks n)))).*1 in
  for_each resourcesToRelease ReleaseLock.

(** [checkLocksTimeouts]: drop the timed-out requests of every queue; for each
    of its own, forget the acknowledgements and tell the others. *)
Definition timeout_step (now : Z) (id : uuid)
    (acc : gmap string (list LockRequest) * gmap string (gmap uuid bool) * list string)
    (kv : string * list LockRequest) :=
  let '(queues, acks, toRelease) := acc in
  let '(resourceID, queue) := kv in
  let mine := filter (λ req, fresh now req = false ∧ lr_NodeID req = id) queue in
  (<[resourceID := filter (λ req, fresh now req = true) queue]> queues,
   match mine with [] => acks | _ => delete resourceID acks end,
   toRelease ++ replicate (length mine) resourceID).

Definition checkLocksTimeouts (now : Z) : NodeM () :=
  n ← get;
  let l := n_locks n in
  let '(queues, acks, toRelease) :=
    fold_left (timeout_step now (n_ID n)) (go_range (lk_queue l)) (lk_queue l, lk_pendingAcks l, []) in
  _ ← modify (set_locks (set_pendingAcks acks (set_queue queues l)));
  for_each toRelease (λ resourceID,
    BroadcastMessage (mkMessage MessageLockRelease (n_ID n) uuid_Nil (Some (string_to_json resourceID)))).

(** ** Deadlocks *)

Definition selectVictim_step (n : Node) (acc : uuid * Z) (nodeID : uuid) : uuid * Z :=
  let '(victim, lowestPriority) := acc in
  let priority :=
    if decide (nodeID = n_ID n) then Some (n_Priority n)
    else ni_Priority <$> n_peers n !! nodeID in
  match priority with
  | None => acc
  | Some priority => if priority <? lowestPriority then (nodeID, priority) else acc
  end.

Definition selectVictim (cyclePath : list uuid) (n : Node) : uuid :=
  (fold_left (selectVictim_step n) cyclePath (uuid_Nil, maxInt)).1.

Definition sendAbort (victim : uuid) : NodeM () :=
  n ← get;
  let msg := mkMessage MessageLockAbort (n_ID n) uuid_Nil None in
  if decide (victim = n_ID n) then handleLockAbort msg
  else
    match n_peers n !! victim with
    | None => skip
    | Some peer => emit (GoSend (ni_IP peer) (ni_Port peer) msg)
    end.

Definition checkDeadlocks : NodeM () :=
  n ← get;
  if decide (n_Role n ≠ RoleMaster) then skip
  else
    let '(hasCycle, cyclePath) := HasCycle (lk_waitFor (n_locks n)) in
    if hasCycle : bool then sendAbort (selectVictim cyclePath n) else skip.
End locks.

(** ** Helper lemmas *)
Section lemmas.
Context `{UuidText} `{TimeText} `{MapRange}.

Definition to_all (n : Node) (msg : Message) : list NAct :=
  (λ p, GoSend (ni_IP p) (ni_Port p) msg) <$> GetPeers n.

Lemma BroadcastMessage_run msg n : BroadcastMessage msg n = (to_all n msg, Ret ((), n)).
Proof.
  unfold BroadcastMessage. rewrite (bind_silent _ _ _ n n) by done. apply for_each_emit.
Qed.

(** The requests of a queue are in the order of the timestamps. *)
Definition queues_ok (l : Locks) : Prop :=
  map_Forall (λ _ q, ordered CompareLockRequests q) (lk_queue l).

Lemma ordered_sublist (q q' : list LockRequest) :
  sublist q' q → ordered CompareLockRequests q → ordered CompareLockRequests q'.
Proof.
  intros Hs Hq. unfold ordered in *. induction Hs as [|x q' q Hs IH|x q' q Hs IH]; [done| |].
  - inversion Hq as [|? ? H1' H2']; subst. constructor; [auto|].
    eapply Forall_impl; [|intros y Hy; exact Hy]. rewrite Forall_forall in *.
    intros y Hy. apply H2'. by eapply elem_of_sublist.
  - inversion Hq; subst. auto.
Qed.

Lemma remove_first_sublist id q q' : remove_first id q = Some q' → sublist q' q.
Proof.
  revert q'. induction q as [|x q IH]; intros q'; simpl; [done|]. case_decide.
  - intros [= <-]. by constructor.
  - destruct (remove_first id q); [|done]. intros [= <-]. constructor. auto.
Qed.

Lemma drop_expired_suffix now id r q acks q' acks' :
  drop_expired now id r q acks = (q', acks') → q' `suffix_of` q.
Proof.
  revert acks. induction q as [|x q IH]; intros acks; simpl; [by intros [= <- _]|].
  destruct (fresh now x); [by intros [= <- _]|]. intros Hq. apply IH in Hq.
  by apply suffix_cons_r.
Qed.

Lemma suffix_sublist {A} (l k : list A) : l `suffix_of` k → sublist l k.
Proof. intros [x ->]. by apply sublist_inserts_l. Qed.

Lemma queue_of_ok l r : queues_ok l → ordered CompareLockRequests (queue_of r l).
Proof.
  intros Hl. unfold queue_of. destruct (lk_queue l !! r) eqn:E; [by apply (Hl r)|]. constructor.
Qed.

Lemma enqueue_ok req l : queues_ok l → queues_ok (enqueue req l).
Proof.
  intros Hl. apply map_Forall_insert_2; [|done].
  apply SliceStable_ordered; [apply CompareLockRequests_asym|apply CompareLockRequests_cotrans].
Qed.

Lemma dequeue_ok r id l : queues_ok l → queues_ok (dequeue r id l).
Proof.
  intros Hl. unfold dequeue. destruct (remove_first _ _) as [q|] eqn:E; [|done].
  apply map_Forall_insert_2; [|done]. eapply ordered_sublist; [by eapply remove_first_sublist|].
  by apply queue_of_ok.
Qed.

Lemma record_wait_queue req l : lk_queue (record_wait req l) = lk_queue l.
Proof. unfold record_wait. by repeat case_match. Qed.

(** One resource of [checkLocksTimeouts]. *)
Lemma timeouts_fold now id (kvs : list (string * list LockRequest)) queues acks rel :
  NoDup kvs.*1 →
  let res := fold_left (timeout_step now id) kvs (queues, acks, rel) in
  (∀ r q, (r, q) ∈ kvs →
     res.1.1 !! r = Some (filter (λ req, fresh now req = true) q) ∧
     res.1.2 !! r = if existsb (λ req, negb (fresh now req) && bool_decide (lr_NodeID req = id)) q
                    then None else acks !! r) ∧
  (∀ r, r ∉ kvs.*1 → res.1.1 !! r = queues !! r ∧ res.1.2 !! r = acks !! r) ∧
  res.2 = rel ++ mjoin ((λ kv : string * list LockRequest, replicate (length
    (filter (λ req, fresh now req = false ∧ lr_NodeID req = id) kv.2)) kv.1) <$> kvs).
Proof.
  revert queues acks rel. induction kvs as [|[k q] kvs IH]; intros queues acks rel Hnd.
  { simpl. rewrite app_nil_r. split_and!; [set_solver|done|done]. }
  csimpl in *. apply NoDup_cons in Hnd as [Hk Hnd].
  set (mine := filter (λ req, fresh now req = false ∧ lr_NodeID req = id) q).
  assert ((mine = []) ↔ existsb (λ req, negb (fresh now req) && bool_decide (lr_NodeID req = id)) q = false) as Hm.
  { unfold mine. rewrite <-not_true_iff_false, existsb_exists. split.
    - intros E (x & Hx%list_elem_of_In & Hb). apply andb_true_iff in Hb as [H1' H2'].
      apply negb_true_iff in H1'. apply bool_decide_eq_true in H2'.
      assert (x ∈ filter (λ req, fresh now req = false ∧ lr_NodeID req = id) q) as Hin
        by (apply list_elem_of_filter; auto). rewrite E in Hin. set_solver.
    - intros E. apply filter_none. intros x Hx [H1' H2']. apply E. exists x.
      split; [by apply list_elem_of_In|]. by rewrite H1', bool_decide_true. }
  edestruct IH as (I1 & I2 & I3); [exact Hnd|]. split_and!.
  - intros r q' [[= -> ->]|Hin]%elem_of_cons.
    + destruct (I2 k Hk) as [E1 E2]. rewrite E1, E2. split; [apply lookup_insert_eq|].
      destruct mine eqn:Em; [rewrite (proj1 Hm) by done; done|].
      destruct (existsb _ q); [apply lookup_delete_eq|]. by discriminate (proj2 Hm).
    + destruct (I1 r q' Hin) as [E1 E2]. rewrite E1, E2. split; [done|].
      assert (r ≠ k) by (intros ->; apply Hk, list_elem_of_fmap; by exists (k, q')).
      destruct mine; [done|]. by rewrite lookup_delete_ne.
  - intros r Hr. apply not_elem_of_cons in Hr as [Hne Hr]. destruct (I2 r Hr) as [E1 E2].
    rewrite E1, E2, lookup_insert_ne by done. split; [done|].
    destruct mine; [done|]. by rewrite lookup_delete_ne.
  - rewrite I3. by rewrite <-app_assoc.
Qed.

Lemma for_each_broadcast (n : Node) (l : list string) (msg : string → Message) :
  for_each l (λ r, BroadcastMessage (msg r)) n = (mjoin ((λ r, to_all n (msg r)) <$> l), Ret ((), n)).
Proof.
  induction l as [|r l IH]; [done|]. cbn [for_each].
  by rewrite (bind_run _ _ _ _ _ _ _ _ (BroadcastMessage_run (msg r) n) IH).
Qed.

Lemma CanEnter_run now r n :
  let '(q, acks) := drop_expired now (n_ID n) r (queue_of r (n_locks n)) (lk_pendingAcks (n_locks n)) in
  ∃ n', CanEnterCriticalSection now r n =
    ([], Ret (match q with
              | [] => false
              | first :: _ => bool_decide (lr_NodeID first = n_ID n) &&
                  ((size (n_peers n) =? 0) || (size (n_peers n) <=? count_acks (default ∅ (acks !! r))))%nat
              end, n')) ∧
    (n' = n ∧ q = [] ∨
     n' = set_locks (set_pendingAcks acks (set_queue (<[r := q]> (lk_queue (n_locks n))) (n_locks n))) n).
Proof.
  destruct (drop_expired _ _ _ _ _) as [q acks] eqn:E. unfold CanEnterCriticalSection.
  rewrite (bind_silent _ _ _ n n) by done. cbv beta zeta.
  destruct (queue_of r (n_locks n)) as [|x q0] eqn:Eq.
  { simpl in E. injection E as <- <-. exists n. split; [done|by left]. }
  rewrite E. eexists. split; [|by right].
  erewrite bind_silent by done. destruct q as [|first q]; [done|].
  case_decide as Hf; [by rewrite bool_decide_false|]. rewrite bool_decide_true by (by destruct (decide (lr_NodeID first = n_ID n))).
  case_decide as Hs; [by rewrite Hs|]. apply Nat.eqb_neq in Hs. by rewrite Hs.
Qed.

Lemma drop_expired_acks now id r q acks :
  let '(q', acks') := drop_expired now id r q acks in
  ∃ stale, q = stale ++ q' ∧ Forall (λ req, fresh now req = false) stale ∧
    (∀ first rest, q' = first :: rest → fresh now first = true) ∧
    acks' = if existsb (λ req, bool_decide (lr_NodeID req = id)) stale then delete r acks else acks.
Proof.
  revert acks. induction q as [|x q IH]; intros acks; simpl.
  { exists []. split_and!; [done|constructor|done|done]. }
  destruct (fresh now x) eqn:Ex.
  { exists []. split_and!; [done|constructor|by intros ? ? [= <- <-]|done]. }
  specialize (IH (if decide (lr_NodeID x = id) then delete r acks else acks)).
  destruct (drop_expired _ _ _ _ _) as [q' acks']. destruct IH as (stale & -> & H1' & H2' & ->).
  exists (x :: stale). split_and!; [done|by constructor|done|]. simpl.
  case_decide as Hx; [rewrite bool_decide_true by done|by rewrite bool_decide_false].
  simpl. destruct (existsb _ stale); [apply delete_delete_eq|done].
Qed.
End lemmas.

(** ** Properties *)
Section properties.
Context `{UuidText} `{TimeText} `{MapRange}.

(** Everything that touches the lock tables. *)
Inductive LockOp :=
| OpRequestLock (now : Z) (r : string)
| OpReleaseLock (r : string)
| OpCanEnter (now : Z) (r : string)
| OpEnter (now : Z) (r : string)
| OpLockRequest (msg : Message)
| OpLockAck (msg : Message)
| OpLockAcquired (msg : Message)
| OpLockRelease (msg : Message)
| OpLockAbort (msg : Message)
| OpTimeouts (now : Z)
| OpDeadlocks.

Definition run_LockOp (op : LockOp) : NodeM () :=
  match op with
  | OpRequestLock now r => RequestLock now r
  | OpReleaseLock r => ReleaseLock r
  | OpCanEnter now r => _ ← CanEnterCriticalSection now r; skip
  | OpEnter now r => _ ← EnterCriticalSection now r; skip
  | OpLockRequest msg => handleLockRequest msg
  | OpLockAck msg => handleLockAck msg
  | OpLockAcquired msg => handleLockAcquired msg
  | OpLockRelease msg => handleLockRelease msg
  | OpLockAbort msg => handleLockAbort msg
  | OpTimeouts now => checkLocksTimeouts now
  | OpDeadlocks => checkDeadlocks
  end.

Definition sorted_node (n : Node) : Prop := queues_ok (n_locks n).

Lemma triple_skip (P : Node → Prop) : triple P (skip : NodeM ()) (λ _ n _, P n).
Proof. by apply (triple_ret ()). Qed.

Lemma triple_run {A} (P : Node → Prop) (m : NodeM A) :
  (∀ n, P n → ∃ o a n', m n = (o, Ret (a, n')) ∧ P n') → triple P m (λ _ n _, P n).
Proof. intros Hm n Hn. exact (Hm n Hn). Qed.

Lemma sorted_broadcast msg : triple sorted_node (BroadcastMessage msg) (λ _ n _, sorted_node n).
Proof. apply triple_run. intros n Hn. rewrite BroadcastMessage_run. eauto. Qed.

Lemma sorted_ReleaseLock r : triple sorted_node (ReleaseLock r) (λ _ n _, sorted_node n).
Proof.
  apply triple_run. intros n Hn. unfold ReleaseLock. erewrite bind_silent by reflexivity.
  erewrite bind_silent by reflexivity. rewrite BroadcastMessage_run. do 3 eexists. split; [done|].
  apply (dequeue_ok r (n_ID n) (n_locks n) Hn).
Qed.

Lemma sorted_CanEnter now r : triple sorted_node (CanEnterCriticalSection now r) (λ _ n _, sorted_node n).
Proof.
  apply triple_run. intros n Hn. pose proof (CanEnter_run now r n) as Hr.
  destruct (drop_expired _ _ _ _ _) as [q acks] eqn:E. destruct Hr as (n' & E' & Hn').
  rewrite E'. do 3 eexists. split; [done|]. destruct Hn' as [[-> _]| ->]; [done|].
  apply map_Forall_insert_2; [|done].
  eapply ordered_sublist; [|by apply (queue_of_ok (n_locks n) r)].
  apply suffix_sublist. by eapply drop_expired_suffix.
Qed.

Lemma sorted_abort msg : triple sorted_node (handleLockAbort msg) (λ _ n _, sorted_node n).
Proof.
  apply triple_run. intros n Hn. unfold handleLockAbort. erewrite bind_silent by reflexivity.
  set (l := (filter _ _).*1).
  edestruct (triple_for l ReleaseLock (λ _ n _, sorted_node n) sorted_node) as (o & u & n' & E & Hn').
  - done.
  - intros done x todo o _. eapply triple_conseq; [apply sorted_ReleaseLock|done|done].
  - exact Hn.
  - eauto.
Qed.

Lemma sorted_timeouts now : triple sorted_node (checkLocksTimeouts now) (λ _ n _, sorted_node n).
Proof.
  apply triple_run. intros n Hn. unfold checkLocksTimeouts. erewrite bind_silent by reflexivity.
  pose proof (timeouts_fold now (n_ID n) (go_range (lk_queue (n_locks n))) (lk_queue (n_locks n))
    (lk_pendingAcks (n_locks n)) [] (NoDup_go_range_fst _)) as (F1 & F2 & _).
  destruct (fold_left _ _ _) as [[queues acks] rel]. erewrite bind_silent by reflexivity.
  rewrite for_each_broadcast. do 3 eexists. split; [done|].
  intros r q Hq. simpl in *. destruct (lk_queue (n_locks n) !! r) as [q0|] eqn:E0.
  - apply elem_of_go_range in E0. destruct (F1 r q0 E0) as [E1 _]. rewrite E1 in Hq. injection Hq as <-.
    apply elem_of_go_range in E0. eapply ordered_sublist; [apply sublist_filter|]. by apply (Hn r).
  - destruct (F2 r) as [E1 _]; [|congruence].
    intros ([k q1] & -> & Hin)%list_elem_of_fmap. apply elem_of_go_range in Hin. simpl in *. congruence.
Qed.

(** Every operation on the lock tables returns without a panic and keeps
    every request queue in the total order of the (time, node) pairs. *)
Theorem queues_stay_sorted op :
  triple sorted_node (run_LockOp op) (λ _ n _, sorted_node n).
Proof.
  destruct op as [now r|r|now r|now r|msg|msg|msg|msg|msg|now|]; simpl.
  - apply triple_run. intros n Hn. unfold RequestLock, IncrementAndGetLogicalTime.
    do 2 erewrite bind_silent by reflexivity. erewrite bind_silent by reflexivity.
    rewrite BroadcastMessage_run. do 3 eexists. split; [done|]. by apply (enqueue_ok _ (n_locks n)).
  - apply sorted_ReleaseLock.
  - eapply triple_bind; [apply sorted_CanEnter|]. intros a o. apply triple_skip.
  - eapply triple_bind; [|intros a o; apply triple_skip]. unfold EnterCriticalSection.
    eapply triple_bind; [apply sorted_CanEnter|]. intros [] o; [|by apply triple_ret].
    apply triple_run. intros n Hn. erewrite bind_silent by reflexivity.
    erewrite bind_run; [|apply BroadcastMessage_run|reflexivity]. eauto.
  - apply triple_run. intros n Hn. unfold handleLockRequest.
    destruct (Unmarshal_ok _ _) as [req|]; [|by apply triple_skip].
    erewrite bind_silent by reflexivity. erewrite bind_silent by reflexivity.
    destruct (n_peers _ !! _); do 3 eexists; (split; [done|]); unfold sorted_node, queues_ok; simpl;
      rewrite record_wait_queue; by apply enqueue_ok.
  - apply triple_run. intros n Hn. unfold handleLockAck. destruct (Unmarshal_ok _ _); by do 3 eexists.
  - apply triple_run. intros n Hn. unfold handleLockAcquired. destruct (Unmarshal_ok _ _); by do 3 eexists.
  - apply triple_run. intros n Hn. unfold handleLockRelease. destruct (Unmarshal_ok _ _); [|by do 3 eexists].
    do 3 eexists. split; [done|]. by apply dequeue_ok.
  - apply sorted_abort.
  - apply sorted_timeouts.
  - apply triple_run. intros n Hn. unfold checkDeadlocks. erewrite bind_silent by reflexivity.
    case_decide; [by do 3 eexists|]. destruct (HasCycle _) as [[] p]; [|by do 3 eexists].
    unfold sendAbort. erewrite bind_silent by reflexivity. case_decide; [by apply sorted_abort|].
    destruct (n_peers n !! _); by do 3 eexists.
Qed.
End properties.

(** ** The critical section *)
Section critical.
Context `{UuidText} `{TimeText} `{MapRange}.

(** When a node may enter: after the timed-out requests at the head of the
    queue ([stale]) comes its own request, and there are at least as many
    acknowledgements as peers (none, if one of its own requests timed out). *)
Definition may_enter (now : Z) (r : string) (n : Node) : Prop :=
  ∃ stale first rest, queue_of r (n_locks n) = stale ++ first :: rest ∧
    Forall (λ req, fresh now req = false) stale ∧ fresh now first = true ∧
    lr_NodeID first = n_ID n ∧
    (size (n_peers n) ≤
       if existsb (λ req, bool_decide (lr_NodeID req = n_ID n)) stale then 0
       else count_acks (default ∅ (lk_pendingAcks (n_locks n) !! r)))%nat.

Lemma stale_split now (s1 s2 q1 q2 : list LockRequest) :
  s1 ++ q1 = s2 ++ q2 →
  Forall (λ req, fresh now req = false) s1 → Forall (λ req, fresh now req = false) s2 →
  (∀ f t, q1 = f :: t → fresh now f = true) → (∀ f t, q2 = f :: t → fresh now f = true) →
  q1 ≠ [] ∨ q2 ≠ [] → s1 = s2 ∧ q1 = q2.
Proof.
  revert s2. induction s1 as [|x s1 IH]; intros [|y s2] E F1 F2 H1' H2' Hne; simpl in *.
  - done.
  - subst q1. inversion F2 as [|? ? Hy _]; subst. by rewrite (H1' _ _ eq_refl) in Hy.
  - subst q2. inversion F1 as [|? ? Hx _]; subst. by rewrite (H2' _ _ eq_refl) in Hx.
  - injection E as -> E. inversion F1; inversion F2; subst.
    destruct (IH s2) as [-> ->]; auto.
Qed.

Lemma CanEnter_spec now r n :
  ∃ b n', CanEnterCriticalSection now r n = ([], Ret (b, n')) ∧ (b = true ↔ may_enter now r n) ∧
    (n_peers n' = n_peers n ∧ n_ID n' = n_ID n) ∧
    ∀ r', r' ≠ r → queue_of r' (n_locks n') = queue_of r' (n_locks n) ∧
      lk_pendingAcks (n_locks n') !! r' = lk_pendingAcks (n_locks n) !! r'.
Proof.
  pose proof (CanEnter_run now r n) as Hr.
  pose proof (drop_expired_acks now (n_ID n) r (queue_of r (n_locks n)) (lk_pendingAcks (n_locks n))) as Hd.
  destruct (drop_expired _ _ _ _ _) as [q acks]. destruct Hr as (n' & E & Hn').
  destruct Hd as (stale & Hq & Hstale & Hfresh & Hacks). do 2 eexists. split; [exact E|].
  split; [|destruct Hn' as [[-> _]| ->]; (split; [done|]); [done|]; intros r' Hr'; simpl;
    unfold queue_of; simpl; rewrite lookup_insert_ne by done; split; [done|];
    subst acks; destruct (existsb _ stale); [by rewrite lookup_delete_ne|done]].
  assert (∀ first rest, q = first :: rest →
    count_acks (default ∅ (acks !! r)) =
      if existsb (λ req, bool_decide (lr_NodeID req = n_ID n)) stale then 0%nat
      else count_acks (default ∅ (lk_pendingAcks (n_locks n) !! r))) as Hcount.
  { intros _ _ _. subst acks. destruct (existsb _ stale); [by rewrite lookup_delete_eq|done]. }
  split.
  - destruct q as [|first rest]; [done|].
    rewrite andb_true_iff, bool_decide_eq_true, orb_true_iff, Nat.eqb_eq, Nat.leb_le.
    intros [Hid Hsz]. exists stale, first, rest. rewrite (Hcount _ _ eq_refl) in Hsz.
    split_and!; [done|done|by apply (Hfresh first rest)|done|]. destruct (existsb _ stale); lia.
  - intros (s2 & first & rest & Hq2 & F2 & Hf & Hid & Hsz). rewrite Hq in Hq2.
    destruct (stale_split now stale s2 q (first :: rest)) as [-> ->]; [done|done|done|done| |by right|].
    { by intros ? ? [= <- <-]. }
    rewrite bool_decide_true by done. rewrite (Hcount _ _ eq_refl). simpl.
    apply orb_true_iff. rewrite Nat.eqb_eq, Nat.leb_le. destruct (existsb _ s2); lia.
Qed.

(** [EnterCriticalSection] answers true exactly when, timed-out requests
    at the head aside, the node's own request leads the queue of the resource
    and acknowledgements have come from as many nodes as it has peers. It then
    announces the lock to every peer, and to nobody otherwise; the queues of
    other resources are untouched. *)
Theorem EnterCriticalSection_correct now r n :
  ∃ (b : bool) n', EnterCriticalSection now r n =
      (if b then to_all n' (mkMessage MessageLockAcquired (n_ID n) uuid_Nil (Some (JStr r))) else [],
       Ret (b, n')) ∧
    (b = true ↔ may_enter now r n) ∧ n_peers n' = n_peers n ∧
    ∀ r', r' ≠ r → queue_of r' (n_locks n') = queue_of r' (n_locks n).
Proof.
  destruct (CanEnter_spec now r n) as (b & n' & E & Hb & [Hp Hid] & Hother).
  exists b, n'. split; [|split_and!; [done|done|intros r' Hr'; by apply Hother]].
  unfold EnterCriticalSection. rewrite (bind_silent _ _ _ _ _ E). destruct b; [|done].
  rewrite (bind_silent _ _ _ (n_ID n') n') by done. rewrite Hid.
  erewrite bind_run; [|apply BroadcastMessage_run|reflexivity]. by rewrite app_nil_r.
Qed.

(** A node that is let into the critical section has a request that is no
    more than 30 seconds old and that no other such request in its queue
    precedes in the (time, node) order. *)
Theorem CanEnterCriticalSection_first now r n o n' :
  sorted_node n → CanEnterCriticalSection now r n = (o, Ret (true, n')) →
  ∃ first, first ∈ queue_of r (n_locks n) ∧ lr_NodeID first = n_ID n ∧ fresh now first = true ∧
    ∀ req, req ∈ queue_of r (n_locks n) → fresh now req = true → CompareLockRequests req first = false.
Proof.
  intros Hn E. destruct (CanEnter_spec now r n) as (b & n'' & E' & Hb & _).
  rewrite E in E'. injection E' as _ <- <-.
  destruct (proj1 Hb eq_refl) as (stale & first & rest & Hq & Hs & Hf & Hid & _). exists first.
  pose proof (queue_of_ok (n_locks n) r Hn) as Ho. rewrite Hq in *.
  split_and!; [set_solver|done|done|]. intros req Hin Hreq.
  rewrite Forall_forall in Hs. apply elem_of_app in Hin as [Hin|Hin]; [by rewrite Hs in Hreq|].
  apply elem_of_cons in Hin as [->|Hin]; [apply CompareLockRequests_irrefl|].
  eapply ordered_sublist in Ho; [|apply suffix_sublist; by exists stale].
  inversion Ho as [|? ? _ Hall]; subst. rewrite Forall_forall in Hall. by apply Hall.
Qed.

(** [checkLocksTimeouts] leaves in every queue exactly the requests that
    are at most 30 seconds old, in their order, forgets the acknowledgements
    of every resource for which one of the node's own requests timed out and
    of no other, and broadcasts one release for each such request. *)
Theorem checkLocksTimeouts_correct now n :
  ∃ rel n', checkLocksTimeouts now n =
      (mjoin ((λ r, to_all n' (mkMessage MessageLockRelease (n_ID n) uuid_Nil (Some (JStr r)))) <$> rel),
       Ret ((), n')) ∧
    (∀ r, queue_of r (n_locks n') = filter (λ req, fresh now req = true) (queue_of r (n_locks n)) ∧
      lk_pendingAcks (n_locks n') !! r =
        (if existsb (λ req, negb (fresh now req) && bool_decide (lr_NodeID req = n_ID n))
              (queue_of r (n_locks n)) then None else lk_pendingAcks (n_locks n) !! r)) ∧
    rel = mjoin ((λ kv : string * list LockRequest, replicate (length
      (filter (λ req, fresh now req = false ∧ lr_NodeID req = n_ID n) kv.2)) kv.1)
      <$> go_range (lk_queue (n_locks n))).
Proof.
  unfold checkLocksTimeouts. erewrite bind_silent by reflexivity.
  pose proof (timeouts_fold now (n_ID n) (go_range (lk_queue (n_locks n))) (lk_queue (n_locks n))
    (lk_pendingAcks (n_locks n)) [] (NoDup_go_range_fst _)) as (F1 & F2 & F3).
  destruct (fold_left _ _ _) as [[queues acks] rel]. simpl in *. erewrite bind_silent by reflexivity.
  rewrite for_each_broadcast. exists rel. eexists. split; [done|]. split; [|done].
  intros r. unfold queue_of at 1 2 3. simpl.
  destruct (lk_queue (n_locks n) !! r) as [q0|] eqn:E0.
  - apply elem_of_go_range in E0. destruct (F1 r q0 E0) as [E1 E2]. by rewrite E1, E2.
  - destruct (F2 r) as [E1 E2]; [|by rewrite E1, E2, E0].
    intros ([k q1] & -> & Hin)%list_elem_of_fmap. apply elem_of_go_range in Hin. simpl in *. congruence.
Qed.

Lemma checkLocksTimeouts_frame now n o u n' : checkLocksTimeouts now n = (o, Ret (u, n')) → ∃ l, n' = set_locks l n.
Proof.
  unfold checkLocksTimeouts. erewrite bind_silent by reflexivity.
  destruct (fold_left _ _ _) as [[queues acks] rel]. erewrite bind_silent by reflexivity.
  rewrite for_each_broadcast. intros [= _ _ <-]. by eexists.
Qed.

(** A lock request is queued and, when its sender is a known peer,
    acknowledged to that peer once, whether or not the resource is free; if
    another node holds the resource, the requester waits for it in the
    wait-for graph. From an unknown sender it is queued without an answer. *)
Theorem handleLockRequest_correct msg req n :
  Unmarshal_ok LockRequest_of_json (msg_Payload msg) = Some req →
  ∃ n', handleLockRequest msg n =
      (match n_peers n !! msg_From msg with
       | Some p => [GoSend (ni_IP p) (ni_Port p)
           (mkMessage MessageLockAck (n_ID n) (ni_ID p) (Some (JStr (lr_ResourceID req))))]
       | None => []
       end, Ret ((), n')) ∧
    queue_of (lr_ResourceID req) (n_locks n') ≡ₚ req :: queue_of (lr_ResourceID req) (n_locks n) ∧
    (∀ r, r ≠ lr_ResourceID req → queue_of r (n_locks n') = queue_of r (n_locks n)) ∧
    (∀ u v, waits (lk_waitFor (n_locks n')) u v ↔
       waits (lk_waitFor (n_locks n)) u v ∨
       (u = lr_NodeID req ∧ v ≠ u ∧ lk_holders (n_locks n) !! lr_ResourceID req = Some v)).
Proof.
  intros Hreq. unfold handleLockRequest. rewrite Hreq.
  erewrite bind_silent by reflexivity. erewrite bind_silent by reflexivity. eexists. split.
  { simpl. destruct (n_peers n !! msg_From msg); reflexivity. }
  simpl. unfold queue_of. rewrite record_wait_queue. simpl. split_and!.
  - rewrite lookup_insert_eq. simpl. rewrite SliceStable_perm. apply Permutation_app_comm.
  - intros r Hr. by rewrite lookup_insert_ne.
  - intros u v. unfold record_wait. simpl.
    destruct (lk_holders (n_locks n) !! _) as [h|]; [|naive_solver].
    case_decide as Hh; [naive_solver|]. simpl. unfold waits. split.
    + intros (m & Hm & Hv). destruct (decide (u = lr_NodeID req)) as [->|Hu].
      * rewrite lookup_insert_eq in Hm. injection Hm as <-.
        destruct (decide (v = h)) as [->|Hvh]; [right; auto|]. left.
        rewrite lookup_insert_ne in Hv by done.
        destruct (lk_waitFor (n_locks n) !! lr_NodeID req); [eauto|]. simpl in Hv.
        rewrite lookup_empty in Hv. by destruct Hv.
      * rewrite lookup_insert_ne in Hm by done. left. eauto.
    + intros [(m & Hm & Hv)|(-> & Hvu & [= ->])].
      * destruct (decide (u = lr_NodeID req)) as [->|Hu]; [|rewrite lookup_insert_ne by done; eauto].
        rewrite lookup_insert_eq, Hm. eexists. split; [done|]. simpl.
        destruct (decide (v = h)) as [->|Hvh]; [rewrite lookup_insert_eq; eauto|].
        by rewrite lookup_insert_ne.
      * rewrite lookup_insert_eq. eexists. split; [done|]. rewrite lookup_insert_eq. eauto.
Qed.

Lemma remove_first_spec id q :
  match remove_first id q with
  | None => ∀ req, req ∈ q → lr_NodeID req ≠ id
  | Some q' => ∃ before req after, q = before ++ req :: after ∧ q' = before ++ after ∧
      lr_NodeID req = id ∧ ∀ x, x ∈ before → lr_NodeID x ≠ id
  end.
Proof.
  induction q as [|x q IH]; simpl; [set_solver|]. case_decide as Hx.
  - exists [], x, q. split_and!; [done|done|done|set_solver].
  - destruct (remove_first id q) as [q'|]; simpl.
    + destruct IH as (bf & req & af & -> & -> & Hr & Hb). exists (x :: bf), req, af.
      split_and!; [done|done|done|]. intros y [->|Hy]%elem_of_cons; auto.
    + intros req [->|Hr]%elem_of_cons; auto.
Qed.

(** [ReleaseLock] takes the node's first request for the resource out of
    its queue, keeps every other request of every queue, forgets the
    acknowledgements of this resource only, and tells every peer. *)
Theorem ReleaseLock_correct r n :
  ∃ n', ReleaseLock r n =
      (to_all n' (mkMessage MessageLockRelease (n_ID n) uuid_Nil (Some (JStr r))), Ret ((), n')) ∧
    lk_pendingAcks (n_locks n') = delete r (lk_pendingAcks (n_locks n)) ∧
    (∀ r', r' ≠ r → queue_of r' (n_locks n') = queue_of r' (n_locks n)) ∧
    ((∀ req, req ∈ queue_of r (n_locks n) → lr_NodeID req ≠ n_ID n) ∧
       queue_of r (n_locks n') = queue_of r (n_locks n) ∨
     ∃ before req after, queue_of r (n_locks n) = before ++ req :: after ∧
       queue_of r (n_locks n') = before ++ after ∧ lr_NodeID req = n_ID n ∧
       ∀ x, x ∈ before → lr_NodeID x ≠ n_ID n).
Proof.
  unfold ReleaseLock. erewrite bind_silent by reflexivity. erewrite bind_silent by reflexivity.
  rewrite BroadcastMessage_run. eexists. split; [done|]. simpl. unfold dequeue.
  pose proof (remove_first_spec (n_ID n) (queue_of r (n_locks n))) as Hrf.
  destruct (remove_first _ _) as [q|]; simpl.
  - split_and!; [done| |].
    + intros r' Hr'. unfold queue_of. simpl. by rewrite lookup_insert_ne.
    + right. destruct Hrf as (bf & req & af & E & -> & Hid & Hb). exists bf, req, af.
      split_and!; [done| |done|done]. unfold queue_of. simpl. by rewrite lookup_insert_eq.
  - split_and!; [done|done|]. by left.
Qed.

Lemma add_acks_run (r : string) (ids : list uuid) (n : Node) (me : uuid) :
  ∃ n', for_each ids (λ id, handleLockAck (mkMessage MessageLockAck id me (Some (JStr r)))) n =
      ([], Ret ((), n')) ∧
    n_peers n' = n_peers n ∧ n_ID n' = n_ID n ∧ lk_queue (n_locks n') = lk_queue (n_locks n) ∧
    (∀ id, id ∈ ids → default ∅ (lk_pendingAcks (n_locks n') !! r) !! id = Some true) ∧
    (∀ id, default ∅ (lk_pendingAcks (n_locks n) !! r) !! id = Some true →
           default ∅ (lk_pendingAcks (n_locks n') !! r) !! id = Some true).
Proof.
  revert n. induction ids as [|id ids IH]; intros n.
  { exists n. split_and!; try done. set_solver. }
  cbn [for_each].
  set (n1 := set_locks (add_ack r id (n_locks n)) n).
  rewrite (bind_silent _ _ _ () n1) by done.
  destruct (IH n1) as (n' & E & Hp & Hid & Hq & Ha & Hk). exists n'.
  assert (∀ i, (i = id ∨ default ∅ (lk_pendingAcks (n_locks n) !! r) !! i = Some true) →
    default ∅ (lk_pendingAcks (n_locks n1) !! r) !! i = Some true) as Hn1.
  { intros i Hi. simpl. rewrite lookup_insert_eq. simpl.
    destruct (decide (i = id)) as [->|Hne]; [apply lookup_insert_eq|].
    rewrite lookup_insert_ne by done. naive_solver. }
  split_and!; [done|done|done|done| |].
  - intros i [->|Hi]%elem_of_cons; [apply Hk, Hn1; by left|by apply Ha].
  - intros i Hi. apply Hk, Hn1. by right.
Qed.

Lemma count_acks_peers (acks : gmap uuid bool) (peers : gmap uuid NodeInfo) :
  (∀ id, is_Some (peers !! id) → acks !! id = Some true) → (size peers ≤ count_acks acks)%nat.
Proof.
  intros Ha. unfold count_acks. rewrite <-length_map_to_list.
  rewrite <-(length_fmap fst (map_to_list peers)), <-(length_fmap fst (filter _ _)).
  apply submseteq_length, NoDup_submseteq; [apply NoDup_fst_map_to_list|].
  intros id ([k v] & -> & Hk)%list_elem_of_fmap. apply elem_of_map_to_list in Hk.
  apply list_elem_of_fmap. exists (k, true). split; [done|]. apply list_elem_of_filter.
  split; [done|]. apply elem_of_map_to_list, Ha. eauto.
Qed.

(** The request a node makes, and its state after [RequestLock]. *)
Definition own_request (now : Z) (r : string) (n : Node) : LockRequest :=
  mkLockRequest r (n_ID n) (int64 (n_logicalTime n + 1)) StatusPending now.

Definition requested (now : Z) (r : string) (n : Node) : Node :=
  let l := enqueue (own_request now r n) (n_locks n) in
  set_locks (set_pendingAcks (<[r := ∅]> (lk_pendingAcks l)) l)
    (set_logicalTime (int64 (n_logicalTime n + 1)) n).

Lemma RequestLock_run now r n :
  RequestLock now r n =
    (to_all n (mkMessage MessageLockRequest (n_ID n) uuid_Nil
       (Some (LockRequest_to_json (own_request now r n)))), Ret ((), requested now r n)).
Proof.
  unfold RequestLock, IncrementAndGetLogicalTime. do 2 erewrite bind_silent by reflexivity.
  erewrite bind_silent by reflexivity. by rewrite BroadcastMessage_run.
Qed.

(** C18: an uncontended lock is granted: on a free resource, after [RequestLock]
    and an acknowledgement from every peer, in any order and possibly with
    repetitions, [EnterCriticalSection] answers true as long as the request is
    no more than 30 seconds old; all peers are told of the request and of the
    acquisition. *)
Theorem lock_granted now now' r n ids :
  queue_of r (n_locks n) = [] → now' - now <= LOCK_TIMEOUT →
  (∀ id, is_Some (n_peers n !! id) → id ∈ ids) →
  let req := mkLockRequest r (n_ID n) (int64 (n_logicalTime n + 1)) StatusPending now in
  ∃ n', (_ ← RequestLock now r;
         _ ← for_each ids (λ id, handleLockAck (mkMessage MessageLockAck id (n_ID n) (Some (JStr r))));
         EnterCriticalSection now' r) n =
    (to_all n (mkMessage MessageLockRequest (n_ID n) uuid_Nil (Some (LockRequest_to_json req))) ++
     to_all n (mkMessage MessageLockAcquired (n_ID n) uuid_Nil (Some (JStr r))), Ret (true, n')).
Proof.
  intros Hq Ht Hids req.
  destruct (add_acks_run r ids (requested now r n) (n_ID n)) as (n2 & E2 & Hp & Hid & Hqueue & Ha & _).
  assert (queue_of r (n_locks n2) = [req]) as Hq2.
  { unfold queue_of at 1. rewrite Hqueue. simpl. rewrite lookup_insert_eq. simpl. by rewrite Hq. }
  destruct (CanEnter_spec now' r n2) as (b & n' & E & Hb & [Hp' Hid'] & _).
  assert (b = true) as ->.
  { apply Hb. exists [], req, []. rewrite Hq2. split_and!; [done|constructor| |by rewrite Hid|].
    - unfold fresh. apply Z.leb_le. exact Ht.
    - simpl. apply count_acks_peers. intros id Hpeer. apply Ha, Hids. by rewrite Hp in Hpeer. }
  exists n'. erewrite bind_run; [reflexivity|apply RequestLock_run|]. rewrite (bind_silent _ _ _ _ _ E2).
  unfold EnterCriticalSection. rewrite (bind_silent _ _ _ _ _ E).
  rewrite (bind_silent _ _ _ (n_ID n') n') by done.
  erewrite bind_run; [|apply BroadcastMessage_run|reflexivity]. rewrite app_nil_r.
  unfold to_all, GetPeers. by rewrite Hp', Hp, Hid', Hid.
Qed.

(** Acknowledgements are counted, not matched with the peers: a node
    enters the critical section although its only peer has not acknowledged
    the request, on the strength of an acknowledgement from a node that is not
    a peer. *)
Theorem stranger_ack_counts now r n peer stranger :
  size (n_peers n) = 1%nat → is_Some (n_peers n !! peer) → stranger ≠ peer →
  queue_of r (n_locks n) = [] →
  ∃ o n', (_ ← RequestLock now r;
           _ ← handleLockAck (mkMessage MessageLockAck stranger (n_ID n) (Some (JStr r)));
           EnterCriticalSection now r) n = (o, Ret (true, n')) ∧
    default ∅ (lk_pendingAcks (n_locks n') !! r) !! peer = None.
Proof.
  intros Hsize [info Hpeer] Hne Hq.
  set (req := mkLockRequest r (n_ID n) (int64 (n_logicalTime n + 1)) StatusPending now).
  set (n1 := requested now r n).
  set (n2 := set_locks (add_ack r stranger (n_locks n1)) n1).
  assert (queue_of r (n_locks n2) = [req]) as Hq2.
  { unfold queue_of at 1. simpl. rewrite lookup_insert_eq. simpl. by rewrite Hq. }
  assert (fresh now req = true) as Hf by (unfold fresh; apply Z.leb_le; simpl; unfold LOCK_TIMEOUT, Second, Millisecond; lia).
  assert (lk_pendingAcks (n_locks n2) !! r = Some {[ stranger := true ]}) as Ha.
  { simpl. by rewrite lookup_insert_eq, lookup_insert_eq. }
  pose proof (CanEnter_run now r n2) as Hr. rewrite Hq2 in Hr. cbn [drop_expired] in Hr. rewrite Hf in Hr.
  destruct Hr as (n' & E & Hn'). rewrite Ha in E.
  exists (to_all n (mkMessage MessageLockRequest (n_ID n) uuid_Nil (Some (LockRequest_to_json req))) ++
          to_all n' (mkMessage MessageLockAcquired (n_ID n') uuid_Nil (Some (JStr r)))), n'. split.
  - eapply bind_run; [apply RequestLock_run|].
    erewrite bind_silent by reflexivity. unfold EnterCriticalSection.
    assert (size (n_peers n2) = 1%nat) as Hs2 by done. rewrite Hs2 in E.
    rewrite bool_decide_true in E by done.
    assert (count_acks {[ stranger := true ]} = 1%nat) as Hc
      by (unfold count_acks; by rewrite map_to_list_singleton).
    simpl default in E. rewrite Hc in E. cbn [Nat.eqb Nat.leb orb andb] in E.
    rewrite (bind_silent _ _ _ _ _ E). erewrite bind_silent by reflexivity.
    erewrite bind_run; [|apply BroadcastMessage_run|reflexivity]. by rewrite app_nil_r.
  - destruct Hn' as [[_ ?]| ->]; [done|]. simpl. rewrite lookup_insert_eq, lookup_insert_eq. simpl.
    by rewrite lookup_insert_ne.
Qed.

(** The priority of a node as far as this one knows it: its own, or a peer's. *)
Definition known_priority (n : Node) (id : uuid) : option Z :=
  if decide (id = n_ID n) then Some (n_Priority n) else ni_Priority <$> n_peers n !! id.

(** [v] is the first node of least priority among those of the path that are
    known, and its priority is below the largest integer. *)
Definition least_known (n : Node) (path : list uuid) (v : uuid) : Prop :=
  ∃ before after p, path = before ++ v :: after ∧
    known_priority n v = Some p ∧ p < maxInt ∧
    (∀ id q, id ∈ before → known_priority n id = Some q → p < q) ∧
    (∀ id q, id ∈ after → known_priority n id = Some q → p <= q).

(** [selectVictim] answers the first node of least priority among those of
    the path it knows (itself and its peers), provided one of them has a
    priority below the largest integer; otherwise it answers the nil UUID. *)
Theorem selectVictim_correct path n :
  (selectVictim path n = uuid_Nil ∧
     (∀ id p, id ∈ path → known_priority n id = Some p → maxInt <= p)) ∨
  least_known n path (selectVictim path n).
Proof.
  unfold least_known. set (prio id := if decide (id = n_ID n) then Some (n_Priority n) else ni_Priority <$> n_peers n !! id).
  change (known_priority n) with prio. unfold selectVictim.
  assert (∀ l v p0, let '(w, p) := fold_left (selectVictim_step n) l (v, p0) in
    ((w, p) = (v, p0) ∧ ∀ id q, id ∈ l → prio id = Some q → p0 <= q) ∨
    (∃ b a, l = b ++ w :: a ∧ prio w = Some p ∧ p < p0 ∧
      (∀ id q, id ∈ b → prio id = Some q → p < q) ∧
      (∀ id q, id ∈ a → prio id = Some q → p <= q))) as Hgen.
  { induction l as [|x l IH]; intros v p0; simpl; [left; split; [done|set_solver]|].
    fold (prio x). destruct (prio x) as [px|] eqn:Ex.
    - destruct (Z.ltb_spec px p0).
      + specialize (IH x px). destruct (fold_left _ _ _) as [w p]. right.
        destruct IH as [[[= -> ->] Hl]|(b & a & -> & Hw & Hp & Hb & Ha)].
        * exists [], l. split_and!; [done|done|done|set_solver|done].
        * exists (x :: b), a. split_and!; [done|done|lia| |done].
          intros id q [->|Hin]%elem_of_cons Hq; [|eauto]. rewrite Ex in Hq. injection Hq as <-. done.
      + specialize (IH v p0). destruct (fold_left _ _ _) as [w p].
        destruct IH as [[[= -> ->] Hl]|(b & a & -> & Hw & Hp & Hb & Ha)]; [left|right].
        * split; [done|]. intros id q [->|Hin]%elem_of_cons Hq; [|eauto].
          rewrite Ex in Hq. injection Hq as <-. done.
        * exists (x :: b), a. split_and!; [done|done|done| |done].
          intros id q [->|Hin]%elem_of_cons Hq; [|eauto]. rewrite Ex in Hq. injection Hq as <-. lia.
    - specialize (IH v p0). destruct (fold_left _ _ _) as [w p].
      destruct IH as [[[= -> ->] Hl]|(b & a & -> & Hw & Hp & Hb & Ha)]; [left|right].
      + split; [done|]. intros id q [->|Hin]%elem_of_cons Hq; [congruence|eauto].
      + exists (x :: b), a. split_and!; [done|done|done| |done].
        intros id q [->|Hin]%elem_of_cons Hq; [congruence|eauto]. }
  specialize (Hgen path uuid_Nil maxInt). destruct (fold_left _ _ _) as [w p].
  destruct Hgen as [[[= -> ->] Hl]|(b & a & Hpath & Hw & Hp & Hb & Ha)]; [by left|right].
  exists b, a, p. done.
Qed.

(** C40: the deadlock detector acts exactly on a master whose wait-for graph has
    a cycle; otherwise it does nothing. The path that the search returns is
    then a chain of waiting nodes that closes, and of its nodes that the master
    knows the first one with the least priority is the victim: it alone is sent
    one abort, at its address, or, if it is the master itself, aborts its locks
    on the spot. If no known node of the path has a priority below the largest
    integer (none is known, say), nothing happens, provided that no node has
    the nil UUID. *)
Theorem checkDeadlocks_correct n :
  let g := lk_waitFor (n_locks n) in
  let path := (HasCycle g).2 in
  let msg := mkMessage MessageLockAbort (n_ID n) uuid_Nil None in
  (n_Role n ≠ RoleMaster ∨ ¬ cyclic g → checkDeadlocks n = ([], Ret ((), n))) ∧
  (n_Role n = RoleMaster → cyclic g →
   wait_chain g path ∧ closes path ∧
   ((∀ id p, id ∈ path → known_priority n id = Some p → maxInt <= p) ∧
      (n_ID n ≠ uuid_Nil → n_peers n !! uuid_Nil = None → checkDeadlocks n = ([], Ret ((), n))) ∨
    ∃ v, least_known n path v ∧
      if decide (v = n_ID n) then checkDeadlocks n = handleLockAbort msg n
      else ∃ peer, n_peers n !! v = Some peer ∧
        checkDeadlocks n = ([GoSend (ni_IP peer) (ni_Port peer) msg], Ret ((), n)))).
Proof.
  intros g path msg. pose proof (HasCycle_iff g) as Hc. pose proof (HasCycle_path g) as Hpath.
  unfold path, checkDeadlocks, sendAbort. rewrite (bind_silent _ _ _ n n) by done. fold g.
  destruct (HasCycle g) as [b p]. simpl in Hc |- *. destruct (Hpath b p eq_refl) as [Hchain _]. split.
  - intros [Hr|Hr]; [by rewrite decide_True|]. case_decide; [done|]. destruct b; [|done].
    by destruct Hr; apply Hc.
  - intros Hr Hcyc. rewrite decide_False by (intros Hn; by apply Hn).
    rewrite (proj2 Hc Hcyc). destruct (Hchain (proj2 Hc Hcyc)) as [Hw Hcl]. split_and!; [done|done|].
    rewrite (bind_silent _ _ _ n n) by done.
    destruct (selectVictim_correct p n) as [[-> Hnone]|Hv]; [left|right].
    + split; [done|]. intros Hid Hnil. rewrite decide_False by done. by rewrite Hnil.
    + exists (selectVictim p n). split; [done|]. case_decide as Hd; [done|].
      destruct Hv as (bf & af & q & _ & Hk & _). unfold known_priority in Hk. rewrite decide_False in Hk by done.
      apply fmap_Some in Hk as (peer & Hp & _). exists peer. by rewrite Hp.
Qed.
End critical.

(** ** Examples *)

#[local] Existing Instance decimal_uuids.
#[local] Existing Instance decimal_times.
#[local] Existing Instance canonical_range.

Definition example_peer (id : uuid) (priority : Z) : NodeInfo :=
  mkNodeInfo id "10.0.0.1" 8000 RoleStorage StatusOnline priority 0.

Definition no_locks : Locks := mkLocks ∅ ∅ ∅ ∅.
Definition no_master : Master := mkMaster None None false None ∅.

Definition example_node (id : uuid) (role : NodeRole) (peers : gmap uuid NodeInfo) (l : Locks) : Node :=
  mkNode id "0.0.0.0" "10.0.0.1" 8000 10 role StatusOnline peers 0 l no_master
    (StreamServer.mkStreamServer ∅ (LocalStorage.NewLocalStorage "./data/node-1" (Fs.mkDisk ∅ ∅ [])) true) [].

(** Node 2 waits for 1; 1 and 3 wait for each other. *)
Definition tail_graph : gmap uuid (gmap uuid bool) :=
  {[ 2%N := {[ 1%N := true ]}; 1%N := {[ 3%N := true ]}; 3%N := {[ 1%N := true ]} ]}.

Definition detector : Node :=
  example_node 9 RoleMaster
    {[ 1%N := example_peer 1 5; 2%N := example_peer 2 1; 3%N := example_peer 3 6 ]}
    (mkLocks ∅ ∅ ∅ tail_graph).

(** The victim need not be on the cycle: the path that [HasCycle] returns
    begins with the nodes that lead into the cycle, and one of these can have
    the least priority. Here nodes 1 and 3 wait for each other, and node 2,
    for which nobody waits, is the one told to abort. *)
Theorem victim_off_cycle :
  cyclic tail_graph ∧ ¬ tc (waits tail_graph) 2%N 2%N ∧
  checkDeadlocks detector =
    ([GoSend "10.0.0.1" 8000 (mkMessage MessageLockAbort 9 uuid_Nil None)], Ret ((), detector)) ∧
  selectVictim (HasCycle tail_graph).2 detector = 2%N.
Proof.
  split_and!.
  - apply HasCycle_iff. vm_compute. reflexivity.
  - intros Ht. assert (∃ x, waits tail_graph x 2%N) as (x & m & Hm & Hv).
    { assert (∀ u v, tc (waits tail_graph) u v → ∃ x, waits tail_graph x v) as Hl
        by (induction 1; eauto). by apply (Hl 2%N). }
    unfold tail_graph in Hm.
    repeat (apply lookup_insert_Some in Hm as [[<- <-]|[_ Hm]];
      [apply lookup_singleton_is_Some in Hv; done|]).
    apply lookup_singleton_Some in Hm as [<- <-]. apply lookup_singleton_is_Some in Hv. done.
  - vm_compute. reflexivity.
  - vm_compute. reflexivity.
Qed.

(** The detector's two waiting nodes and the one that leads to them. *)
Lemma checkDeadlocks_correct_witness :
  ∃ v peer, least_known detector (HasCycle tail_graph).2 v ∧ n_peers detector !! v = Some peer ∧
    checkDeadlocks detector =
      ([GoSend (ni_IP peer) (ni_Port peer) (mkMessage MessageLockAbort 9 uuid_Nil None)], Ret ((), detector)).
Proof.
  destruct (proj2 (checkDeadlocks_correct detector)) as (_ & _ & [[Hnone _]|(v & Hv & Hrun)]).
  - reflexivity.
  - apply HasCycle_iff. vm_compute. reflexivity.
  - assert (maxInt <= 1) as Hle; [|by destruct Hle].
    apply (Hnone 2%N); [|reflexivity]. apply (bool_decide_unpack _). vm_compute. exact I.
  - exists v. destruct (decide (v = n_ID detector)) as [->|_].
    + exfalso. destruct Hv as (bf & af & p & Hp & _).
      assert (9%N ∉ (HasCycle (lk_waitFor (n_locks detector))).2) as Hn by (apply (bool_decide_unpack _); vm_compute; exact I).
      apply Hn. rewrite Hp. apply elem_of_app. right. left.
    + destruct Hrun as (peer & Hp & Hrun). exists peer. split; [exact Hv|]. split; [exact Hp|exact Hrun].
Defined.

(** A node with one peer and a free resource. *)
Definition pair_node : Node := example_node 1 RoleStorage {[ 2%N := example_peer 2 5 ]} no_locks.

Lemma CanEnterCriticalSection_first_witness :
  ∃ first, first ∈ queue_of "r" (n_locks (requested 0 "r" (example_node 1 RoleStorage ∅ no_locks))) ∧
    lr_NodeID first = 1%N.
Proof.
  destruct (CanEnterCriticalSection_first 5 "r" (requested 0 "r" (example_node 1 RoleStorage ∅ no_locks))
    [] (requested 0 "r" (example_node 1 RoleStorage ∅ no_locks))) as (f & Hf & Hid & _).
  - apply enqueue_ok. intros k q Hk. simpl in Hk. by rewrite lookup_empty in Hk.
  - vm_compute. reflexivity.
  - exists f. split; [exact Hf|exact Hid].
Defined.

Definition request_message : Message :=
  mkMessage MessageLockRequest 2 uuid_Nil (Some (LockRequest_to_json (mkLockRequest "r" 2 7 StatusPending 0))).

Lemma handleLockRequest_correct_witness :
  ∃ n', handleLockRequest request_message pair_node =
    ([GoSend "10.0.0.1" 8000 (mkMessage MessageLockAck 1 2 (Some (JStr "r")))], Ret ((), n')).
Proof.
  destruct (handleLockRequest_correct request_message (mkLockRequest "r" 2 7 StatusPending 0) pair_node)
    as (n' & E & _).
  - vm_compute. reflexivity.
  - exists n'. exact E.
Defined.

Lemma lock_granted_witness :
  ∃ o n', (_ ← RequestLock 0 "r";
           _ ← for_each [2%N] (λ id, handleLockAck (mkMessage MessageLockAck id 1 (Some (JStr "r"))));
           EnterCriticalSection (30 * Second) "r") pair_node = (o, Ret (true, n')).
Proof.
  destruct (lock_granted 0 (30 * Second) "r" pair_node [2%N]) as (n' & E).
  - vm_compute. reflexivity.
  - vm_compute. discriminate.
  - intros id Hid. change (is_Some (({[ 2%N := example_peer 2 5 ]} : gmap uuid NodeInfo) !! id)) in Hid.
    apply lookup_singleton_is_Some in Hid as <-. by left.
  - eexists _, n'. exact E.
Defined.

Lemma stranger_ack_counts_witness :
  ∃ o n', (_ ← RequestLock 0 "r";
           _ ← handleLockAck (mkMessage MessageLockAck 3 1 (Some (JStr "r")));
           EnterCriticalSection 0 "r") pair_node = (o, Ret (true, n')).
Proof.
  destruct (stranger_ack_counts 0 "r" pair_node 2 3) as (o & n' & E & _).
  - reflexivity.
  - vm_compute. eauto.
  - discriminate.
  - vm_compute. reflexivity.
  - exists o, n'. exact E.
Defined.
