(* ===== verification/NodeFiles.v ===== *)
(** * Files on the cluster: the file part of [backend/dfs/node/node.go]

    What a storage node answers about its files, how a master tracks files,
    upload sessions and replicas, and how it repairs replication after an
    election. [conn] answers are [Encode] actions. *)

From S2P Require Import Prelude GoStd Hashes Types Json Lamport HashRing Session Fs LocalStorage Protocol StreamServer NodeState.

Section files.
Context `{UuidText} `{TimeText} `{MapRange}.

Definition nil_map {A} : NodeM A := panic "assignment to entry in nil map".
Definition nil_pointer {A} : NodeM A := panic "invalid memory address or nil pointer dereference".

(** ** Storage nodes *)

Definition handleFileDelete (msg : Message) : NodeM () :=
  match Unmarshal_ok string_of_json (msg_Payload msg) with
  | None => skip
  | Some hash => _ ← storage (DeleteFile hash); skip
  end.

Definition file_entry (meta : FileMetadata) : NodeFileMetadata :=
  mkNodeFileMetadata (fm_FileID meta) (fm_Filename meta) (fm_Hash meta) (fm_Size meta) (fm_ContentType meta).

Definition handleMetadataRequest (msg : Message) : NodeM () :=
  match Unmarshal_ok MetadataRequest_of_json (msg_Payload msg) with
  | None => skip
  | Some request =>
    allMeta ← storage GetAllMetadata;
    n ← get;
    let files := file_entry <$> allMeta in
    let response := mkMetadataResponse (mrq_RequestID request) (n_ID n) files in
    let responseMsg := mkMessage MessageMetadataResponse (n_ID n) (msg_From msg)
                         (Some (MetadataResponse_to_json response)) in
    peer ← GetPeer (msg_From msg);
    match peer with
    | None => skip
    | Some peer => emit (GoSend (ni_IP peer) (ni_Port peer) responseMsg)
    end
  end.

(** [io.ReadAll] of an open file. *)
Definition ReadAll (f : File) : NodeM (option (list byte)) :=
  λ n, let s := sv_storage (n_streamServer n) in
    let '(flt, d) := next_fault (st_disk s) in
    ([], Ret (match flt, f with
              | Some _, _ | _, DirFile => None
              | None, RegularFile _ => Some (file_bytes f)
              end,
              set_streamServer (mkStreamServer (sv_sessions (n_streamServer n))
                (mkStore (st_basePath s) (st_index s) d) (sv_hasCallback (n_streamServer n))) n)).

Definition handleReplicateFile (msg : Message) : NodeM () :=
  match Unmarshal_ok ReplicateFileRequest_of_json (msg_Payload msg) with
  | None => skip
  | Some request =>
    r ← storage (GetFile (rfr_Hash request));
    match r with
    | inl _ => skip
    | inr (reader, meta) =>
      data ← ReadAll reader;
      match data with
      | None => skip
      | Some data =>
        n ← get;
        let storeRequest := mkFileStoreRequest (fm_FileID meta) (fm_Filename meta)
                              (fm_ContentType meta) (fm_Size meta) data in
        let storeMsg := mkMessage MessageFileStore (n_ID n) uuid_Nil
                          (Some (FileStoreRequest_to_json storeRequest)) in
        for_each (rfr_TargetNodes request) (λ targetID,
          peer ← GetPeer targetID;
          match peer with
          | None => skip
          | Some peer => emit (GoSend (ni_IP peer) (ni_Port peer) storeMsg)
          end)
      end
    end
  end.

Definition handleStreamUploadReady (now : Z) (msg : Message) : NodeM () :=
  match Unmarshal_ok SessionData_of_json (msg_Payload msg) with
  | None => skip
  | Some sd =>
    let session := mkUploadSession (sd_SessionID sd) (sd_FileID sd) (sd_Filename sd)
                     (sd_ContentType sd) (sd_Size sd) now in
    modify (λ n, set_streamServer (with_sessions (AddSession session) (n_streamServer n)) n)
  end.

(** The callback of the stream server. The master is the first peer with that
    role in the order of the range. *)
Definition onStreamUploadComplete (sessionID fileID hash : string) : NodeM () :=
  n ← get;
  match List.find (λ p, String.eqb (ni_Role p) RoleMaster) (GetPeers n) with
  | None => skip
  | Some masterPeer =>
    match uuid_Parse fileID with
    | None => skip
    | Some fileUUID =>
      let ack := mkStreamStoreAck sessionID fileUUID hash (n_ID n) true "" in
      emit (GoSend (ni_IP masterPeer) (ni_Port masterPeer)
        (mkMessage MessageStreamStoreAck (n_ID n) (ni_ID masterPeer) (Some (StreamStoreAck_to_json ack))))
    end
  end.

(** ** The master's index *)

(** One file of a [MetadataResponse]. *)
Definition index_file (nodeID : uuid) (file : NodeFileMetadata) (index : gmap string GlobalFileInfo)
    : gmap string GlobalFileInfo :=
  match index !! nfm_Hash file with
  | Some existing =>
    if existsb (λ r, bool_decide (r = nodeID)) (gfi_Replicas existing) then index
    else <[nfm_Hash file := gfi_set_Replicas (gfi_Replicas existing ++ [nodeID]) existing]> index
  | None =>
    <[nfm_Hash file := mkGlobalFileInfo (nfm_FileID file) (nfm_Filename file) (nfm_Hash file)
        (nfm_Size file) (nfm_ContentType file) [nodeID]]> index
  end.

Definition index_files (nodeID : uuid) (files : list NodeFileMetadata) (index : gmap string GlobalFileInfo)
    : gmap string GlobalFileInfo :=
  fold_left (λ i f, index_file nodeID f i) files index.

Definition handleMetadataResponse (msg : Message) : NodeM () :=
  n ← get;
  if decide (n_Role n ≠ RoleMaster) then skip
  else
    match Unmarshal_ok MetadataResponse_of_json (msg_Payload msg) with
    | None => skip
    | Some response =>
      _ ← (match ma_globalFileIndex (n_master n), mrs_Files response with
           | Some index, files => modify (λ n, set_master
               (set_globalFileIndex (Some (index_files (mrs_NodeID response) files index)) (n_master n)) n)
           | None, [] => skip
           | None, _ => nil_map
           end);
      n ← get;
      match ma_pendingMetadataSync (n_master n) with
      | Some p =>
        if decide (mss_RequestID p = mrs_RequestID response) then
          let received := <[mrs_NodeID response := true]> (mss_ReceivedNodes p) in
          let put done := modify (λ n, set_master (set_pendingMetadataSync
            (Some (mkMetadataSyncState (mss_RequestID p) (mss_ExpectedNodes p) received done)) (n_master n)) n) in
          if mss_ExpectedNodes p <=? Z.of_nat (size received) then
            if mss_Done p then panic "close of closed channel" else put true
          else put (mss_Done p)
        else skip
      | None => skip
      end
    end.

(** ** Uploads and downloads through the master *)

(** [newTime] is taken for every answer on a connection. *)
Definition answer (msgType : MessageType) (to : uuid) (payload : json) : NodeM () :=
  newTime ← IncrementAndGetLogicalTime;
  n ← get;
  emit (Encode (mkMessageWithTime (mkMessage msgType (n_ID n) to (Some payload)) newTime)).

Definition sendStreamUploadResponse (newID : uuid) (to : uuid) (sessionID : string)
    (storageAddrs : list StorageNodeAddr) (errMsg : string) : NodeM () :=
  let response := mkStreamUploadReadyResponse (uuid_String newID) sessionID storageAddrs
                    (String.eqb errMsg "") errMsg in
  answer MessageStreamUploadReady to (StreamUploadReadyResponse_to_json response).

Definition createRemoteSession (peer : NodeInfo) (sessionID : string)
    (request : StreamUploadInitRequest) : NodeM () :=
  n ← get;
  let sessionData := mkSessionData sessionID (sui_FileID request) (sui_Filename request)
                       (sui_ContentType request) (sui_Size request) in
  emit (GoSend (ni_IP peer) (ni_Port peer)
    (mkMessage MessageStreamUploadReady (n_ID n) (ni_ID peer) (Some (SessionData_to_json sessionData)))).

Definition stream_addr (ip : string) (port : Z) : string := addr_of ip (port + StreamPortOffset).

(** [newSession] and [newReply] are the UUIDs drawn for the session and for the
    answer. *)
Definition handleStreamUploadInit (now : Z) (newSession newReply : uuid) (msg : Message) : NodeM () :=
  match Unmarshal_ok StreamUploadInitRequest_of_json (msg_Payload msg) with
  | None => sendStreamUploadResponse newReply (msg_From msg) "" [] "invalid request payload"
  | Some request =>
    n ← get;
    if decide (n_Role n ≠ RoleMaster) then
      sendStreamUploadResponse newReply (msg_From msg) "" [] "node is not master"
    else
      match ma_hashRing (n_master n) with
      | None => sendStreamUploadResponse newReply (msg_From msg) "" [] "no storage nodes available"
      | Some ring =>
        if GetNodeCount ring =? 0 then
          sendStreamUploadResponse newReply (msg_From msg) "" [] "no storage nodes available"
        else
          let nodes := FindNodesForFile (sui_FileID request) 3 ring in
          match nodes with
          | [] => sendStreamUploadResponse newReply (msg_From msg) "" [] "no storage nodes found"
          | _ =>
            let sessionID := uuid_String newSession in
            let session := mkStreamSession sessionID (sui_FileID request) (sui_Filename request)
                             (sui_ContentType request) (sui_Size request) (ni_ID <$> nodes) ∅ now in
            let storageAddrs := (λ node, mkStorageNodeAddr (ni_ID node)
                                   (stream_addr (ni_IP node) (ni_Port node))) <$> nodes in
            _ ← for_each nodes (λ node,
                  peer ← GetPeer (ni_ID node);
                  match peer with
                  | Some peer => createRemoteSession peer sessionID request
                  | None => skip
                  end);
            _ ← modify (λ n, set_master (set_streamingSessions
                  (<[sessionID := session]> (ma_streamingSessions (n_master n))) (n_master n)) n);
            sendStreamUploadResponse newReply (msg_From msg) sessionID storageAddrs ""
          end
      end
  end.

Definition sendStreamDownloadResponse (to : uuid) (requestID storageAddr filename : string) (size : Z)
    (hash errMsg : string) : NodeM () :=
  let response := mkStreamDownloadReadyResponse requestID storageAddr filename size hash
                    (String.eqb errMsg "") errMsg in
  answer MessageStreamDownloadReady to (StreamDownloadReadyResponse_to_json response).

(** The first replica that is a peer and online. *)
Fixpoint select_replica (peers : gmap uuid NodeInfo) (replicas : list uuid) : option NodeInfo :=
  match replicas with
  | [] => None
  | replicaID :: replicas' =>
    match peers !! replicaID with
    | Some peer => if String.eqb (ni_Status peer) StatusOnline then Some peer
                   else select_replica peers replicas'
    | None => select_replica peers replicas'
    end
  end.

Definition handleStreamDownloadInit (msg : Message) : NodeM () :=
  let zero := mkStreamDownloadInitRequest "" uuid_Nil "" in
  let '(request, ok) := Unmarshal StreamDownloadInitRequest_of_json zero (msg_Payload msg) in
  let fail := sendStreamDownloadResponse (msg_From msg) (sdi_RequestID request) "" "" 0 "" in
  if negb ok then fail "invalid request payload"
  else
    n ← get;
    if decide (n_Role n ≠ RoleMaster) then fail "node is not master"
    else
      match default ∅ (ma_globalFileIndex (n_master n)) !! sdi_Hash request with
      | None => fail "file not found"
      | Some fileInfo =>
        match gfi_Replicas fileInfo with
        | [] => fail "no replicas available"
        | _ =>
          match select_replica (n_peers n) (gfi_Replicas fileInfo) with
          | None => fail "no online replicas"
          | Some selectedPeer =>
            sendStreamDownloadResponse (msg_From msg) (sdi_RequestID request)
              (stream_addr (ni_IP selectedPeer) (ni_Port selectedPeer)) (gfi_Filename fileInfo)
              (gfi_Size fileInfo) (gfi_Hash fileInfo) ""
          end
        end
      end.

Definition handleStreamStoreAck (msg : Message) : NodeM () :=
  match Unmarshal_ok StreamStoreAck_of_json (msg_Payload msg) with
  | None => skip
  | Some ack =>
    n ← get;
    match ma_streamingSessions (n_master n) !! ssa_SessionID ack with
    | None => skip
    | Some session =>
      let acks := <[ssa_NodeID ack := ssa_Hash ack]> (ss_ReceivedAcks session) in
      _ ← modify (λ n, set_master (set_streamingSessions
            (<[ssa_SessionID ack := ss_set_ReceivedAcks acks session]> (ma_streamingSessions (n_master n)))
            (n_master n)) n);
      if (length (ss_ExpectedNodes session) <=? size acks)%nat then
        _ ← (match ma_globalFileIndex (n_master n) with
             | None => nil_map
             | Some index => modify (λ n, set_master (set_globalFileIndex (Some
                 (<[ssa_Hash ack := mkGlobalFileInfo (ss_FileID session) (ss_Filename session)
                    (ssa_Hash ack) (ss_Size session) (ss_ContentType session)
                    (ss_ExpectedNodes session)]> index)) (n_master n)) n)
             end);
        (* close(session.Done): nobody else closes it, and the session goes *)
        modify (λ n, set_master (set_streamingSessions
          (delete (ssa_SessionID ack) (ma_streamingSessions (n_master n))) (n_master n)) n)
      else skip
    end
  end.

(** ** Deleting *)

Definition node_DeleteFile (fileID : uuid) (hash : string) : NodeM () :=
  n ← get;
  match ma_hashRing (n_master n) with
  | None => nil_pointer
  | Some ring =>
    let nodes := FindNodesForFile fileID 3 ring in
    let msg := mkMessage MessageFileDelete (n_ID n) uuid_Nil (Some (string_to_json hash)) in
    for_each nodes (λ node, emit (GoSend (ni_IP node) (ni_Port node) msg))
  end.

Definition sendAPIResponse (to : uuid) (msgType : MessageType) (response : APIFileDeleteResponse) : NodeM () :=
  answer msgType to (APIFileDeleteResponse_to_json response).

Definition handleAPIFileDelete (msg : Message) : NodeM () :=
  let zero := mkAPIFileDeleteRequest "" uuid_Nil "" in
  let '(request, ok) := Unmarshal APIFileDeleteRequest_of_json zero (msg_Payload msg) in
  let reply success err := sendAPIResponse (msg_From msg) MessageAPIFileDelete
                             (mkAPIFileDeleteResponse (adr_RequestID request) success err) in
  if negb ok then reply false "invalid request payload"
  else
    n ← get;
    if decide (n_Role n ≠ RoleMaster) then reply false "node is not master"
    else
      _ ← node_DeleteFile (adr_FileID request) (adr_Hash request);
      reply true "".

(** ** Replication after an election *)

Definition requestMetadataFromAllNodes (requestID : string) : NodeM () :=
  n ← get;
  let msg := mkMessage MessageMetadataRequest (n_ID n) uuid_Nil
               (Some (MetadataRequest_to_json (mkMetadataRequest requestID))) in
  for_each (GetPeers n) (λ peer,
    if String.eqb (ni_Role peer) RoleStorage then emit (GoSend (ni_IP peer) (ni_Port peer) msg) else skip).

Definition initiateReplication (fileInfo : GlobalFileInfo) (requiredReplicas : nat) : NodeM () :=
  match gfi_Replicas fileInfo with
  | [] => skip
  | sourceNodeID :: _ =>
    n ← get;
    match ma_hashRing (n_master n) with
    | None => nil_pointer
    | Some ring =>
      let expectedNodes := FindNodesForFile (gfi_FileID fileInfo) requiredReplicas ring in
      let missingNodes := filter (λ id, id ∉ gfi_Replicas fileInfo) (ni_ID <$> expectedNodes) in
      match missingNodes with
      | [] => skip
      | _ =>
        match n_peers n !! sourceNodeID with
        | None => skip
        | Some sourcePeer =>
          let request := mkReplicateFileRequest (gfi_FileID fileInfo) (gfi_Filename fileInfo)
                           (gfi_Hash fileInfo) sourceNodeID missingNodes in
          emit (GoSend (ni_IP sourcePeer) (ni_Port sourcePeer)
            (mkMessage MessageReplicateFile (n_ID n) sourceNodeID (Some (ReplicateFileRequest_to_json request))))
        end
      end
    end
  end.

Definition requiredReplicas : nat := 3.

Definition verifyAndRepairReplication : NodeM () :=
  n ← get;
  let filesToRepair := filter (λ f, (length (gfi_Replicas f) < requiredReplicas)%nat)
    (go_range (default ∅ (ma_globalFileIndex (n_master n)))).*2 in
  for_each filesToRepair (λ fileInfo, initiateReplication fileInfo requiredReplicas).

Definition set_sync (b : bool) : NodeM () :=
  modify (λ n, set_master (set_syncInProgress b (n_master n)) n).

(** [syncMetadataAfterElection] up to its [select]: whether it waits for the
    answers. [newID] is the identifier of the request. *)
Definition syncMetadata_begin (newID : uuid) : NodeM bool :=
  n ← get;
  if ma_syncInProgress (n_master n) then mret false
  else
    _ ← set_sync true;
    match ma_hashRing (n_master n) with
    | None => _ ← set_sync false; mret false
    | Some ring =>
      let storageNodes := GetNodeCount ring in
      if storageNodes =? 0 then _ ← set_sync false; mret false
      else
        let requestID := uuid_String newID in
        _ ← modify (λ n, set_master (set_pendingMetadataSync
              (Some (mkMetadataSyncState requestID storageNodes ∅ false)) (n_master n)) n);
        _ ← requestMetadataFromAllNodes requestID;
        mret true
    end.

(** Its rest, once [Done] is closed or ten seconds have passed. *)
Definition syncMetadata_end : NodeM () :=
  _ ← verifyAndRepairReplication;
  _ ← modify (λ n, set_master (set_pendingMetadataSync None (n_master n)) n);
  set_sync false.

Definition initMasterResources : NodeM () :=
  n ← get;
  let ring := fold_left (λ ring peer,
    if String.eqb (ni_Role peer) RoleStorage then AddNode peer ring else ring)
    (GetPeers n) (NewHashRing 150) in
  _ ← modify (λ n, set_master (set_globalFileIndex (Some ∅) (set_hashRing (Some ring) (n_master n))) n);
  emit GoSyncMetadata.

Definition SetRole (role : NodeRole) : NodeM () :=
  oldRole ← gets n_Role;
  _ ← modify (set_Role role);
  _ ← (if decide (role = RoleMaster ∧ oldRole ≠ RoleMaster) then initMasterResources else skip);
  if decide (role ≠ RoleMaster ∧ oldRole = RoleMaster) then
    modify (λ n, set_master (set_globalFileIndex None (set_hashRing None (n_master n))) n)
  else skip.
End files.

(** ** Helper lemmas *)
Section lemmas.
Context `{UuidText} `{TimeText} `{MapRange}.

(** Ring and index exist exactly on a master. *)
Definition master_ok (n : Node) : Prop :=
  (n_Role n = RoleMaster ↔ is_Some (ma_hashRing (n_master n))) ∧
  (n_Role n = RoleMaster ↔ is_Some (ma_globalFileIndex (n_master n))).

Definition tick (n : Node) : Node := set_logicalTime (int64 (n_logicalTime n + 1)) n.

Lemma answer_run ty to payload n :
  answer ty to payload n =
    ([Encode (mkMessageWithTime (mkMessage ty (n_ID n) to (Some payload)) (n_logicalTime (tick n)))],
     Ret ((), tick n)).
Proof. reflexivity. Qed.

Lemma is_Some_iff_None {A} (P : Prop) (x : option A) : (P ↔ is_Some x) → ¬ P → x = None.
Proof. intros HP Hn. apply eq_None_not_Some. tauto. Qed.

(** The ring a new master builds from its peers. *)
Definition ring_of_peers (n : Node) : HashRing :=
  fold_left (λ ring peer, if String.eqb (ni_Role peer) RoleStorage then AddNode peer ring else ring)
    (GetPeers n) (NewHashRing 150).

Lemma SetRole_run role n :
  SetRole role n =
    (if decide (role = RoleMaster ∧ n_Role n ≠ RoleMaster) then [GoSyncMetadata] else [],
     Ret ((), if decide (role = RoleMaster ∧ n_Role n ≠ RoleMaster) then
                set_master (set_globalFileIndex (Some ∅) (set_hashRing (Some (ring_of_peers n)) (n_master n)))
                  (set_Role role n)
              else if decide (role ≠ RoleMaster ∧ n_Role n = RoleMaster) then
                set_master (set_globalFileIndex None (set_hashRing None (n_master n))) (set_Role role n)
              else set_Role role n)).
Proof.
  unfold SetRole. rewrite (bind_silent _ _ _ (n_Role n) n) by done.
  rewrite (bind_silent _ _ _ () (set_Role role n)) by done. cbv beta.
  destruct (decide (role = RoleMaster ∧ n_Role n ≠ RoleMaster)) as [Hup|Hup].
  - set (X := set_master _ _).
    assert (initMasterResources (set_Role role n) = ([GoSyncMetadata], Ret ((), X))) as E by reflexivity.
    rewrite (bind_run _ _ _ _ _ _ [] (Ret ((), X)) E); [done|]. case_decide; [naive_solver|done].
  - rewrite (bind_silent _ _ _ () (set_Role role n)) by done. cbv beta. by case_decide.
Qed.

Lemma index_file_lookup id f idx h :
  index_file id f idx !! h =
    if decide (h = nfm_Hash f) then
      match idx !! h with
      | Some g => Some (if existsb (λ r, bool_decide (r = id)) (gfi_Replicas g) then g
                        else gfi_set_Replicas (gfi_Replicas g ++ [id]) g)
      | None => Some (mkGlobalFileInfo (nfm_FileID f) (nfm_Filename f) (nfm_Hash f) (nfm_Size f)
                        (nfm_ContentType f) [id])
      end
    else idx !! h.
Proof.
  unfold index_file. case_decide as Hh.
  - subst h. destruct (idx !! nfm_Hash f) eqn:E; [|by rewrite lookup_insert_eq].
    case_match; [done|by rewrite lookup_insert_eq].
  - destruct (idx !! nfm_Hash f); [case_match; [done|]|]; by rewrite lookup_insert_ne.
Qed.

(** How an entry may change: its data stays, its replicas only grow, without
    repetition, by the node that answered. *)
Definition grows (id : uuid) (g g' : GlobalFileInfo) : Prop :=
  g' = gfi_set_Replicas (gfi_Replicas g') g ∧
  (gfi_Replicas g' = gfi_Replicas g ∨ id ∉ gfi_Replicas g ∧ gfi_Replicas g' = gfi_Replicas g ++ [id]).

Lemma existsb_elem (id : uuid) l : existsb (λ r, bool_decide (r = id)) l = bool_decide (id ∈ l).
Proof.
  apply eq_true_iff_eq. rewrite bool_decide_eq_true, existsb_exists. split.
  - intros (x & Hx%list_elem_of_In & ->%bool_decide_eq_true). done.
  - intros Hx. exists id. split; [by apply list_elem_of_In|]. by rewrite bool_decide_true.
Qed.

Lemma index_files_spec id files idx :
  let idx' := index_files id files idx in
  (∀ f, f ∈ files → ∃ g, idx' !! nfm_Hash f = Some g ∧ id ∈ gfi_Replicas g) ∧
  (∀ h g, idx !! h = Some g → ∃ g', idx' !! h = Some g' ∧ grows id g g') ∧
  (∀ h, h ∉ (nfm_Hash <$> files) → idx' !! h = idx !! h) ∧
  (∀ h g, idx !! h = None → idx' !! h = Some g → gfi_Replicas g = [id] ∧ gfi_Hash g = h).
Proof.
  revert idx. induction files as [|f files IH]; intros idx; simpl.
  { split_and!; [set_solver| |done|congruence].
    intros h g Hg. exists g. split; [done|]. split; [by destruct g|by left]. }
  specialize (IH (index_file id f idx)). destruct IH as (I1 & I2 & I3 & I4).
  assert (∀ g g1 g2, grows id g g1 → grows id g1 g2 → grows id g g2) as Htrans.
  { intros g g1 g2 [E1 R1] [E2 R2]. split; [rewrite E2; rewrite E1 at 1; by destruct g|].
    destruct R1 as [R1|[N1 R1]], R2 as [R2|[N2 R2]]; rewrite ?R2, ?R1 in *; auto. set_solver. }
  split_and!.
  - intros f' [->|Hf]%elem_of_cons; [|by apply I1].
    pose proof (index_file_lookup id f idx (nfm_Hash f)) as Hl. rewrite decide_True in Hl by done.
    assert (∃ g1, index_file id f idx !! nfm_Hash f = Some g1 ∧ id ∈ gfi_Replicas g1) as (g1 & E1 & Hin).
    { destruct (idx !! nfm_Hash f) as [g|]; [|eexists; split; [exact Hl|]; simpl; set_solver].
      eexists. split; [exact Hl|]. rewrite existsb_elem. case_bool_decide; [done|]. simpl. set_solver. }
    destruct (I2 _ _ E1) as (g' & E' & _ & [R|[? R]]); exists g'; (split; [done|]); rewrite R; set_solver.
  - intros h g Hg. pose proof (index_file_lookup id f idx h) as Hl. rewrite Hg in Hl.
    assert (∃ g1, index_file id f idx !! h = Some g1 ∧ grows id g g1) as (g1 & E1 & Hgr).
    { case_decide; [|exists g; split; [done|]; split; [by destruct g|by left]].
      eexists. split; [exact Hl|]. rewrite existsb_elem. case_bool_decide.
      - split; [by destruct g|by left].
      - split; [by destruct g|right; by split]. }
    destruct (I2 _ _ E1) as (g' & E' & Hgr'). eauto.
  - intros h [Hne Hh]%not_elem_of_cons. rewrite I3 by done. rewrite index_file_lookup.
    by rewrite decide_False.
  - intros h g Hg Hg'. pose proof (index_file_lookup id f idx h) as Hl. rewrite Hg in Hl.
    case_decide as Hh; [|by apply I4].
    destruct (I2 _ _ Hl) as (g2 & E2 & Eg & R). assert (g = g2) as -> by congruence.
    rewrite Eg. destruct R as [R|[N R]]; simpl in *; [by rewrite R|]. exfalso. apply N. set_solver.
Qed.
End lemmas.

(** ** Properties *)
Section properties.
Context `{UuidText} `{TimeText} `{MapRange}.

(** Changing roles keeps ring and file index in step with the role: they
    exist exactly on a master. Becoming master starts them fresh, with the
    storage peers known at that moment on the ring, and starts one metadata
    synchronisation; ceasing to be master drops them; any other change of role
    leaves them alone. *)
Theorem SetRole_correct role n :
  master_ok n →
  ∃ n', SetRole role n =
      (if decide (role = RoleMaster ∧ n_Role n ≠ RoleMaster) then [GoSyncMetadata] else [], Ret ((), n')) ∧
    master_ok n' ∧ n_Role n' = role ∧ n_peers n' = n_peers n ∧
    (role = RoleMaster → n_Role n ≠ RoleMaster →
       ma_hashRing (n_master n') = Some (ring_of_peers n) ∧ ma_globalFileIndex (n_master n') = Some ∅) ∧
    (role = RoleMaster → n_Role n = RoleMaster → n_master n' = n_master n).
Proof.
  intros [M1 M2]. rewrite SetRole_run. eexists. split; [done|].
  assert (∀ {A} (x : A), is_Some (Some x)) as Hs by eauto.
  assert (∀ {A}, ¬ is_Some (@None A)) as Hno by (intros A [? ?]; done).
  destruct (decide (role = RoleMaster)) as [Er|Er], (decide (n_Role n = RoleMaster)) as [En|En].
  - rewrite !decide_False by tauto. unfold master_ok. simpl. split_and!; tauto.
  - rewrite !decide_True by tauto. unfold master_ok. simpl. split_and!; [split; auto|split; auto|done|done|auto|done].
  - rewrite decide_False, decide_True by tauto. unfold master_ok. simpl.
    split_and!; [|  |done|done|done|done]; (split; [done|intros Hx; by apply Hno in Hx]).
  - rewrite !decide_False by tauto. unfold master_ok. simpl. split_and!; tauto.
Qed.

(** A metadata response makes the index of a master know every listed
    file, with the answering node among its replicas; entries it had keep
    their data and their replicas (the node is added once, at the end), files
    that are not listed stay as they were, and a new entry has this one
    replica. *)
Theorem handleMetadataResponse_index msg resp idx n :
  n_Role n = RoleMaster → ma_globalFileIndex (n_master n) = Some idx →
  ma_pendingMetadataSync (n_master n) = None →
  Unmarshal_ok MetadataResponse_of_json (msg_Payload msg) = Some resp →
  let id := mrs_NodeID resp in
  ∃ n' idx', handleMetadataResponse msg n = ([], Ret ((), n')) ∧
    ma_globalFileIndex (n_master n') = Some idx' ∧
    (∀ f, f ∈ mrs_Files resp → ∃ g, idx' !! nfm_Hash f = Some g ∧ id ∈ gfi_Replicas g) ∧
    (∀ h g, idx !! h = Some g → ∃ g', idx' !! h = Some g' ∧ grows id g g') ∧
    (∀ h, h ∉ (nfm_Hash <$> mrs_Files resp) → idx' !! h = idx !! h) ∧
    (∀ h g, idx !! h = None → idx' !! h = Some g → gfi_Replicas g = [id] ∧ gfi_Hash g = h).
Proof.
  intros Hr Hi Hp Hresp id. unfold handleMetadataResponse.
  rewrite (bind_silent _ _ _ n n) by done. rewrite decide_False by (intros Hn; by apply Hn).
  rewrite Hresp, Hi. erewrite bind_silent by reflexivity. erewrite bind_silent by reflexivity.
  cbn [n_master set_master ma_pendingMetadataSync set_globalFileIndex]. rewrite Hp.
  do 2 eexists. split; [done|]. split; [done|]. apply index_files_spec.
Qed.

(** The synchronisation that is waiting is ended twice: once all expected
    answers are in, an answer from one more node closes the channel a second
    time and the node panics. *)
Theorem handleMetadataResponse_double_close msg resp idx p n :
  n_Role n = RoleMaster → ma_globalFileIndex (n_master n) = Some idx →
  ma_pendingMetadataSync (n_master n) = Some p → mss_Done p = true →
  mss_ExpectedNodes p <= Z.of_nat (size (mss_ReceivedNodes p)) →
  Unmarshal_ok MetadataResponse_of_json (msg_Payload msg) = Some resp →
  mrs_RequestID resp = mss_RequestID p →
  handleMetadataResponse msg n = ([], Panic "close of closed channel").
Proof.
  intros Hr Hi Hp Hd Hsz Hresp Hid. unfold handleMetadataResponse.
  rewrite (bind_silent _ _ _ n n) by done. rewrite decide_False by (intros Hn; by apply Hn).
  rewrite Hresp, Hi. erewrite bind_silent by reflexivity. erewrite bind_silent by reflexivity.
  cbn [n_master set_master ma_pendingMetadataSync set_globalFileIndex]. rewrite Hp.
  rewrite decide_True by done. rewrite Hd. destruct (Z.leb_spec (mss_ExpectedNodes p)
    (Z.of_nat (size (<[mrs_NodeID resp := true]> (mss_ReceivedNodes p))))) as [|Hlt]; [done|].
  exfalso. destruct (mss_ReceivedNodes p !! mrs_NodeID resp) eqn:E.
  - rewrite map_size_insert, E in Hlt. simpl in Hlt. lia.
  - rewrite map_size_insert, E in Hlt. simpl in Hlt. lia.
Qed.

Lemma upload_sessions_run nodes sid request n :
  for_each nodes (λ node,
    peer ← GetPeer (ni_ID node);
    match peer with
    | Some peer => createRemoteSession peer sid request
    | None => skip
    end) n =
  (omap (λ node, (λ peer, GoSend (ni_IP peer) (ni_Port peer)
      (mkMessage MessageStreamUploadReady (n_ID n) (ni_ID peer)
        (Some (SessionData_to_json (mkSessionData sid (sui_FileID request) (sui_Filename request)
           (sui_ContentType request) (sui_Size request)))))) <$> n_peers n !! ni_ID node) nodes,
   Ret ((), n)).
Proof.
  induction nodes as [|node nodes IH]; [done|]. cbn [for_each]. csimpl.
  match goal with |- (?b ≫= _) n = _ => assert (b n =
    (option_list ((λ peer, GoSend (ni_IP peer) (ni_Port peer)
      (mkMessage MessageStreamUploadReady (n_ID n) (ni_ID peer)
        (Some (SessionData_to_json (mkSessionData sid (sui_FileID request) (sui_Filename request)
           (sui_ContentType request) (sui_Size request)))))) <$> n_peers n !! ni_ID node), Ret ((), n))) as Hb end.
  { rewrite (bind_silent _ _ _ (n_peers n !! ni_ID node) n) by done.
    by destruct (n_peers n !! ni_ID node). }
  rewrite (bind_run _ _ _ _ _ _ _ _ Hb IH). by destruct (n_peers n !! ni_ID node).
Qed.

(** What the master tells the nodes of an upload. *)
Definition session_notice (n : Node) (sid : string) (request : StreamUploadInitRequest) (peer : NodeInfo) : Message :=
  mkMessage MessageStreamUploadReady (n_ID n) (ni_ID peer)
    (Some (SessionData_to_json (mkSessionData sid (sui_FileID request) (sui_Filename request)
       (sui_ContentType request) (sui_Size request)))).

Definition session_notices (n : Node) (sid : string) (request : StreamUploadInitRequest) (nodes : list NodeInfo) : list NAct :=
  omap (λ node, (λ peer, GoSend (ni_IP peer) (ni_Port peer) (session_notice n sid request peer)) <$> n_peers n !! ni_ID node) nodes.

Definition storage_addrs (nodes : list NodeInfo) : list StorageNodeAddr :=
  (λ node, mkStorageNodeAddr (ni_ID node) (stream_addr (ni_IP node) (ni_Port node))) <$> nodes.

(** The master once it has opened the session. *)
Definition with_session (now : Z) (sid : string) (request : StreamUploadInitRequest) (nodes : list NodeInfo) (n : Node) : Node :=
  tick (set_master (set_streamingSessions (<[sid := mkStreamSession sid (sui_FileID request) (sui_Filename request)
    (sui_ContentType request) (sui_Size request) (ni_ID <$> nodes) ∅ now]> (ma_streamingSessions (n_master n))) (n_master n)) n).

Lemma upload_init_run now newSession newReply msg request ring n :
  n_Role n = RoleMaster → ma_hashRing (n_master n) = Some ring → ring_wf ring → hr_nodes ring ≠ ∅ →
  Unmarshal_ok StreamUploadInitRequest_of_json (msg_Payload msg) = Some request →
  let nodes := FindNodesForFile (sui_FileID request) 3 ring in
  let sid := uuid_String newSession in
  let n' := with_session now sid request nodes n in
  nodes ≠ [] ∧ handleStreamUploadInit now newSession newReply msg n =
    (session_notices n sid request nodes ++
     [Encode (mkMessageWithTime (mkMessage MessageStreamUploadReady (n_ID n) (msg_From msg)
       (Some (StreamUploadReadyResponse_to_json
         (mkStreamUploadReadyResponse (uuid_String newReply) sid (storage_addrs nodes) true "")))) (n_logicalTime n'))],
     Ret ((), n')).
Proof.
  intros Hr Hring Hwf Hne Hreq nodes sid n'. unfold handleStreamUploadInit. rewrite Hreq.
  rewrite (bind_silent _ _ _ n n) by done. rewrite decide_False by (intros Hn; by apply Hn).
  rewrite Hring. cbv zeta.
  assert (0 < size (hr_nodes ring))%nat as Hsz.
  { apply Nat.neq_0_lt_0. intros E. by apply map_size_empty_inv in E. }
  assert (GetNodeCount ring =? 0 = false) as -> by (apply Z.eqb_neq; unfold GetNodeCount; lia).
  assert (0 < length nodes)%nat as Hnodes.
  { unfold nodes. rewrite <-(length_fmap ni_ID), ids_of_find by done. rewrite length_take, length_preference by done. lia. }
  fold nodes. split; [intros E; by rewrite E in Hnodes; simpl in Hnodes; lia|].
  destruct nodes as [|n0 ns] eqn:En; [simpl in Hnodes; lia|]. rewrite <-En in *.
  eapply bind_run; [apply upload_sessions_run|]. erewrite bind_silent by reflexivity. unfold sendStreamUploadResponse.
  rewrite answer_run. unfold n'. rewrite <-En. reflexivity.
Qed.

(** A master with storage nodes answers an upload request with a session
    and the addresses of exactly the nodes the ring chooses for the file; the
    session expects acknowledgements from these nodes and has none, and each
    of them that is a peer is told of the session. *)
Theorem handleStreamUploadInit_correct now newSession newReply msg request ring n :
  n_Role n = RoleMaster → ma_hashRing (n_master n) = Some ring → ring_wf ring → hr_nodes ring ≠ ∅ →
  Unmarshal_ok StreamUploadInitRequest_of_json (msg_Payload msg) = Some request →
  let nodes := FindNodesForFile (sui_FileID request) 3 ring in
  let sid := uuid_String newSession in
  ∃ o n' payload session, handleStreamUploadInit now newSession newReply msg n =
      (o ++ [Encode (mkMessageWithTime (mkMessage MessageStreamUploadReady (n_ID n) (msg_From msg)
         (Some payload)) (n_logicalTime n'))], Ret ((), n')) ∧
    StreamUploadReadyResponse_of_json payload =
      (mkStreamUploadReadyResponse (uuid_String newReply) sid
         ((λ node, mkStorageNodeAddr (ni_ID node) (stream_addr (ni_IP node) (ni_Port node))) <$> nodes) true "",
       DOk) ∧
    ma_streamingSessions (n_master n') !! sid = Some session ∧
    ss_ExpectedNodes session = (ni_ID <$> nodes) ∧ ss_ReceivedAcks session = ∅ ∧
    length o = length (filter (λ id, is_Some (n_peers n !! id)) (ni_ID <$> nodes)) ∧
    (0 < length nodes)%nat.
Proof.
  intros Hr Hring Hwf Hne Hreq nodes sid.
  destruct (upload_init_run now newSession newReply msg request ring n Hr Hring Hwf Hne Hreq) as [Hnodes ->].
  fold nodes sid in Hnodes |- *. eexists _, _, _, _. split; [reflexivity|]. split; [apply StreamUploadReadyResponse_json|].
  split; [apply lookup_insert_eq|]. split; [done|]. split; [done|].
  split; [|destruct nodes; [done|simpl; lia]]. unfold session_notices.
  clear. induction nodes as [|x l IH]; [done|]. csimpl. rewrite filter_cons.
  destruct (n_peers n !! ni_ID x) eqn:E; simpl; [by rewrite IH|exact IH].
Qed.

(** A store acknowledgement of a node. *)
Definition ack_message (sid : string) (fid : uuid) (hash : string) (id : uuid) : Message :=
  mkMessage MessageStreamStoreAck id uuid_Nil
    (Some (StreamStoreAck_to_json (mkStreamStoreAck sid fid hash id true ""))).

Lemma store_ack_run sid fid hash id session idx n :
  ma_streamingSessions (n_master n) !! sid = Some session →
  ma_globalFileIndex (n_master n) = Some idx →
  let acks := <[id := hash]> (ss_ReceivedAcks session) in
  handleStreamStoreAck (ack_message sid fid hash id) n =
    ([], Ret ((), set_master
      (if (length (ss_ExpectedNodes session) <=? size acks)%nat then
         set_streamingSessions (delete sid (<[sid := ss_set_ReceivedAcks acks session]>
             (ma_streamingSessions (n_master n))))
           (set_globalFileIndex (Some (<[hash := mkGlobalFileInfo (ss_FileID session) (ss_Filename session)
              hash (ss_Size session) (ss_ContentType session) (ss_ExpectedNodes session)]> idx)) (n_master n))
       else set_streamingSessions (<[sid := ss_set_ReceivedAcks acks session]>
              (ma_streamingSessions (n_master n))) (n_master n)) n)).
Proof.
  intros Hs Hi acks. unfold handleStreamStoreAck, ack_message. cbn [msg_Payload].
  unfold Unmarshal_ok. rewrite StreamStoreAck_json. cbn [ssa_SessionID ssa_NodeID ssa_Hash].
  rewrite (bind_silent _ _ _ n n) by done. rewrite Hs. cbv zeta. fold acks.
  erewrite bind_silent by reflexivity. rewrite Hi.
  destruct (length (ss_ExpectedNodes session) <=? size acks)%nat; [|reflexivity].
  erewrite bind_silent by reflexivity. reflexivity.
Qed.

(** An acknowledgement is its payload. *)
Lemma store_ack_payload msg msg' : msg_Payload msg = msg_Payload msg' → handleStreamStoreAck msg = handleStreamStoreAck msg'.
Proof. unfold handleStreamStoreAck. by intros ->. Qed.

Lemma store_acks_run sid fid hash session idx ids n :
  ma_streamingSessions (n_master n) !! sid = Some session →
  ma_globalFileIndex (n_master n) = Some idx →
  ss_ReceivedAcks session = ∅ → NoDup ids → ids ≠ [] →
  (length ids ≤ length (ss_ExpectedNodes session))%nat →
  ∃ n', for_each ids (λ id, handleStreamStoreAck (ack_message sid fid hash id)) n = ([], Ret ((), n')) ∧
    (length ids = length (ss_ExpectedNodes session) →
       ma_globalFileIndex (n_master n') = Some (<[hash := mkGlobalFileInfo (ss_FileID session)
         (ss_Filename session) hash (ss_Size session) (ss_ContentType session)
         (ss_ExpectedNodes session)]> idx) ∧
       ma_streamingSessions (n_master n') = delete sid (ma_streamingSessions (n_master n))) ∧
    ((length ids < length (ss_ExpectedNodes session))%nat →
       ma_globalFileIndex (n_master n') = Some idx).
Proof.
  intros Hs Hi Hacks Hnd Hne Hlen.
  assert (∀ todo pre acks n1, ids = pre ++ todo → todo ≠ [] → size acks = length pre →
    (∀ id, id ∈ todo → acks !! id = None) →
    ma_streamingSessions (n_master n1) = <[sid := ss_set_ReceivedAcks acks session]> (ma_streamingSessions (n_master n)) →
    ma_globalFileIndex (n_master n1) = Some idx →
    ∃ n', for_each todo (λ id, handleStreamStoreAck (ack_message sid fid hash id)) n1 = ([], Ret ((), n')) ∧
      (length ids = length (ss_ExpectedNodes session) →
        ma_globalFileIndex (n_master n') = Some (<[hash := mkGlobalFileInfo (ss_FileID session)
         (ss_Filename session) hash (ss_Size session) (ss_ContentType session)
         (ss_ExpectedNodes session)]> idx) ∧
        ma_streamingSessions (n_master n') = delete sid (ma_streamingSessions (n_master n))) ∧
      ((length ids < length (ss_ExpectedNodes session))%nat →
        ma_globalFileIndex (n_master n') = Some idx)) as Hgen.
  { induction todo as [|id todo IH]; intros pre acks n1 Eids Hn0 Hsz Hnew Hs1 Hi1; [done|].
    cbn [for_each]. erewrite bind_silent.
    2:{ apply (store_ack_run sid fid hash id (ss_set_ReceivedAcks acks session) idx n1);
        [rewrite Hs1; apply lookup_insert_eq|exact Hi1]. }
    cbn [ss_ExpectedNodes ss_ReceivedAcks ss_set_ReceivedAcks ss_FileID ss_Filename ss_Size ss_ContentType].
    assert (size (<[id := hash]> acks) = S (length pre)) as Hsz'.
    { rewrite map_size_insert_None by (apply Hnew; by left). by rewrite Hsz. }
    rewrite Hsz'. subst ids. rewrite length_app in Hlen |- *. simpl in Hlen |- *.
    destruct (Nat.leb_spec (length (ss_ExpectedNodes session)) (S (length pre))) as [Hge|Hlt].
    - assert (todo = []) as -> by (destruct todo; [done|simpl in Hlen; lia]).
      eexists. split; [reflexivity|]. simpl. split; [|lia]. intros _. split; [done|].
      rewrite Hs1. by rewrite insert_insert_eq, delete_insert_eq.
    - destruct todo as [|id' todo].
      + eexists. split; [reflexivity|]. simpl. split; [lia|]. intros _. done.
      + match goal with |- ∃ _, _ ?X = _ ∧ _ =>
          edestruct (IH (pre ++ [id]) (<[id := hash]> acks) X) as (n' & E & H1' & H2') end;
          [by rewrite <-app_assoc|done|rewrite Hsz', length_app; simpl; lia| | | |].
        * intros i Hin. rewrite lookup_insert_ne; [apply Hnew; by right|].
          intros ->. apply NoDup_app in Hnd as (_ & _ & Hnd). apply NoDup_cons in Hnd as [Hnd _]. done.
        * simpl. rewrite Hs1. by rewrite insert_insert_eq.
        * exact Hi1.
        * exists n'. split; [exact E|]. rewrite length_app in H1', H2'. simpl in *. auto. }
  apply (Hgen ids [] ∅ n); [done|done|by rewrite map_size_empty|intros; apply lookup_empty| |done].
  rewrite insert_id; [done|]. rewrite Hs. f_equal. destruct session; simpl in *; by subst.
Qed.

(** An upload is complete when all its nodes have acknowledged it: after
    one acknowledgement with the hash from each expected node, in any order,
    the index lists the file under that hash with exactly the expected nodes
    as replicas, the session is gone, and nothing else in the index or the
    sessions has changed; as long as one is missing, the index is untouched. *)
Theorem store_acks_complete sid fid hash session idx ids n :
  ma_streamingSessions (n_master n) !! sid = Some session →
  ma_globalFileIndex (n_master n) = Some idx →
  ss_ReceivedAcks session = ∅ → NoDup ids → ids ≠ [] →
  (length ids ≤ length (ss_ExpectedNodes session))%nat →
  ∃ n', for_each ids (λ id, handleStreamStoreAck (ack_message sid fid hash id)) n = ([], Ret ((), n')) ∧
    (length ids = length (ss_ExpectedNodes session) →
       ma_globalFileIndex (n_master n') = Some (<[hash := mkGlobalFileInfo (ss_FileID session)
         (ss_Filename session) hash (ss_Size session) (ss_ContentType session)
         (ss_ExpectedNodes session)]> idx) ∧
       ma_streamingSessions (n_master n') = delete sid (ma_streamingSessions (n_master n))) ∧
    ((length ids < length (ss_ExpectedNodes session))%nat →
       ma_globalFileIndex (n_master n') = Some idx).
Proof. apply store_acks_run. Qed.

(** A late acknowledgement can kill a former master: when the node was
    demoted while an upload was under way, the last acknowledgement writes
    into the dropped index and the node panics. *)
Theorem store_ack_after_demotion_panics sid fid hash id session n :
  ma_streamingSessions (n_master n) !! sid = Some session →
  ma_globalFileIndex (n_master n) = None →
  (length (ss_ExpectedNodes session) ≤ size (<[id := hash]> (ss_ReceivedAcks session)))%nat →
  handleStreamStoreAck (ack_message sid fid hash id) n = ([], Panic "assignment to entry in nil map").
Proof.
  intros Hs Hi Hsz. unfold handleStreamStoreAck, ack_message. cbn [msg_Payload].
  unfold Unmarshal_ok. rewrite StreamStoreAck_json. cbn [ssa_SessionID ssa_NodeID ssa_Hash].
  rewrite (bind_silent _ _ _ n n) by done. rewrite Hs. cbv zeta.
  erewrite bind_silent by reflexivity. apply Nat.leb_le in Hsz. rewrite Hsz, Hi. reflexivity.
Qed.

Lemma select_replica_spec peers replicas :
  match select_replica peers replicas with
  | Some p => ∃ before r after, replicas = before ++ r :: after ∧ peers !! r = Some p ∧
      ni_Status p = StatusOnline ∧
      ∀ x q, x ∈ before → peers !! x = Some q → ni_Status q ≠ StatusOnline
  | None => ∀ x q, x ∈ replicas → peers !! x = Some q → ni_Status q ≠ StatusOnline
  end.
Proof.
  induction replicas as [|r rs IH]; simpl; [set_solver|].
  destruct (peers !! r) as [p|] eqn:Er.
  - destruct (String.eqb_spec (ni_Status p) StatusOnline) as [Hon|Hoff].
    + exists [], r, rs. split_and!; [done|done|done|set_solver].
    + destruct (select_replica peers rs) as [p'|].
      * destruct IH as (bf & r' & af & -> & Hr' & Hon & Hb). exists (r :: bf), r', af.
        split_and!; [done|done|done|]. intros x q [->|Hx]%elem_of_cons Hq; [congruence|eauto].
      * intros x q [->|Hx]%elem_of_cons Hq; [congruence|eauto].
  - destruct (select_replica peers rs) as [p'|].
    + destruct IH as (bf & r' & af & -> & Hr' & Hon & Hb). exists (r :: bf), r', af.
      split_and!; [done|done|done|]. intros x q [->|Hx]%elem_of_cons Hq; [congruence|eauto].
    + intros x q [->|Hx]%elem_of_cons Hq; [congruence|eauto].
Qed.

(** A master answers a download request for an indexed file with the
    stream address of the first replica that is a peer and online, and with the
    file's name, size and hash; when there is none it answers a failure. It
    changes nothing but its clock. *)
Theorem handleStreamDownloadInit_correct msg request idx info n :
  n_Role n = RoleMaster → ma_globalFileIndex (n_master n) = Some idx →
  Unmarshal StreamDownloadInitRequest_of_json (mkStreamDownloadInitRequest "" uuid_Nil "") (msg_Payload msg)
    = (request, true) →
  idx !! sdi_Hash request = Some info → in_int64 (gfi_Size info) = true →
  ∃ payload resp, handleStreamDownloadInit msg n =
      ([Encode (mkMessageWithTime (mkMessage MessageStreamDownloadReady (n_ID n) (msg_From msg) (Some payload))
          (n_logicalTime (tick n)))], Ret ((), tick n)) ∧
    StreamDownloadReadyResponse_of_json payload = (resp, DOk) ∧
    sdr_RequestID resp = sdi_RequestID request ∧
    (if sdr_Success resp then
       ∃ before r after p, gfi_Replicas info = before ++ r :: after ∧ n_peers n !! r = Some p ∧
         ni_Status p = StatusOnline ∧
         (∀ x q, x ∈ before → n_peers n !! x = Some q → ni_Status q ≠ StatusOnline) ∧
         sdr_StorageAddr resp = stream_addr (ni_IP p) (ni_Port p) ∧ sdr_Error resp = "" ∧
         sdr_Filename resp = gfi_Filename info ∧ sdr_Size resp = gfi_Size info ∧ sdr_Hash resp = gfi_Hash info
     else ∀ r p, r ∈ gfi_Replicas info → n_peers n !! r = Some p → ni_Status p ≠ StatusOnline).
Proof.
  intros Hr Hi Hreq Hinfo Hsize. unfold handleStreamDownloadInit. rewrite Hreq. cbn [negb].
  rewrite (bind_silent _ _ _ n n) by done. rewrite decide_False by (intros Hn; by apply Hn).
  rewrite Hi. cbn [default from_option id]. rewrite Hinfo. unfold sendStreamDownloadResponse.
  pose proof (select_replica_spec (n_peers n) (gfi_Replicas info)) as Hsel.
  destruct (gfi_Replicas info) as [|r0 rs] eqn:Erep.
  { rewrite answer_run. do 2 eexists. split; [done|]. split; [by apply StreamDownloadReadyResponse_json|].
    split; [done|]. simpl. set_solver. }
  destruct (select_replica _ _) as [p|]; rewrite answer_run; do 2 eexists; (split; [done|]);
    (split; [by apply StreamDownloadReadyResponse_json|]); (split; [done|]); simpl.
  - destruct Hsel as (bf & r & af & Hrs & Hp & Hon & Hb). by exists bf, r, af, p.
  - exact Hsel.
Qed.

(** Repairing a file asks its first replica, and no other node, to send the
    file to exactly those nodes of the ring's choice that do not have it; it
    asks nobody when no node is missing, when the file has no replica or when
    the first one is not a peer. *)
Theorem initiateReplication_correct info k ring n :
  ma_hashRing (n_master n) = Some ring →
  let missing := filter (λ id, id ∉ gfi_Replicas info) (ni_ID <$> FindNodesForFile (gfi_FileID info) k ring) in
  initiateReplication info k n =
    (match gfi_Replicas info, missing with
     | source :: _, _ :: _ =>
       match n_peers n !! source with
       | Some p => [GoSend (ni_IP p) (ni_Port p) (mkMessage MessageReplicateFile (n_ID n) source
           (Some (ReplicateFileRequest_to_json (mkReplicateFileRequest (gfi_FileID info) (gfi_Filename info)
              (gfi_Hash info) source missing))))]
       | None => []
       end
     | _, _ => []
     end, Ret ((), n)) ∧
  (∀ id, id ∈ (ni_ID <$> FindNodesForFile (gfi_FileID info) k ring) → id ∈ gfi_Replicas info ∨ id ∈ missing).
Proof.
  intros Hring missing. split.
  - unfold initiateReplication. destruct (gfi_Replicas info) as [|source rest] eqn:Erep; [done|].
    rewrite (bind_silent _ _ _ n n) by done. rewrite Hring. cbv zeta. fold missing.
    destruct missing; [done|]. by destruct (n_peers n !! source).
  - intros id Hid. destruct (decide (id ∈ gfi_Replicas info)); [by left|right].
    by apply list_elem_of_filter.
Qed.

(** Deleting a file through the API leaves it in the master's index: the
    answer is a success and the ring's nodes are told to delete, but a download
    request for the file is still answered as before. *)
Theorem handleAPIFileDelete_keeps_index msg request ring idx n :
  n_Role n = RoleMaster → ma_hashRing (n_master n) = Some ring → ma_globalFileIndex (n_master n) = Some idx →
  Unmarshal APIFileDeleteRequest_of_json (mkAPIFileDeleteRequest "" uuid_Nil "") (msg_Payload msg)
    = (request, true) →
  ∃ payload, handleAPIFileDelete msg n =
      (((λ node, GoSend (ni_IP node) (ni_Port node) (mkMessage MessageFileDelete (n_ID n) uuid_Nil
           (Some (JStr (adr_Hash request))))) <$> FindNodesForFile (adr_FileID request) 3 ring) ++
       [Encode (mkMessageWithTime (mkMessage MessageAPIFileDelete (n_ID n) (msg_From msg) (Some payload))
          (n_logicalTime (tick n)))], Ret ((), tick n)) ∧
    APIFileDeleteResponse_of_json payload = (mkAPIFileDeleteResponse (adr_RequestID request) true "", DOk) ∧
    ma_globalFileIndex (n_master (tick n)) = Some idx.
Proof.
  intros Hr Hring Hi Hreq. unfold handleAPIFileDelete. rewrite Hreq. cbn [negb].
  rewrite (bind_silent _ _ _ n n) by done. rewrite decide_False by (intros Hn; by apply Hn).
  eexists. split.
  - eapply bind_run; [|unfold sendAPIResponse; apply answer_run].
    unfold node_DeleteFile. rewrite (bind_silent _ _ _ n n) by done. rewrite Hring. apply for_each_emit.
  - split; [apply APIFileDeleteResponse_json|exact Hi].
Qed.

Lemma request_metadata_run sid n :
  requestMetadataFromAllNodes sid n =
    ((λ p, GoSend (ni_IP p) (ni_Port p) (mkMessage MessageMetadataRequest (n_ID n) uuid_Nil
        (Some (MetadataRequest_to_json (mkMetadataRequest sid))))) <$>
       filter (λ p, ni_Role p = RoleStorage) (GetPeers n), Ret ((), n)).
Proof.
  unfold requestMetadataFromAllNodes. rewrite (bind_silent _ _ _ n n) by done. cbv zeta.
  induction (GetPeers n) as [|p ps IH]; [done|]. cbn [for_each]. rewrite filter_cons.
  destruct (String.eqb_spec (ni_Role p) RoleStorage) as [Hp|Hp].
  - rewrite decide_True by done. csimpl. by rewrite (bind_run _ _ _ [_] () n _ _ eq_refl IH).
  - rewrite decide_False by done. by rewrite (bind_silent _ _ _ () n).
Qed.

(** The synchronisation after an election asks every storage peer once,
    under a fresh request identifier and expecting as many answers as the ring
    has nodes; while it waits a second one does not start, and without a ring
    or without nodes it gives up with the flag cleared. *)
Theorem syncMetadata_begin_correct newID n :
  ∃ o (w : bool) n', syncMetadata_begin newID n = (o, Ret (w, n')) ∧
    (w = true ↔ ma_syncInProgress (n_master n) = false ∧
       ∃ ring, ma_hashRing (n_master n) = Some ring ∧ GetNodeCount ring ≠ 0) ∧
    (if w then
       ma_syncInProgress (n_master n') = true ∧
       (∃ ring, ma_hashRing (n_master n) = Some ring ∧ ma_pendingMetadataSync (n_master n') =
          Some (mkMetadataSyncState (uuid_String newID) (GetNodeCount ring) ∅ false)) ∧
       o = (λ p, GoSend (ni_IP p) (ni_Port p) (mkMessage MessageMetadataRequest (n_ID n) uuid_Nil
              (Some (MetadataRequest_to_json (mkMetadataRequest (uuid_String newID)))))) <$>
             filter (λ p, ni_Role p = RoleStorage) (GetPeers n) ∧
       ∃ n'', syncMetadata_begin newID n' = ([], Ret (false, n'')) ∧ n'' = n'
     else o = [] ∧ ma_syncInProgress (n_master n') = ma_syncInProgress (n_master n) ∧
          ma_pendingMetadataSync (n_master n') = ma_pendingMetadataSync (n_master n)).
Proof.
  unfold syncMetadata_begin at 1. rewrite (bind_silent _ _ _ n n) by done.
  destruct (ma_syncInProgress (n_master n)) eqn:Ep.
  { exists [], false, n. split; [done|]. split; [naive_solver|done]. }
  erewrite bind_silent by reflexivity. destruct (ma_hashRing (n_master n)) as [ring|] eqn:Er.
  2:{ do 3 eexists. split; [reflexivity|]. split; [naive_solver|done]. }
  destruct (Z.eqb_spec (GetNodeCount ring) 0) as [E0|E0].
  { do 3 eexists. split; [reflexivity|]. split; [naive_solver|done]. }
  erewrite bind_silent by reflexivity. do 3 eexists. split.
  { eapply bind_run; [apply request_metadata_run|reflexivity]. }
  split; [naive_solver|]. simpl. rewrite app_nil_r. split_and!; [done|eauto|done|eauto].
Qed.
End properties.

(** ** Examples: a master with two storage nodes on its ring *)

#[local] Existing Instance decimal_uuids.
#[local] Existing Instance decimal_times.
#[local] Existing Instance canonical_range.

Definition storage_peer (id : uuid) : NodeInfo := HashRing.example_node id.

Definition example_info : GlobalFileInfo := mkGlobalFileInfo 7 "f" "h" 3 "text/plain" [1%N].

Definition example_session_7 : StreamSession :=
  mkStreamSession "s" 7 "f" "text/plain" 3 [1%N; 2%N] ∅ 0.

Definition master_node (role : NodeRole) (ma : Master) : Node :=
  mkNode 9 "0.0.0.0" "10.0.0.9" 8000 10 role StatusOnline
    {[ 1%N := storage_peer 1; 2%N := storage_peer 2 ]} 0 (mkLocks ∅ ∅ ∅ ∅) ma
    (StreamServer.mkStreamServer ∅ (NewLocalStorage "./data/node-9" (mkDisk ∅ ∅ [])) true) [].

Definition example_master : Node :=
  master_node RoleMaster (mkMaster (Some HashRing.example_ring) (Some {[ "h" := example_info ]}) false None
    {[ "s" := example_session_7 ]}).

Lemma SetRole_correct_witness :
  ∃ n', SetRole RoleMaster (master_node RoleStorage (mkMaster None None false None ∅)) =
    ([GoSyncMetadata], Ret ((), n')).
Proof.
  destruct (SetRole_correct RoleMaster (master_node RoleStorage (mkMaster None None false None ∅)))
    as (n' & E & _).
  - split; simpl; (split; [discriminate|intros [? ?]; discriminate]).
  - exists n'. exact E.
Defined.

Definition response_message (req : string) : Message :=
  mkMessage MessageMetadataResponse 2 9
    (Some (MetadataResponse_to_json (mkMetadataResponse req 2 [mkNodeFileMetadata 7 "f" "h" 3 "text/plain"]))).

Lemma handleMetadataResponse_index_witness :
  ∃ n' idx', handleMetadataResponse (response_message "q") example_master = ([], Ret ((), n')) ∧
    ma_globalFileIndex (n_master n') = Some idx'.
Proof.
  destruct (handleMetadataResponse_index (response_message "q")
    (mkMetadataResponse "q" 2 [mkNodeFileMetadata 7 "f" "h" 3 "text/plain"]) {[ "h" := example_info ]}
    example_master) as (n' & idx' & E & Ei & _); [reflexivity|reflexivity|reflexivity|vm_compute; reflexivity|].
  exists n', idx'. split; [exact E|exact Ei].
Defined.

Lemma handleMetadataResponse_double_close_witness :
  handleMetadataResponse (response_message "q")
    (master_node RoleMaster (mkMaster (Some HashRing.example_ring) (Some ∅) true
      (Some (mkMetadataSyncState "q" 1 {[ 1%N := true ]} true)) ∅)) =
  ([], Panic "close of closed channel").
Proof.
  apply (handleMetadataResponse_double_close (response_message "q")
    (mkMetadataResponse "q" 2 [mkNodeFileMetadata 7 "f" "h" 3 "text/plain"]) ∅
    (mkMetadataSyncState "q" 1 {[ 1%N := true ]} true));
    [reflexivity|reflexivity|reflexivity|reflexivity|vm_compute; discriminate|vm_compute; reflexivity|reflexivity].
Defined.

Definition upload_request : StreamUploadInitRequest := mkStreamUploadInitRequest "q" 7 "f" "text/plain" 3.

Lemma handleStreamUploadInit_correct_witness :
  ∃ o n', handleStreamUploadInit 0 5 6
      (mkMessage MessageStreamUploadInit 1 9 (Some (StreamUploadInitRequest_to_json upload_request)))
      example_master = (o, Ret ((), n')).
Proof.
  destruct (handleStreamUploadInit_correct 0 5 6
    (mkMessage MessageStreamUploadInit 1 9 (Some (StreamUploadInitRequest_to_json upload_request)))
    upload_request HashRing.example_ring example_master) as (o & n' & p & s & E & _).
  - reflexivity.
  - reflexivity.
  - apply reachable_wf, HashRing.example_reachable.
  - intros E. apply (f_equal size) in E. vm_compute in E. discriminate.
  - vm_compute. reflexivity.
  - eexists _, n'. exact E.
Defined.

Lemma store_acks_complete_witness :
  ∃ n', for_each [2%N; 1%N] (λ id, handleStreamStoreAck (ack_message "s" 7 "h2" id)) example_master =
    ([], Ret ((), n')).
Proof.
  destruct (store_acks_complete "s" 7 "h2" example_session_7 {[ "h" := example_info ]} [2%N; 1%N]
    example_master) as (n' & E & _).
  - reflexivity.
  - reflexivity.
  - reflexivity.
  - repeat constructor; set_solver.
  - discriminate.
  - simpl. lia.
  - exists n'. exact E.
Defined.

Lemma store_ack_after_demotion_panics_witness :
  handleStreamStoreAck (ack_message "s" 7 "h2" 2)
    (master_node RoleStorage (mkMaster None None false None
      {[ "s" := ss_set_ReceivedAcks {[ 1%N := "h2" ]} example_session_7 ]})) =
  ([], Panic "assignment to entry in nil map").
Proof.
  apply (store_ack_after_demotion_panics "s" 7 "h2" 2 (ss_set_ReceivedAcks {[ 1%N := "h2" ]} example_session_7)).
  - reflexivity.
  - reflexivity.
  - vm_compute. lia.
Defined.

Lemma handleStreamDownloadInit_correct_witness :
  ∃ o n', handleStreamDownloadInit
      (mkMessage MessageStreamDownloadInit 1 9
        (Some (StreamDownloadInitRequest_to_json (mkStreamDownloadInitRequest "q" 7 "h"))))
      example_master = (o, Ret ((), n')).
Proof.
  destruct (handleStreamDownloadInit_correct
    (mkMessage MessageStreamDownloadInit 1 9
        (Some (StreamDownloadInitRequest_to_json (mkStreamDownloadInitRequest "q" 7 "h"))))
    (mkStreamDownloadInitRequest "q" 7 "h") {[ "h" := example_info ]} example_info example_master)
    as (p & r & E & _); [reflexivity|reflexivity|vm_compute; reflexivity|reflexivity|reflexivity|].
  eexists _, _. exact E.
Defined.

Lemma initiateReplication_correct_witness :
  ∃ o, initiateReplication example_info 3 example_master = (o, Ret ((), example_master)).
Proof.
  pose proof (initiateReplication_correct example_info 3 HashRing.example_ring example_master eq_refl) as H.
  cbv zeta in H. destruct H as [E _]. rewrite E. eexists. reflexivity.
Defined.

Lemma handleAPIFileDelete_keeps_index_witness :
  ∃ o n', handleAPIFileDelete (mkMessage MessageAPIFileDelete 1 9
      (Some (APIFileDeleteRequest_to_json (mkAPIFileDeleteRequest "q" 7 "h")))) example_master =
    (o, Ret ((), n')) ∧ ma_globalFileIndex (n_master n') = Some {[ "h" := example_info ]}.
Proof.
  destruct (handleAPIFileDelete_keeps_index (mkMessage MessageAPIFileDelete 1 9
      (Some (APIFileDeleteRequest_to_json (mkAPIFileDeleteRequest "q" 7 "h"))))
    (mkAPIFileDeleteRequest "q" 7 "h") HashRing.example_ring {[ "h" := example_info ]} example_master)
    as (p & E & _ & Ei); [reflexivity|reflexivity|reflexivity|vm_compute; reflexivity|].
  eexists _, _. split; [exact E|exact Ei].
Defined.
