(* ===== verification/Resync.v ===== *)
(** * A new master collects what the storage nodes hold

    The change of role, the request for metadata, the answers of the storage
    nodes and their arrival ([SetRole], [syncMetadataAfterElection],
    [handleMetadataRequest] and [handleMetadataResponse] of
    [backend/dfs/node/node.go]), put together: the index that the new master
    has when the answers are in, whatever their order. *)

From S2P Require Import Prelude GoStd Hashes Types Json HashRing Session Fs LocalStorage StreamServer NodeState NodeFiles.

Section definitions.
Context `{UuidText} `{TimeText} `{MapRange}.

(** The messages that a method sends. *)
Definition messages (o : list NAct) : list Message :=
  omap (λ a, match a with GoSend _ _ msg => Some msg | _ => None end) o.

(** The peers that are asked, and the request they get. *)
Definition storage_peers (n : Node) : list NodeInfo := filter (λ p, ni_Role p = RoleStorage) (GetPeers n).

Definition metadata_request (newID : uuid) (n : Node) : Message :=
  mkMessage MessageMetadataRequest (n_ID n) uuid_Nil (Some (MetadataRequest_to_json (mkMetadataRequest (uuid_String newID)))).

(** The entries of the local index of a node, and the hashes in them. *)
Definition metadata_of (p : Node) : list FileMetadata :=
  (go_range (default ∅ (st_index (sv_storage (n_streamServer p))))).*2.

Definition hashes_of (p : Node) : list string := fm_Hash <$> metadata_of p.

(** What the nodes send when the request reaches them. *)
Definition metadata_answers (request : Message) (ps : list Node) : list Message :=
  ps ≫= λ p, messages (outs_of (handleMetadataRequest request p)).

(** ** Helper definitions *)

(** The index lists a node among the replicas of a hash. *)
Definition held (idx : gmap string GlobalFileInfo) (h : string) (id : uuid) : Prop :=
  ∃ g, idx !! h = Some g ∧ id ∈ gfi_Replicas g.

Definition tidy (idx : gmap string GlobalFileInfo) : Prop :=
  ∀ h g, idx !! h = Some g → gfi_Hash g = h ∧ gfi_Replicas g ≠ [] ∧ NoDup (gfi_Replicas g).

Definition index_all (rs : list MetadataResponse) (idx : gmap string GlobalFileInfo) : gmap string GlobalFileInfo :=
  fold_left (λ i r, index_files (mrs_NodeID r) (mrs_Files r) i) rs idx.

Definition received_all (rs : list MetadataResponse) : gmap uuid bool :=
  fold_left (λ m r, <[mrs_NodeID r := true]> m) rs ∅.

(** A master that waits for [k] answers to its request and has these. *)
Definition synced (req : string) (k : nat) (rs : list MetadataResponse) (n : Node) : Node :=
  set_master (set_pendingMetadataSync
    (Some (mkMetadataSyncState req (Z.of_nat k) (received_all rs) (bool_decide (rs ≠ [] ∧ (k ≤ length rs)%nat))))
    (set_globalFileIndex (Some (index_all rs ∅)) (n_master n))) n.

Definition response_of (req : string) (p : Node) : MetadataResponse :=
  mkMetadataResponse req (n_ID p) (file_entry <$> metadata_of p).
End definitions.

(** ** Helper lemmas *)
Section lemmas.
Context `{UuidText} `{TimeText} `{MapRange}.

Lemma index_files_held id files idx h i :
  held (index_files id files idx) h i ↔ held idx h i ∨ (i = id ∧ h ∈ nfm_Hash <$> files).
Proof.
  destruct (index_files_spec id files idx) as (I1 & I2 & I3 & I4). split.
  - intros (g & Hg & Hi). destruct (idx !! h) as [g0|] eqn:E0.
    + destruct (I2 _ _ E0) as (g' & E' & _ & HR). rewrite E' in Hg. injection Hg as ->.
      destruct HR as [R|[_ R]]; rewrite R in Hi; [left; by exists g0|].
      apply elem_of_app in Hi as [Hi|Hi%list_elem_of_singleton]; [left; by exists g0|right]. split; [done|].
      destruct (decide (h ∈ nfm_Hash <$> files)) as [|Hn]; [done|]. rewrite (I3 _ Hn), E0 in E'. injection E' as ->.
      by apply (f_equal length) in R; rewrite length_app in R; simpl in R; lia.
    + right. destruct (I4 _ _ E0 Hg) as [R _]. rewrite R in Hi. split; [by apply list_elem_of_singleton|].
      destruct (decide (h ∈ nfm_Hash <$> files)) as [|Hn]; [done|]. by rewrite (I3 _ Hn), E0 in Hg.
  - intros [(g & Hg & Hi)|[-> Hh]].
    + destruct (I2 _ _ Hg) as (g' & E' & _ & HR). exists g'. split; [done|].
      destruct HR as [->|[_ ->]]; [done|]. apply elem_of_app. by left.
    + apply list_elem_of_fmap in Hh as (f & -> & Hf). exact (I1 f Hf).
Qed.

Lemma index_files_tidy id files idx : tidy idx → tidy (index_files id files idx).
Proof.
  intros Ht h g Hg. destruct (index_files_spec id files idx) as (_ & I2 & _ & I4). destruct (idx !! h) as [g0|] eqn:E0.
  - destruct (I2 _ _ E0) as (g' & E' & Eg & HR). assert (g' = g) as -> by congruence.
    destruct (Ht _ _ E0) as (Hh & Hne & Hnd). rewrite Eg. simpl. split; [done|].
    destruct HR as [->|[Hn ->]]; [done|]. split; [by destruct (gfi_Replicas g0)|].
    apply NoDup_app. split_and!; [done| |apply NoDup_singleton]. intros x Hx ->%list_elem_of_singleton. done.
  - destruct (I4 _ _ E0 Hg) as [-> Hh]. split_and!; [done|done|apply NoDup_singleton].
Qed.

Lemma index_all_spec rs idx : tidy idx →
  tidy (index_all rs idx) ∧
  ∀ h i, held (index_all rs idx) h i ↔ held idx h i ∨ ∃ r, r ∈ rs ∧ mrs_NodeID r = i ∧ h ∈ nfm_Hash <$> mrs_Files r.
Proof.
  revert idx. induction rs as [|r rs IH]; intros idx Ht; cbn [index_all fold_left].
  { split; [done|]. intros h i. split; [by left|]. intros [?|(r & Hr & _)]; [done|by apply elem_of_nil in Hr]. }
  destruct (IH _ (index_files_tidy (mrs_NodeID r) (mrs_Files r) idx Ht)) as [Ht' Hh]. split; [done|].
  intros h i. rewrite Hh, index_files_held. setoid_rewrite elem_of_cons. naive_solver.
Qed.

Lemma received_all_size rs : NoDup (mrs_NodeID <$> rs) →
  size (received_all rs) = length rs ∧ ∀ id, received_all rs !! id = None ↔ id ∉ (mrs_NodeID <$> rs).
Proof.
  unfold received_all. induction rs as [|r rs IH] using rev_ind.
  { intros _. split; [apply map_size_empty|]. intros id. cbn [fold_left]. rewrite lookup_empty. split; [by intros _ ?%elem_of_nil|done]. }
  rewrite fmap_app, fold_left_app. intros (Hnd & Hx & _)%NoDup_app. destruct (IH Hnd) as [Hs Hl]. cbn [fold_left]. split.
  - rewrite map_size_insert_None, Hs, length_app by (apply Hl; intros Hin; apply (Hx _ Hin); set_solver). simpl. lia.
  - intros id. rewrite lookup_insert_None, Hl. set_solver.
Qed.

(** One answer that was waited for, and that is not one too many. *)
Lemma synced_step req k rs r m n : n_Role n = RoleMaster → Unmarshal_ok MetadataResponse_of_json (msg_Payload m) = Some r →
  mrs_RequestID r = req → NoDup (mrs_NodeID <$> (rs ++ [r])) → (length rs < k)%nat →
  handleMetadataResponse m (synced req k rs n) = ([], Ret ((), synced req k (rs ++ [r]) n)).
Proof.
  intros Hr Hm Hq Hnd Hk. unfold handleMetadataResponse. rewrite (bind_silent _ _ _ (synced req k rs n) (synced req k rs n)) by done.
  rewrite decide_False by (intros Hn; by apply Hn). rewrite Hm. cbn [synced n_master set_master ma_globalFileIndex set_pendingMetadataSync
    set_globalFileIndex]. erewrite bind_silent by reflexivity. erewrite bind_silent by reflexivity.
  cbn [synced n_master set_master ma_pendingMetadataSync set_globalFileIndex set_pendingMetadataSync mss_RequestID mss_ReceivedNodes mss_ExpectedNodes mss_Done].
  rewrite decide_True by done.
  assert (size (<[mrs_NodeID r := true]> (received_all rs)) = S (length rs)) as Hs.
  { destruct (received_all_size _ Hnd) as [Hs _]. unfold received_all in Hs. rewrite fold_left_app, length_app in Hs. simpl in Hs.
    unfold received_all. lia. }
  rewrite Hs. rewrite (bool_decide_false (rs ≠ [] ∧ _)) by lia.
  assert (synced req k (rs ++ [r]) n = set_master (set_pendingMetadataSync (Some (mkMetadataSyncState req (Z.of_nat k)
    (<[mrs_NodeID r := true]> (received_all rs)) (bool_decide (k ≤ S (length rs))%nat)))
    (set_globalFileIndex (Some (index_files (mrs_NodeID r) (mrs_Files r) (index_all rs ∅))) (n_master n))) n) as ->.
  { unfold synced, index_all, received_all. rewrite !fold_left_app, length_app. simpl. do 5 f_equal.
    apply bool_decide_ext. split; [lia|]. intros ?. split; [by destruct rs|lia]. }
  destruct (Z.leb_spec (Z.of_nat k) (Z.of_nat (S (length rs)))).
  - by rewrite bool_decide_true by lia.
  - by rewrite bool_decide_false by lia.
Qed.

Lemma synced_run req k rs rs' ms n : n_Role n = RoleMaster →
  Forall2 (λ m r, Unmarshal_ok MetadataResponse_of_json (msg_Payload m) = Some r ∧ mrs_RequestID r = req) ms rs' →
  NoDup (mrs_NodeID <$> (rs ++ rs')) → (length rs + length rs' ≤ k)%nat →
  for_each ms handleMetadataResponse (synced req k rs n) = ([], Ret ((), synced req k (rs ++ rs') n)).
Proof.
  intros Hr Hms. revert rs. induction Hms as [|m r ms rs' [Hm Hq] _ IH]; intros rs Hnd Hk; cbn [for_each].
  { by rewrite app_nil_r. }
  rewrite (cons_middle r rs rs'), app_assoc in Hnd |- *. simpl in Hk. erewrite bind_silent.
  - apply IH; [done|]. rewrite length_app. simpl. lia.
  - apply synced_step; [done|done|done| |lia]. rewrite fmap_app in Hnd. by apply NoDup_app in Hnd as [? _].
Qed.

(** The ring of a new master has every storage peer. *)
Lemma dom_AddNode node (h : HashRing) : dom (hr_nodes (AddNode node h)) = dom (hr_nodes h) ∪ {[ni_ID node]}.
Proof.
  unfold AddNode. destruct (hr_nodes h !! ni_ID node) as [x|] eqn:E.
  - apply elem_of_dom_2 in E. set_solver.
  - destruct (add_virtual _ _ _ _). cbn [hr_nodes]. rewrite dom_insert_L. set_solver.
Qed.

Lemma dom_ring_of_peers n : dom (hr_nodes (ring_of_peers n)) = list_to_set (ni_ID <$> storage_peers n).
Proof.
  unfold ring_of_peers, storage_peers.
  assert (∀ l h, dom (hr_nodes (fold_left (λ ring peer, if String.eqb (ni_Role peer) RoleStorage then AddNode peer ring else ring) l h)) =
    dom (hr_nodes h) ∪ list_to_set (ni_ID <$> filter (λ p, ni_Role p = RoleStorage) l)) as Hdom.
  { induction l as [|p l IH]; intros h; cbn [fold_left]; [set_solver|]. rewrite IH, filter_cons.
    destruct (String.eqb_spec (ni_Role p) RoleStorage) as [Hp|Hp].
    - rewrite decide_True by done. rewrite dom_AddNode. set_solver.
    - by rewrite decide_False by done. }
  rewrite Hdom. cbn [NewHashRing hr_nodes]. by rewrite dom_empty_L, union_empty_l_L.
Qed.

Lemma ring_of_peers_count n : NoDup (ni_ID <$> storage_peers n) →
  GetNodeCount (ring_of_peers n) = Z.of_nat (length (storage_peers n)).
Proof.
  intros Hnd. unfold GetNodeCount. f_equal. rewrite <-size_dom, dom_ring_of_peers, size_list_to_set by done. apply length_fmap.
Qed.

(** What a storage node answers. *)
Lemma metadata_answer newID n p :
  is_Some (n_peers p !! n_ID n) → Forall (λ f, in_int64 (fm_Size f) = true) (metadata_of p) →
  ∃ m, messages (outs_of (handleMetadataRequest (metadata_request newID n) p)) = [m] ∧ msg_Type m = MessageMetadataResponse ∧
    Unmarshal_ok MetadataResponse_of_json (msg_Payload m) = Some (response_of (uuid_String newID) p).
Proof.
  intros [info Hp] Hsz. unfold handleMetadataRequest, metadata_request. cbn [msg_Payload msg_From Unmarshal_ok]. rewrite MetadataRequest_json.
  assert (storage GetAllMetadata p = ([], Ret (metadata_of p, p))) as E.
  { unfold storage, zoom, GetAllMetadata. erewrite bind_silent by reflexivity. unfold metadata_of. by destruct p as [? ? ? ? ? ? ? ? ? ? ? []]. }
  rewrite (bind_silent _ _ _ _ _ E), (bind_silent _ _ _ p p) by done. cbn [mrq_RequestID].
  rewrite (bind_silent _ _ _ (Some info) p) by (unfold GetPeer; by rewrite <-Hp).
  eexists. split; [reflexivity|]. split; [done|]. cbn [msg_Payload Unmarshal_ok]. rewrite MetadataResponse_json; [done|].
  apply Forall_fmap. eapply Forall_impl; [exact Hsz|]. by intros [].
Qed.

Lemma answers_are_responses newID n ps ms :
  Forall (λ p, is_Some (n_peers p !! n_ID n) ∧ Forall (λ f, in_int64 (fm_Size f) = true) (metadata_of p)) ps →
  ms ≡ₚ metadata_answers (metadata_request newID n) ps →
  ∃ rs, rs ≡ₚ response_of (uuid_String newID) <$> ps ∧
    Forall2 (λ m r, Unmarshal_ok MetadataResponse_of_json (msg_Payload m) = Some r ∧ mrs_RequestID r = uuid_String newID) ms rs.
Proof.
  intros Hps Hms. assert (Forall2 (λ m r, Unmarshal_ok MetadataResponse_of_json (msg_Payload m) = Some r ∧ mrs_RequestID r = uuid_String newID)
    (metadata_answers (metadata_request newID n) ps) (response_of (uuid_String newID) <$> ps)) as HF.
  { clear Hms. unfold metadata_answers. induction Hps as [|p ps [Hp Hsz] _ IH]; [constructor|]. cbn [fmap list_fmap].
    rewrite bind_cons. destruct (metadata_answer newID n p Hp Hsz) as (m & Em & _ & Hm). rewrite Em. by constructor. }
  symmetry in Hms. destruct (Permutation_Forall2 Hms HF) as (rs & Hrs & HF'). by exists rs.
Qed.

Lemma tidy_empty : tidy ∅.
Proof. intros h g Hg. by rewrite lookup_empty in Hg. Qed.

(** The index made of the answers is what the nodes hold. *)
Lemma index_of_nodes newID ps rs h id : rs ≡ₚ response_of (uuid_String newID) <$> ps →
  held (index_all rs ∅) h id ↔ ∃ p, p ∈ ps ∧ n_ID p = id ∧ h ∈ hashes_of p.
Proof.
  intros Hrs. destruct (index_all_spec rs ∅ tidy_empty) as [_ Hheld]. rewrite Hheld. unfold hashes_of. split.
  - intros [(g & Hg & _)|(r & Hr & <- & Hin)]; [by rewrite lookup_empty in Hg|]. rewrite Hrs in Hr.
    apply list_elem_of_fmap in Hr as (p & -> & Hp). exists p. split_and!; [done|done|].
    cbn [response_of mrs_Files] in Hin. by rewrite <-list_fmap_compose in Hin.
  - intros (p & Hp & <- & Hin). right. exists (response_of (uuid_String newID) p). split_and!; [|done|].
    + rewrite Hrs. by apply list_elem_of_fmap_2.
    + cbn [response_of mrs_Files]. by rewrite <-list_fmap_compose.
Qed.

(** The node that has just become master, and the synchronisation it begins. *)
Definition new_master (n : Node) : Node :=
  set_master (set_globalFileIndex (Some ∅) (set_hashRing (Some (ring_of_peers n)) (n_master n))) (set_Role RoleMaster n).

Definition syncing (n : Node) : Node := set_master (set_syncInProgress true (n_master (new_master n))) (new_master n).

Lemma sync_begins newID n (k : nat) : ma_syncInProgress (n_master n) = false → GetNodeCount (ring_of_peers n) = Z.of_nat k → k ≠ 0%nat →
  syncMetadata_begin newID (new_master n) =
    ((λ p, GoSend (ni_IP p) (ni_Port p) (metadata_request newID n)) <$> storage_peers n,
     Ret (true, synced (uuid_String newID) k [] (syncing n))).
Proof.
  intros Hsync Hcount Hk. unfold syncMetadata_begin. rewrite (bind_silent _ _ _ (new_master n) (new_master n)) by done.
  cbn [new_master n_master set_master set_Role ma_syncInProgress set_globalFileIndex set_hashRing]. rewrite Hsync.
  rewrite (bind_silent _ _ _ () (syncing n)) by done. cbn [ma_hashRing set_globalFileIndex set_hashRing]. rewrite Hcount.
  rewrite (proj2 (Z.eqb_neq (Z.of_nat k) 0)) by lia. cbv zeta.
  rewrite (bind_silent _ _ _ () (synced (uuid_String newID) k [] (syncing n)))
    by (unfold synced; by rewrite bool_decide_false by (by intros [? _])).
  erewrite bind_run; [|apply request_metadata_run|reflexivity]. by rewrite app_nil_r.
Qed.

Lemma repair_run n : is_Some (ma_hashRing (n_master n)) → ∃ o, verifyAndRepairReplication n = (o, Ret ((), n)).
Proof.
  intros [ring Hring]. unfold verifyAndRepairReplication. rewrite (bind_silent _ _ _ n n) by done. cbv zeta.
  induction (filter _ _) as [|f fs [o IH]]; [by eexists|]. cbn [for_each].
  assert (∃ o1, initiateReplication f requiredReplicas n = (o1, Ret ((), n))) as [o1 E].
  { unfold initiateReplication. destruct (gfi_Replicas f) as [|source rest]; [by eexists|]. rewrite (bind_silent _ _ _ n n) by done. rewrite Hring. cbv zeta.
    destruct (filter _ _); [by eexists|]. destruct (n_peers n !! source); by eexists. }
  exists (o1 ++ o). by eapply bind_run.
Qed.
End lemmas.

(** ** Properties *)
Section properties.
Context `{UuidText} `{TimeText} `{MapRange}.

(** C9: a node that becomes master asks every storage peer what it holds, and
    when the answers have come in, in any order, its index lists under each hash
    exactly the storage nodes that hold it, each once; the synchronisation is
    complete with the last answer and not before it, and it leaves the index in
    place. In particular the files that only the new master itself holds are
    not in its index. *)
Theorem index_rebuilt newID n ps ms :
  let request := metadata_request newID n in
  n_Role n ≠ RoleMaster → ma_syncInProgress (n_master n) = false → ps ≠ [] → NoDup (n_ID <$> ps) →
  ni_ID <$> storage_peers n ≡ₚ n_ID <$> ps →
  Forall (λ p, is_Some (n_peers p !! n_ID n) ∧ Forall (λ f, in_int64 (fm_Size f) = true) (metadata_of p)) ps →
  ms ≡ₚ metadata_answers request ps →
  ∃ n1 n2, SetRole RoleMaster n = ([GoSyncMetadata], Ret ((), n1)) ∧
    syncMetadata_begin newID n1 = ((λ p, GoSend (ni_IP p) (ni_Port p) request) <$> storage_peers n, Ret (true, n2)) ∧
    (∀ k n3, for_each (take k ms) handleMetadataResponse n2 = ([], Ret ((), n3)) →
       ∃ s, ma_pendingMetadataSync (n_master n3) = Some s ∧ (mss_Done s = true ↔ (length ms ≤ k)%nat)) ∧
    ∃ n3 idx, for_each ms handleMetadataResponse n2 = ([], Ret ((), n3)) ∧
      ma_globalFileIndex (n_master n3) = Some idx ∧ tidy idx ∧
      (∀ h id, held idx h id ↔ ∃ p, p ∈ ps ∧ n_ID p = id ∧ h ∈ hashes_of p) ∧
      (∀ h, is_Some (idx !! h) ↔ ∃ p, p ∈ ps ∧ h ∈ hashes_of p) ∧
      ∃ o n4, syncMetadata_end n3 = (o, Ret ((), n4)) ∧ ma_globalFileIndex (n_master n4) = Some idx ∧
        ma_pendingMetadataSync (n_master n4) = None ∧ ma_syncInProgress (n_master n4) = false.
Proof.
  intros request Hrole Hsync Hne Hnd Hpeers Hps Hms.
  set (req := uuid_String newID).
  assert (GetNodeCount (ring_of_peers n) = Z.of_nat (length ps)) as Hcount.
  { rewrite ring_of_peers_count by (by rewrite Hpeers). f_equal. apply Permutation_length in Hpeers. by rewrite !length_fmap in Hpeers. }
  destruct (answers_are_responses newID n ps ms Hps Hms) as (rs & Hrs & Hall).
  assert (NoDup (mrs_NodeID <$> rs)) as Hids.
  { rewrite Hrs, <-list_fmap_compose. exact Hnd. }
  assert (length rs = length ps) as Hlen by (rewrite Hrs; apply length_fmap).
  assert (length ms = length rs) as Hlm by (by eapply Forall2_length).
  destruct (index_all_spec rs ∅ tidy_empty) as [Ht _].
  pose proof (λ h id, index_of_nodes newID ps rs h id Hrs) as Hh.
  set (n2 := synced req (length ps) [] (syncing n)).
  assert (∀ k, for_each (take k ms) handleMetadataResponse n2 = ([], Ret ((), synced req (length ps) (take k rs) (syncing n)))) as Hrun.
  { intros k. apply (synced_run req (length ps) [] (take k rs)); [done|by apply Forall2_take| |].
    - cbn [app]. rewrite <-(take_drop k rs), fmap_app in Hids. by apply NoDup_app in Hids as [? _].
    - rewrite length_take. simpl. lia. }
  exists (new_master n), n2. split_and!.
  - rewrite SetRole_run. by rewrite !decide_True by done.
  - by apply sync_begins; [| |destruct ps].
  - intros k n3. rewrite Hrun. intros [= <-]. eexists. split; [reflexivity|]. cbn [mss_Done]. rewrite bool_decide_eq_true.
    rewrite length_take. split; [lia|]. intros Hk. rewrite take_ge by lia. split; [|lia]. by destruct rs, ps.
  - specialize (Hrun (length ms)). rewrite firstn_all in Hrun. rewrite take_ge in Hrun by lia.
    exists (synced req (length ps) rs (syncing n)), (index_all rs ∅). split_and!; [exact Hrun|done|done|done| |].
    + intros h. split.
      * intros [g Hg]. destruct (Ht _ _ Hg) as (_ & Hr & _). destruct (gfi_Replicas g) as [|id ids] eqn:Er; [done|].
        destruct (proj1 (Hh h id)) as (p & Hp & _ & Hin); [exists g; rewrite Er; split; [done|by left]|by exists p].
      * intros (p & Hp & Hin). destruct (proj2 (Hh h (n_ID p))) as (g & Hg & _); [by exists p|by eexists].
    + destruct (repair_run (synced req (length ps) rs (syncing n))) as [o Eo]; [by eexists|].
      unfold syncMetadata_end. exists o. eexists. split; [erewrite bind_run; [|exact Eo|reflexivity]; by rewrite app_nil_r|]. done.
Qed.
End properties.

(** ** Example: three storage nodes, one of which becomes master *)

#[local] Existing Instance decimal_uuids.
#[local] Existing Instance decimal_times.
#[local] Existing Instance canonical_range.

Definition example_storage_node (id : uuid) (peers : list uuid) (files : list string) : Node :=
  mkNode id "0.0.0.0" "10.0.0.1" 8000 5 RoleStorage StatusOnline (list_to_map ((λ i, (i, HashRing.example_node i)) <$> peers)) 0
    (mkLocks ∅ ∅ ∅ ∅) (mkMaster None None false None ∅)
    (StreamServer.mkStreamServer ∅ (mkStore "./data" (Some (list_to_map ((λ h, (h, mkFileMetadata 7 "f" h 3 "text/plain" 0 "stored")) <$> files)))
       (mkDisk ∅ ∅ [])) true) [].

Definition becoming_master : Node := example_storage_node 9 [1%N; 2%N] ["own"; "both"].
Definition staying_nodes : list Node := [example_storage_node 1 [9%N] ["both"; "one"]; example_storage_node 2 [9%N] ["both"]].

Lemma index_rebuilt_witness : ∃ n1 n2 n3 idx, SetRole RoleMaster becoming_master = ([GoSyncMetadata], Ret ((), n1)) ∧
  for_each (rev (metadata_answers (metadata_request 5 becoming_master) staying_nodes)) handleMetadataResponse n2 = ([], Ret ((), n3)) ∧
  ma_globalFileIndex (n_master n3) = Some idx ∧ held idx "both" 1 ∧ held idx "both" 2 ∧ idx !! "own" = None.
Proof.
  destruct (index_rebuilt 5 becoming_master staying_nodes (rev (metadata_answers (metadata_request 5 becoming_master) staying_nodes)))
    as (n1 & n2 & E1 & _ & _ & n3 & idx & E & Ei & _ & Hh & Hd & _).
  - discriminate.
  - reflexivity.
  - discriminate.
  - by apply (bool_decide_unpack _); vm_compute.
  - vm_compute. apply perm_swap.
  - assert (∀ o : option NodeInfo, match o with Some _ => true | None => false end = true → is_Some o) as Hs by (intros [x|]; [by exists x|done]).
    repeat (apply Forall_cons; split; [split; [apply Hs; vm_compute; reflexivity|by apply (bool_decide_unpack _); vm_compute]|]).
    apply Forall_nil_2.
  - symmetry. apply Permutation_rev.
  - exists n1, n2, n3, idx. split_and!; [exact E1|exact E|exact Ei| | |].
    + apply Hh. exists (example_storage_node 1 [9%N] ["both"; "one"]). split_and!; [by left|done|].
      by apply (bool_decide_unpack _); vm_compute.
    + apply Hh. exists (example_storage_node 2 [9%N] ["both"]). split_and!; [by right; left|done|].
      by apply (bool_decide_unpack _); vm_compute.
    + apply eq_None_not_Some. intros Hs. apply Hd in Hs as (p & Hp & Hin). revert Hin.
      apply elem_of_cons in Hp as [-> |Hp]; [|apply list_elem_of_singleton in Hp as ->]; by apply (bool_decide_unpack (_ → False)); vm_compute.
Defined.
