(* ===== verification/Bully.v ===== *)
(** * Leader election: [backend/dfs/election/bully.go]

    The elector as a state machine. A call of [StartElection] can block twice:
    for an OK from a node of higher priority, and, once it has announced
    itself, for the announcement of a higher one; a handler that answers OK
    can be interrupted between reading and using the channel. These blocked
    calls are the [Task]s of the elector, and a step of the system starts,
    resumes or ends one of them, or runs a handler. The elector knows its node
    through the interface [NodeCommunicator]. *)

From S2P Require Import Prelude GoStd Types Json.

(** [NodeCommunicator]: what the elector asks of its node, over the node's
    state [N] and actions [O], and what it relies on. Sending is asynchronous. *)
Class NodeCommunicator (N O : Type) := {
  nc_ID : N → uuid;
  nc_Priority : N → Z;
  nc_Role : N → NodeRole;
  nc_Info : Z → N → NodeInfo;
  nc_Peers : N → list NodeInfo;
  nc_SetRole : NodeRole → GoM N O ();
  nc_UpdatePeerRole : uuid → NodeRole → GoM N O ();
  nc_RemovePeer : uuid → GoM N O ();
  nc_Send : string → Z → Message → O;
  nc_Broadcast : Message → GoM N O ();
  (** none of the methods panics *)
  nc_SetRole_run r n : ∃ o n', nc_SetRole r n = (o, Ret ((), n')) ∧ nc_Role n' = r ∧
    nc_ID n' = nc_ID n ∧ nc_Priority n' = nc_Priority n ∧ nc_Peers n' = nc_Peers n;
  nc_Update_run id r n : ∃ n', nc_UpdatePeerRole id r n = ([], Ret ((), n')) ∧ nc_Role n' = nc_Role n ∧
    nc_ID n' = nc_ID n ∧ nc_Priority n' = nc_Priority n;
  nc_Remove_run id n : ∃ n', nc_RemovePeer id n = ([], Ret ((), n')) ∧ nc_Role n' = nc_Role n ∧
    nc_ID n' = nc_ID n ∧ nc_Priority n' = nc_Priority n;
  nc_Broadcast_run m n : nc_Broadcast m n =
    ((λ p, nc_Send (ni_IP p) (ni_Port p) m) <$> nc_Peers n, Ret ((), n));
  nc_Info_ok now n : ni_ID (nc_Info now n) = nc_ID n ∧ ni_Priority (nc_Info now n) = nc_Priority n }.

Definition coordinatorWaitTimeout : Z := 500 * Millisecond.
Definition electionTimeout : Z := 3 * Second.

(** A channel of capacity 1: whether a value waits in it, and whether it is
    closed. *)
Record Chan := mkChan { ch_full : bool; ch_closed : bool }.

Definition make_chan : Chan := mkChan false false.

(** A blocked call. *)
Inductive Task :=
| WaitOK (okChan : nat)                          (* StartElection, before its select *)
| WaitCancel (cancelChan : nat) (after_wait : bool)  (* becomeLeader, before its select *)
| SendingOK (okChan : nat)                       (* handleOK, before its send *)
| Starting.                                      (* go b.StartElection(ctx), not yet run *)

(** [BullyElector] with its node, the channels made so far, and the calls that
    are blocked. *)
Record Elector (N : Type) := mkElector {
  b_node : N;
  electionInProgress : bool;
  okChan : option nat;
  leaderCancelChan : option nat;
  coordinatorDeadChan : option uuid;
  b_chans : list Chan;
  b_tasks : list Task }.
Arguments mkElector {N}.
Arguments b_node {N}.
Arguments electionInProgress {N}.
Arguments okChan {N}.
Arguments leaderCancelChan {N}.
Arguments coordinatorDeadChan {N}.
Arguments b_chans {N}.
Arguments b_tasks {N}.

(** The rest of the elector's state: its context ([None] before [Start]), with
    whether it was cancelled through [b.cancel]; [stopChan], open or closed; and
    how many monitors were started. *)
Record Monitor := mkMonitor {
  mo_ctx : option bool;
  mo_stopChan : bool;
  mo_started : nat }.

Definition new_monitor : Monitor := mkMonitor None false 0.

(** [Start] and [Stop] of the elector. They return nil. *)
Definition elector_Start (m : Monitor) : Monitor := mkMonitor (Some false) (mo_stopChan m) (S (mo_started m)).

Definition elector_Stop (m : Monitor) : Res Monitor :=
  if mo_stopChan m then Panic "close of closed channel"
  else Ret (mkMonitor (match mo_ctx m with None => None | Some _ => Some true end) true (mo_started m)).

(** The [select] of [monitorLeader] can return: [done] tells whether the
    context that [Start] was given has ended. *)
Definition monitor_told (done : bool) (m : Monitor) : bool :=
  mo_stopChan m || match mo_ctx m with Some cancelled => cancelled | None => false end || done.

Section elector.
Context {N O : Type} `{UuidText} `{TimeText} `{NodeCommunicator N O}.

Abbreviation M := (GoM (Elector N) O).

Definition NewBullyElector (n : N) : Elector N := mkElector n false None None None [] [].

Definition set_node (n : N) (b : Elector N) : Elector N :=
  mkElector n (electionInProgress b) (okChan b) (leaderCancelChan b) (coordinatorDeadChan b) (b_chans b) (b_tasks b).
Definition set_inProgress (p : bool) (b : Elector N) : Elector N :=
  mkElector (b_node b) p (okChan b) (leaderCancelChan b) (coordinatorDeadChan b) (b_chans b) (b_tasks b).
Definition set_okChan (c : option nat) (b : Elector N) : Elector N :=
  mkElector (b_node b) (electionInProgress b) c (leaderCancelChan b) (coordinatorDeadChan b) (b_chans b) (b_tasks b).
Definition set_leaderCancelChan (c : option nat) (b : Elector N) : Elector N :=
  mkElector (b_node b) (electionInProgress b) (okChan b) c (coordinatorDeadChan b) (b_chans b) (b_tasks b).
Definition set_coordinatorDead (c : option uuid) (b : Elector N) : Elector N :=
  mkElector (b_node b) (electionInProgress b) (okChan b) (leaderCancelChan b) c (b_chans b) (b_tasks b).
Definition set_chans (cs : list Chan) (b : Elector N) : Elector N :=
  mkElector (b_node b) (electionInProgress b) (okChan b) (leaderCancelChan b) (coordinatorDeadChan b) cs (b_tasks b).
Definition set_tasks (ts : list Task) (b : Elector N) : Elector N :=
  mkElector (b_node b) (electionInProgress b) (okChan b) (leaderCancelChan b) (coordinatorDeadChan b) (b_chans b) ts.

Definition node_do {A} (m : GoM N O A) : M A := zoom b_node set_node m.

Definition chan (c : nat) (b : Elector N) : Chan := default make_chan (b_chans b !! c).

(** [make(chan ..., 1)] *)
Definition new_chan : M nat := λ b,
  ([], Ret (length (b_chans b), set_chans (b_chans b ++ [make_chan]) b)).

(** [close(c)] *)
Definition close_chan (c : nat) : M () :=
  b ← get;
  if ch_closed (chan c b) then panic "close of closed channel"
  else modify (set_chans (<[c := mkChan (ch_full (chan c b)) true]> (b_chans b))).

(** [select { case c <- v: default: }] *)
Definition try_send (c : nat) : M () :=
  b ← get;
  if ch_closed (chan c b) then panic "send on closed channel"
  else if ch_full (chan c b) then skip
  else modify (set_chans (<[c := mkChan true false]> (b_chans b))).

(** [<-c] can proceed: a value waits, or the channel is closed. *)
Definition can_receive (c : nat) (b : Elector N) : bool := ch_full (chan c b) || ch_closed (chan c b).

Definition receive (c : nat) : M () :=
  modify (λ b, set_chans (<[c := mkChan false (ch_closed (chan c b))]> (b_chans b)) b).

Definition start_task (t : Task) : M () := modify (λ b, set_tasks (b_tasks b ++ [t]) b).

(** [becomeLeader] up to its [select]; [after_wait] tells which call of
    [StartElection] it returns to. *)
Definition becomeLeader_begin (after_wait : bool) : M () :=
  cancelChan ← new_chan;
  _ ← modify (set_leaderCancelChan (Some cancelChan));
  id ← gets (λ b, nc_ID (b_node b));
  _ ← node_do (nc_Broadcast (mkMessage MessageCoordinator id uuid_Nil None));
  start_task (WaitCancel cancelChan after_wait).

(** [StartElection] up to where it blocks (or to its end). *)
Definition StartElection (now : Z) : M () :=
  b ← get;
  if electionInProgress b then skip
  else
    _ ← modify (set_inProgress true);
    let nodeInfo := nc_Info now (b_node b) in
    let peers := nc_Peers (b_node b) in
    ok ← new_chan;
    _ ← (match okChan b with Some old => close_chan old | None => skip end);
    _ ← modify (set_okChan (Some ok));
    let higher := filter (λ peer, ni_Priority nodeInfo < ni_Priority peer) peers in
    let electionMsg := mkMessage MessageElection (ni_ID nodeInfo) uuid_Nil (Some (NodeInfo_to_json nodeInfo)) in
    _ ← for_each higher (λ peer, emit (nc_Send (ni_IP peer) (ni_Port peer) electionMsg));
    match higher with
    | [] => becomeLeader_begin false
    | _ => start_task (WaitOK ok)
    end.

(** The deferred reset at the end of [StartElection]. *)
Definition election_done : M () := modify (set_inProgress false).

(** The end of [StartElection] after its [select]. *)
Definition clear_okChan : M () := _ ← modify (set_okChan None); election_done.

(** How a blocked [select] ends. *)
Inductive Wakeup := Received | TimedOut | CtxDone.

Definition resume_StartElection (ok : nat) (w : Wakeup) : M () :=
  match w with
  | Received => _ ← receive ok; clear_okChan
  | TimedOut => becomeLeader_begin true
  | CtxDone => election_done
  end.

Definition resume_becomeLeader (cancelChan : nat) (after_wait : bool) (w : Wakeup) : M () :=
  _ ← (match w with
       | Received => receive cancelChan
       | _ => node_do (nc_SetRole RoleMaster)
       end);
  _ ← modify (set_leaderCancelChan None);
  if after_wait then clear_okChan else election_done.

(** ** Handlers *)

Definition handleElection (msg : Message) : M () :=
  match Unmarshal_ok NodeInfo_of_json (msg_Payload msg) with
  | None => skip
  | Some nodeInfo =>
    b ← get;
    if ni_Priority nodeInfo <? nc_Priority (b_node b) then
      _ ← emit (nc_Send (ni_IP nodeInfo) (ni_Port nodeInfo)
                  (mkMessage MessageOK (nc_ID (b_node b)) uuid_Nil None));
      if negb (electionInProgress b) && negb (String.eqb (nc_Role (b_node b)) RoleMaster)
      then start_task Starting
      else skip
    else skip
  end.

(** [handleOK] up to where it holds the channel. *)
Definition handleOK (msg : Message) : M () :=
  b ← get;
  if decide (msg_From msg = nc_ID (b_node b)) then skip
  else match okChan b with
       | Some c => start_task (SendingOK c)
       | None => skip
       end.

Definition senderPriority (from : uuid) (peers : list NodeInfo) : Z :=
  match List.find (λ p, bool_decide (ni_ID p = from)) peers with
  | Some p => ni_Priority p
  | None => -1
  end.

(** Wake the call that waits on a held channel, if there is one. *)
Definition notify (o : option nat) : M () :=
  match o with Some c => try_send c | None => skip end.

(** Record the sender as the master, and as the only one. *)
Definition accept_coordinator (from : uuid) : M () :=
  _ ← node_do (nc_UpdatePeerRole from RoleMaster);
  b ← get;
  _ ← for_each (nc_Peers (b_node b)) (λ peer,
        if negb (bool_decide (ni_ID peer = from)) && String.eqb (ni_Role peer) RoleMaster
        then node_do (nc_UpdatePeerRole (ni_ID peer) RoleStorage)
        else skip);
  b ← get;
  if String.eqb (nc_Role (b_node b)) RoleMaster then node_do (nc_SetRole RoleStorage) else skip.

Definition handleCoordinator (msg : Message) : M () :=
  b ← get;
  let prio := senderPriority (msg_From msg) (nc_Peers (b_node b)) in
  let myPriority := nc_Priority (b_node b) in
  if negb (prio =? -1) && (prio <? myPriority) then
    if String.eqb (nc_Role (b_node b)) RoleMaster
    then node_do (nc_Broadcast (mkMessage MessageCoordinator (nc_ID (b_node b)) uuid_Nil None))
    else skip
  else
    _ ← modify (set_inProgress false);
    _ ← notify (leaderCancelChan b);
    _ ← notify (okChan b);
    accept_coordinator (msg_From msg).

Definition HandleMessage (msg : Message) : M () :=
  if String.eqb (msg_Type msg) MessageElection then handleElection msg
  else if String.eqb (msg_Type msg) MessageOK then handleOK msg
  else if String.eqb (msg_Type msg) MessageCoordinator then handleCoordinator msg
  else skip.

(** The channel of capacity 1 keeps the first notification. *)
Definition NotifyCoordinatorDead (id : uuid) : M () :=
  modify (λ b, match coordinatorDeadChan b with
               | None => set_coordinatorDead (Some id) b
               | Some _ => b
               end).

(** One round of [monitorLeader], woken by the notification or by its ticker. *)
Definition monitor_notified (now : Z) : M () :=
  b ← get;
  match coordinatorDeadChan b with
  | None => skip
  | Some id =>
    _ ← modify (set_coordinatorDead None);
    _ ← node_do (nc_RemovePeer id);
    StartElection now
  end.

Definition monitor_tick (now : Z) : M () :=
  b ← get;
  match List.find (λ p, String.eqb (ni_Role p) RoleMaster && (15 * Second <? now - ni_LastHeartbeat p))
          (nc_Peers (b_node b)) with
  | None => skip
  | Some p =>
    _ ← node_do (nc_RemovePeer (ni_ID p));
    StartElection now
  end.

(** ** The steps of the elector

    The node's message loop handles one message at a time, so there no
    [EvMessage] comes while a [SendingOK] is blocked; what is proved of every
    run holds without this, and the runs shown as examples respect it. *)

Inductive Event :=
| EvStart (now : Z)
| EvMessage (msg : Message)
| EvNotify (id : uuid)
| EvMonitor (now : Z)
| EvTick (now : Z)
| EvResume (now : Z) (i : nat) (w : Wakeup).

(** Remove the task at an index. *)
Definition take_task (i : nat) : M () := modify (λ b, set_tasks (delete i (b_tasks b)) b).

(** A task can be resumed with [Received] only when its channel is ready;
    the timer can fire, and the context can end, at any time. *)
Definition resumable (t : Task) (w : Wakeup) (b : Elector N) : bool :=
  match t, w with
  | WaitOK c, Received | WaitCancel c _, Received => can_receive c b
  | WaitOK _, _ => true
  | WaitCancel _ _, TimedOut => true
  | WaitCancel _ _, CtxDone => false
  | SendingOK _, Received | Starting, Received => true
  | SendingOK _, _ | Starting, _ => false
  end.

Definition run_event (ev : Event) : M () :=
  match ev with
  | EvStart now => StartElection now
  | EvMessage msg => HandleMessage msg
  | EvNotify id => NotifyCoordinatorDead id
  | EvMonitor now => monitor_notified now
  | EvTick now => monitor_tick now
  | EvResume now i w =>
    b ← get;
    match b_tasks b !! i with
    | None => skip
    | Some t =>
      if resumable t w b then
        _ ← take_task i;
        match t with
        | WaitOK ok => resume_StartElection ok w
        | WaitCancel c after_wait => resume_becomeLeader c after_wait w
        | SendingOK c => try_send c
        | Starting => StartElection now
        end
      else skip
    end
  end.

(** A run of the elector: the events in order, until a panic. *)
Fixpoint run_events (evs : list Event) : M () :=
  match evs with
  | [] => skip
  | ev :: evs' => _ ← run_event ev; run_events evs'
  end.

(** ** Helper lemmas *)

(** The channels the elector holds are open, and are not the same one. *)
Definition open_chan (b : Elector N) (o : option nat) : Prop :=
  ∀ c, o = Some c → (c < length (b_chans b))%nat ∧ ch_closed (chan c b) = false.

Definition elector_ok (b : Elector N) : Prop :=
  open_chan b (okChan b) ∧ open_chan b (leaderCancelChan b) ∧
  ∀ c, okChan b = Some c → leaderCancelChan b ≠ Some c.

(** No panic, and the invariant stays. *)
Definition safe {A} (m : M A) : Prop := triple elector_ok m (λ _ b _, elector_ok b).

Lemma safe_run {A} (m : M A) :
  (∀ b, elector_ok b → ∃ o a b', m b = (o, Ret (a, b')) ∧ elector_ok b') → safe m.
Proof. intros Hm b Hb. exact (Hm b Hb). Qed.

Lemma safe_bind {A B} (m : M A) (f : A → M B) : safe m → (∀ a, safe (f a)) → safe (m ≫= f).
Proof.
  intros Hm Hf. eapply triple_bind; [exact Hm|]. intros a o1.
  eapply triple_conseq; [apply (Hf a)|done|done].
Qed.

Lemma safe_get {A} (f : Elector N → M A) : (∀ b, elector_ok b → ∃ o a b', f b b = (o, Ret (a, b')) ∧ elector_ok b') →
  safe (get ≫= f).
Proof. intros Hf. apply safe_run. intros b Hb. rewrite (bind_silent _ _ _ b b) by done. auto. Qed.

Lemma safe_ret {A} (a : A) : safe (mret a).
Proof. by apply triple_ret. Qed.

Lemma safe_emit (o : O) : safe (emit o).
Proof. apply safe_run. intros b Hb. eexists _, _, b. by split. Qed.

Lemma safe_for {A} (l : list A) (body : A → M ()) : (∀ x, safe (body x)) → safe (for_each l body).
Proof. intros Hb. induction l as [|x l IH]; [apply safe_ret|]. apply safe_bind; [apply Hb|]. intros u. exact IH. Qed.

Lemma safe_modify f : (∀ b, elector_ok b → elector_ok (f b)) → safe (modify f).
Proof. intros Hf. apply safe_run. intros b Hb. eexists _, _, (f b). split; [done|auto]. Qed.

Lemma safe_node {A} (m : GoM N O A) : (∀ n, ∃ o a n', m n = (o, Ret (a, n'))) → safe (node_do m).
Proof.
  intros Hm. apply safe_run. intros b Hb. destruct (Hm (b_node b)) as (o & a & n' & E).
  unfold node_do, zoom. rewrite E. eexists _, _, _. split; [done|exact Hb].
Qed.

Lemma chan_app (b : Elector N) c cs : (c < length (b_chans b))%nat → chan c (set_chans (b_chans b ++ cs) b) = chan c b.
Proof. intros Hc. unfold chan. simpl. by rewrite lookup_app_l. Qed.

(** Making a channel keeps the others, and the new one is open. *)
Lemma open_chan_make b o : open_chan b o → open_chan (set_chans (b_chans b ++ [make_chan]) b) o.
Proof.
  intros Ho c Hc. destruct (Ho c Hc) as [Hl Hcl]. rewrite chan_app by done.
  simpl. rewrite length_app. split; [lia|done].
Qed.

Lemma chan_make b : chan (length (b_chans b)) (set_chans (b_chans b ++ [make_chan]) b) = make_chan.
Proof. unfold chan. simpl. by rewrite lookup_app_r, Nat.sub_diag by lia. Qed.

Lemma open_chan_new b : open_chan (set_chans (b_chans b ++ [make_chan]) b) (Some (length (b_chans b))).
Proof.
  intros c [= <-]. rewrite chan_make. simpl. rewrite length_app. simpl. split; [lia|done].
Qed.

Lemma open_chan_fresh b o : open_chan b o → o ≠ Some (length (b_chans b)).
Proof. intros Ho Hc. destruct (Ho _ Hc). lia. Qed.

(** Writing a flag of a channel, keeping the closed flags of the others. *)
Lemma open_chan_write b o c ch : open_chan b o →
  (o = Some c → ch_closed ch = false) → open_chan (set_chans (<[c := ch]> (b_chans b)) b) o.
Proof.
  intros Ho Hch d Hd. destruct (Ho d Hd) as [Hl Hcl]. unfold chan in *. simpl.
  rewrite length_insert. split; [done|]. destruct (decide (d = c)) as [->|Hne].
  - rewrite list_lookup_insert_eq by done. auto.
  - rewrite list_lookup_insert_ne by done. done.
Qed.

Lemma safe_try_send c :
  triple (λ b, elector_ok b ∧ ch_closed (chan c b) = false) (try_send c) (λ _ b _, elector_ok b).
Proof.
  intros b [Hb Hc]. unfold try_send. rewrite (bind_silent _ _ _ b b) by done. rewrite Hc.
  destruct (ch_full (chan c b)); [by eexists _, _, b|]. do 3 eexists. split; [done|].
  destruct Hb as (H1' & H2' & H3'). split_and!; [by apply open_chan_write..|exact H3'].
Qed.

Lemma safe_receive c : safe (receive c).
Proof.
  apply safe_modify. intros b (H1' & H2' & H3'). split_and!; [apply open_chan_write..|exact H3']; simpl; try done.
  - intros Ho. by apply H1'.
  - intros Ho. by apply H2'.
Qed.

Lemma safe_start_task t : safe (start_task t).
Proof. apply safe_modify. done. Qed.

Lemma safe_broadcast m : safe (node_do (nc_Broadcast m)).
Proof. apply safe_node. intros n. rewrite nc_Broadcast_run. eauto. Qed.

Lemma safe_SetRole r : safe (node_do (nc_SetRole r)).
Proof. apply safe_node. intros n. destruct (nc_SetRole_run r n) as (o & n' & E & _). eauto. Qed.

Lemma safe_UpdatePeerRole id r : safe (node_do (nc_UpdatePeerRole id r)).
Proof. apply safe_node. intros n. destruct (nc_Update_run id r n) as (n' & E & _). eauto. Qed.

Lemma safe_RemovePeer id : safe (node_do (nc_RemovePeer id)).
Proof. apply safe_node. intros n. destruct (nc_Remove_run id n) as (n' & E & _). eauto. Qed.

Lemma safe_becomeLeader after_wait : safe (becomeLeader_begin after_wait).
Proof.
  unfold becomeLeader_begin, new_chan. intros b (H1' & H2' & H3').
  erewrite bind_silent by reflexivity.
  set (b1 := set_chans (b_chans b ++ [make_chan]) b). set (c := length (b_chans b)).
  erewrite (bind_silent (modify _)) by reflexivity. erewrite (bind_silent (gets _)) by reflexivity.
  refine (safe_bind _ _ (safe_broadcast _) (λ _, safe_start_task _) _ _).
  split_and!; [by apply open_chan_make|apply open_chan_new|].
  intros d Hd. cbn. intros [= <-]. by apply (open_chan_fresh b _ H1').
Qed.

Lemma safe_election_done : safe election_done.
Proof. apply safe_modify. done. Qed.

Lemma safe_clear_okChan : safe clear_okChan.
Proof.
  apply safe_bind; [|intros u; apply safe_election_done].
  apply safe_modify. intros b (_ & H2' & _). by split_and!.
Qed.

(** [StartElection] replaces the channel: the old one is closed. *)
Definition renewed (b : Elector N) : Elector N :=
  let cs := b_chans b ++ [make_chan] in
  set_okChan (Some (length (b_chans b)))
    (set_chans (match okChan b with
                | Some old => <[old := mkChan (ch_full (chan old b)) true]> cs
                | None => cs
                end) b).

Lemma renew_run {A} b (f : nat → M A) : elector_ok b →
  (ok ← new_chan;
   _ ← (match okChan b with Some old => close_chan old | None => skip end);
   _ ← modify (set_okChan (Some ok));
   f ok) b = f (length (b_chans b)) (renewed b).
Proof.
  intros (H1' & _). unfold new_chan. erewrite bind_silent by reflexivity.
  set (b1 := set_chans (b_chans b ++ [make_chan]) b). unfold renewed.
  destruct (okChan b) as [old|] eqn:Eo.
  - destruct (H1' old eq_refl) as [Hl Hcl].
    rewrite (bind_silent _ _ _ () (set_chans (<[old := mkChan (ch_full (chan old b)) true]> (b_chans b1)) b1)).
    { by erewrite bind_silent by reflexivity. }
    unfold close_chan. rewrite (bind_silent _ _ _ b1 b1) by done.
    unfold b1. by rewrite chan_app, Hcl by done.
  - erewrite (bind_silent skip) by reflexivity. by erewrite bind_silent by reflexivity.
Qed.

Lemma renewed_ok b : elector_ok b → elector_ok (renewed b) ∧ chan (length (b_chans b)) (renewed b) = make_chan.
Proof.
  intros (H1' & H2' & H3').
  assert (chan (length (b_chans b)) (renewed b) = make_chan) as Hnew.
  { unfold renewed, chan. simpl. destruct (okChan b) as [old|] eqn:Eo.
    - rewrite list_lookup_insert_ne; [|destruct (H1' old eq_refl); lia]. by rewrite lookup_app_r, Nat.sub_diag by lia.
    - by rewrite lookup_app_r, Nat.sub_diag by lia. }
  split; [|done]. split_and!.
  - intros c [= <-]. rewrite Hnew. split; [|done]. unfold renewed. simpl.
    destruct (okChan b); rewrite ?length_insert, length_app; simpl; lia.
  - apply (open_chan_make b) in H2'. unfold renewed. simpl. destruct (okChan b) as [old|] eqn:Eo; [|exact H2'].
    apply (open_chan_write _ _ old (mkChan (ch_full (chan old b)) true)) in H2'; [exact H2'|].
    intros Hl. by destruct (H3' old eq_refl).
  - simpl. intros d [= <-]. by apply (open_chan_fresh b).
Qed.

(** What [StartElection] asks of the peers above it. *)
Definition higher_peers (b : Elector N) : list NodeInfo :=
  filter (λ peer, nc_Priority (b_node b) < ni_Priority peer) (nc_Peers (b_node b)).

Definition election_msg (now : Z) (b : Elector N) : Message :=
  mkMessage MessageElection (nc_ID (b_node b)) uuid_Nil (Some (NodeInfo_to_json (nc_Info now (b_node b)))).

Definition coordinator_msg (b : Elector N) : Message :=
  mkMessage MessageCoordinator (nc_ID (b_node b)) uuid_Nil None.

Definition sends (ps : list NodeInfo) (m : Message) : list O := (λ p, nc_Send (ni_IP p) (ni_Port p) m) <$> ps.

Lemma StartElection_run now b : elector_ok b → electionInProgress b = false →
  let b1 := renewed (set_inProgress true b) in
  let '(o, r) := match higher_peers b with
                 | [] => becomeLeader_begin false b1
                 | _ => start_task (WaitOK (length (b_chans b))) b1
                 end in
  StartElection now b = (sends (higher_peers b) (election_msg now b) ++ o, r).
Proof.
  intros Hb Hp. cbv zeta. unfold StartElection. rewrite (bind_silent _ _ _ b b) by done. rewrite Hp. cbv zeta.
  set (b0 := set_inProgress true b). rewrite (bind_silent _ _ _ () b0) by done.
  destruct (nc_Info_ok now (b_node b)) as [Eid Epr].
  rewrite (renew_run b0 _ Hb). change (length (b_chans b0)) with (length (b_chans b)). rewrite Eid, Epr.
  fold (election_msg now b) (higher_peers b).
  destruct (match higher_peers b with [] => _ | _ => _ end) as [o r] eqn:E.
  apply (bind_run _ _ _ _ () (renewed b0)); [apply for_each_emit|].
  destruct (higher_peers b); exact E.
Qed.

Lemma safe_StartElection now : safe (StartElection now).
Proof.
  apply safe_run. intros b Hb. destruct (electionInProgress b) eqn:Hp.
  { unfold StartElection. rewrite (bind_silent _ _ _ b b) by done. rewrite Hp. by eexists _, _, b. }
  pose proof (StartElection_run now b Hb Hp) as E. cbv zeta in E.
  destruct (renewed_ok (set_inProgress true b) Hb) as [Hok _].
  assert (safe (match higher_peers b with [] => becomeLeader_begin false
                | _ => start_task (WaitOK (length (b_chans b))) end)) as Hs.
  { destruct (higher_peers b); [apply safe_becomeLeader|apply safe_start_task]. }
  destruct (Hs _ Hok) as (o & a & b' & E' & Hb').
  destruct (higher_peers b); rewrite E' in E; rewrite E; by eexists _, _, _.
Qed.

(** A notification of a held channel only writes the channels. *)
Lemma notify_run o b : elector_ok b → o = okChan b ∨ o = leaderCancelChan b →
  ∃ cs, notify o b = ([], Ret ((), set_chans cs b)) ∧ elector_ok (set_chans cs b).
Proof.
  intros (H1' & H2' & H3') Ho. destruct o as [c|]; [|by exists (b_chans b); destruct b].
  assert (ch_closed (chan c b) = false) as Hcl.
  { destruct Ho as [Ho|Ho]; [by eapply H1'|by eapply H2']. }
  unfold notify, try_send. erewrite bind_silent by reflexivity. rewrite Hcl.
  destruct (ch_full _); [by exists (b_chans b); destruct b|]. eexists. split; [done|].
  split_and!; [by apply open_chan_write..|exact H3'].
Qed.

Lemma safe_accept_coordinator from : safe (accept_coordinator from).
Proof.
  apply safe_bind; [apply safe_UpdatePeerRole|]. intros _.
  apply safe_get. intros b Hb. revert b Hb.
  assert (∀ l, safe (_ ← for_each l (λ peer,
        if negb (bool_decide (ni_ID peer = from)) && String.eqb (ni_Role peer) RoleMaster
        then node_do (nc_UpdatePeerRole (ni_ID peer) RoleStorage) else skip);
      b ← get; if String.eqb (nc_Role (b_node b)) RoleMaster then node_do (nc_SetRole RoleStorage) else skip)) as Hl;
    [|intros b Hb; by apply Hl].
  intros l. apply safe_bind.
  { apply safe_for. intros p. destruct (negb _ && _); [apply safe_UpdatePeerRole|apply safe_ret]. }
  intros _. apply safe_get. intros b Hb. destruct (String.eqb _ _); [by apply safe_SetRole|by apply (safe_ret ())].
Qed.

(** The announcement that a node accepts. *)
Lemma handleCoordinator_accept msg b : elector_ok b →
  negb (senderPriority (msg_From msg) (nc_Peers (b_node b)) =? -1) &&
    (senderPriority (msg_From msg) (nc_Peers (b_node b)) <? nc_Priority (b_node b)) = false →
  ∃ cs, handleCoordinator msg b = accept_coordinator (msg_From msg) (set_chans cs (set_inProgress false b)) ∧
    elector_ok (set_chans cs (set_inProgress false b)).
Proof.
  intros Hb Hc. unfold handleCoordinator. rewrite (bind_silent _ _ _ b b) by done. cbv zeta. rewrite Hc.
  set (b1 := set_inProgress false b). rewrite (bind_silent _ _ _ () b1) by done.
  destruct (notify_run (leaderCancelChan b) b1 Hb (or_intror eq_refl)) as (cs & E & Hb2).
  rewrite (bind_silent _ _ _ _ _ E).
  destruct (notify_run (okChan b) _ Hb2 (or_introl eq_refl)) as (cs' & E' & Hb3).
  rewrite (bind_silent _ _ _ _ _ E'). by exists cs'.
Qed.

Lemma safe_handleCoordinator msg : safe (handleCoordinator msg).
Proof.
  intros b Hb. destruct (negb (senderPriority (msg_From msg) (nc_Peers (b_node b)) =? -1) &&
    (senderPriority (msg_From msg) (nc_Peers (b_node b)) <? nc_Priority (b_node b))) eqn:Hc.
  - unfold handleCoordinator. rewrite (bind_silent _ _ _ b b) by done. cbv zeta. rewrite Hc.
    destruct (String.eqb _ _); [by apply (safe_broadcast _)|by apply (safe_ret ())].
  - destruct (handleCoordinator_accept msg b Hb Hc) as (cs & -> & Hb'). by apply safe_accept_coordinator.
Qed.

Lemma safe_handleElection msg : safe (handleElection msg).
Proof.
  unfold handleElection. destruct (Unmarshal_ok _ _) as [info|]; [|apply safe_ret].
  apply safe_get. intros b Hb. destruct (_ <? _); [|by apply (safe_ret ())].
  refine (safe_bind _ _ (safe_emit _) (λ _, _) b Hb).
  destruct (negb _ && negb _); [apply safe_start_task|apply safe_ret].
Qed.

Lemma safe_HandleMessage msg : safe (HandleMessage msg).
Proof.
  unfold HandleMessage. repeat case_match; [apply safe_handleElection| |apply safe_handleCoordinator|apply safe_ret].
  unfold handleOK. apply safe_get. intros b Hb. destruct (decide _); [by apply (safe_ret ())|].
  destruct (okChan b); [by apply safe_start_task|by apply (safe_ret ())].
Qed.

Lemma safe_monitor_tick now : safe (monitor_tick now).
Proof.
  apply safe_get. intros b Hb. destruct (List.find _ _); [|by apply (safe_ret ())].
  by refine (safe_bind _ _ (safe_RemovePeer _) (λ _, safe_StartElection _) b Hb).
Qed.

Lemma safe_monitor_notified now : safe (monitor_notified now).
Proof.
  apply safe_get. intros b Hb. destruct (coordinatorDeadChan b); [|by apply (safe_ret ())].
  refine (safe_bind _ _ (safe_modify _ _) (λ _, _) b Hb); [done|].
  exact (safe_bind _ _ (safe_RemovePeer _) (λ _, safe_StartElection _)).
Qed.

Lemma safe_resume_StartElection ok w : safe (resume_StartElection ok w).
Proof.
  destruct w; [|apply safe_becomeLeader|apply safe_election_done].
  exact (safe_bind _ _ (safe_receive _) (λ _, safe_clear_okChan)).
Qed.

Lemma safe_resume_becomeLeader c after_wait w : safe (resume_becomeLeader c after_wait w).
Proof.
  apply safe_bind; [destruct w; [apply safe_receive|apply safe_SetRole..]|]. intros _.
  apply safe_bind.
  - apply safe_modify. intros b (H1' & _). by split_and!.
  - intros _. destruct after_wait; [apply safe_clear_okChan|apply safe_election_done].
Qed.

(** ** The elector never panics but for one race *)

(** C26: Every step of the elector keeps its two held channels open and
    distinct, and returns: an election, a handler, the monitor's rounds and the
    resumption of every blocked call, in any order. The one exception is a
    handler of an OK that read the channel of an election, which the next
    election closes before the handler sends on it. *)
Theorem elector_panics_only_on_late_OK ev b : elector_ok b →
  (∃ o b', run_event ev b = (o, Ret ((), b')) ∧ elector_ok b') ∨
  (∃ now i c, ev = EvResume now i Received ∧ b_tasks b !! i = Some (SendingOK c) ∧
     ch_closed (chan c b) = true ∧ run_event ev b = ([], Panic "send on closed channel")).
Proof.
  intros Hb.
  assert (∀ m : M (), safe m → ∃ o b', m b = (o, Ret ((), b')) ∧ elector_ok b') as Hsafe.
  { intros m Hm. destruct (Hm b Hb) as (o & [] & b' & HH). by exists o, b'. }
  destruct ev as [now|msg|id|now|now|now i w]; simpl.
  - left. apply Hsafe, safe_StartElection.
  - left. apply Hsafe, safe_HandleMessage.
  - left. apply Hsafe, safe_modify. intros b' Hb'. by destruct (coordinatorDeadChan b').
  - left. apply Hsafe, safe_monitor_notified.
  - left. apply Hsafe, safe_monitor_tick.
  - rewrite (bind_silent _ _ _ b b) by done.
    destruct (b_tasks b !! i) as [t|] eqn:Et; [|left; by apply Hsafe, safe_ret].
    destruct (resumable t w b) eqn:Hr; [|left; by apply Hsafe, safe_ret].
    set (b1 := set_tasks (delete i (b_tasks b)) b).
    rewrite (bind_silent _ _ _ () b1) by done.
    assert (∀ m : M (), safe m → ∃ o b', m b1 = (o, Ret ((), b')) ∧ elector_ok b') as Hsafe1.
    { intros m Hm. destruct (Hm b1 Hb) as (o & [] & b' & HH). by exists o, b'. }
    destruct t as [ok|c aw|c|].
    + left. apply Hsafe1, safe_resume_StartElection.
    + left. apply Hsafe1, safe_resume_becomeLeader.
    + destruct w; try done. destruct (ch_closed (chan c b)) eqn:Hcl.
      * right. exists now, i, c. split_and!; try done.
        unfold try_send. rewrite (bind_silent _ _ _ b1 b1) by done.
        change (chan c b1) with (chan c b). by rewrite Hcl.
      * left. destruct (safe_try_send c b1 (conj Hb Hcl)) as (o & [] & b' & HH). by exists o, b'.
    + left. apply Hsafe1, safe_StartElection.
Qed.

(** ** Elections *)

Lemma becomeLeader_run after_wait b :
  becomeLeader_begin after_wait b =
    (sends (nc_Peers (b_node b)) (coordinator_msg b),
     Ret ((), set_tasks (b_tasks b ++ [WaitCancel (length (b_chans b)) after_wait])
                (set_leaderCancelChan (Some (length (b_chans b))) (set_chans (b_chans b ++ [make_chan]) b)))).
Proof.
  unfold becomeLeader_begin, new_chan. erewrite bind_silent by reflexivity.
  erewrite (bind_silent (modify _)) by reflexivity. erewrite (bind_silent (gets _)) by reflexivity.
  set (b1 := set_leaderCancelChan _ _).
  assert (node_do (nc_Broadcast (coordinator_msg b)) b1 = (sends (nc_Peers (b_node b)) (coordinator_msg b), Ret ((), b1))) as E.
  { unfold node_do, zoom. by rewrite nc_Broadcast_run. }
  rewrite <-(app_nil_r (sends _ _)). by refine (bind_run _ _ _ _ () _ _ _ E _).
Qed.

(** Resuming the last blocked call. *)
Lemma resume_last now w b ts t : b_tasks b = ts ++ [t] → resumable t w b = true →
  run_event (EvResume now (length ts) w) b =
    match t with
    | WaitOK ok => resume_StartElection ok w
    | WaitCancel c after_wait => resume_becomeLeader c after_wait w
    | SendingOK c => try_send c
    | Starting => StartElection now
    end (set_tasks ts b).
Proof.
  intros Et Hr. simpl. rewrite (bind_silent _ _ _ b b) by done.
  rewrite Et, lookup_app_r, Nat.sub_diag by lia. simpl. rewrite Hr.
  rewrite (bind_silent _ _ _ () (set_tasks ts b)); [done|].
  unfold take_task, modify. by rewrite Et, delete_middle, app_nil_r.
Qed.

Lemma run_one ev b : run_events [ev] b = run_event ev b.
Proof.
  simpl. unfold mbind, gom_bind. destruct (run_event ev b) as [o [[[] b']|w]]; simpl; by rewrite ?app_nil_r.
Qed.

(** The wait for a higher announcement runs out. *)
Lemma resume_leader_timeout now b ts c aw : b_tasks b = ts ++ [WaitCancel c aw] →
  ∃ o b', run_event (EvResume now (length ts) TimedOut) b = (o, Ret ((), b')) ∧
    nc_Role (b_node b') = RoleMaster ∧ electionInProgress b' = false ∧ leaderCancelChan b' = None ∧
    b_tasks b' = ts.
Proof.
  intros Et. rewrite (resume_last now TimedOut b ts _ Et eq_refl).
  destruct (nc_SetRole_run RoleMaster (b_node b)) as (o & n' & E & Hr & _).
  set (b1 := set_tasks ts b).
  assert (node_do (nc_SetRole RoleMaster) b1 = (o, Ret ((), set_node n' b1))) as E1.
  { unfold node_do, zoom. change (b_node b1) with (b_node b). by rewrite E. }
  exists o. destruct aw; eexists; (split; [refine (eq_trans (bind_run _ _ _ _ () _ [] _ E1 _) _);
    [by erewrite bind_silent by reflexivity|by rewrite app_nil_r]|done]).
Qed.

(** An election that nobody objects to makes the node the master. When no
    peer has a higher priority the node announces itself at once to all its
    peers and is the master when the wait for a higher announcement runs out;
    otherwise it first asks exactly the peers of higher priority, and does the
    same when the wait for an OK runs out. Then the election is over and no
    call stays blocked. *)
Theorem election_unopposed now t1 t2 b : elector_ok b → electionInProgress b = false →
  let k := length (b_tasks b) in
  ∃ o b', run_events (match higher_peers b with
                      | [] => [EvStart now; EvResume t2 k TimedOut]
                      | _ => [EvStart now; EvResume t1 k TimedOut; EvResume t2 k TimedOut]
                      end) b =
      (sends (higher_peers b) (election_msg now b) ++
       sends (nc_Peers (b_node b)) (coordinator_msg b) ++ o, Ret ((), b')) ∧
    nc_Role (b_node b') = RoleMaster ∧ electionInProgress b' = false ∧ leaderCancelChan b' = None ∧
    b_tasks b' = b_tasks b.
Proof.
  intros Hb Hp k. pose proof (StartElection_run now b Hb Hp) as E. cbv zeta in E.
  set (b1 := renewed (set_inProgress true b)) in *.
  destruct (higher_peers b) as [|p ps].
  - rewrite becomeLeader_run in E.
    destruct (resume_leader_timeout t2 (set_tasks (b_tasks b1 ++ [WaitCancel (length (b_chans b1)) false])
      (set_leaderCancelChan (Some (length (b_chans b1))) (set_chans (b_chans b1 ++ [make_chan]) b1)))
      (b_tasks b) _ _ eq_refl) as (o & b' & E2 & HH).
    exists o, b'. split; [|done]. exact (bind_run (StartElection now) _ b _ () _ _ _ E (eq_trans (run_one _ _) E2)).
  - set (b2 := set_tasks (b_tasks b ++ [WaitOK (length (b_chans b))]) b1).
    assert (StartElection now b = (sends (p :: ps) (election_msg now b), Ret ((), b2))) as E'.
    { rewrite E. by rewrite app_nil_r. }
    pose proof (resume_last t1 TimedOut b2 (b_tasks b) (WaitOK (length (b_chans b))) eq_refl eq_refl) as E3.
    cbn [resume_StartElection] in E3. rewrite becomeLeader_run in E3.
    set (b3 := set_tasks (b_tasks b) b2) in *.
    destruct (resume_leader_timeout t2 (set_tasks (b_tasks b3 ++ [WaitCancel (length (b_chans b3)) true])
      (set_leaderCancelChan (Some (length (b_chans b3))) (set_chans (b_chans b3 ++ [make_chan]) b3)))
      (b_tasks b) _ _ eq_refl) as (o & b' & E4 & HH).
    exists o, b'. split; [|done].
    exact (bind_run (StartElection now) _ b _ () _ _ _ E'
      (bind_run _ _ b2 _ () _ _ _ E3 (eq_trans (run_one _ _) E4))).
Qed.

(** A node that a peer of higher priority answers gives the election up:
    it has asked exactly the peers above it, its node is as before (its role
    with it), nothing of the election is left, and no coordinator is
    announced. *)
Theorem election_yields now t1 t2 msg b : elector_ok b → electionInProgress b = false →
  higher_peers b ≠ [] → msg_Type msg = MessageOK → msg_From msg ≠ nc_ID (b_node b) →
  let k := length (b_tasks b) in
  ∃ b', run_events [EvStart now; EvMessage msg; EvResume t1 (S k) Received; EvResume t2 k Received] b =
      (sends (higher_peers b) (election_msg now b), Ret ((), b')) ∧
    b_node b' = b_node b ∧ electionInProgress b' = false ∧ okChan b' = None ∧
    leaderCancelChan b' = leaderCancelChan b ∧ b_tasks b' = b_tasks b.
Proof.
  intros Hb Hp Hh Ht Hf k. pose proof (StartElection_run now b Hb Hp) as E. cbv zeta in E.
  destruct (renewed_ok (set_inProgress true b) Hb) as [_ Hnew].
  destruct (renewed_ok (set_inProgress true b) Hb) as [(Hopen & _) _].
  set (b1 := renewed (set_inProgress true b)) in *. set (c := length (b_chans b)) in *.
  change (length (b_chans (set_inProgress true b))) with c in Hnew.
  set (b2 := set_tasks (b_tasks b ++ [WaitOK c]) b1).
  assert (StartElection now b = (sends (higher_peers b) (election_msg now b), Ret ((), b2))) as E'.
  { destruct (higher_peers b) as [|p ps]; [done|]. etransitivity; [exact E|]. by rewrite app_nil_r. }
  set (b3 := set_tasks ((b_tasks b ++ [WaitOK c]) ++ [SendingOK c]) b2).
  assert (HandleMessage msg b2 = ([], Ret ((), b3))) as E2.
  { unfold HandleMessage. rewrite Ht. simpl. unfold handleOK. erewrite bind_silent by reflexivity.
    rewrite decide_False by done. reflexivity. }
  set (b4 := set_chans (<[c := mkChan true false]> (b_chans b1)) b2).
  assert (run_event (EvResume t1 (S k) Received) b3 = ([], Ret ((), b4))) as E3.
  { replace (S k) with (length (b_tasks b ++ [WaitOK c])) by (rewrite length_app; simpl; lia).
    rewrite (resume_last t1 Received b3 _ (SendingOK c) eq_refl eq_refl).
    unfold try_send. erewrite bind_silent by reflexivity.
    change (chan c (set_tasks (b_tasks b ++ [WaitOK c]) b3)) with (chan c b1). by rewrite Hnew. }
  destruct (Hopen c eq_refl) as [Hlen _].
  assert (chan c b4 = mkChan true false) as Hfull.
  { unfold chan, b4. simpl. by rewrite list_lookup_insert_eq. }
  eexists. split.
  { refine (eq_trans (bind_run (StartElection now) _ b _ () _ [] _ E' _) _); [|by rewrite app_nil_r].
    refine (bind_run (HandleMessage msg) _ b2 _ () _ [] _ E2 _).
    refine (bind_run _ _ b3 _ () _ [] _ E3 _). refine (eq_trans (run_one _ _) _).
    refine (eq_trans (resume_last t2 Received b4 (b_tasks b) (WaitOK c) eq_refl _) _);
      [simpl; unfold can_receive; by rewrite Hfull|].
    cbn [resume_StartElection]. unfold receive. erewrite bind_silent by reflexivity.
    unfold clear_okChan. erewrite bind_silent by reflexivity. reflexivity. }
  done.
Qed.

Lemma accept_coordinator_run from b : ∃ o b', accept_coordinator from b = (o, Ret ((), b')) ∧
  nc_Role (b_node b') = (if String.eqb (nc_Role (b_node b)) RoleMaster then RoleStorage else nc_Role (b_node b)) ∧
  electionInProgress b' = electionInProgress b ∧ b_tasks b' = b_tasks b ∧
  (nc_Role (b_node b) ≠ RoleMaster → o = []).
Proof.
  unfold accept_coordinator.
  assert (∀ id r (b0 : Elector N), ∃ n', node_do (nc_UpdatePeerRole id r) b0 = ([], Ret ((), set_node n' b0)) ∧
    nc_Role n' = nc_Role (b_node b0)) as Hupd.
  { intros id r b0. destruct (nc_Update_run id r (b_node b0)) as (n' & E & Hr & _). exists n'.
    split; [|done]. unfold node_do, zoom. by rewrite E. }
  destruct (Hupd from RoleMaster b) as (n1 & E1 & Hr1). rewrite (bind_silent _ _ _ _ _ E1).
  erewrite bind_silent by reflexivity.
  assert (∀ l (b0 : Elector N), ∃ n', for_each l (λ peer,
        if negb (bool_decide (ni_ID peer = from)) && String.eqb (ni_Role peer) RoleMaster
        then node_do (nc_UpdatePeerRole (ni_ID peer) RoleStorage) else skip) b0 = ([], Ret ((), set_node n' b0)) ∧
    nc_Role n' = nc_Role (b_node b0)) as Hfor.
  { intros l. induction l as [|p l IH]; intros b0; [by exists (b_node b0); destruct b0|]. cbn [for_each].
    destruct (negb _ && _).
    - destruct (Hupd (ni_ID p) RoleStorage b0) as (n' & E & Hr). rewrite (bind_silent _ _ _ _ _ E).
      destruct (IH (set_node n' b0)) as (n'' & E'' & Hr''). exists n''. rewrite E''. split; [done|]. by rewrite Hr''.
    - erewrite (bind_silent skip) by reflexivity. apply IH. }
  destruct (Hfor (nc_Peers (b_node (set_node n1 b))) (set_node n1 b)) as (n2 & E2 & Hr2).
  rewrite (bind_silent _ _ _ _ _ E2). erewrite bind_silent by reflexivity.
  cbn [b_node set_node] in *. rewrite Hr2, Hr1.
  destruct (String.eqb_spec (nc_Role (b_node b)) RoleMaster) as [Hm|Hm].
  - destruct (nc_SetRole_run RoleStorage n2) as (o & n3 & E3 & Hr3 & _). exists o, (set_node n3 b).
    split; [|by split_and!]. unfold node_do, zoom. cbn [b_node set_node]. by rewrite E3.
  - exists [], (set_node n2 b). split_and!; try done. simpl. congruence.
Qed.

(** An announcement from a known peer of lower priority changes nothing of
    the node and its election; a master answers it by announcing itself to
    all its peers. Any other announcement (from a peer of the same or a higher
    priority, or from a node that is not a peer) ends the election in
    progress, and a master steps down to storage; a node that is not the
    master keeps its role. *)
Theorem handleCoordinator_correct msg b : elector_ok b →
  let p := senderPriority (msg_From msg) (nc_Peers (b_node b)) in
  if negb (p =? -1) && (p <? nc_Priority (b_node b)) then
    handleCoordinator msg b =
      (if String.eqb (nc_Role (b_node b)) RoleMaster
       then sends (nc_Peers (b_node b)) (coordinator_msg b) else [], Ret ((), b))
  else
    ∃ o b', handleCoordinator msg b = (o, Ret ((), b')) ∧
      nc_Role (b_node b') = (if String.eqb (nc_Role (b_node b)) RoleMaster then RoleStorage else nc_Role (b_node b)) ∧
      electionInProgress b' = false ∧ b_tasks b' = b_tasks b.
Proof.
  intros Hb p. destruct (negb (p =? -1) && (p <? nc_Priority (b_node b))) eqn:Hc.
  - unfold handleCoordinator. rewrite (bind_silent _ _ _ b b) by done. cbv zeta. fold p. rewrite Hc.
    destruct (String.eqb _ _); [|done]. unfold node_do, zoom. rewrite nc_Broadcast_run. by destruct b.
  - destruct (handleCoordinator_accept msg b Hb Hc) as (cs & -> & _).
    destruct (accept_coordinator_run (msg_From msg) (set_chans cs (set_inProgress false b))) as (o & b' & E & Hr & Hi & Ht & _).
    exists o, b'. by split_and!.
Qed.
End elector.

(** ** Starting and stopping the elector *)

(** A monitor that was started goes on as long as the context does, until
    [Stop]; this ends it, also when it comes before [Start], and a second call
    panics. *)
Theorem monitor_stops m : mo_stopChan m = false →
  (∀ done, mo_ctx m = None → monitor_told done (elector_Start m) = done) ∧
  ∃ m', elector_Stop m = Ret m' ∧ (∀ done, monitor_told done m' = true ∧ monitor_told done (elector_Start m') = true) ∧
    elector_Stop m' = Panic "close of closed channel".
Proof.
  destruct m as [c st n]. simpl. intros ->. split; [by intros done_ ->|]. eexists. split; [done|]. by split.
Qed.
