(* ===== verification/Node.v ===== *)
(** * The whole node: [backend/dfs/node/node.go]

    A node with its elector: how it is made and started, how messages come in
    and are dispatched, and how it watches its peers. Here the node takes the
    place that the elector's interface [NodeCommunicator] leaves open. *)

From S2P Require Import Prelude GoStd Hashes Types Json Lamport HashRing Session Fs LocalStorage Protocol StreamServer NodeState NodeLocks NodeFiles Bully.

(** A node with its elector. *)
Abbreviation FullNode := (Elector Node).
Abbreviation FullM := (GoM (Elector Node) NAct).

Section full.
Context `{UuidText} `{TimeText} `{MapRange}.

Lemma GetPeers_set_Role r n : GetPeers (set_Role r n) = GetPeers n.
Proof. done. Qed.

Lemma SetRole_keeps r n : ∃ o n', SetRole r n = (o, Ret ((), n')) ∧ n_Role n' = r ∧ n_ID n' = n_ID n ∧
  n_Priority n' = n_Priority n ∧ GetPeers n' = GetPeers n.
Proof. rewrite SetRole_run. do 2 eexists. split; [done|]. by repeat case_decide. Qed.

(** The node is what its elector asks for. *)
#[export] Instance node_communicator : NodeCommunicator Node NAct := {|
  nc_ID := n_ID;
  nc_Priority := n_Priority;
  nc_Role := n_Role;
  nc_Info := GetNodeInfo;
  nc_Peers := GetPeers;
  nc_SetRole := SetRole;
  nc_UpdatePeerRole := UpdatePeerRole;
  nc_RemovePeer := RemovePeer;
  nc_Send := GoSend;
  nc_Broadcast := BroadcastMessage;
  nc_SetRole_run := SetRole_keeps;
  nc_Update_run := λ id r n, ex_intro _ _ (conj eq_refl (conj eq_refl (conj eq_refl eq_refl)));
  nc_Remove_run := λ id n, ex_intro _ _ (conj eq_refl (conj eq_refl (conj eq_refl eq_refl)));
  nc_Broadcast_run := BroadcastMessage_run;
  nc_Info_ok := λ now n, conj eq_refl eq_refl |}.

(** A method of the node that leaves the elector alone. *)
Definition on_node {A} (m : NodeM A) : FullM A := node_do m.

(** ** Making and starting a node *)

(** [CreateNodeWithBully] with the UUID it draws and the disk it finds. The
    role is still empty when [SetRole] is called. *)
Definition new_node (id : uuid) (d : Disk) (bindIP advertiseIP : string) (port priority : Z) : Node :=
  mkNode id bindIP advertiseIP port priority "" StatusStarting ∅ 0
    (mkLocks ∅ ∅ ∅ ∅) (mkMaster None None false None ∅)
    (SetUploadCompleteCallback (NewStreamServer (NewLocalStorage ("./data/node-" +:+ uuid_String id) d))) [].

Definition CreateNodeWithBully (id : uuid) (d : Disk) (bindIP advertiseIP : string) (port : Z)
    (role : NodeRole) (priority : Z) : list NAct * Res (() * FullNode) :=
  on_node (SetRole role) (NewBullyElector (new_node id d bindIP advertiseIP port priority)).

(** [Start], given whether the two listeners can be opened; [true] is a nil
    error. *)
Definition Start (listen_ok stream_ok : bool) : FullM bool :=
  if listen_ok then
    _ ← on_node (modify (set_Status StatusOnline));
    role ← gets (λ b, n_Role (b_node b));
    _ ← on_node (SetRole role);
    _ ← on_node (storage LoadIndex);
    mret stream_ok
  else mret false.

(** ** Incoming messages *)

Definition messageChan_capacity : nat := 100.

Definition enqueue_message (msg : Message) : FullM () :=
  on_node (modify (λ n, if (length (n_messageChan n) <? messageChan_capacity)%nat
                        then set_messageChan (n_messageChan n ++ [msg]) n else n)).

(** What [handleConnection] does with a message it has read, with the UUIDs
    its handler may draw: four types are answered on the connection, the others
    are queued. *)
Definition dispatch (now : Z) (newSession newReply : uuid) (msg : Message) : FullM () :=
  if String.eqb (msg_Type msg) MessageDiscovery then on_node (handleDiscoveryWithConnection now msg)
  else if String.eqb (msg_Type msg) MessageAPIFileDelete then on_node (handleAPIFileDelete msg)
  else if String.eqb (msg_Type msg) MessageStreamUploadInit then on_node (handleStreamUploadInit now newSession newReply msg)
  else if String.eqb (msg_Type msg) MessageStreamDownloadInit then on_node (handleStreamDownloadInit msg)
  else enqueue_message msg.

(** [handleConnection] with what the decoder read. *)
Definition handleConnection (now : Z) (newSession newReply : uuid) (received : option MessageWithTime) : FullM () :=
  match received with
  | None => skip
  | Some msgWithTime =>
    _ ← on_node (UpdateAndGetLogicalTime (mwt_LogicalTime msgWithTime));
    dispatch now newSession newReply (mwt_Message msgWithTime)
  end.

Definition processMessage (now : Z) (msg : Message) : FullM () :=
  let type_is t := String.eqb (msg_Type msg) t in
  if type_is MessageElection || type_is MessageOK || type_is MessageCoordinator then HandleMessage msg
  else if type_is MessageHeartbeat then on_node (handleHeartbeat now msg)
  else if type_is MessageDiscovery then on_node (handleDiscovery msg)
  else if type_is MessageNodeJoined then on_node (handleNodeJoined now msg)
  else if type_is MessageNodeLeft then on_node (handleNodeLeft msg)
  else if type_is MessageLockRequest then on_node (handleLockRequest msg)
  else if type_is MessageLockAck then on_node (handleLockAck msg)
  else if type_is MessageLockAcquired then on_node (handleLockAcquired msg)
  else if type_is MessageLockRelease then on_node (handleLockRelease msg)
  else if type_is MessageLockAbort then on_node (handleLockAbort msg)
  else if type_is MessageFileDelete then on_node (handleFileDelete msg)
  else if type_is MessageMetadataRequest then on_node (handleMetadataRequest msg)
  else if type_is MessageMetadataResponse then on_node (handleMetadataResponse msg)
  else if type_is MessageReplicateFile then on_node (handleReplicateFile msg)
  else if type_is MessageStreamStoreAck then on_node (handleStreamStoreAck msg)
  else if type_is MessageStreamUploadReady then on_node (handleStreamUploadReady now msg)
  else skip.

(** One round of the loop [handleMessages]. *)
Definition handleMessages (now : Z) : FullM () :=
  b ← get;
  match n_messageChan (b_node b) with
  | [] => skip
  | msg :: rest => _ ← on_node (modify (set_messageChan rest)); processMessage now msg
  end.

(** ** Watching the peers *)

Definition silent (now : Z) (peer : NodeInfo) : bool := 15 * Second <? now - ni_LastHeartbeat peer.

Definition checkPeersHealth (now : Z) : FullM () :=
  b ← get;
  for_each (go_range (n_peers (b_node b))) (λ '(id, peer),
    if silent now peer then
      _ ← (if String.eqb (ni_Role peer) RoleMaster then NotifyCoordinatorDead id else skip);
      on_node (RemovePeer id)
    else skip).
End full.

(** ** Helper lemmas *)
Section lemmas.
Context `{UuidText} `{TimeText} `{MapRange}.

(** Removing the silent peers, one after the other. *)
Lemma health_run now (l : list (uuid * NodeInfo)) (b : FullNode) :
  ∃ dead ps,
    for_each l (λ '(id, peer),
      if silent now peer then
        _ ← (if String.eqb (ni_Role peer) RoleMaster then NotifyCoordinatorDead id else skip);
        on_node (RemovePeer id)
      else skip) b = ([], Ret ((), set_coordinatorDead dead (set_node (set_peers ps (b_node b)) b))) ∧
    (∀ id p, ps !! id = Some p ↔
       n_peers (b_node b) !! id = Some p ∧ ∀ q, (id, q) ∈ l → silent now q = false) ∧
    dead = match coordinatorDeadChan b with
           | Some d => Some d
           | None => (λ x, x.1) <$> List.find (λ x, silent now x.2 && String.eqb (ni_Role x.2) RoleMaster) l
           end.
Proof.
  revert b. induction l as [|[id peer] l IH]; intros b.
  - exists (coordinatorDeadChan b), (n_peers (b_node b)). split_and!; [by destruct b as [[] ]|set_solver|].
    by destruct (coordinatorDeadChan b).
  - cbn [for_each List.find snd]. destruct (silent now peer) eqn:Es.
    + set (b1 := if String.eqb (ni_Role peer) RoleMaster
                 then match coordinatorDeadChan b with None => set_coordinatorDead (Some id) b | Some _ => b end else b).
      assert ((if String.eqb (ni_Role peer) RoleMaster then NotifyCoordinatorDead id else skip) b =
        ([], Ret ((), b1)) :> list NAct * _) as E1 by (unfold b1; by destruct (String.eqb _ _)).
      assert (b_node b1 = b_node b) as En.
      { unfold b1. by destruct (String.eqb _ _), (coordinatorDeadChan b). }
      set (b2 := set_node (set_peers (delete id (n_peers (b_node b))) (b_node b)) b1).
      destruct (IH b2) as (dead & ps & E & Hps & Hd). exists dead, ps. split_and!.
      * rewrite (bind_silent _ _ _ () b2).
        2: { rewrite (bind_silent _ _ _ _ _ E1). unfold on_node, node_do, zoom. simpl. by rewrite En. }
        rewrite E. do 3 f_equal. unfold b2, b1. by destruct (String.eqb _ _), (coordinatorDeadChan b).
      * intros i p. rewrite Hps. simpl. rewrite lookup_delete_Some. split.
        -- intros [[Hne Hp] Hl]. split; [done|]. intros q [[= -> ->]|Hq]%elem_of_cons; [done|auto].
        -- intros [Hp Hl]. split_and!; [|done|intros q Hq; apply Hl; by right].
           intros <-. specialize (Hl peer (list_elem_of_here _ _)). congruence.
      * rewrite Hd. simpl. unfold b1. destruct (String.eqb (ni_Role peer) RoleMaster); simpl;
          destruct (coordinatorDeadChan b) as [d|] eqn:Ec; simpl; rewrite ?Ec; done.
    + destruct (IH b) as (dead & ps & E & Hps & Hd). exists dead, ps. split_and!.
      * by rewrite (bind_silent _ _ _ () b) by done.
      * intros i p. rewrite Hps. split.
        -- intros [Hp Hl]. split; [done|]. intros q [[= -> ->]|Hq]%elem_of_cons; [done|auto].
        -- intros [Hp Hl]. split; [done|]. intros q Hq. apply Hl. by right.
      * exact Hd.
Qed.
End lemmas.

(** ** Properties *)
Section properties.
Context `{UuidText} `{TimeText} `{MapRange}.

(** A health check removes exactly the peers that have been silent for
    more than 15 s, and touches nothing else of the node (the hash ring keeps
    a removed storage node). The elector hears of a dead coordinator exactly
    when one of the removed peers is a master and no earlier notification is
    waiting, and then the identifier it gets is that of a silent master. *)
Theorem checkPeersHealth_correct now b :
  ∃ dead, checkPeersHealth now b =
      ([], Ret ((), set_coordinatorDead dead (set_node
        (set_peers (filter (λ x, silent now x.2 = false) (n_peers (b_node b))) (b_node b)) b))) ∧
    match coordinatorDeadChan b, dead with
    | Some d, _ => dead = Some d
    | None, Some id => ∃ p, n_peers (b_node b) !! id = Some p ∧ silent now p = true ∧ ni_Role p = RoleMaster
    | None, None => ∀ id p, n_peers (b_node b) !! id = Some p → silent now p = true → ni_Role p ≠ RoleMaster
    end.
Proof.
  destruct (health_run now (go_range (n_peers (b_node b))) b) as (dead & ps & E & Hps & Hd).
  exists dead. split.
  - unfold checkPeersHealth. rewrite (bind_silent _ _ _ b b) by done. rewrite E. do 6 f_equal.
    apply map_eq. intros i. apply option_eq. intros p. rewrite Hps, map_lookup_filter_Some.
    split.
    + intros [Hp Hl]. split; [done|]. by apply Hl, elem_of_go_range.
    + intros [Hp Hs]. split; [done|]. intros q Hq%elem_of_go_range. by simplify_eq.
  - rewrite Hd. destruct (coordinatorDeadChan b) as [d|]; [done|].
    destruct (List.find _ _) as [[id p]|] eqn:Ef; simpl.
    + apply find_some in Ef as [Hin [Hs Hr]%andb_prop]. exists p. split_and!; [|done|].
      * by apply elem_of_go_range, list_elem_of_In.
      * by apply String.eqb_eq.
    + intros id p Hp Hs Hr. apply elem_of_go_range, list_elem_of_In in Hp.
      pose proof (find_none _ _ Ef _ Hp) as Hn. simpl in Hn. by rewrite Hs, Hr in Hn.
Qed.

(** The clock stays below the largest machine integer. *)
Definition clock_ok (k : Z) (n : Node) : Prop := 0 ≤ n_logicalTime n ∧ n_logicalTime n + k ≤ maxInt.

Definition is_dial (a : NAct) : bool := match a with Dial _ => true | _ => false end.
Definition encoded (a : NAct) : option MessageWithTime := match a with Encode m => Some m | _ => None end.

Lemma Increment_run n : clock_ok 1 n →
  IncrementAndGetLogicalTime n = ([], Ret (n_logicalTime n + 1, set_logicalTime (n_logicalTime n + 1) n)).
Proof.
  intros [H1' H2']. unfold IncrementAndGetLogicalTime. erewrite bind_silent by reflexivity.
  unfold gets. simpl. by rewrite int64_id by (unfold in_int64, maxInt in *; lia).
Qed.

Lemma send_loop_spec i todo net ip port msg n : clock_ok (Z.of_nat todo) n →
  ∃ o ok n' j, send_loop i todo net ip port msg n = (o, Ret (ok, n')) ∧
    n' = set_logicalTime (n_logicalTime n + Z.of_nat j) n ∧ (j ≤ todo)%nat ∧
    (length (List.filter is_dial o) ≤ todo)%nat ∧
    omap encoded o = (if ok then [mkMessageWithTime msg (n_logicalTime n')] else []) ∧
    (if ok then (1 ≤ j)%nat else (length (List.filter is_dial o) = todo)%nat).
Proof.
  revert i net n. induction todo as [|todo IH]; intros i net n Hc.
  { exists [], false, n, 0%nat. simpl. split_and!; try lia; try done. rewrite Z.add_0_r. by destruct n. }
  cbn [send_loop]. set (a := match net with [] => Delivered | a :: _ => a end).
  assert (clock_ok 1 n) as H1' by (unfold clock_ok in *; lia).
  destruct a eqn:Ea.
  - assert (clock_ok (Z.of_nat todo) n) as H2' by (unfold clock_ok in *; lia).
    destruct (IH (S i) (tail net) n H2') as (o & ok & n' & j & E & Hn' & Hj & Hd & He & Hok).
    exists (Dial (addr_of ip port) :: Sleep (Z.of_nat (S i) * (500 * Millisecond)) :: o), ok, n', j.
    split_and!; [|done|lia|simpl; lia|done|destruct ok; simpl; lia].
    refine (bind_run _ _ _ [_] () n _ _ eq_refl _).
    by refine (bind_run _ _ _ [_] () n _ _ eq_refl _).
  - set (n1 := set_logicalTime (n_logicalTime n + 1) n).
    assert (clock_ok (Z.of_nat todo) n1) as H2' by (unfold clock_ok in *; simpl; lia).
    destruct (IH (S i) (tail net) n1 H2') as (o & ok & n' & j & E & Hn' & Hj & Hd & He & Hok).
    exists (Dial (addr_of ip port) :: o), ok, n', (S j).
    split_and!; [|subst n'; unfold n1, set_logicalTime; simpl; f_equal; lia|lia|simpl; lia|done|destruct ok; simpl; lia].
    refine (bind_run _ _ _ [_] () n _ _ eq_refl _).
    by rewrite (bind_silent _ _ _ _ _ (Increment_run n H1')).
  - set (n1 := set_logicalTime (n_logicalTime n + 1) n).
    exists [Dial (addr_of ip port); Encode (mkMessageWithTime msg (n_logicalTime n1))], true, n1, 1%nat.
    split_and!; [|done|lia|simpl; lia|done|lia].
    refine (bind_run _ _ _ [_] () n [_] _ eq_refl _).
    by rewrite (bind_silent _ _ _ _ _ (Increment_run n H1')).
Qed.

(** Sending tries at most three connections, whatever the network does. It
    succeeds exactly when the message went out, and then it went out once,
    stamped with the node's new time, which is later than any time the node
    had before; it gives up only after all three connections. Nothing of the
    node but its clock changes. *)
Theorem SendMessage_correct net ip port msg n : clock_ok 3 n →
  ∃ o ok n', SendMessage net ip port msg n = (o, Ret (ok, n')) ∧
    n' = set_logicalTime (n_logicalTime n') n ∧
    n_logicalTime n ≤ n_logicalTime n' ≤ n_logicalTime n + 3 ∧
    (length (List.filter is_dial o) ≤ 3)%nat ∧
    (ok = true → omap encoded o = [mkMessageWithTime msg (n_logicalTime n')] ∧ n_logicalTime n < n_logicalTime n') ∧
    (ok = false → omap encoded o = [] ∧ length (List.filter is_dial o) = 3%nat).
Proof.
  intros Hc. destruct (send_loop_spec 0 3 net ip port msg n Hc) as (o & ok & n' & j & E & Hn' & Hj & Hd & He & Hok).
  exists o, ok, n'. split_and!; [exact E|by subst n'|subst n'; simpl; lia|subst n'; simpl; lia|done| |].
  - intros ->. split; [done|]. subst n'. simpl. lia.
  - intros ->. done.
Qed.

Lemma Update_run t n : 0 ≤ n_logicalTime n < maxInt → t < maxInt →
  UpdateAndGetLogicalTime t n =
    ([], Ret (Z.max t (n_logicalTime n) + 1, set_logicalTime (Z.max t (n_logicalTime n) + 1) n)).
Proof.
  intros H1' H2'. unfold UpdateAndGetLogicalTime. erewrite bind_silent by reflexivity.
  unfold gets. simpl. by rewrite int64_id by (unfold in_int64, maxInt in *; lia).
Qed.

(** Lamport's clock condition across a message. The time a node stamps on
    a message is later than the sender's time before, and the receiver of the
    message, whatever its type, moves past the stamp and past its own time
    before it handles the message. *)
Theorem send_receive_clock net ip port msg m now newSession newReply n b :
  clock_ok 3 n → clock_ok 1 (b_node b) → n_logicalTime n + 3 < maxInt →
  Encode m ∈ outs_of (SendMessage net ip port msg n) →
  mwt_Message m = msg ∧ n_logicalTime n < mwt_LogicalTime m ∧
  ∃ t, mwt_LogicalTime m < t ∧ n_logicalTime (b_node b) < t ∧
    handleConnection now newSession newReply (Some m) b =
      dispatch now newSession newReply msg (set_node (set_logicalTime t (b_node b)) b).
Proof.
  intros Hn Hb Hlt Hin.
  destruct (send_loop_spec 0 3 net ip port msg n Hn) as (o & ok & n' & j & E & Hn' & Hj & _ & He & Hok).
  unfold SendMessage in Hin. rewrite E in Hin. simpl in Hin.
  assert (m ∈ omap encoded o) as Hm by (apply list_elem_of_omap; by eexists).
  rewrite He in Hm. destruct ok; [|by apply not_elem_of_nil in Hm].
  apply list_elem_of_singleton in Hm as ->. simpl. split; [done|].
  split; [subst n'; simpl; lia|].
  exists (Z.max (n_logicalTime n') (n_logicalTime (b_node b)) + 1). split_and!; [lia|lia|].
  rewrite (bind_silent _ _ b (Z.max (n_logicalTime n') (n_logicalTime (b_node b)) + 1)
    (set_node (set_logicalTime (Z.max (n_logicalTime n') (n_logicalTime (b_node b)) + 1) (b_node b)) b)); [done|].
  unfold on_node, node_do, zoom. rewrite Update_run; [done|unfold clock_ok in *; lia|subst n'; simpl; lia].
Qed.

(** ** Joining the cluster *)

(** Peers are filed under their own identifiers. *)
Definition keyed (n : Node) : Prop := ∀ id p, n_peers n !! id = Some p → ni_ID p = id.

Definition machine_info (p : NodeInfo) : Prop :=
  in_int64 (ni_Port p) = true ∧ in_int64 (ni_Priority p) = true.

(** What a seed tells a newcomer: its peers and itself. *)
Definition known (now : Z) (s : Node) : gmap uuid NodeInfo := <[n_ID s := GetNodeInfo now s]> (n_peers s).

Definition add_known (now : Z) (me : uuid) (ps : gmap uuid NodeInfo) (p : NodeInfo) : gmap uuid NodeInfo :=
  if decide (ni_ID p = me) then ps else <[ni_ID p := ni_set_LastHeartbeat now p]> ps.

Lemma add_known_run now me l n :
  for_each (Some <$> l) (λ peer : option NodeInfo,
    match peer with
    | None => panic "invalid memory address or nil pointer dereference"
    | Some peer => if decide (ni_ID peer = me) then skip else AddPeer now peer
    end) n = ([], Ret ((), set_peers (fold_left (add_known now me) l (n_peers n)) n)).
Proof.
  revert n. induction l as [|p l IH]; intros n; [by destruct n|]. csimpl.
  unfold add_known at 2. destruct (decide (ni_ID p = me)).
  - rewrite (bind_silent _ _ _ () n) by done. apply IH.
  - erewrite bind_silent by reflexivity. by rewrite IH.
Qed.

Lemma add_known_lookup now me (ps : gmap uuid NodeInfo) (l : list (uuid * NodeInfo)) id :
  NoDup l.*1 → (∀ k p, (k, p) ∈ l → ni_ID p = k) →
  fold_left (add_known now me) l.*2 ps !! id =
    if decide (id = me) then ps !! id
    else match (list_to_map l : gmap uuid NodeInfo) !! id with
         | Some p => Some (ni_set_LastHeartbeat now p)
         | None => ps !! id
         end.
Proof.
  revert ps. induction l as [|[k p] l IH]; intros ps Hnd Hk; [by case_decide|]. csimpl.
  apply NoDup_cons in Hnd as [Hni Hnd]. rewrite IH; [|done|set_solver].
  assert (ni_ID p = k) as Ep by (apply Hk; left). unfold add_known. rewrite Ep.
  destruct (decide (id = me)) as [->|Hne].
  - case_decide; [done|]. by rewrite lookup_insert_ne.
  - destruct (decide (id = k)) as [->|Hik].
    + rewrite lookup_insert_eq. rewrite not_elem_of_list_to_map_1 by done.
      rewrite decide_False by done. by rewrite lookup_insert_eq.
    + rewrite lookup_insert_ne by done. case_decide; [done|]. by rewrite lookup_insert_ne.
Qed.

(** The table of a newcomer that is told the peers of a seed and the seed. *)
Lemma newcomer_peers now now' (s n : Node) id : keyed s →
  fold_left (add_known now' (n_ID n)) (GetPeers s ++ [GetNodeInfo now s]) (n_peers n) !! id =
    if decide (id = n_ID n) then n_peers n !! id
    else match known now s !! id with
         | Some p => Some (ni_set_LastHeartbeat now' p)
         | None => n_peers n !! id
         end.
Proof.
  intros Hk. unfold GetPeers. rewrite fold_left_app. cbn [fold_left]. unfold add_known at 1.
  assert (∀ i, fold_left (add_known now' (n_ID n)) (go_range (n_peers s)).*2 (n_peers n) !! i =
    if decide (i = n_ID n) then n_peers n !! i
    else match n_peers s !! i with Some p => Some (ni_set_LastHeartbeat now' p) | None => n_peers n !! i end) as Hl.
  { intros i. rewrite add_known_lookup; [|apply NoDup_go_range_fst|].
    - assert ((list_to_map (go_range (n_peers s)) : gmap uuid NodeInfo) = n_peers s) as ->; [|done].
      rewrite <-(list_to_map_to_list (n_peers s)) at 2.
      apply list_to_map_proper; [apply NoDup_go_range_fst|apply go_range_perm].
    - intros k p Hp%elem_of_go_range. by apply Hk. }
  simpl. unfold known. destruct (decide (n_ID s = n_ID n)) as [Es|Es].
  - rewrite Hl. destruct (decide (id = n_ID n)) as [->|]; [done|]. by rewrite lookup_insert_ne by congruence.
  - destruct (decide (id = n_ID s)) as [->|Hid].
    + rewrite !lookup_insert_eq. by rewrite decide_False.
    + by rewrite !lookup_insert_ne.
Qed.

(** A node that joins through a seed learns the cluster: after the seed
    has answered its discovery request, its table holds, stamped with its own
    time, every peer of the seed and the seed itself (with the role, address
    and priority the seed has), never itself, and its other entries as they
    were; and it has announced itself to every peer of its new table. *)
Theorem discovery_correct now now' ip port s n :
  keyed s → Forall machine_info (GetNodeInfo now s :: GetPeers s) →
  ∃ m s', handleDiscoveryWithConnection now (mkMessage MessageDiscovery (n_ID n) uuid_Nil None) s =
      ([Encode m], Ret ((), s')) ∧ n_peers s' = n_peers s ∧
  ∃ o n', DiscoverPeers now' (SeedAnswers m) ip port n = (o, Ret (true, n')) ∧
    (∀ id, n_peers n' !! id =
       if decide (id = n_ID n) then n_peers n !! id
       else match known now s !! id with
            | Some p => Some (ni_set_LastHeartbeat now' p)
            | None => n_peers n !! id
            end) ∧
    ∀ id p, n_peers n' !! id = Some p →
      GoSend (ni_IP p) (ni_Port p) (mkMessage MessageNodeJoined (n_ID n) uuid_Nil
        (Some (NodeInfo_to_json (GetNodeInfo now' n)))) ∈ o.
Proof.
  intros Hk Hm. set (t := int64 (n_logicalTime s + 1)).
  set (peers := GetPeers s ++ [GetNodeInfo now s]).
  set (m := mkMessageWithTime (mkMessage MessageDiscovery (n_ID s) (n_ID n) (Some (NodeInfos_to_json peers))) t).
  exists m, (set_logicalTime t s). split_and!; [reflexivity|done|].
  assert (NodeInfos_of_json (NodeInfos_to_json peers) = (Some <$> peers, DOk)) as Ej.
  { apply NodeInfos_json. unfold peers. rewrite Forall_app, Forall_singleton. apply Forall_cons in Hm as [H1' H2'].
    by split. }
  set (t1 := int64 (n_logicalTime n + 1)). set (n1 := set_logicalTime t1 n).
  set (t2 := int64 (Z.max t t1 + 1)). set (n2 := set_logicalTime t2 n1).
  set (n3 := set_peers (fold_left (add_known now' (n_ID n)) peers (n_peers n2)) n2).
  set (join := mkMessage MessageNodeJoined (n_ID n) uuid_Nil (Some (NodeInfo_to_json (GetNodeInfo now' n)))).
  set (hello := mkMessageWithTime (mkMessage MessageDiscovery (n_ID n) uuid_Nil None) t1).
  exists (Dial (addr_of ip port) :: Encode hello :: to_all n3 join), n3. split_and!.
  - unfold DiscoverPeers.
    refine (bind_run _ _ _ [_] () n (Encode hello :: to_all n3 join) _ eq_refl _). cbv beta iota.
    rewrite (bind_silent _ _ _ t1 n1) by reflexivity.
    rewrite (bind_silent _ _ _ (n_ID n) n1) by reflexivity. cbv zeta beta.
    refine (bind_run _ _ _ [_] () n1 (to_all n3 join) _ eq_refl _).
    rewrite (bind_silent _ _ _ t2 n2) by reflexivity. unfold m. cbn [mwt_Message msg_Payload].
    unfold Unmarshal_ok. rewrite Ej.
    rewrite (bind_silent _ _ _ () n3); [|exact (add_known_run now' (n_ID n) peers n2)].
    rewrite <-(app_nil_r (to_all _ _)). refine (bind_run _ _ _ _ () n3 [] _ _ eq_refl).
    unfold announceJoin. rewrite (bind_silent _ _ _ n3 n3) by done. apply BroadcastMessage_run.
  - intros id. exact (newcomer_peers now now' s n id Hk).
  - intros id p Hp. apply list_elem_of_further, list_elem_of_further.
    apply list_elem_of_fmap. exists p. split; [done|].
    apply list_elem_of_fmap. exists (id, p). split; [done|]. by apply elem_of_go_range.
Qed.

(** ** Repairing replication *)

Definition store_message (n : Node) (meta : FileMetadata) (data : list byte) : Message :=
  mkMessage MessageFileStore (n_ID n) uuid_Nil
    (Some (FileStoreRequest_to_json (mkFileStoreRequest (fm_FileID meta) (fm_Filename meta)
             (fm_ContentType meta) (fm_Size meta) data))).

(** A replica asked to copy a file sends the whole file to exactly those
    targets it knows, but no node does anything with it: the dispatcher has no
    case for the message, so the copy is never stored. *)
Theorem replication_data_dropped msg request reader meta data n n1 n2 :
  Unmarshal_ok ReplicateFileRequest_of_json (msg_Payload msg) = Some request →
  storage (GetFile (rfr_Hash request)) n = ([], Ret (inr (reader, meta), n1)) →
  ReadAll reader n1 = ([], Ret (Some data, n2)) →
  handleReplicateFile msg n =
    (omap (λ t, (λ p, GoSend (ni_IP p) (ni_Port p) (store_message n2 meta data)) <$> n_peers n2 !! t)
       (rfr_TargetNodes request), Ret ((), n2)) ∧
  ∀ now b, processMessage now (store_message n2 meta data) b = ([], Ret ((), b)).
Proof.
  intros Hr Hg Hd. split; [|done]. unfold handleReplicateFile. rewrite Hr.
  rewrite (bind_silent _ _ _ _ _ Hg). rewrite (bind_silent _ _ _ _ _ Hd).
  rewrite (bind_silent _ _ _ n2 n2) by done. cbv zeta. fold (store_message n2 meta data).
  clear. induction (rfr_TargetNodes request) as [|t l IH]; [done|]. csimpl.
  unfold GetPeer. destruct (n_peers n2 !! t) as [p|] eqn:Et.
  - refine (bind_run _ _ _ [_] () n2 _ _ _ IH). erewrite bind_silent by reflexivity. by rewrite Et.
  - rewrite (bind_silent _ _ _ () n2); [exact IH|]. erewrite bind_silent by reflexivity. by rewrite Et.
Qed.
End properties.

(** ** Examples *)

#[local] Existing Instance decimal_uuids.
#[local] Existing Instance decimal_times.
#[local] Existing Instance canonical_range.

(** Node 1 of priority 10, with peer 2 of higher and peer 4 of lower priority. *)
Definition middle : FullNode :=
  NewBullyElector (NodeLocks.example_node 1 RoleStorage
    {[ 2%N := NodeLocks.example_peer 2 20; 4%N := NodeLocks.example_peer 4 5 ]} no_locks).

Definition election_from_4 : Message :=
  mkMessage MessageElection 4 uuid_Nil (Some (NodeInfo_to_json (NodeLocks.example_peer 4 5))).
Definition OK_from_2 : Message := mkMessage MessageOK 2 uuid_Nil None.
Definition coordinator_2 : Message := mkMessage MessageCoordinator 2 uuid_Nil None.

(** The send of a late OK can hit a closed channel. Two election messages
    from a lower node start two elections; the first one runs until the
    announcement of node 2 ends it; while the handler of an OK holds its
    channel, the second one starts and closes it; the handler's send then
    panics, and the node's process with it. *)
Theorem late_OK_panics :
  let before := [EvMessage election_from_4; EvMessage election_from_4; EvResume 0 0 Received;
                 EvMessage coordinator_2; EvMessage OK_from_2; EvResume 1 0 Received] in
  panics (run_events before middle) = false ∧
  (run_events (before ++ [EvResume 2 1 Received]) middle).2 = Panic "send on closed channel".
Proof. vm_compute. split; reflexivity. Qed.

(** An election that ends late makes the next one deaf. It clears the
    channel of its successor, so the OK of node 2, of higher priority, is
    dropped, and node 1 becomes the master although node 2 answered it. *)
Theorem stale_election_drops_OK :
  let evs := [EvMessage election_from_4; EvMessage election_from_4; EvResume 0 0 Received;
              EvMessage coordinator_2; EvResume 1 0 Received; EvResume 2 0 Received;
              EvMessage OK_from_2; EvResume 3 0 TimedOut; EvResume 4 0 TimedOut] in
  (λ b, n_Role (b_node b)) <$> state_of (run_events evs middle) = Some RoleMaster ∧
  nc_Priority (b_node middle) = 10 ∧ (ni_Priority <$> n_peers (b_node middle) !! 2%N) = Some 20.
Proof. vm_compute. split_and!; reflexivity. Qed.

Lemma new_elector_ok (n : Node) : elector_ok (NewBullyElector n).
Proof. by split_and!. Qed.

Lemma elector_panics_only_on_late_OK_witness :
  ∃ o b', run_event (EvStart 0) middle = (o, Ret ((), b')) ∧ elector_ok b'.
Proof.
  destruct (elector_panics_only_on_late_OK (EvStart 0) middle) as [Hr|(? & ? & ? & ? & _)];
    [apply new_elector_ok|exact Hr|discriminate].
Defined.

Lemma election_unopposed_witness :
  ∃ o b', run_events [EvStart 0; EvResume 3 0 TimedOut; EvResume 4 0 TimedOut] middle = (o, Ret ((), b')) ∧
    nc_Role (b_node b') = RoleMaster.
Proof.
  destruct (election_unopposed 0 3 4 middle (new_elector_ok _) eq_refl) as (o & b' & E & Hr & _).
  eexists _, b'. split; [exact E|exact Hr].
Defined.

Lemma election_yields_witness :
  ∃ o b', run_events [EvStart 0; EvMessage OK_from_2; EvResume 1 1 Received; EvResume 2 0 Received] middle =
      (o, Ret ((), b')) ∧ b_node b' = b_node middle.
Proof.
  destruct (election_yields 0 1 2 OK_from_2 middle (new_elector_ok _) eq_refl) as (b' & E & Hn & _);
    [vm_compute; discriminate|reflexivity|vm_compute; discriminate|].
  eexists _, b'. split; [exact E|exact Hn].
Defined.

Lemma handleCoordinator_correct_witness :
  ∃ o b', handleCoordinator coordinator_2 middle = (o, Ret ((), b')) ∧ electionInProgress b' = false.
Proof.
  destruct (handleCoordinator_correct coordinator_2 middle (new_elector_ok _)) as (o & b' & E & _ & Hi & _).
  exists o, b'. split; [exact E|exact Hi].
Defined.

Lemma middle_clock : clock_ok 3 (b_node middle).
Proof. split; vm_compute; discriminate. Qed.

Lemma SendMessage_correct_witness :
  ∃ o ok n', SendMessage [DialFails; EncodeFails] "10.0.0.2" 8000 OK_from_2 (b_node middle) = (o, Ret (ok, n')).
Proof.
  destruct (SendMessage_correct [DialFails; EncodeFails] "10.0.0.2" 8000 OK_from_2 (b_node middle) middle_clock)
    as (o & ok & n' & E & _). exists o, ok, n'. exact E.
Defined.

Lemma send_receive_clock_witness :
  ∃ t, 1 < t ∧ handleConnection 0 0 0 (Some (mkMessageWithTime OK_from_2 1)) middle =
    dispatch 0 0 0 OK_from_2 (set_node (set_logicalTime t (b_node middle)) middle).
Proof.
  destruct (send_receive_clock [] "10.0.0.2" 8000 OK_from_2 (mkMessageWithTime OK_from_2 1) 0 0 0
    (b_node middle) middle middle_clock) as (_ & _ & t & Ht & _ & E).
  - split; vm_compute; discriminate.
  - vm_compute. reflexivity.
  - vm_compute. right. left.
  - exists t. split; [exact Ht|exact E].
Defined.

Lemma discovery_correct_witness :
  ∃ m s' o n', handleDiscoveryWithConnection 5 (mkMessage MessageDiscovery 7 uuid_Nil None) (b_node middle) =
      ([Encode m], Ret ((), s')) ∧
    DiscoverPeers 6 (SeedAnswers m) "10.0.0.1" 8000 (NodeLocks.example_node 7 RoleStorage ∅ no_locks) =
      (o, Ret (true, n')).
Proof.
  destruct (discovery_correct 5 6 "10.0.0.1" 8000 (b_node middle) (NodeLocks.example_node 7 RoleStorage ∅ no_locks))
    as (m & s' & E & _ & o & n' & E' & _).
  - intros id p. simpl. intros [[<- <-]|[_ [<- <-]%lookup_singleton_Some]]%lookup_insert_Some; reflexivity.
  - repeat constructor.
  - exists m, s', o, n'. split; [exact E|exact E'].
Defined.

(** A storage node that holds a file and knows the peers 2 and 4. *)
Definition replica : Node :=
  set_streamServer (mkStreamServer ∅ (mkStore LocalStorage.example_base
      (Some {[ LocalStorage.example_hash := LocalStorage.example_md ]})
      (mkDisk LocalStorage.example_files LocalStorage.example_dirs [])) true) (b_node middle).

Definition replicate_to : ReplicateFileRequest :=
  mkReplicateFileRequest 7 "abc.txt" LocalStorage.example_hash 1 [4%N; 5%N].

Lemma replica_GetFile :
  storage (GetFile LocalStorage.example_hash) replica =
    ([], Ret (inr (RegularFile (Raw LocalStorage.example_bytes), LocalStorage.example_md), replica)).
Proof.
  unfold storage, zoom. cbn [replica n_streamServer set_streamServer sv_storage].
  rewrite (GetFile_run LocalStorage.example_base LocalStorage.example_hash _ _ LocalStorage.example_md
    (Raw LocalStorage.example_bytes)); [done|done|apply lookup_singleton_eq|vm_compute; reflexivity| |].
  - vm_compute. reflexivity.
  - vm_compute. reflexivity.
Qed.

Lemma replication_data_dropped_witness :
  ∃ msg, handleReplicateFile (mkMessage MessageReplicateFile 2 1
      (Some (ReplicateFileRequest_to_json replicate_to))) replica =
    ([GoSend "10.0.0.1" 8000 msg], Ret ((), replica)) ∧ processMessage 0 msg middle = ([], Ret ((), middle)).
Proof.
  destruct (replication_data_dropped (mkMessage MessageReplicateFile 2 1
    (Some (ReplicateFileRequest_to_json replicate_to))) replicate_to (RegularFile (Raw LocalStorage.example_bytes))
    LocalStorage.example_md LocalStorage.example_bytes replica replica replica)
    as [E Hdrop]; [by cbn [msg_Payload Unmarshal_ok]; rewrite ReplicateFileRequest_json|exact replica_GetFile|reflexivity|].
  eexists. split; [exact E|apply Hdrop].
Defined.
