(* ===== verification/LockSpec.v ===== *)
(** * What the distributed lock promises: Lamport's mutual exclusion

    The lock protocol of [backend/dfs/node/node.go] for one resource, reduced
    to what matters between nodes: clocks, queues of requests, collected
    acknowledgements, and a first-in first-out channel between every two nodes
    that may lose messages. [Cluster.v] proves that nodes that run the code
    implement it. *)

From stdpp Require Import functions.
From S2P Require Import Prelude GoStd Types.

(** ** Order of two elements of a list *)

Section before_in.
Context {A : Type}.

(** Somewhere in [l], [x] comes before [y]. *)
Definition precedes (x y : A) (l : list A) : Prop := sublist [x; y] l.

Lemma precedes_sub x y (l l' : list A) : sublist l' l → precedes x y l' → precedes x y l.
Proof. intros Hl Hp. unfold precedes in *. by etrans. Qed.

Lemma precedes_cons x y z l : precedes x y (z :: l) ↔ precedes x y l ∨ x = z ∧ y ∈ l.
Proof.
  unfold precedes. split.
  - intros Hs. inversion Hs; subst; [right|by left].
    split; [done|]. by apply singleton_sublist_l.
  - intros [Hs|[-> Hy]]; [by apply sublist_cons|]. by apply sublist_skip, singleton_sublist_l.
Qed.

Lemma precedes_snoc x y z l : precedes x y (l ++ [z]) ↔ precedes x y l ∨ y = z ∧ x ∈ l.
Proof.
  induction l as [|a l IH]; simpl.
  - unfold precedes. split.
    + intros Hs. by apply sublist_length in Hs as Hl; simpl in Hl; lia.
    + intros [Hs|[_ Hs]]; [by apply sublist_nil_r in Hs|by apply not_elem_of_nil in Hs].
  - rewrite !precedes_cons, IH, elem_of_app, list_elem_of_singleton, elem_of_cons. naive_solver.
Qed.
End before_in.

(** ** The protocol *)

(** A request: its logical time and its node. *)
Abbreviation areq := (Z * uuid)%type.

Inductive amsg := AReq (t : Z) | AAck | ARel.

#[export] Instance amsg_eq_dec : EqDecision amsg.
Proof. solve_decision. Defined.

(** A client of the lock: it has asked for the resource at a logical time, and
    it is inside the critical section. *)
Inductive phase := Idle | Waiting (t : Z) | Inside (t : Z).

Definition current (p : phase) : option Z :=
  match p with Idle => None | Waiting t | Inside t => Some t end.

Record LockState := mkLockState {
  a_clock : uuid → Z;
  a_phase : uuid → phase;
  a_queue : uuid → gset areq;
  a_acks : uuid → gset uuid;
  a_chan : uuid → uuid → list amsg }.

Section protocol.
(** The members of the cluster, and the order of requests. *)
Context (members : gset uuid) (before : areq → areq → Prop).

Definition set_chan (c : uuid → uuid → list amsg) (i j : uuid) (l : list amsg) : uuid → uuid → list amsg :=
  λ a b, if decide (a = i ∧ b = j) then l else c a b.

(** A message to all the other members. *)
Definition send_all (c : uuid → uuid → list amsg) (i : uuid) (m : amsg) : uuid → uuid → list amsg :=
  λ a b, if decide (a = i ∧ b ∈ members ∧ b ≠ i) then c a b ++ [m] else c a b.

Inductive lock_step : LockState → LockState → Prop :=
| step_request s i t :
    i ∈ members → a_phase s i = Idle → a_clock s i < t →
    lock_step s (mkLockState (<[i := t]> (a_clock s)) (<[i := Waiting t]> (a_phase s))
      (<[i := a_queue s i ∪ {[(t, i)]}]> (a_queue s)) (<[i := ∅]> (a_acks s)) (send_all (a_chan s) i (AReq t)))
| step_enter s i t :
    i ∈ members → a_phase s i = Waiting t →
    (∀ x, x ∈ a_queue s i → x ≠ (t, i) → before (t, i) x) →
    (∀ j, j ∈ members → j ≠ i → j ∈ a_acks s i) →
    lock_step s (mkLockState (a_clock s) (<[i := Inside t]> (a_phase s)) (a_queue s) (a_acks s) (a_chan s))
| step_release s i t :
    i ∈ members → a_phase s i = Inside t →
    lock_step s (mkLockState (a_clock s) (<[i := Idle]> (a_phase s))
      (<[i := a_queue s i ∖ {[(t, i)]}]> (a_queue s)) (<[i := ∅]> (a_acks s)) (send_all (a_chan s) i ARel))
| step_get_request s i j t c :
    i ∈ members → j ∈ members → i ≠ j → a_chan s i j = AReq t :: c → t ≤ a_clock s j →
    lock_step s (mkLockState (a_clock s) (a_phase s) (<[j := a_queue s j ∪ {[(t, i)]}]> (a_queue s)) (a_acks s)
      (set_chan (set_chan (a_chan s) i j c) j i (a_chan s j i ++ [AAck])))
| step_get_ack s i j c :
    i ∈ members → j ∈ members → i ≠ j → a_chan s i j = AAck :: c →
    lock_step s (mkLockState (a_clock s) (a_phase s) (a_queue s) (<[j := a_acks s j ∪ {[i]}]> (a_acks s))
      (set_chan (a_chan s) i j c))
| step_get_release s i j c q :
    i ∈ members → j ∈ members → i ≠ j → a_chan s i j = ARel :: c →
    (∀ t k, (t, k) ∈ q → (t, k) ∈ a_queue s j) → (∀ t k, k ≠ i → (t, k) ∈ a_queue s j → (t, k) ∈ q) →
    lock_step s (mkLockState (a_clock s) (a_phase s) (<[j := q]> (a_queue s)) (a_acks s)
      (set_chan (a_chan s) i j c))
| step_lose s i j c :
    sublist c (a_chan s i j) →
    lock_step s (mkLockState (a_clock s) (a_phase s) (a_queue s) (a_acks s) (set_chan (a_chan s) i j c))
| step_tick s i t :
    a_clock s i ≤ t →
    lock_step s (mkLockState (<[i := t]> (a_clock s)) (a_phase s) (a_queue s) (a_acks s) (a_chan s)).

(** ** The invariant *)

(** Node [j] has handled the current request of [i], and [i] knows or is going
    to know. *)
Definition handled (s : LockState) (i j : uuid) : Prop := j ∈ a_acks s i ∨ AAck ∈ a_chan s j i.

Record lock_inv (s : LockState) : Prop := mkLockInv {
  (** a requester has its own request, and only asks the members *)
  li_own : ∀ i t, current (a_phase s i) = Some t → (t, i) ∈ a_queue s i ∧ t ≤ a_clock s i;
  li_inside : ∀ i t, a_phase s i = Inside t → ∀ j, j ∈ members → j ≠ i → j ∈ a_acks s i;
  li_members : ∀ i j, handled s i j → j ∈ members ∧ i ≠ j;
  (** a channel holds the current request at most once, after any release *)
  li_request : ∀ i j t, i ≠ j → AReq t ∈ a_chan s i j →
    current (a_phase s i) = Some t ∧ i ∈ members ∧ j ∈ members;
  li_once : ∀ i j t, i ≠ j → ¬ precedes (AReq t) (AReq t) (a_chan s i j);
  li_release : ∀ i j t, i ≠ j → ¬ precedes (AReq t) ARel (a_chan s i j);
  (** an acknowledgement is for the current request and comes once *)
  li_handled : ∀ i j, handled s i j → ∃ t, current (a_phase s i) = Some t ∧ (t, i) ∈ a_queue s j ∧
    t ≤ a_clock s j ∧ AReq t ∉ a_chan s i j ∧ ARel ∉ a_chan s i j;
  li_ack_once : ∀ i j, i ≠ j → ¬ precedes AAck AAck (a_chan s j i);
  li_ack_or : ∀ i j, j ∈ a_acks s i → AAck ∉ a_chan s j i;
  (** an earlier request of [j] reaches [i] before [j]'s acknowledgement *)
  li_order : ∀ i j t t', i ≠ j → handled s i j → current (a_phase s i) = Some t → current (a_phase s j) = Some t' →
    before (t', j) (t, i) → AReq t' ∈ a_chan s j i → j ∉ a_acks s i ∧ ¬ precedes AAck (AReq t') (a_chan s j i);
  (** whoever is inside precedes every request that can still be answered *)
  li_first : ∀ i j t t', i ≠ j → a_phase s i = Inside t → current (a_phase s j) = Some t' →
    handled s j i ∨ AReq t' ∈ a_chan s j i → before (t, i) (t', j) }.

(** ** Helper lemmas *)

Context (before_time : ∀ t t' i j, t < t' → before (t, i) (t', j))
  (before_asym : ∀ x y, before x y → ¬ before y x)
  (before_total : ∀ x y, x ≠ y → before x y ∨ before y x).

Lemma idle_not_handled s i j : lock_inv s → a_phase s i = Idle → ¬ handled s i j.
Proof. intros Hi Hp Hh. apply (li_handled _ Hi) in Hh as (t & Ht & _). by rewrite Hp in Ht. Qed.

Lemma handled_self s i : lock_inv s → ¬ handled s i i.
Proof. intros Hi Hh. by apply (li_members _ Hi) in Hh as [_ ?]. Qed.

(** Less on the channels, later clocks, other members' queues that only lose
    what is neither current nor handled. *)
Lemma inv_weaken s s' : lock_inv s →
  (∀ i, a_phase s' i = a_phase s i) → (∀ i, a_acks s' i = a_acks s i) →
  (∀ i, a_clock s i ≤ a_clock s' i) → (∀ i j, sublist (a_chan s' i j) (a_chan s i j)) →
  (∀ i j t, i = j ∨ handled s i j → current (a_phase s i) = Some t → (t, i) ∈ a_queue s j → (t, i) ∈ a_queue s' j) →
  lock_inv s'.
Proof.
  intros Hi Ep Ea Hc Hs Hq.
  assert (∀ m i j, m ∈ a_chan s' i j → m ∈ a_chan s i j) as Hin
    by (intros m i j Hm; by eapply elem_of_sublist; eauto).
  assert (∀ x y i j, precedes x y (a_chan s' i j) → precedes x y (a_chan s i j)) as Hpr
    by (intros x y i j; by apply precedes_sub).
  assert (∀ i j, handled s' i j → handled s i j) as Hh.
  { intros i j [Hh|Hh]; [left; by rewrite <-Ea|right; by apply Hin]. }
  split; intros i; rewrite ?Ep, ?Ea.
  - intros t Ht. destruct (li_own _ Hi i t Ht). split; [by eapply Hq; eauto|]. etrans; eauto.
  - apply (li_inside _ Hi).
  - intros j ?. by apply (li_members _ Hi), Hh.
  - intros j t ? ?. eapply (li_request _ Hi); eauto.
  - intros j t ? ?. by eapply (li_once _ Hi); eauto.
  - intros j t ? ?. by eapply (li_release _ Hi); eauto.
  - intros j Hij%Hh. destruct (li_handled _ Hi i j Hij) as (t & ? & ? & ? & ? & ?). exists t.
    split_and!; [done|by eapply Hq; eauto|etrans; eauto|by intros ?%Hin|by intros ?%Hin].
  - intros j ? ?. by eapply (li_ack_once _ Hi); eauto.
  - intros j ? ?. by eapply (li_ack_or _ Hi); eauto.
  - intros j t t'. rewrite Ep. intros ? ? ? ? ? ?. destruct (li_order _ Hi i j t t'); eauto.
  - intros j t t'. rewrite Ep. intros ? ? ? Hor. eapply (li_first _ Hi); eauto. destruct Hor; eauto.
Qed.

(** States that agree everywhere. *)
Definition same (s s' : LockState) : Prop :=
  (∀ i, a_clock s i = a_clock s' i) ∧ (∀ i, a_phase s i = a_phase s' i) ∧
  (∀ i x, x ∈ a_queue s i ↔ x ∈ a_queue s' i) ∧ (∀ i, a_acks s i = a_acks s' i) ∧
  (∀ i j, a_chan s i j = a_chan s' i j).

Lemma inv_same s s' : same s s' → lock_inv s → lock_inv s'.
Proof.
  intros (Ec & Ep & Eq & Ea & Eh) Hi. apply (inv_weaken s); try done.
  - intros i. by rewrite Ec.
  - intros i j. by rewrite Eh.
  - intros i j t _ _. by rewrite Eq.
Qed.

Lemma set_chan_case (c : uuid → uuid → list amsg) i j l a b :
  (a = i ∧ b = j ∧ set_chan c i j l a b = l) ∨ (¬ (a = i ∧ b = j) ∧ set_chan c i j l a b = c a b).
Proof. unfold set_chan. case_decide; naive_solver. Qed.

Lemma send_all_case (c : uuid → uuid → list amsg) i m a b :
  (a = i ∧ b ∈ members ∧ b ≠ i ∧ send_all c i m a b = c a b ++ [m]) ∨
  (¬ (a = i ∧ b ∈ members ∧ b ≠ i) ∧ send_all c i m a b = c a b).
Proof. unfold send_all. case_decide; naive_solver. Qed.

Lemma chan_head_sub (c c' : list amsg) m : c = m :: c' → sublist c' c.
Proof. intros ->. by apply sublist_cons. Qed.

Lemma set_chan_sub s i j c : sublist c (a_chan s i j) →
  ∀ a b, sublist (set_chan (a_chan s) i j c a b) (a_chan s a b).
Proof. intros Hc a b. by destruct (set_chan_case (a_chan s) i j c a b) as [(-> & -> & ->)|[_ ->]]. Qed.

(** One case per step. *)

Lemma inv_request s i t : lock_inv s → i ∈ members → a_phase s i = Idle → a_clock s i < t →
  lock_inv (mkLockState (<[i := t]> (a_clock s)) (<[i := Waiting t]> (a_phase s))
      (<[i := a_queue s i ∪ {[(t, i)]}]> (a_queue s)) (<[i := ∅]> (a_acks s)) (send_all (a_chan s) i (AReq t))).
Proof.
  intros Hi Hm Hp Hc. set (s' := mkLockState _ _ _ _ _).
  assert (∀ j t0, i ≠ j → AReq t0 ∉ a_chan s i j) as Hnone.
  { intros j t0 Hij Hr. apply (li_request _ Hi) in Hr as [Hr _]; [|done]. by rewrite Hp in Hr. }
  assert (∀ a, a ≠ i → current (a_phase s' a) = current (a_phase s a)) as Hcur
    by (intros a Ha; simpl; by rewrite fn_lookup_insert_ne).
  assert (∀ a b, AAck ∈ a_chan s' a b → AAck ∈ a_chan s a b) as Hack.
  { intros a b. simpl. destruct (send_all_case (a_chan s) i (AReq t) a b) as [(-> & _ & _ & ->)|[_ ->]]; [|done].
    rewrite elem_of_app, list_elem_of_singleton. by intros [|]. }
  assert (∀ a b, handled s' a b → a ≠ i ∧ handled s a b) as Hh.
  { intros a b Hh. assert (handled s a b) as Hh'.
    { destruct Hh as [Hh|Hh]; [|right; by apply Hack]. simpl in Hh. destruct (decide (a = i)) as [->|Ha].
      - rewrite fn_lookup_insert in Hh. set_solver.
      - rewrite fn_lookup_insert_ne in Hh by done. by left. }
    split; [|done]. intros ->. by eapply idle_not_handled. }
  assert (∀ a, a_clock s a ≤ a_clock s' a) as Hclk.
  { intros a. simpl. destruct (decide (a = i)) as [->|]; rewrite ?fn_lookup_insert, ?fn_lookup_insert_ne by done; lia. }
  assert (∀ a x, x ∈ a_queue s a → x ∈ a_queue s' a) as Hq.
  { intros a x. simpl. destruct (decide (a = i)) as [->|]; rewrite ?fn_lookup_insert, ?fn_lookup_insert_ne by done; set_solver. }
  assert (∀ a t0, a_phase s' a = Inside t0 → a ≠ i ∧ a_phase s a = Inside t0) as Hins.
  { intros a t0. simpl. destruct (decide (a = i)) as [->|]; rewrite ?fn_lookup_insert, ?fn_lookup_insert_ne by done; done. }
  split.
  - intros a t0 Ht. destruct (decide (a = i)) as [->|Ha].
    + simpl in Ht |- *. rewrite fn_lookup_insert in Ht. rewrite !fn_lookup_insert. injection Ht as <-. set_solver by lia.
    + rewrite Hcur in Ht by done. destruct (li_own _ Hi _ _ Ht). split; [by apply Hq|]. etrans; eauto.
  - intros a t0 [Ha Ht]%Hins j Hj Hne. simpl. rewrite fn_lookup_insert_ne by done. by eapply li_inside.
  - intros a b [_ Hab]%Hh. by apply (li_members _ Hi).
  - intros a b t0 Hab. simpl. destruct (send_all_case (a_chan s) i (AReq t) a b) as [(-> & Hb & _ & ->)|[Hne ->]].
    + rewrite elem_of_app, list_elem_of_singleton. intros [Hr|[= ->]]; [by apply Hnone in Hr|].
      by rewrite fn_lookup_insert.
    + intros Hr. apply (li_request _ Hi) in Hr as [Hr ?]; [|done].
      assert (a ≠ i) by (intros ->; by rewrite Hp in Hr). by rewrite fn_lookup_insert_ne.
  - intros a b t0 Hab. simpl. destruct (send_all_case (a_chan s) i (AReq t) a b) as [(-> & _ & _ & ->)|[_ ->]];
      [|by apply (li_once _ Hi)].
    rewrite precedes_snoc. intros [Hr|[_ Hr]]; [by apply (li_once _ Hi) in Hr|by apply Hnone in Hr].
  - intros a b t0 Hab. simpl. destruct (send_all_case (a_chan s) i (AReq t) a b) as [(-> & _ & _ & ->)|[_ ->]];
      [|by apply (li_release _ Hi)].
    rewrite precedes_snoc. intros [Hr|[Hr _]]; [by apply (li_release _ Hi) in Hr|done].
  - intros a b [Ha Hab]%Hh. destruct (li_handled _ Hi a b Hab) as (t0 & ? & ? & ? & ? & ?).
    exists t0. rewrite Hcur by done. split_and!; [done|by apply Hq|etrans; eauto|..]; simpl;
      destruct (send_all_case (a_chan s) i (AReq t) a b) as [(? & _)|[_ ->]]; done.
  - intros a b Hab. simpl. destruct (send_all_case (a_chan s) i (AReq t) b a) as [(-> & _ & _ & ->)|[_ ->]];
      [|by apply (li_ack_once _ Hi)].
    rewrite precedes_snoc. intros [Hr|[Hr _]]; [by apply (li_ack_once _ Hi) in Hr|done].
  - intros a b Hb Hr%Hack. destruct (Hh a b (or_introl Hb)) as [Ha _]. simpl in Hb.
    rewrite fn_lookup_insert_ne in Hb by done. by eapply (li_ack_or _ Hi).
  - intros a b t0 t' Hab [Ha Hh']%Hh Ht0 Ht' Hlt Hr. rewrite Hcur in Ht0 by done. destruct (decide (b = i)) as [->|Hb].
    + destruct (li_handled _ Hi a i Hh') as (t1 & Ht1 & _ & Hle & _). simpl in Ht'. rewrite fn_lookup_insert in Ht'.
      simplify_eq/=. exfalso. apply (before_asym _ _ Hlt), before_time. lia.
    + rewrite Hcur in Ht' by done. simpl in *. rewrite fn_lookup_insert_ne by done.
      destruct (send_all_case (a_chan s) i (AReq t) b a) as [(? & _)|[_ E]]; [done|]. rewrite E in *.
      by apply (li_order _ Hi a b t0 t').
  - intros a b t0 t' Hab [Ha Hin]%Hins Ht' Hor. destruct (decide (b = i)) as [->|Hb].
    + simpl in Ht'. rewrite fn_lookup_insert in Ht'. injection Ht' as <-.
      assert (handled s a i) as Hh' by (left; by eapply li_inside; eauto).
      destruct (li_handled _ Hi a i Hh') as (t1 & Ht1 & _ & Hle & _). rewrite Hin in Ht1. simplify_eq/=.
      apply before_time. lia.
    + rewrite Hcur in Ht' by done. eapply (li_first _ Hi); eauto. destruct Hor as [Hor|Hor]; [left; by apply Hh|right].
      simpl in Hor. by destruct (send_all_case (a_chan s) i (AReq t) b a) as [(? & _)|[_ E]]; [|rewrite E in Hor].
Qed.

Lemma inv_enters s i t : lock_inv s → i ∈ members → a_phase s i = Waiting t →
  (∀ x, x ∈ a_queue s i → x ≠ (t, i) → before (t, i) x) → (∀ j, j ∈ members → j ≠ i → j ∈ a_acks s i) →
  lock_inv (mkLockState (a_clock s) (<[i := Inside t]> (a_phase s)) (a_queue s) (a_acks s) (a_chan s)).
Proof.
  intros Hi Hm Hp Hmin Hall. set (s' := mkLockState _ _ _ _ _).
  assert (∀ a, current (a_phase s' a) = current (a_phase s a)) as Hcur.
  { intros a. simpl. destruct (decide (a = i)) as [->|]; [|by rewrite fn_lookup_insert_ne].
    by rewrite fn_lookup_insert, Hp. }
  split; intros a; rewrite ?Hcur; try apply (li_own _ Hi); try apply (li_request _ Hi); try apply (li_once _ Hi);
    try apply (li_release _ Hi); try apply (li_handled _ Hi); try apply (li_ack_once _ Hi); try apply (li_ack_or _ Hi);
    try apply (li_members _ Hi).
  - intros t0. simpl. destruct (decide (a = i)) as [->|]; [intros _; exact Hall|].
    rewrite fn_lookup_insert_ne by done. apply (li_inside _ Hi).
  - intros b t0 t' Hab Hh. rewrite !Hcur. by apply (li_order _ Hi a b t0 t').
  - intros b t0 t' Hab. rewrite Hcur. simpl. destruct (decide (a = i)) as [->|].
    2: { rewrite fn_lookup_insert_ne by done. by apply (li_first _ Hi). }
    rewrite fn_lookup_insert. intros [= <-] Hb [Hh|Hr].
    + destruct (li_handled _ Hi b i Hh) as (t1 & Ht1 & Hq & _). simplify_eq. apply Hmin; [done|congruence].
    + destruct (li_request _ Hi b i t' (not_eq_sym Hab) Hr) as (_ & Hbm & _).
      assert (b ∈ a_acks s i) as Hba by (by apply Hall).
      destruct (before_total (t', b) (t, i)) as [Hlt|]; [congruence| |done].
      destruct (li_order _ Hi i b t t' Hab (or_introl Hba)) as [Hn _]; try done. by rewrite Hp.
Qed.

(** When a node is inside, nothing of its current request is on the way. *)
Lemma inside_quiet s i t j : lock_inv s → a_phase s i = Inside t → i ≠ j →
  (∀ t', AReq t' ∉ a_chan s i j) ∧ ¬ (handled s i j ∧ AAck ∈ a_chan s j i).
Proof.
  intros Hi Hp Hij. split.
  - intros t' Hr. destruct (li_request _ Hi i j t' Hij Hr) as (Ht & _ & Hj). rewrite Hp in Ht. injection Ht as <-.
    destruct (li_handled _ Hi i j) as (t1 & Ht1 & _ & _ & Hn & _); [left; by eapply li_inside; eauto|].
    rewrite Hp in Ht1. by injection Ht1 as <-.
  - intros [Hh Ha]. apply (li_members _ Hi) in Hh as [Hj _].
    eapply (li_ack_or _ Hi i j); [by eapply li_inside; eauto|done].
Qed.

Lemma inv_release s i t : lock_inv s → i ∈ members → a_phase s i = Inside t →
  lock_inv (mkLockState (a_clock s) (<[i := Idle]> (a_phase s))
      (<[i := a_queue s i ∖ {[(t, i)]}]> (a_queue s)) (<[i := ∅]> (a_acks s)) (send_all (a_chan s) i ARel)).
Proof.
  intros Hi Hm Hp. set (s' := mkLockState _ _ _ _ _).
  assert (∀ a t0, current (a_phase s' a) = Some t0 → a ≠ i ∧ current (a_phase s a) = Some t0) as Hcur.
  { intros a t0. simpl. destruct (decide (a = i)) as [->|]; [by rewrite fn_lookup_insert|by rewrite fn_lookup_insert_ne]. }
  assert (∀ a b m, m ≠ ARel → m ∈ a_chan s' a b → m ∈ a_chan s a b) as Hin.
  { intros a b m Hne. simpl. destruct (send_all_case (a_chan s) i ARel a b) as [(-> & _ & _ & ->)|[_ ->]]; [|done].
    rewrite elem_of_app, list_elem_of_singleton. by intros [|]. }
  assert (∀ a b x y, y ≠ ARel → precedes x y (a_chan s' a b) → precedes x y (a_chan s a b)) as Hpr.
  { intros a b x y Hne. simpl. destruct (send_all_case (a_chan s) i ARel a b) as [(-> & _ & _ & ->)|[_ ->]]; [|done].
    rewrite precedes_snoc. by intros [|[? _]]. }
  assert (∀ a b, handled s' a b → a ≠ i ∧ handled s a b) as Hh.
  { intros a b Hh. destruct (decide (a = i)) as [->|Ha].
    - exfalso. destruct Hh as [Hh|Hh%Hin]; [simpl in Hh; rewrite fn_lookup_insert in Hh; set_solver| |done].
      assert (handled s i b) as Hib by (by right). destruct (li_members _ Hi _ _ Hib) as [_ Hne].
      by apply (inside_quiet s i t b Hi Hp Hne).
    - split; [done|]. destruct Hh as [Hh|Hh]; [left|right; by apply Hin].
      simpl in Hh. by rewrite fn_lookup_insert_ne in Hh. }
  assert (∀ b x, x ≠ (t, i) → x ∈ a_queue s b → x ∈ a_queue s' b) as Hq.
  { intros b x Hne Hx. simpl. destruct (decide (b = i)) as [->|];
      rewrite ?fn_lookup_insert, ?fn_lookup_insert_ne by done; set_solver. }
  split.
  - intros a t0 [Ha Ht]%Hcur. destruct (li_own _ Hi a t0 Ht). split; [|done]. apply Hq; [congruence|done].
  - intros a t0. simpl. destruct (decide (a = i)) as [->|]; [by rewrite fn_lookup_insert|].
    rewrite !fn_lookup_insert_ne by done. apply (li_inside _ Hi).
  - intros a b [_ Hab]%Hh. by apply (li_members _ Hi).
  - intros a b t0 Hab Hr. apply Hin in Hr; [|done].
    assert (a ≠ i) by (intros ->; by apply (inside_quiet s i t b Hi Hp Hab) in Hr).
    apply (li_request _ Hi) in Hr as [? ?]; [|done]. simpl. by rewrite fn_lookup_insert_ne.
  - intros a b t0 Hab Hr. apply Hpr in Hr; [|done]. by apply (li_once _ Hi) in Hr.
  - intros a b t0 Hab. simpl. destruct (send_all_case (a_chan s) i ARel a b) as [(-> & _ & _ & ->)|[_ ->]];
      [|by apply (li_release _ Hi)].
    rewrite precedes_snoc. intros [Hr|[_ Hr]]; [by apply (li_release _ Hi) in Hr|].
    by apply (inside_quiet s i t b Hi Hp Hab) in Hr.
  - intros a b [Ha Hab]%Hh. destruct (li_handled _ Hi a b Hab) as (t0 & ? & ? & ? & Hr & ?).
    exists t0. simpl. rewrite fn_lookup_insert_ne by done. split_and!; [done|apply Hq; [congruence|done]|done|..];
      destruct (send_all_case (a_chan s) i ARel a b) as [(? & _)|[_ ->]]; done.
  - intros a b Hab Hr. apply Hpr in Hr; [|done]. by apply (li_ack_once _ Hi) in Hr.
  - intros a b Hb Hr%Hin; [|done]. simpl in Hb. destruct (decide (a = i)) as [->|];
      [rewrite fn_lookup_insert in Hb; set_solver|]. rewrite fn_lookup_insert_ne in Hb by done.
    by eapply (li_ack_or _ Hi).
  - intros a b t0 t' Hab [Ha Hh']%Hh [_ Ht0]%Hcur [Hb Ht']%Hcur Hlt Hr. apply Hin in Hr; [|done].
    destruct (li_order _ Hi a b t0 t') as [Hn1 Hn2]; try done. simpl. rewrite fn_lookup_insert_ne by done.
    split; [done|]. intros Hr'. apply Hpr in Hr'; done.
  - intros a b t0 t' Hab Hin' [Hb Ht']%Hcur Hor. destruct (decide (a = i)) as [->|];
      [simpl in Hin'; by rewrite fn_lookup_insert in Hin'|]. simpl in Hin'. rewrite fn_lookup_insert_ne in Hin' by done.
    eapply (li_first _ Hi); eauto. destruct Hor as [Hor|Hor]; [left; by apply Hh|right; by apply Hin].
Qed.

Lemma inv_get_request s i j t c : lock_inv s → i ∈ members → j ∈ members → i ≠ j →
  a_chan s i j = AReq t :: c → t ≤ a_clock s j →
  lock_inv (mkLockState (a_clock s) (a_phase s) (<[j := a_queue s j ∪ {[(t, i)]}]> (a_queue s)) (a_acks s)
      (set_chan (set_chan (a_chan s) i j c) j i (a_chan s j i ++ [AAck]))).
Proof.
  intros Hi Him Hjm Hij Ec Hclk. set (s' := mkLockState _ _ _ _ _).
  assert (current (a_phase s i) = Some t) as Hcur.
  { apply (li_request _ Hi i j t Hij). rewrite Ec. left. }
  assert (¬ handled s i j) as Hno.
  { intros (t1 & Ht1 & _ & _ & Hn & _)%(li_handled _ Hi). rewrite Hcur in Ht1. injection Ht1 as <-.
    apply Hn. rewrite Ec. left. }
  assert (∀ a b, (a = i ∧ b = j ∧ a_chan s' a b = c) ∨ (a = j ∧ b = i ∧ a_chan s' a b = a_chan s a b ++ [AAck]) ∨
    (¬ (a = i ∧ b = j) ∧ ¬ (a = j ∧ b = i) ∧ a_chan s' a b = a_chan s a b)) as Hchan.
  { intros a b. simpl. unfold set_chan. repeat case_decide; naive_solver. }
  assert (∀ a b m, m ≠ AAck → m ∈ a_chan s' a b → m ∈ a_chan s a b) as Hin.
  { intros a b m Hne. destruct (Hchan a b) as [(-> & -> & ->)|[(-> & -> & ->)|(_ & _ & ->)]]; [|set_solver|done].
    rewrite Ec. by right. }
  assert (∀ a b x y, y ≠ AAck → precedes x y (a_chan s' a b) → precedes x y (a_chan s a b)) as Hpr.
  { intros a b x y Hne. destruct (Hchan a b) as [(-> & -> & ->)|[(-> & -> & ->)|(_ & _ & ->)]]; [| |done].
    - rewrite Ec, precedes_cons. by left.
    - rewrite precedes_snoc. by intros [|[? _]]. }
  assert (∀ a b, handled s' a b → handled s a b ∨ a = i ∧ b = j) as Hh.
  { intros a b [Hh|Hh]; [by left; left|].
    destruct (Hchan b a) as [(-> & -> & E)|[(-> & -> & E)|(_ & _ & E)]]; rewrite E in Hh; [|by right|by left; right].
    left. right. rewrite Ec. by right. }
  assert (∀ b x, x ∈ a_queue s b → x ∈ a_queue s' b) as Hq.
  { intros b x Hx. simpl. destruct (decide (b = j)) as [->|];
      rewrite ?fn_lookup_insert, ?fn_lookup_insert_ne by done; set_solver. }
  split; simpl.
  - intros a t0 Ht. destruct (li_own _ Hi a t0 Ht). split; [by apply Hq|done].
  - apply (li_inside _ Hi).
  - intros a b [Hab|[-> ->]]%Hh; [by apply (li_members _ Hi)|done].
  - intros a b t0 Hab Hr. apply (li_request _ Hi); [done|]. by apply Hin.
  - intros a b t0 Hab Hr. apply Hpr in Hr; [|done]. by apply (li_once _ Hi) in Hr.
  - intros a b t0 Hab Hr. apply Hpr in Hr; [|done]. by apply (li_release _ Hi) in Hr.
  - intros a b [Hab|[-> ->]]%Hh.
    + destruct (li_handled _ Hi a b Hab) as (t0 & ? & ? & ? & Hr & Hl). exists t0.
      split_and!; [done|by apply Hq|done|intros Hr'; apply Hr, Hin; done|intros Hr'; apply Hl, Hin; done].
    + exists t. rewrite fn_lookup_insert. split_and!; [done|set_solver|done|..];
        destruct (Hchan i j) as [(_ & _ & E)|[[? _]|[? _]]]; try tauto; simpl in E; rewrite E; intros Hr.
      * apply (li_once _ Hi i j t Hij). rewrite Ec, precedes_cons. by right.
      * apply (li_release _ Hi i j t Hij). rewrite Ec, precedes_cons. by right.
  - intros a b Hab. destruct (Hchan b a) as [(-> & -> & E)|[(-> & -> & E)|(_ & _ & E)]]; simpl in E; rewrite E.
    + intros Hr. apply (li_ack_once _ Hi _ _ Hab). rewrite Ec, precedes_cons. by left.
    + rewrite precedes_snoc. intros [Hr|[_ Hr]]; [by apply (li_ack_once _ Hi) in Hr|]. apply Hno. by right.
    + by apply (li_ack_once _ Hi).
  - intros a b Hb. destruct (Hchan b a) as [(-> & -> & E)|[(-> & -> & E)|(_ & _ & E)]]; simpl in E; rewrite E.
    + intros Hr. apply (li_ack_or _ Hi _ _ Hb). rewrite Ec. by right.
    + destruct Hno. by left.
    + by apply (li_ack_or _ Hi).
  - intros a b t0 t' Hab [Hh'|[-> ->]]%Hh Ht0 Ht' Hlt Hr; apply Hin in Hr; try done.
    + destruct (li_order _ Hi a b t0 t') as [Hn1 Hn2]; try done. split; [done|]. intros Hr'. apply Hpr in Hr'; done.
    + split; [intros Hb; apply Hno; by left|]. intros Hr'. apply Hpr in Hr'; [|done]. apply Hno. right.
      eapply elem_of_sublist; [|exact Hr']. left.
  - intros a b t0 t' Hab Hin' Ht' Hor. eapply (li_first _ Hi); eauto.
    destruct Hor as [[Hor|[-> ->]]%Hh|Hor]; [by left| |right; by apply Hin].
    right. rewrite Hcur in Ht'. injection Ht' as <-. rewrite Ec. left.
Qed.

Lemma inv_get_ack s i j c : lock_inv s → i ≠ j → a_chan s i j = AAck :: c →
  lock_inv (mkLockState (a_clock s) (a_phase s) (a_queue s) (<[j := a_acks s j ∪ {[i]}]> (a_acks s))
      (set_chan (a_chan s) i j c)).
Proof.
  intros Hi Hij Ec. set (s' := mkLockState _ _ _ _ _).
  assert (∀ a b, sublist (a_chan s' a b) (a_chan s a b)) as Hsub.
  { apply set_chan_sub. rewrite Ec. by apply sublist_cons. }
  assert (∀ m a b, m ∈ a_chan s' a b → m ∈ a_chan s a b) as Hin by (intros m a b Hm; by eapply elem_of_sublist; eauto).
  assert (∀ x y a b, precedes x y (a_chan s' a b) → precedes x y (a_chan s a b)) as Hpr
    by (intros x y a b; by apply precedes_sub).
  assert (∀ a b, b ∈ a_acks s' a → b ∈ a_acks s a ∨ a = j ∧ b = i) as Hacks.
  { intros a b. simpl. destruct (decide (a = j)) as [->|]; [rewrite fn_lookup_insert; set_solver|].
    rewrite fn_lookup_insert_ne by done. by left. }
  assert (∀ a b, handled s' a b → handled s a b) as Hh.
  { intros a b [[Hh|[-> ->]]%Hacks|Hh]; [by left| |right; by apply Hin]. right. rewrite Ec. left. }
  assert (AAck ∉ c ∧ a_chan s' i j = c) as [Hnone Ec'].
  { split; [|simpl; unfold set_chan; by rewrite decide_True]. intros Hr. apply (li_ack_once _ Hi j i (not_eq_sym Hij)).
    rewrite Ec, precedes_cons. by right. }
  split.
  - apply (li_own _ Hi).
  - intros a t Ht b Hb Hne. pose proof (li_inside _ Hi a t Ht b Hb Hne) as Hab. simpl.
    destruct (decide (a = j)) as [->|]; [rewrite fn_lookup_insert; set_solver|by rewrite fn_lookup_insert_ne].
  - intros a b Hab%Hh. by apply (li_members _ Hi).
  - intros a b t Hab Hr%Hin. by apply (li_request _ Hi).
  - intros a b t Hab Hr%Hpr. by apply (li_once _ Hi) in Hr.
  - intros a b t Hab Hr%Hpr. by apply (li_release _ Hi) in Hr.
  - intros a b Hab%Hh. destruct (li_handled _ Hi a b Hab) as (t & ? & ? & ? & Hr & Hl). exists t.
    split_and!; [done|done|done|by intros ?%Hin|by intros ?%Hin].
  - intros a b Hab Hr%Hpr. by apply (li_ack_once _ Hi) in Hr.
  - intros a b [Hb|[-> ->]]%Hacks Hr; [apply Hin in Hr; by eapply (li_ack_or _ Hi)|by rewrite Ec' in Hr].
  - intros a b t t' Hab Hh'%Hh Ht Ht' Hlt Hr. pose proof (Hin _ _ _ Hr) as Hr1.
    destruct (li_order _ Hi a b t t') as [Hn1 Hn2]; try done. split; [|by intros ?%Hpr].
    intros [Hb|[-> ->]]%Hacks; [done|]. rewrite Ec' in Hr. apply Hn2. rewrite Ec, precedes_cons. by right.
  - intros a b t t' Hab Hin' Ht' Hor. eapply (li_first _ Hi); eauto. destruct Hor; eauto.
Qed.

Lemma lock_step_inv s s' : lock_step s s' → lock_inv s → lock_inv s'.
Proof.
  intros Hst Hi. destruct Hst as [s i t|s i t|s i t|s i j t c|s i j c|s i j c q ? ? Hij Ec Hq1 Hq2|s i j c Hc|s i t Ht].
  - by apply inv_request.
  - by apply inv_enters.
  - by apply inv_release.
  - by apply inv_get_request.
  - by apply inv_get_ack.
  - apply (inv_weaken s); [done|done|done|done|apply set_chan_sub; rewrite Ec; by apply sublist_cons|].
    intros a b t Hor Ht Hx. simpl. destruct (decide (b = j)) as [->|]; [|by rewrite fn_lookup_insert_ne].
    rewrite fn_lookup_insert. apply Hq2; [|done]. intros ->. destruct Hor as [->|Hh]; [done|].
    destruct (li_handled _ Hi i j Hh) as (t1 & _ & _ & _ & _ & Hr). apply Hr. rewrite Ec. left.
  - apply (inv_weaken s); try done. by apply set_chan_sub.
  - apply (inv_weaken s); try done. intros a. simpl. destruct (decide (a = i)) as [->|];
      rewrite ?fn_lookup_insert, ?fn_lookup_insert_ne by done; lia.
Qed.

(** Nobody wants the resource and nothing is on the way. *)
Definition lock_init (s : LockState) : Prop :=
  (∀ i, a_phase s i = Idle) ∧ (∀ i, a_acks s i = ∅) ∧ (∀ i j, a_chan s i j = []).

Lemma lock_init_inv s : lock_init s → lock_inv s.
Proof.
  intros (Hp & Ha & Hc). assert (∀ i j, ¬ handled s i j) as Hh.
  { intros i j [Hh|Hh]; [rewrite Ha in Hh; set_solver|rewrite Hc in Hh; by apply not_elem_of_nil in Hh]. }
  assert (∀ i j x y, ¬ precedes x y (a_chan s i j)) as Hpr.
  { intros i j x y. rewrite Hc. unfold precedes. by intros ?%sublist_nil_r. }
  split; try (intros; by eauto).
  - intros i t. by rewrite Hp.
  - intros i t. by rewrite Hp.
  - intros i j Hij. by destruct (Hh i j).
  - intros i j t _. rewrite Hc. by intros ?%not_elem_of_nil.
  - intros i j Hij. by destruct (Hh i j).
  - intros i j _. rewrite Hc. by intros ?%not_elem_of_nil.
  - intros i j t t' _ Hij. by destruct (Hh i j).
  - intros i j t t' _. by rewrite Hp.
Qed.

Lemma lock_steps_inv s s' : rtc lock_step s s' → lock_inv s → lock_inv s'.
Proof. intros Hr. induction Hr as [|s1 s2 s3 Hst _ IH]; [done|]. intros Hi. by apply IH, (lock_step_inv s1). Qed.

(** Two members are never inside together. *)
Lemma inv_mutual_exclusion s i j t t' : lock_inv s → i ∈ members → j ∈ members →
  a_phase s i = Inside t → a_phase s j = Inside t' → i = j.
Proof.
  intros Hi Him Hjm Hit Hjt. destruct (decide (i = j)) as [|Hij]; [done|]. exfalso.
  apply (before_asym (t, i) (t', j)).
  - eapply (li_first _ Hi i j); [done|done|by rewrite Hjt|]. left. left. by eapply li_inside.
  - eapply (li_first _ Hi j i); [done|done|by rewrite Hit|]. left. left. by eapply li_inside; eauto.
Qed.
End protocol.
