(* ===== verification/Cluster.v ===== *)
(** * A cluster that shares a lock: [backend/dfs/node/node.go] on every node

    Nodes that run the lock operations and handlers of [NodeLocks.v], their
    message loops and [SendMessage], with a client at every node that asks for
    one resource, polls, enters and leaves, and the check for requests that
    have timed out. Every step of the cluster that reads a clock for the age of
    requests says which node read it and when; a run is timely when no such
    reading finds a request that is more than 30 seconds old. The theorem is
    mutual exclusion of timely runs, by a simulation into the protocol of
    [LockSpec.v]; for runs that are not, the section on time-outs proves the
    opposite: a node whose request is the first that has not expired enters,
    whoever is inside. It also needs that the messages from one node to another
    arrive in the order in which their goroutines were started, and a run
    without this shows why. The members stay the same, and a handler or an
    operation runs to its end before the next one starts on its node. Messages
    may be lost. *)

From stdpp Require Import functions.
From S2P Require Import Prelude GoStd Types Json Lamport NodeState NodeLocks NodeFiles Bully Node LockSpec.

(** The nodes, the messages whose sending goroutines were started, in order,
    and what each client is doing. *)
Record Cluster := mkCluster {
  cl_node : uuid → FullNode;
  cl_out : uuid → uuid → list Message;
  cl_phase : uuid → phase }.

Definition nd (C : Cluster) (i : uuid) : Node := b_node (cl_node C i).

Definition set_phase (i : uuid) (p : phase) (C : Cluster) : Cluster :=
  mkCluster (cl_node C) (cl_out C) (<[i := p]> (cl_phase C)).

Section cluster.
Context `{UuidText} `{TimeText} `{MapRange}.
(** The members, who is reached at an address, and the resource. *)
Context (members : gset uuid) (route : string → Z → option uuid) (r : string).

(** The messages to [j] among what a method started. *)
Definition sent_to (j : uuid) (o : list NAct) : list Message :=
  omap (λ a, match a with
             | GoSend ip port msg => if decide (route ip port = Some j) then Some msg else None
             | _ => None
             end) o.

(** Run a method at a node; no step when it panics. *)
Definition run_at {A} (i : uuid) (m : FullM A) (C : Cluster) : option (A * Cluster) :=
  match m (cl_node C i) with
  | (o, Ret (a, b)) =>
    Some (a, mkCluster (<[i := b]> (cl_node C))
               (λ k j, if decide (k = i) then cl_out C k j ++ sent_to j o else cl_out C k j) (cl_phase C))
  | (_, Panic _) => None
  end.

(** The sender's part of a transmission: its new state, and the message gone. *)
Definition after_send (i j : uuid) (n : Node) (rest : list Message) (C : Cluster) : Cluster :=
  mkCluster (<[i := set_node n (cl_node C i)]> (cl_node C))
    (λ k l, if decide (k = i ∧ l = j) then rest else cl_out C k l) (cl_phase C).

(** A step that compares the age of requests with a clock: the node that polls,
    or whose loop looks for requests that have timed out, and what it reads. *)
Inductive clock_read :=
| Untimed
| Polls (i : uuid) (now : Z)
| Sweeps (i : uuid) (now : Z).

Inductive cl_step : Cluster → clock_read → Cluster → Prop :=
| cs_request C i now C' :
    i ∈ members → cl_phase C i = Idle → clock_ok 1 (nd C i) →
    run_at i (on_node (RequestLock now r)) C = Some ((), C') →
    cl_step C Untimed (set_phase i (Waiting (n_logicalTime (nd C' i))) C')
| cs_enter C i now t (ok : bool) C' :
    i ∈ members → cl_phase C i = Waiting t →
    run_at i (on_node (EnterCriticalSection now r)) C = Some (ok, C') →
    cl_step C (Polls i now) (if ok then set_phase i (Inside t) C' else C')
| cs_release C i t C' :
    i ∈ members → cl_phase C i = Inside t →
    run_at i (on_node (ReleaseLock r)) C = Some ((), C') →
    cl_step C Untimed (set_phase i Idle C')
| cs_send_fails C i j msg rest net ip port o n :
    i ∈ members → cl_out C i j = msg :: rest → clock_ok 3 (nd C i) →
    SendMessage net ip port msg (nd C i) = (o, Ret (false, n)) →
    cl_step C Untimed (after_send i j n rest C)
| cs_send C i j msg rest net ip port o n m now s1 s2 C' :
    i ∈ members → cl_out C i j = msg :: rest → clock_ok 3 (nd C i) →
    SendMessage net ip port msg (nd C i) = (o, Ret (true, n)) → Encode m ∈ o →
    mwt_LogicalTime m < maxInt → 0 ≤ n_logicalTime (nd C j) < maxInt →
    run_at j (handleConnection now s1 s2 (Some m)) (after_send i j n rest C) = Some ((), C') →
    cl_step C Untimed C'
| cs_process C j now C' :
    j ∈ members → run_at j (handleMessages now) C = Some ((), C') →
    cl_step C Untimed C'
| cs_timeouts C i now C' :
    i ∈ members → run_at i (on_node (checkLocksTimeouts now)) C = Some ((), C') →
    cl_step C (Sweeps i now) C'.

(** The clock read finds no request that is more than 30 seconds old: a poll
    looks at the queue of the resource, a sweep at every queue of the node. *)
Definition in_time (C : Cluster) (a : clock_read) : Prop :=
  match a with
  | Untimed => True
  | Polls i now => Forall (λ req, fresh now req = true) (queue_of r (n_locks (nd C i)))
  | Sweeps i now => map_Forall (λ _ q, Forall (λ req, fresh now req = true) q) (lk_queue (n_locks (nd C i)))
  end.

Definition timely_step (C C' : Cluster) : Prop := ∃ a, cl_step C a C' ∧ in_time C a.

(** ** What the protocol sees of a cluster *)

Definition amsg_of (m : Message) : option amsg :=
  if String.eqb (msg_Type m) MessageLockRequest then
    (λ req, AReq (lr_LogicalTime req)) <$> Unmarshal_ok LockRequest_of_json (msg_Payload m)
  else if String.eqb (msg_Type m) MessageLockAck then Some AAck
  else if String.eqb (msg_Type m) MessageLockRelease then Some ARel
  else None.

Definition request_of (req : LockRequest) : areq := (lr_LogicalTime req, lr_NodeID req).

Definition acks_of (n : Node) : gmap uuid bool := default ∅ (lk_pendingAcks (n_locks n) !! r).

Definition from (i : uuid) (ms : list Message) : list Message := filter (λ m, msg_From m = i) ms.

Definition in_flight (C : Cluster) (i j : uuid) : list Message :=
  from i (n_messageChan (nd C j)) ++ cl_out C i j.

Definition abs (C : Cluster) : LockState := mkLockState
  (λ i, n_logicalTime (nd C i))
  (cl_phase C)
  (λ i, list_to_set (request_of <$> queue_of r (n_locks (nd C i))))
  (λ i, dom (filter (λ kv, kv.2 = true) (acks_of (nd C i))))
  (λ i j, if decide (i = j) then [] else omap amsg_of (in_flight C i j)).

Definition before (x y : areq) : Prop := CompareLamport x.1 x.2 y.1 y.2 = -1.

(** ** Well-formed clusters *)

(** A node knows exactly the other members, at addresses that reach them. *)
Definition member_ok (i : uuid) (n : Node) : Prop :=
  n_ID n = i ∧ dom (n_peers n) = members ∖ {[i]} ∧
  ∀ j p, n_peers n !! j = Some p → ni_ID p = j ∧ route (ni_IP p) (ni_Port p) = Some j.

(** The messages of the lock, from [i]; the requests are not later than [t]. *)
Inductive lock_message (i : uuid) (t : Z) : Message → Prop :=
| lm_request to now t' : 0 ≤ t' ≤ t → t' ≤ maxInt →
    lock_message i t (mkMessage MessageLockRequest i to
      (Some (LockRequest_to_json (mkLockRequest r i t' StatusPending now))))
| lm_ack to : lock_message i t (mkMessage MessageLockAck i to (Some (JStr r)))
| lm_acquired to : lock_message i t (mkMessage MessageLockAcquired i to (Some (JStr r)))
| lm_release to : lock_message i t (mkMessage MessageLockRelease i to (Some (JStr r))).

Definition own_requests (i : uuid) (n : Node) : list LockRequest :=
  filter (λ req, lr_NodeID req = i) (queue_of r (n_locks n)).

Record cluster_ok (C : Cluster) : Prop := mkClusterOk {
  co_member : ∀ i, i ∈ members → member_ok i (nd C i);
  co_sorted : ∀ i, i ∈ members → queues_ok (n_locks (nd C i));
  co_out : ∀ i j m, m ∈ cl_out C i j → i ∈ members ∧ j ∈ members ∧ i ≠ j ∧ lock_message i (n_logicalTime (nd C i)) m;
  co_chan : ∀ j m, j ∈ members → m ∈ n_messageChan (nd C j) →
    ∃ i, i ∈ members ∧ i ≠ j ∧ lock_message i (n_logicalTime (nd C j)) m;
  co_own : ∀ i, i ∈ members → request_of <$> own_requests i (nd C i) =
    match current (cl_phase C i) with Some t => [(t, i)] | None => [] end;
  co_acks : ∀ i j, i ∈ members → is_Some (acks_of (nd C i) !! j) → j ∈ members ∖ {[i]};
  co_clock : ∀ i, i ∈ members → 0 ≤ n_logicalTime (nd C i) }.

(** ** Helper lemmas *)

Lemma before_time t t' i j : t < t' → before (t, i) (t', j).
Proof. intros Ht. apply CompareLamport_lt. by left. Qed.

Lemma before_asym x y : before x y → ¬ before y x.
Proof. unfold before. intros H1' H2'. apply CompareLamport_gt in H1'. congruence. Qed.

Lemma before_total x y : x ≠ y → before x y ∨ before y x.
Proof.
  intros Hne. destruct x as [t i], y as [t' j].
  destruct (CompareLamport_values t i t' j) as [?|[E|?]]; [by left| |right; by apply CompareLamport_gt].
  apply CompareLamport_eq in E as [-> ->]. done.
Qed.

Lemma sent_to_app j o1 o2 : sent_to j (o1 ++ o2) = sent_to j o1 ++ sent_to j o2.
Proof. apply omap_app. Qed.

(** A broadcast reaches every other member once. *)
Lemma sent_to_all i n msg j : member_ok i n →
  sent_to j (to_all n msg) = if decide (j ∈ members ∧ j ≠ i) then [msg] else [].
Proof.
  intros (_ & Hdom & Hroute). unfold to_all, GetPeers.
  assert (∀ l : list (uuid * NodeInfo), NoDup l.*1 →
    (∀ k p, (k, p) ∈ l → route (ni_IP p) (ni_Port p) = Some k) →
    sent_to j ((λ p, GoSend (ni_IP p) (ni_Port p) msg) <$> l.*2) = if decide (j ∈ l.*1) then [msg] else []) as Hl.
  { intros l. induction l as [|[k p] l IH]; intros Hnd Hl; [done|]. csimpl in *.
    apply NoDup_cons in Hnd as [Hk Hnd]. rewrite (Hl k p (list_elem_of_here _ _)).
    unfold sent_to in *. rewrite IH; [|done|intros; apply Hl; by right].
    destruct (decide (Some k = Some j)) as [[= ->]|Hne].
    - rewrite decide_False, decide_True by set_solver. done.
    - destruct (decide (j ∈ l.*1)); [by rewrite decide_True by set_solver|].
      rewrite decide_False; [done|]. intros [->|]%elem_of_cons; done. }
  rewrite Hl; [|apply NoDup_go_range_fst|intros k p Hp%elem_of_go_range; by apply (Hroute k p)].
  assert (j ∈ (go_range (n_peers n)).*1 ↔ j ∈ members ∧ j ≠ i) as Hj.
  { transitivity (j ∈ dom (n_peers n)); [|rewrite Hdom; set_solver]. rewrite elem_of_dom. split.
    - intros ([k p] & -> & Hp%elem_of_go_range)%list_elem_of_fmap. eauto.
    - intros [p Hp]. apply list_elem_of_fmap. exists (j, p). split; [done|]. by apply elem_of_go_range. }
  by destruct (decide (j ∈ _)), (decide (j ∈ members ∧ j ≠ i)); try tauto.
Qed.

Lemma sent_to_one j p msg k : route (ni_IP p) (ni_Port p) = Some k →
  sent_to j [GoSend (ni_IP p) (ni_Port p) msg] = if decide (j = k) then [msg] else [].
Proof. intros Hr. unfold sent_to. simpl. rewrite Hr. repeat case_decide; naive_solver. Qed.

Lemma lock_message_from i t m : lock_message i t m → msg_From m = i.
Proof. by destruct 1. Qed.

Lemma lock_message_mono i t t' m : t ≤ t' → lock_message i t m → lock_message i t' m.
Proof. intros Ht. destruct 1; constructor; lia. Qed.

Lemma LockRequest_back now i t : 0 ≤ t ≤ maxInt →
  Unmarshal_ok LockRequest_of_json (Some (LockRequest_to_json (mkLockRequest r i t StatusPending now))) =
    Some (mkLockRequest r i t StatusPending now).
Proof.
  intros Ht. unfold Unmarshal_ok. rewrite LockRequest_json; [done|].
  simpl. unfold in_int64, maxInt in *. lia.
Qed.

Lemma on_node_run {A} (m : NodeM A) (b : FullNode) o a n' :
  m (b_node b) = (o, Ret (a, n')) → on_node m b = (o, Ret (a, set_node n' b)).
Proof. intros E. unfold on_node, node_do, zoom. by rewrite E. Qed.

(** What a step at one node leaves of a cluster. *)
Definition stepped (i : uuid) (b : FullNode) (o : list NAct) (C : Cluster) : Cluster :=
  mkCluster (<[i := b]> (cl_node C))
    (λ k j, if decide (k = i) then cl_out C k j ++ sent_to j o else cl_out C k j) (cl_phase C).

Lemma run_at_inv {A} i (m : FullM A) C (a : A) C' : run_at i m C = Some (a, C') →
  ∃ o b, m (cl_node C i) = (o, Ret (a, b)) ∧ C' = stepped i b o C.
Proof.
  unfold run_at. destruct (m (cl_node C i)) as [o [[a' b]|w]] eqn:E; [|done]. intros [= <- <-]. eauto.
Qed.

Lemma run_at_on_node {A} i (m : NodeM A) C (a a0 : A) C' o n' :
  m (nd C i) = (o, Ret (a0, n')) → run_at i (on_node m) C = Some (a, C') →
  a = a0 ∧ C' = stepped i (set_node n' (cl_node C i)) o C.
Proof.
  intros E Hr. apply run_at_inv in Hr as (o' & b & E' & ->). rewrite (on_node_run _ _ _ _ _ E) in E'.
  by injection E' as <- <- <-.
Qed.

Lemma nd_stepped i b o C k : nd (stepped i b o C) k = if decide (k = i) then b_node b else nd C k.
Proof.
  unfold nd. simpl. case_decide as Hk; [subst; by rewrite fn_lookup_insert|by rewrite fn_lookup_insert_ne].
Qed.

Lemma nd_set_phase i p C k : nd (set_phase i p C) k = nd C k.
Proof. done. Qed.

(** A step at one node keeps the cluster well-formed. *)
Lemma stepped_ok i b o C ph : cluster_ok C → i ∈ members →
  let n := nd C i in let n' := b_node b in
  n_ID n' = n_ID n → n_peers n' = n_peers n → queues_ok (n_locks n') → n_logicalTime n ≤ n_logicalTime n' →
  (∀ m, m ∈ n_messageChan n' → m ∈ n_messageChan n ∨
     ∃ k, k ∈ members ∧ k ≠ i ∧ lock_message k (n_logicalTime n') m) →
  (∀ j m, m ∈ sent_to j o → j ∈ members ∧ j ≠ i ∧ lock_message i (n_logicalTime n') m) →
  request_of <$> own_requests i n' = match current (ph i) with Some t => [(t, i)] | None => [] end →
  (∀ j, is_Some (acks_of n' !! j) → j ∈ members ∖ {[i]}) →
  (∀ k, k ≠ i → ph k = cl_phase C k) →
  cluster_ok (mkCluster (cl_node (stepped i b o C)) (cl_out (stepped i b o C)) ph).
Proof.
  cbv zeta. intros Hok Him Eid Ep Hs Hclk Hmc Hout Hown Hacks Hph.
  assert (∀ k, nd (mkCluster (cl_node (stepped i b o C)) (cl_out (stepped i b o C)) ph) k =
    if decide (k = i) then b_node b else nd C k) as Hnd by (intros k; apply nd_stepped).
  split; intros k; rewrite ?Hnd.
  - intros Hk. case_decide as Hki; [subst k|by apply (co_member _ Hok)].
    destruct (co_member _ Hok i Hk) as (? & ? & ?). unfold member_ok. by rewrite Eid, Ep.
  - intros Hk. case_decide; [done|by apply (co_sorted _ Hok)].
  - intros j m. simpl. case_decide as Hki; [subst k|].
    + rewrite elem_of_app. intros [Hm|Hm].
      * destruct (co_out _ Hok i j m Hm) as (? & ? & ? & Hl). split_and!; try done. by eapply lock_message_mono.
      * destruct (Hout j m Hm) as (? & ? & ?). by split_and!.
    + apply (co_out _ Hok).
  - intros m Hk. case_decide as Hki; [subst k|by apply (co_chan _ Hok)]. intros [Hm|Hm]%Hmc; [|done].
    destruct (co_chan _ Hok i m Hk Hm) as (a & ? & ? & Hl). exists a. split_and!; try done. by eapply lock_message_mono.
  - intros Hk. simpl. case_decide as Hki; [by subst k|]. rewrite Hph by done. by apply (co_own _ Hok).
  - intros j Hk. case_decide as Hki; [subst k; apply Hacks|by apply (co_acks _ Hok)].
  - intros Hk. pose proof (co_clock _ Hok k Hk) as Hc. case_decide as Hki; [subst k|done]. lia.
Qed.

(** What is in flight after a step that adds nothing to the node's own inbox. *)
Lemma in_flight_stepped i b o C ph a c :
  n_messageChan (b_node b) = n_messageChan (nd C i) →
  in_flight (mkCluster (cl_node (stepped i b o C)) (cl_out (stepped i b o C)) ph) a c =
    in_flight C a c ++ (if decide (a = i) then sent_to c o else []).
Proof.
  intros Em. unfold in_flight.
  assert (nd (mkCluster (cl_node (stepped i b o C)) (cl_out (stepped i b o C)) ph) c =
    if decide (c = i) then b_node b else nd C c) as -> by apply nd_stepped.
  simpl. rewrite <-app_assoc. f_equal.
  - case_decide as Hc; [subst c; by rewrite Em|done].
  - case_decide; [done|by rewrite app_nil_r].
Qed.

(** After a step that broadcasts one message, for the protocol. *)
Lemma chan_broadcast i b o C ph msg m a c : cluster_ok C → i ∈ members →
  n_messageChan (b_node b) = n_messageChan (nd C i) → amsg_of msg = Some m →
  (∀ j, sent_to j o = if decide (j ∈ members ∧ j ≠ i) then [msg] else []) →
  a_chan (abs (mkCluster (cl_node (stepped i b o C)) (cl_out (stepped i b o C)) ph)) a c =
    send_all members (a_chan (abs C)) i m a c.
Proof.
  intros Hok Him Em Ea Hs. unfold abs, send_all. cbn [a_chan]. rewrite in_flight_stepped by done.
  destruct (decide (a = c)) as [->|Hac].
  - rewrite decide_False by naive_solver. done.
  - rewrite omap_app. destruct (decide (a = i)) as [->|Hai].
    + rewrite Hs. destruct (decide (c ∈ members ∧ c ≠ i)) as [[? ?]|Hn].
      * rewrite decide_True by done. simpl. by rewrite Ea.
      * rewrite decide_False by tauto. simpl. by rewrite app_nil_r.
    + rewrite decide_False by tauto. simpl. by rewrite app_nil_r.
Qed.

(** The phases as functions. *)
Lemma insert_case {A} (f : uuid → A) (i k : uuid) (x : A) : <[i := x]> f k = if decide (k = i) then x else f k.
Proof. case_decide; [subst; by rewrite fn_lookup_insert|by rewrite fn_lookup_insert_ne]. Qed.

Lemma own_requests_perm i n n' req : queue_of r (n_locks n') ≡ₚ queue_of r (n_locks n) ++ [req] →
  lr_NodeID req = i → own_requests i n = [] → own_requests i n' = [req].
Proof.
  intros Hp Hi He. unfold own_requests in *. apply Permutation_singleton_r.
  rewrite Hp, filter_app, He, filter_cons_True by done. done.
Qed.

(** ** The simulation, one lemma per step *)

Definition simulated (C C' : Cluster) : Prop :=
  cluster_ok C' ∧ ∃ s', rtc (lock_step members before) (abs C) s' ∧ same s' (abs C').

Lemma elem_of_abs_queue (q : list LockRequest) x :
  x ∈ (list_to_set (request_of <$> q) : gset areq) ↔ x ∈ request_of <$> q.
Proof. apply elem_of_list_to_set. Qed.

Lemma queue_requested now n :
  queue_of r (n_locks (requested now r n)) = SliceStable CompareLockRequests (queue_of r (n_locks n) ++ [own_request now r n]).
Proof. unfold requested, queue_of. simpl. by rewrite lookup_insert_eq. Qed.

Lemma clock_succ n : clock_ok 1 n → int64 (n_logicalTime n + 1) = n_logicalTime n + 1.
Proof. intros [? ?]. apply int64_id. unfold in_int64, maxInt in *. lia. Qed.

Lemma amsg_of_request i now t : 0 ≤ t ≤ maxInt → ∀ to,
  amsg_of (mkMessage MessageLockRequest i to (Some (LockRequest_to_json (mkLockRequest r i t StatusPending now)))) = Some (AReq t).
Proof. intros Ht to. unfold amsg_of. cbn [msg_Type msg_Payload]. by rewrite LockRequest_back. Qed.

Lemma request_simulated C i now C' : cluster_ok C → i ∈ members → cl_phase C i = Idle → clock_ok 1 (nd C i) →
  run_at i (on_node (RequestLock now r)) C = Some ((), C') →
  simulated C (set_phase i (Waiting (n_logicalTime (nd C' i))) C').
Proof.
  intros Hok Him Hp Hclk Hr. set (n := nd C i) in *.
  destruct (run_at_on_node _ _ _ _ _ _ _ _ (RequestLock_run now r n) Hr) as [_ ->].
  pose proof (clock_succ n Hclk) as Et.
  assert (n_ID n = i) as Eid by apply (co_member _ Hok i Him).
  assert (own_request now r n = mkLockRequest r i (n_logicalTime n + 1) StatusPending now) as Ereq
    by (unfold own_request; by rewrite Et, Eid).
  set (t := n_logicalTime n + 1) in *.
  rewrite Ereq, Eid. rewrite nd_stepped, decide_True by done. cbn [b_node set_node].
  assert (n_logicalTime (requested now r n) = t) as Ent by exact Et.
  rewrite Ent. set (msg := mkMessage _ _ _ _).
  assert (0 ≤ t ≤ maxInt) as Hrange by (unfold clock_ok in *; lia).
  assert (amsg_of msg = Some (AReq t)) as Hmsg by (by apply amsg_of_request).
  assert (∀ j, sent_to j (to_all n msg) = if decide (j ∈ members ∧ j ≠ i) then [msg] else []) as Hsent
    by (intros j; by apply (sent_to_all i), (co_member _ Hok)).
  split.
  - apply stepped_ok; try done; cbn [b_node set_node].
    + by apply enqueue_ok, (co_sorted _ Hok).
    + rewrite Ent. fold n. lia.
    + intros m. by left.
    + intros j m. rewrite Hsent. case_decide as Hj; [|by intros ?%not_elem_of_nil].
      rewrite list_elem_of_singleton. intros ->. rewrite Ent. destruct Hj. split_and!; try done. constructor; lia.
    + rewrite fn_lookup_insert. cbn [current].
      pose proof (co_own _ Hok i Him) as Hown. rewrite Hp in Hown. apply fmap_nil_inv in Hown.
      erewrite own_requests_perm; [|rewrite queue_requested; apply SliceStable_perm|by rewrite Ereq|done].
      by rewrite Ereq.
    + intros j. unfold acks_of. cbn. rewrite lookup_insert_eq. cbn. rewrite lookup_empty. by intros [].
    + intros k Hk. by rewrite fn_lookup_insert_ne.
  - eexists. split.
    { apply rtc_once, (step_request _ _ (abs C) i t); [done|exact Hp|]. cbn [a_clock abs]. fold n. lia. }
    split; [|split; [|split; [|split]]].
    + intros k. cbn [a_clock abs]. rewrite nd_set_phase, nd_stepped, insert_case. case_decide; [|done]. by symmetry.
    + done.
    + intros k x. cbn [a_queue abs]. rewrite nd_set_phase, nd_stepped, insert_case. case_decide; [subst k|done].
      cbn [b_node set_node]. rewrite elem_of_union, elem_of_singleton, !elem_of_abs_queue, queue_requested, SliceStable_perm.
      rewrite fmap_app, elem_of_app, Ereq. simpl. rewrite list_elem_of_singleton. done.
    + intros k. cbn [a_acks abs]. rewrite nd_set_phase, nd_stepped, insert_case. case_decide; [subst k|done].
      cbn [b_node set_node]. unfold acks_of. cbn. rewrite lookup_insert_eq. cbn. by rewrite map_filter_empty, dom_empty_L.
    + intros a c. symmetry. cbn [a_chan]. by apply (chan_broadcast i _ _ C _ msg).
Qed.

Lemma dequeue_spec k l : let q := queue_of r l in let q' := queue_of r (dequeue r k l) in
  (∀ x, x ∈ q' → x ∈ q) ∧ (∀ x, lr_NodeID x ≠ k → x ∈ q → x ∈ q') ∧
  filter (λ x, lr_NodeID x = k) q' = tail (filter (λ x, lr_NodeID x = k) q) ∧
  ∀ i, i ≠ k → filter (λ x, lr_NodeID x = i) q' = filter (λ x, lr_NodeID x = i) q.
Proof.
  intros q q'. unfold q'. unfold dequeue. fold q. pose proof (remove_first_spec k q) as Hs.
  destruct (remove_first k q) as [q1|].
  - destruct Hs as (bf & req & af & -> & -> & Hk & Hbf).
    assert (queue_of r (set_queue (<[r:=bf ++ af]> (lk_queue l)) l) = bf ++ af) as ->
      by (unfold queue_of; simpl; by rewrite lookup_insert_eq).
    split_and!; [set_solver|set_solver| |].
    + rewrite !filter_app, filter_cons_True by done. rewrite (filter_none _ bf); [done|]. by apply Hbf.
    + intros i Hi. rewrite !filter_app, filter_cons_False; [done|congruence].
  - fold q. split_and!; [done|done| |done]. by rewrite (filter_none _ q).
Qed.

Lemma ReleaseLock_run n :
  ReleaseLock r n =
    (to_all n (mkMessage MessageLockRelease (n_ID n) uuid_Nil (Some (JStr r))), Ret ((),
     set_locks (set_pendingAcks (delete r (lk_pendingAcks (n_locks n))) (dequeue r (n_ID n) (n_locks n))) n)).
Proof.
  unfold ReleaseLock. erewrite bind_silent by reflexivity. erewrite bind_silent by reflexivity.
  rewrite BroadcastMessage_run. unfold dequeue. by destruct (remove_first _ _).
Qed.

Lemma release_simulated C i t C' : cluster_ok C → i ∈ members → cl_phase C i = Inside t →
  run_at i (on_node (ReleaseLock r)) C = Some ((), C') → simulated C (set_phase i Idle C').
Proof.
  intros Hok Him Hp Hr. set (n := nd C i) in *.
  destruct (run_at_on_node _ _ _ _ _ _ _ _ (ReleaseLock_run n) Hr) as [_ ->].
  assert (n_ID n = i) as Eid by apply (co_member _ Hok i Him). rewrite Eid. set (msg := mkMessage _ _ _ _).
  assert (∀ j, sent_to j (to_all n msg) = if decide (j ∈ members ∧ j ≠ i) then [msg] else []) as Hsent
    by (intros j; by apply (sent_to_all i), (co_member _ Hok)).
  destruct (dequeue_spec i (n_locks n)) as (D1 & D2 & D3 & _).
  pose proof (co_own _ Hok i Him) as Hown. rewrite Hp in Hown. cbn [current] in Hown. unfold own_requests in Hown.
  fold n in Hown.
  assert (filter (λ x, lr_NodeID x = i) (queue_of r (dequeue r i (n_locks n))) = []) as Hnone.
  { rewrite D3. by destruct (filter _ (queue_of r (n_locks n))) as [|? [|? ?]]. }
  split.
  - apply stepped_ok; try done; cbn [b_node set_node].
    + exact (dequeue_ok r i _ (co_sorted _ Hok i Him)).
    + intros m. by left.
    + intros j m. rewrite Hsent. case_decide as Hj; [|by intros ?%not_elem_of_nil].
      rewrite list_elem_of_singleton. intros ->. destruct Hj. split_and!; try done. constructor.
    + rewrite fn_lookup_insert. cbn [current]. unfold own_requests. cbn [n_locks set_locks].
      change (queue_of r (set_pendingAcks _ ?l)) with (queue_of r l). by rewrite Hnone.
    + intros j. unfold acks_of. cbn. rewrite lookup_delete_eq. cbn. rewrite lookup_empty. by intros [].
    + intros k Hk. by rewrite fn_lookup_insert_ne.
  - eexists. split; [by apply rtc_once, (step_release _ _ (abs C) i t)|].
    split; [|split; [|split; [|split]]].
    + intros k. cbn [a_clock abs]. rewrite nd_set_phase, nd_stepped. case_decide; [by subst k|done].
    + done.
    + intros k x. cbn [a_queue abs]. rewrite nd_set_phase, nd_stepped, insert_case. case_decide; [subst k|done].
      cbn [b_node set_node n_locks set_locks]. change (queue_of r (set_pendingAcks _ ?l)) with (queue_of r l).
      rewrite elem_of_difference, elem_of_singleton, !elem_of_abs_queue, !list_elem_of_fmap. fold n. split.
      * intros [(y & -> & Hy) Hne]. exists y. split; [done|]. apply D2; [|done]. intros Hi. apply Hne.
        assert (request_of y ∈ request_of <$> filter (λ req, lr_NodeID req = i) (queue_of r (n_locks n))) as Hin
          by (apply list_elem_of_fmap; exists y; split; [done|by apply list_elem_of_filter]).
        rewrite Hown in Hin. by apply list_elem_of_singleton in Hin.
      * intros (y & -> & Hy). split; [exists y; auto|]. intros E.
        assert (y ∈ filter (λ x, lr_NodeID x = i) (queue_of r (dequeue r i (n_locks n)))) as Hin
          by (apply list_elem_of_filter; split; [by injection E|done]).
        rewrite Hnone in Hin. by apply not_elem_of_nil in Hin.
    + intros k. cbn [a_acks abs]. rewrite nd_set_phase, nd_stepped, insert_case. case_decide; [subst k|done].
      cbn [b_node set_node]. unfold acks_of. cbn. rewrite lookup_delete_eq. cbn. by rewrite map_filter_empty, dom_empty_L.
    + intros a c. symmetry. cbn [a_chan]. by apply (chan_broadcast i _ _ C _ msg).
Qed.

(** Polling: nothing of what the protocol sees changes but the phase. *)
Lemma Enter_run now n : Forall (λ req, fresh now req = true) (queue_of r (n_locks n)) →
  ∃ (ok : bool) n', EnterCriticalSection now r n =
      (if ok then to_all n (mkMessage MessageLockAcquired (n_ID n) uuid_Nil (Some (JStr r))) else [], Ret (ok, n')) ∧
    (ok = true ↔ may_enter now r n) ∧ n_peers n' = n_peers n ∧ n_ID n' = n_ID n ∧
    n_logicalTime n' = n_logicalTime n ∧ n_messageChan n' = n_messageChan n ∧
    queue_of r (n_locks n') = queue_of r (n_locks n) ∧ acks_of n' = acks_of n ∧
    (queues_ok (n_locks n) → queues_ok (n_locks n')).
Proof.
  intros Hf. destruct (CanEnter_spec now r n) as (b & n' & E & Hb & [Hp Hid] & _).
  pose proof (CanEnter_run now r n) as Hr.
  assert (drop_expired now (n_ID n) r (queue_of r (n_locks n)) (lk_pendingAcks (n_locks n)) =
    (queue_of r (n_locks n), lk_pendingAcks (n_locks n))) as Ed.
  { destruct (queue_of r (n_locks n)) as [|x q]; [done|]. simpl. inversion Hf as [|? ? Hx]; subst. by rewrite Hx. }
  rewrite Ed in Hr. destruct Hr as (n0 & E0 & Hn0). rewrite E in E0. injection E0 as _ <-.
  exists b, n'. split.
  { unfold EnterCriticalSection. rewrite (bind_silent _ _ _ _ _ E). destruct b; [|done].
    rewrite (bind_silent _ _ _ (n_ID n') n') by done. rewrite Hid.
    erewrite bind_run; [|apply BroadcastMessage_run|reflexivity]. rewrite app_nil_r.
    unfold to_all, GetPeers. by rewrite Hp. }
  destruct Hn0 as [[-> _]| ->]; [by split_and!|]. split_and!; try done.
  - unfold queue_of at 1. simpl. by rewrite lookup_insert_eq.
  - intros Hq. apply map_Forall_insert_2; [by apply queue_of_ok|done].
Qed.

(** As many acknowledgements as peers are acknowledgements of all of them. *)
Lemma all_acked (acks : gmap uuid bool) (peers : gset uuid) :
  (∀ j, is_Some (acks !! j) → j ∈ peers) → (size peers ≤ count_acks acks)%nat →
  ∀ j, j ∈ peers → j ∈ dom (filter (λ kv : uuid * bool, kv.2 = true) acks).
Proof.
  intros Hk Hsz.
  assert (count_acks acks ≤ size (dom (filter (λ kv : uuid * bool, kv.2 = true) acks)))%nat as Hc.
  { unfold count_acks. rewrite <-(length_fmap fst (filter _ _)). unfold size, set_size. simpl.
    apply submseteq_length, NoDup_submseteq.
    - apply (sublist_NoDup _ _ (NoDup_fst_map_to_list acks)). apply fmap_sublist, sublist_filter.
    - intros j ([k b] & -> & Hb)%list_elem_of_fmap. apply list_elem_of_filter in Hb as [Hb Hin].
      apply elem_of_elements, elem_of_dom. exists b. apply map_lookup_filter_Some. split; [|done].
      by apply elem_of_map_to_list. }
  assert (dom (filter (λ kv : uuid * bool, kv.2 = true) acks) ⊆ peers) as Hsub.
  { intros j [b Hj]%elem_of_dom. apply map_lookup_filter_Some in Hj as [Hj _]. apply Hk. eauto. }
  rewrite <-(set_subseteq_size_eq _ _ Hsub); [set_solver|lia].
Qed.

(** Who may enter: its request comes first, and everybody has acknowledged. *)
Lemma may_enter_first C i now t : cluster_ok C → i ∈ members → current (cl_phase C i) = Some t →
  Forall (λ req, fresh now req = true) (queue_of r (n_locks (nd C i))) → may_enter now r (nd C i) →
  (∀ x, x ∈ a_queue (abs C) i → x ≠ (t, i) → before (t, i) x) ∧
  (∀ j, j ∈ members → j ≠ i → j ∈ a_acks (abs C) i).
Proof.
  intros Hok Him Hp Hf (stale & first & rest & Hq & Hs & _ & Hid & Hsz). set (n := nd C i) in *.
  assert (stale = []) as ->.
  { destruct stale as [|x stale]; [done|]. rewrite Hq in Hf. inversion Hf as [|? ? Hx]; subst.
    inversion Hs as [|? ? Hx']; subst. congruence. }
  simpl in Hq, Hsz. assert (n_ID n = i) as Eid by apply (co_member _ Hok i Him). rewrite Eid in Hid.
  assert (request_of first = (t, i)) as Efirst.
  { pose proof (co_own _ Hok i Him) as Hown. rewrite Hp in Hown. unfold own_requests in Hown. fold n in Hown.
    rewrite Hq, filter_cons_True, fmap_cons in Hown by done. congruence. }
  split.
  - intros x Hx Hne. cbn [a_queue abs] in Hx. rewrite elem_of_abs_queue, list_elem_of_fmap in Hx.
    destruct Hx as (y & -> & Hy). fold n in Hy. destruct (before_total (t, i) (request_of y)) as [|Hlt]; [done|done|].
    exfalso. pose proof (queue_of_ok _ r (co_sorted _ Hok i Him)) as Ho. fold n in Ho. rewrite Hq in *.
    apply elem_of_cons in Hy as [->|Hy]; [done|]. inversion Ho as [|? ? _ Hall]; subst.
    rewrite Forall_forall in Hall. specialize (Hall y Hy). rewrite <-Efirst in Hlt.
    assert (CompareLockRequests y first = true); [|congruence].
    rewrite CompareLockRequests_Lamport. by apply LessLamport_iff.
  - intros j Hj Hji. cbn [a_acks abs]. destruct (co_member _ Hok i Him) as (_ & Hdom & _). fold n in Hdom |- *.
    apply (all_acked _ (members ∖ {[i]})); [|rewrite <-Hdom, size_dom; exact Hsz|set_solver].
    intros k. by apply (co_acks _ Hok).
Qed.

Lemma enter_simulated C i now t (ok : bool) C' : cluster_ok C → i ∈ members → cl_phase C i = Waiting t →
  Forall (λ req, fresh now req = true) (queue_of r (n_locks (nd C i))) →
  run_at i (on_node (EnterCriticalSection now r)) C = Some (ok, C') →
  simulated C (if ok then set_phase i (Inside t) C' else C').
Proof.
  intros Hok Him Hp Hf Hr.
  destruct (Enter_run now (nd C i) Hf) as (ok' & n' & E & Hmay & Hpe & Hid & Hclk & Hmc & Hq & Ha & Hso).
  destruct (run_at_on_node _ _ _ _ _ _ _ _ E Hr) as [-> ->]. clear E Hr.
  assert (n_ID (nd C i) = i) as Eid by apply (co_member _ Hok i Him). rewrite Eid. set (msg := mkMessage _ _ _ _).
  set (o := if ok' then to_all (nd C i) msg else []). set (b := set_node n' (cl_node C i)).
  assert (∀ j m, m ∈ sent_to j o → m = msg ∧ j ∈ members ∧ j ≠ i) as Hsent.
  { intros j m. unfold o. destruct ok'; [|by intros ?%not_elem_of_nil].
    rewrite (sent_to_all i) by apply (co_member _ Hok i Him). case_decide; [|by intros ?%not_elem_of_nil].
    by intros ->%list_elem_of_singleton. }
  assert (∀ a c, omap amsg_of (if decide (a = i) then sent_to c o else []) = []) as Hquiet.
  { intros a c. case_decide; [|done]. unfold o. destruct ok'; [|done].
    rewrite (sent_to_all i) by apply (co_member _ Hok i Him). by case_decide. }
  assert (∀ ph, current (ph i) = Some t → (∀ k, k ≠ i → ph k = cl_phase C k) →
    cluster_ok (mkCluster (cl_node (stepped i b o C)) (cl_out (stepped i b o C)) ph) ∧
    same (mkLockState (a_clock (abs C)) ph (a_queue (abs C)) (a_acks (abs C)) (a_chan (abs C)))
      (abs (mkCluster (cl_node (stepped i b o C)) (cl_out (stepped i b o C)) ph))) as Hall.
  { intros ph Hph Hother. split.
    - apply stepped_ok; try done; cbn [b_node b set_node].
      + apply Hso, (co_sorted _ Hok i Him).
      + lia.
      + intros m. rewrite Hmc. by left.
      + intros j m (-> & ? & ?)%Hsent. split_and!; try done. constructor.
      + unfold own_requests. rewrite Hq, Hph. pose proof (co_own _ Hok i Him) as Ho. by rewrite Hp in Ho.
      + intros j. rewrite Ha. by apply (co_acks _ Hok).
    - assert (∀ k, nd (mkCluster (cl_node (stepped i b o C)) (cl_out (stepped i b o C)) ph) k =
        if decide (k = i) then n' else nd C k) as Hnd by (intros k; apply nd_stepped).
      split; [|split; [|split; [|split]]]; [..|intros a c; unfold abs; cbn [a_chan]; rewrite in_flight_stepped by done;
        by rewrite omap_app, Hquiet, app_nil_r]; intros k; unfold abs; cbn [a_clock a_phase a_queue a_acks];
        rewrite ?Hnd; try (case_decide; [subst k|]); rewrite ?Hclk, ?Hq, ?Ha; done. }
  destruct ok'.
  - destruct (Hall (<[i := Inside t]> (cl_phase C))) as [Hok' Hsame];
      [by rewrite fn_lookup_insert|intros; by rewrite fn_lookup_insert_ne|].
    split; [exact Hok'|]. eexists. split; [|exact Hsame].
    destruct (may_enter_first C i now t Hok Him) as [M1 M2]; [by rewrite Hp|done|by apply Hmay|].
    by apply rtc_once, (step_enter _ _ (abs C) i t).
  - destruct (Hall (cl_phase C)) as [Hok' Hsame]; [by rewrite Hp|done|]. split; [exact Hok'|].
    exists (abs C). split; [done|exact Hsame].
Qed.

(** A transmission: the sender's clock moves on, and the message is under way. *)
Lemma nd_after_send i j n rest C k : nd (after_send i j n rest C) k = if decide (k = i) then n else nd C k.
Proof.
  unfold nd. simpl. case_decide; [subst; by rewrite fn_lookup_insert|by rewrite fn_lookup_insert_ne].
Qed.

Lemma after_send_ok i j t msg rest C : cluster_ok C → i ∈ members → cl_out C i j = msg :: rest →
  n_logicalTime (nd C i) ≤ t → cluster_ok (after_send i j (set_logicalTime t (nd C i)) rest C).
Proof.
  intros Hok Him Eout Ht. set (n := set_logicalTime t (nd C i)).
  pose proof (nd_after_send i j n rest C) as Hnd. split; intros k; rewrite ?Hnd.
  - intros Hk. case_decide; [subst k|]; by apply (co_member _ Hok).
  - intros Hk. case_decide; [subst k|]; by apply (co_sorted _ Hok).
  - intros l m Hm. assert (m ∈ cl_out C k l) as Hm'.
    { simpl in Hm. case_decide as Hkl; [|done]. destruct Hkl as [-> ->]. rewrite Eout. by right. }
    destruct (co_out _ Hok k l m Hm') as (? & ? & ? & Hl). split_and!; try done.
    case_decide; [subst k; by eapply lock_message_mono|done].
  - intros m Hk Hm. assert (m ∈ n_messageChan (nd C k)) as Hm' by (case_decide; [by subst k|done]).
    destruct (co_chan _ Hok k m Hk Hm') as (a & ? & ? & Hl). exists a. split_and!; try done.
    case_decide; [subst k; by eapply lock_message_mono|done].
  - intros Hk. case_decide; [subst k|]; by apply (co_own _ Hok).
  - intros l Hk. case_decide; [subst k|]; by apply (co_acks _ Hok).
  - intros Hk. pose proof (co_clock _ Hok k Hk). case_decide; [subst k; simpl; lia|done].
Qed.

Lemma SendMessage_run net ip port msg n o ok n' : clock_ok 3 n →
  SendMessage net ip port msg n = (o, Ret (ok, n')) →
  ∃ t, n' = set_logicalTime t n ∧ n_logicalTime n ≤ t ∧
    ∀ m, Encode m ∈ o → m = mkMessageWithTime msg t.
Proof.
  intros Hc E. destruct (send_loop_spec 0 3 net ip port msg n Hc) as (o1 & ok1 & n1 & k & E1 & Hn1 & _ & _ & He & _).
  unfold SendMessage in E. rewrite E1 in E. injection E as <- <- <-.
  exists (n_logicalTime n + Z.of_nat k). split_and!; [done|lia|]. intros m Hm.
  assert (m ∈ omap encoded o1) as Hin by (apply list_elem_of_omap; by exists (Encode m)).
  rewrite He in Hin. destruct ok1; [|by apply not_elem_of_nil in Hin].
  apply list_elem_of_singleton in Hin as ->. by rewrite Hn1.
Qed.

(** For the protocol: the clock of the sender ticks, and the message is lost. *)
Lemma lost_simulated C i j msg rest t : cluster_ok C → i ∈ members → cl_out C i j = msg :: rest →
  n_logicalTime (nd C i) ≤ t → simulated C (after_send i j (set_logicalTime t (nd C i)) rest C).
Proof.
  intros Hok Him Eout Ht. split; [by eapply after_send_ok|]. set (C' := after_send _ _ _ _ _).
  destruct (co_out _ Hok i j msg) as (_ & _ & Hij & _); [rewrite Eout; left|].
  eexists. split.
  { eapply rtc_l; [by apply (step_tick _ _ (abs C) i t)|].
    apply rtc_once, (step_lose _ _ _ i j (a_chan (abs C') i j)). unfold abs. cbn [a_chan].
    rewrite !(decide_False (P := i = j)) by done. unfold in_flight, C'. rewrite nd_after_send.
    destruct (decide (j = i)); [done|]. simpl. rewrite decide_True by done. rewrite Eout, !omap_app.
    apply sublist_app; [done|]. simpl. destruct (amsg_of msg); [by apply sublist_cons|done]. }
  split; [|split; [|split; [|split]]].
  - intros k. cbn [a_clock abs]. unfold C'. rewrite nd_after_send, insert_case. by case_decide.
  - done.
  - intros k x. cbn [a_queue abs]. unfold C'. rewrite nd_after_send. case_decide; [by subst k|done].
  - intros k. cbn [a_acks abs]. unfold C'. rewrite nd_after_send. case_decide; [by subst k|done].
  - intros a c. cbn [a_chan]. destruct (set_chan_case (a_chan (abs C)) i j (a_chan (abs C') i j) a c)
      as [(-> & -> & ->)|[Hne ->]]; [done|]. unfold abs. cbn [a_chan]. case_decide; [done|].
    unfold in_flight, C'. rewrite nd_after_send. simpl. rewrite (decide_False (P := a = i ∧ c = j)) by done.
    case_decide; [by subst c|done].
Qed.

(** The receiver's part: its clock moves past the stamp, and the message waits
    for the message loop unless there is no room for it. *)
Lemma lock_message_type i t m : lock_message i t m →
  msg_Type m ∉ [MessageDiscovery; MessageAPIFileDelete; MessageStreamUploadInit; MessageStreamDownloadInit].
Proof. destruct 1; vm_compute; intros Hin; repeat (apply elem_of_cons in Hin as [Hin|Hin]; [discriminate|]);
  by apply not_elem_of_nil in Hin. Qed.

Lemma handleConnection_run i t m now s1 s2 b : lock_message i t (mwt_Message m) →
  0 ≤ n_logicalTime (b_node b) < maxInt → mwt_LogicalTime m < maxInt →
  ∃ (room : bool),
    let t' := Z.max (mwt_LogicalTime m) (n_logicalTime (b_node b)) + 1 in
    handleConnection now s1 s2 (Some m) b = ([], Ret ((),
      set_node (set_messageChan (if room then n_messageChan (b_node b) ++ [mwt_Message m] else n_messageChan (b_node b))
        (set_logicalTime t' (b_node b))) b)).
Proof.
  intros Hm Hb Ht. set (t' := Z.max (mwt_LogicalTime m) (n_logicalTime (b_node b)) + 1).
  exists (length (n_messageChan (b_node b)) <? messageChan_capacity)%nat. cbv zeta.
  unfold handleConnection. rewrite (bind_silent _ _ _ t' (set_node (set_logicalTime t' (b_node b)) b)).
  2: { by apply on_node_run, Update_run. }
  apply lock_message_type in Hm. unfold dispatch.
  assert (∀ ty, ty ∈ [MessageDiscovery; MessageAPIFileDelete; MessageStreamUploadInit; MessageStreamDownloadInit] →
    String.eqb (msg_Type (mwt_Message m)) ty = false) as Hne.
  { intros ty Hty. apply String.eqb_neq. intros E. apply Hm. by rewrite E. }
  rewrite !Hne by set_solver.
  unfold enqueue_message, on_node, node_do, zoom, modify. cbn [b_node set_node].
  change (n_messageChan (set_logicalTime t' (b_node b))) with (n_messageChan (b_node b)).
  destruct (_ <? _)%nat; reflexivity.
Qed.

Lemma from_app i l1 l2 : from i (l1 ++ l2) = from i l1 ++ from i l2.
Proof. apply filter_app. Qed.

Lemma from_one i m : from i [m] = if decide (msg_From m = i) then [m] else [].
Proof. unfold from. rewrite filter_cons. by case_decide. Qed.

Lemma send_simulated C i j msg rest t T now s1 s2 C' : cluster_ok C → i ∈ members → cl_out C i j = msg :: rest →
  n_logicalTime (nd C i) ≤ t → t < maxInt → 0 ≤ n_logicalTime (nd C j) < maxInt →
  T = mkMessageWithTime msg t →
  run_at j (handleConnection now s1 s2 (Some T)) (after_send i j (set_logicalTime t (nd C i)) rest C) = Some ((), C') →
  simulated C C'.
Proof.
  intros Hok Him Eout Ht Hmax Hj -> Hr. set (C1 := after_send i j (set_logicalTime t (nd C i)) rest C) in *.
  destruct (co_out _ Hok i j msg) as (_ & Hjm & Hij & Hlm); [rewrite Eout; left|].
  assert (cluster_ok C1) as Hok1 by (by eapply after_send_ok).
  assert (∀ k, nd C1 k = if decide (k = i) then set_logicalTime t (nd C i) else nd C k) as Hnd1 by apply nd_after_send.
  assert (nd C1 j = nd C j) as Ej by (rewrite Hnd1; by rewrite decide_False).
  destruct (handleConnection_run i t (mkMessageWithTime msg t) now s1 s2 (cl_node C1 j)) as (room & E);
    [by eapply lock_message_mono|change (b_node (cl_node C1 j)) with (nd C1 j); by rewrite Ej|done|].
  apply run_at_inv in Hr as (o & b & E' & ->). rewrite E in E'. injection E' as <- <-. clear E.
  change (<[i:=set_node (set_logicalTime t (nd C i)) (cl_node C i)]> (cl_node C)) with (cl_node C1).
  change (b_node (cl_node C1 j)) with (nd C1 j). rewrite Ej. cbn [mwt_Message mwt_LogicalTime]. set (t' := Z.max t (n_logicalTime (nd C j)) + 1).
  set (mc := if room then n_messageChan (nd C j) ++ [msg] else n_messageChan (nd C j)).
  set (b := set_node _ _). destruct (lost_simulated C i j msg rest t Hok Him Eout Ht) as [_ (s1' & Hs1 & Hsame)].
  fold C1 in Hsame.
  assert (∀ k, nd (stepped j b [] C1) k = if decide (k = j) then set_messageChan mc (set_logicalTime t' (nd C j))
    else if decide (k = i) then set_logicalTime t (nd C i) else nd C k) as Hnd.
  { intros k. rewrite nd_stepped. case_decide; [done|apply Hnd1]. }
  split.
  - apply (stepped_ok j b [] C1 (cl_phase C1)); rewrite ?Ej; cbn [b_node b set_node]; try done.
    + exact (co_sorted _ Hok j Hjm).
    + cbn. lia.
    + intros m. cbn. unfold mc. destruct room; [|by left]. rewrite elem_of_app, list_elem_of_singleton.
      intros [Hm| ->]; [by left|right]. exists i. split_and!; [done|done|]. eapply lock_message_mono; [|exact Hlm]. lia.
    + intros k m. by intros ?%not_elem_of_nil.
    + pose proof (co_own _ Hok j Hjm) as Ho. exact Ho.
    + exact (λ k, co_acks _ Hok j k Hjm).
  - assert (∀ a c, a_chan (abs (stepped j b [] C1)) a c =
      if room then a_chan (abs C) a c else a_chan (abs C1) a c) as Hchan.
    { intros a c. unfold abs. cbn [a_chan]. destruct (decide (a = c)) as [|Hac]; [by destruct room|].
      unfold in_flight. rewrite Hnd, Hnd1. cbn [stepped cl_out]. rewrite omap_app.
      assert (∀ l : list Message, (if decide (a = j) then l ++ sent_to c [] else l) = l) as ->
        by (intros l; case_decide; [by rewrite app_nil_r|done]).
      assert (cl_out C1 a c = if decide (a = i ∧ c = j) then rest else cl_out C a c) as -> by done.
      destruct (decide (c = j)) as [->|Hc].
      - cbn [n_messageChan set_messageChan]. rewrite (decide_False (P := j = i)) by done. unfold mc.
        destruct room; [|by rewrite omap_app].
        rewrite from_app, from_one, (lock_message_from _ _ _ Hlm), !omap_app, <-app_assoc.
        destruct (decide (i = a)) as [<-|Hia].
        + rewrite decide_True by done. rewrite Eout. by rewrite <-omap_app.
        + by rewrite decide_False by naive_solver.
      - rewrite (decide_False (P := a = i ∧ c = j)) by naive_solver.
        destruct (decide (c = i)) as [->|Hci]; destruct room; by rewrite omap_app. }
    destruct room.
    + eexists. split.
      { eapply rtc_l; [by apply (step_tick _ _ (abs C) i t)|].
        apply rtc_once, (step_tick _ _ _ j t'). cbn [a_clock abs]. rewrite fn_lookup_insert_ne by done.
        fold (nd C j). lia. }
      split; [|split; [|split; [|split]]].
      * intros k. cbn [a_clock abs]. rewrite Hnd, !insert_case. by repeat case_decide.
      * done.
      * intros k x. cbn [a_queue abs]. rewrite Hnd. repeat case_decide; by subst.
      * intros k. cbn [a_acks abs]. rewrite Hnd. repeat case_decide; by subst.
      * intros a c. cbn [a_chan]. by rewrite Hchan.
    + destruct Hsame as (Sc & Sp & Sq & Sa & Sh). eexists. split.
      { eapply rtc_r; [exact Hs1|]. apply (step_tick _ _ s1' j t'). rewrite Sc. cbn [a_clock abs]. rewrite Ej. lia. }
      split; [|split; [|split; [|split]]]; cbn [a_clock a_phase a_queue a_acks a_chan].
      * intros k. rewrite insert_case. cbn [a_clock abs]. rewrite Hnd. case_decide; [done|]. rewrite Sc. cbn [a_clock abs].
        by rewrite Hnd1.
      * intros k. by rewrite Sp.
      * intros k x. rewrite Sq. cbn [a_queue abs]. rewrite Hnd, Hnd1. repeat case_decide; by subst.
      * intros k. rewrite Sa. cbn [a_acks abs]. rewrite Hnd, Hnd1. repeat case_decide; by subst.
      * intros a c. by rewrite Sh, Hchan.
Qed.

(** Handling a message: it leaves the inbox, and answers go out. *)
Definition in_flight_rest (C : Cluster) (j : uuid) (rest : list Message) (a c : uuid) : list Message :=
  from a (if decide (c = j) then rest else n_messageChan (nd C c)) ++ cl_out C a c.

Lemma in_flight_head C j msg rest a c : n_messageChan (nd C j) = msg :: rest →
  in_flight C a c = (if decide (c = j ∧ msg_From msg = a) then [msg] else []) ++ in_flight_rest C j rest a c.
Proof.
  intros E. unfold in_flight, in_flight_rest. destruct (decide (c = j)) as [->|Hc].
  - rewrite E. unfold from at 1. rewrite filter_cons. destruct (decide (msg_From msg = a)).
    + by rewrite decide_True.
    + by rewrite decide_False by naive_solver.
  - by rewrite decide_False by naive_solver.
Qed.

Lemma in_flight_handled C j msg rest b o a c : n_messageChan (nd C j) = msg :: rest → n_messageChan (b_node b) = rest →
  in_flight (stepped j b o C) a c = in_flight_rest C j rest a c ++ (if decide (a = j) then sent_to c o else []).
Proof.
  intros E Eb. unfold in_flight, in_flight_rest. rewrite nd_stepped, <-app_assoc. cbn [stepped cl_out]. f_equal.
  - case_decide as Hc; [by rewrite Eb|done].
  - case_decide; [done|by rewrite app_nil_r].
Qed.

(** The channels after it, for the protocol. *)
Lemma chan_handled C j k msg rest b o (mo ao : option amsg) (reply : list Message) :
  n_messageChan (nd C j) = msg :: rest → n_messageChan (b_node b) = rest → msg_From msg = k → k ≠ j →
  amsg_of msg = mo → omap amsg_of reply = match ao with Some x => [x] | None => [] end →
  (∀ c, sent_to c o = if decide (c = k) then reply else []) →
  (∀ a c, a ≠ c → ¬ (a = k ∧ c = j) → ¬ (a = j ∧ c = k) → a_chan (abs (stepped j b o C)) a c = a_chan (abs C) a c) ∧
  a_chan (abs C) k j = match mo with Some x => x :: a_chan (abs (stepped j b o C)) k j
                                   | None => a_chan (abs (stepped j b o C)) k j end ∧
  a_chan (abs (stepped j b o C)) j k = a_chan (abs C) j k ++ match ao with Some x => [x] | None => [] end.
Proof.
  intros E Eb Ef Hkj Emo Eao Hs. unfold abs. cbn [a_chan]. split_and!.
  - intros a c Hac H1' H2'. rewrite !(decide_False (P := a = c)) by done.
    rewrite (in_flight_handled C j msg rest b o a c E Eb), (in_flight_head C j msg rest a c E), Hs.
    rewrite (decide_False (P := c = j ∧ _)) by (rewrite Ef; naive_solver). rewrite !omap_app.
    case_decide as Ha; [|by rewrite app_nil_r]. rewrite decide_False by naive_solver. by rewrite app_nil_r.
  - rewrite !(decide_False (P := k = j)) by done.
    rewrite (in_flight_handled C j msg rest b o k j E Eb), (in_flight_head C j msg rest k j E).
    rewrite decide_True by done. rewrite (decide_False (P := k = j)) by done. rewrite app_nil_r.
    simpl. rewrite Emo. by destruct mo.
  - rewrite !(decide_False (P := j = k)) by done.
    rewrite (in_flight_handled C j msg rest b o j k E Eb), (in_flight_head C j msg rest j k E), Hs.
    rewrite (decide_False (P := k = j ∧ _)) by tauto. rewrite !(decide_True (P := _ = _)) by done.
    by rewrite omap_app, Eao.
Qed.

(** The handlers on the messages of the lock. *)
Lemma handleLockRequest_run n k to now t : 0 ≤ t ≤ maxInt →
  let req := mkLockRequest r k t StatusPending now in
  handleLockRequest (mkMessage MessageLockRequest k to (Some (LockRequest_to_json req))) n =
    (match n_peers n !! k with
     | Some p => [GoSend (ni_IP p) (ni_Port p) (mkMessage MessageLockAck (n_ID n) (ni_ID p) (Some (JStr r)))]
     | None => []
     end, Ret ((), set_locks (record_wait req (enqueue req (n_locks n))) n)).
Proof.
  intros Ht req. unfold handleLockRequest. cbn [msg_Payload msg_From]. unfold req at 1. rewrite LockRequest_back by done. fold req.
  erewrite bind_silent by reflexivity. erewrite bind_silent by reflexivity. cbn [n_peers set_locks].
  by destruct (n_peers n !! k).
Qed.

Lemma record_wait_acks req l : lk_pendingAcks (record_wait req l) = lk_pendingAcks l.
Proof. unfold record_wait. by repeat case_match. Qed.

(** A round of the message loop with a message of the lock. *)
Lemma process_run now b msg rest (h : NodeM ()) o n' : n_messageChan (b_node b) = msg :: rest →
  processMessage now msg = on_node h → h (set_messageChan rest (b_node b)) = (o, Ret ((), n')) →
  handleMessages now b = (o, Ret ((), set_node n' b)).
Proof.
  intros E Hp Hm. unfold handleMessages. rewrite (bind_silent _ _ _ b b) by done. rewrite E.
  rewrite (bind_silent _ _ _ () (set_node (set_messageChan rest (b_node b)) b)) by done.
  rewrite Hp. by erewrite on_node_run.
Qed.

(** A handled message from [k] that leaves clock, members and client alone. *)
Lemma handled_ok C j k msg rest n' o (reply : list Message) : cluster_ok C → j ∈ members → k ∈ members → k ≠ j →
  n_messageChan (nd C j) = msg :: rest →
  n_ID n' = n_ID (nd C j) → n_peers n' = n_peers (nd C j) → n_logicalTime n' = n_logicalTime (nd C j) →
  n_messageChan n' = rest → queues_ok (n_locks n') →
  request_of <$> own_requests j n' ≡ₚ request_of <$> own_requests j (nd C j) →
  (∀ l, is_Some (acks_of n' !! l) → is_Some (acks_of (nd C j) !! l) ∨ l = k) →
  (∀ c, sent_to c o = if decide (c = k) then reply else []) →
  (∀ m, m ∈ reply → lock_message j (n_logicalTime (nd C j)) m) →
  cluster_ok (stepped j (set_node n' (cl_node C j)) o C).
Proof.
  intros Hok Hjm Hkm Hkj Emc Eid Ep Ec Er Hs Hown Hacks Hsent Hreply.
  apply (stepped_ok j _ o C (cl_phase C)); cbn [b_node set_node]; rewrite ?Ec; try done.
  - intros m. rewrite Er. intros Hm. left. rewrite Emc. by right.
  - intros c m. rewrite Hsent. case_decide as Hc; [subst c|by intros ?%not_elem_of_nil].
    intros Hm. split_and!; [done|done|by apply Hreply].
  - rewrite (co_own _ Hok j Hjm) in Hown. destruct (current (cl_phase C j)).
    + by apply Permutation_singleton_r in Hown.
    + by apply Permutation_nil_r in Hown.
  - intros l [Hl| ->]%Hacks; [by apply (co_acks _ Hok)|set_solver].
Qed.

Lemma nd_handled j n' o C c : nd (stepped j (set_node n' (cl_node C j)) o C) c = if decide (c = j) then n' else nd C c.
Proof. by rewrite nd_stepped. Qed.

Lemma request_handled C j k to now0 t rest now C' : cluster_ok C → j ∈ members → k ∈ members → k ≠ j →
  0 ≤ t ≤ n_logicalTime (nd C j) → t ≤ maxInt →
  n_messageChan (nd C j) = mkMessage MessageLockRequest k to
    (Some (LockRequest_to_json (mkLockRequest r k t StatusPending now0))) :: rest →
  run_at j (handleMessages now) C = Some ((), C') → simulated C C'.
Proof.
  intros Hok Hjm Hkm Hkj Ht Hmax Emc Hr. apply run_at_inv in Hr as (o & b & E & ->).
  destruct (co_member _ Hok j Hjm) as (Eid & Hdom & Hroute).
  assert (is_Some (n_peers (nd C j) !! k)) as [p Hp] by (apply elem_of_dom; rewrite Hdom; set_solver).
  destruct (Hroute k p Hp) as [Ek Hk].
  set (msg := mkMessage _ _ _ _) in *. set (req := mkLockRequest r k t StatusPending now0) in *.
  set (n1 := set_messageChan rest (nd C j)).
  assert (0 ≤ t ≤ maxInt) as Hrange by lia.
  pose proof (handleLockRequest_run n1 k to now0 t Hrange) as Eh. cbv zeta in Eh. fold req in Eh.
  change (n_peers n1) with (n_peers (nd C j)) in Eh. rewrite Hp in Eh. change (n_ID n1) with (n_ID (nd C j)) in Eh.
  rewrite Eid, Ek in Eh. set (ack := mkMessage MessageLockAck j k _) in Eh.
  set (n' := set_locks (record_wait req (enqueue req (n_locks n1))) n1) in Eh.
  rewrite (process_run now (cl_node C j) msg rest _ _ n' Emc eq_refl Eh) in E. injection E as <- <-.
  assert (∀ c, sent_to c [GoSend (ni_IP p) (ni_Port p) ack] = if decide (c = k) then [ack] else []) as Hsent
    by (intros c; by apply sent_to_one).
  assert (queue_of r (n_locks n') ≡ₚ queue_of r (n_locks (nd C j)) ++ [req]) as Hq.
  { unfold n', queue_of. cbn [n_locks set_locks]. rewrite record_wait_queue. cbn. rewrite lookup_insert_eq. cbn.
    apply SliceStable_perm. }
  assert (acks_of n' = acks_of (nd C j)) as Ha
    by (unfold n', acks_of; cbn [n_locks set_locks]; by rewrite record_wait_acks).
  split.
  - apply (handled_ok C j k msg rest n' _ [ack]); try exact Hsent; try done.
    + unfold n'. cbn [n_locks set_locks]. unfold queues_ok. rewrite record_wait_queue.
      apply enqueue_ok. exact (co_sorted _ Hok j Hjm).
    + unfold own_requests. rewrite Hq, filter_app, filter_cons_False by done. by rewrite app_nil_r.
    + intros l. rewrite Ha. by left.
    + intros m ->%list_elem_of_singleton. constructor.
  - destruct (chan_handled C j k msg rest (set_node n' (cl_node C j)) [GoSend (ni_IP p) (ni_Port p) ack]
      (Some (AReq t)) (Some AAck) [ack]) as (Ch1 & Ch2 & Ch3); try done.
    { by apply amsg_of_request. }
    eexists. split.
    { eapply rtc_once, (step_get_request _ _ (abs C) k j t); [done|done|done|exact Ch2|]. cbn [a_clock abs]. lia. }
    split; [|split; [|split; [|split]]].
    + intros c. cbn [a_clock abs]. rewrite nd_handled. case_decide; [by subst c|done].
    + done.
    + intros c x. cbn [a_queue abs]. rewrite nd_handled, insert_case. case_decide; [subst c|done].
      rewrite elem_of_union, elem_of_singleton, !elem_of_abs_queue, Hq, fmap_app, elem_of_app.
      change (request_of <$> [req]) with [(t, k)]. rewrite list_elem_of_singleton.
      done.
    + intros c. cbn [a_acks abs]. rewrite nd_handled. case_decide; [subst c; by rewrite Ha|done].
    + intros a c. cbn [a_chan]. destruct (decide (a = c)) as [->|Hac].
      { unfold set_chan. rewrite !decide_False by naive_solver. unfold abs. cbn [a_chan]. by rewrite !decide_True. }
      unfold set_chan. destruct (decide (a = j ∧ c = k)) as [[-> ->]|H1']; [by rewrite Ch3|].
      destruct (decide (a = k ∧ c = j)) as [[-> ->]|H2']; [done|]. by rewrite Ch1.
Qed.

Lemma ack_handled C j k to rest now C' : cluster_ok C → j ∈ members → k ∈ members → k ≠ j →
  n_messageChan (nd C j) = mkMessage MessageLockAck k to (Some (JStr r)) :: rest →
  run_at j (handleMessages now) C = Some ((), C') → simulated C C'.
Proof.
  intros Hok Hjm Hkm Hkj Emc Hr. apply run_at_inv in Hr as (o & b & E & ->).
  set (msg := mkMessage _ _ _ _) in *. set (n1 := set_messageChan rest (nd C j)).
  set (n' := set_locks (add_ack r k (n_locks n1)) n1).
  rewrite (process_run now (cl_node C j) msg rest (handleLockAck msg) [] n' Emc eq_refl eq_refl) in E.
  injection E as <- <-.
  assert (acks_of n' = <[k := true]> (acks_of (nd C j))) as Ha
    by (unfold acks_of; cbn; by rewrite lookup_insert_eq).
  assert (queue_of r (n_locks n') = queue_of r (n_locks (nd C j))) as Hq by done.
  split.
  - apply (handled_ok C j k msg rest n' [] []); try done.
    + exact (co_sorted _ Hok j Hjm).
    + intros l. rewrite Ha. destruct (decide (l = k)) as [->|]; [by right|]. rewrite lookup_insert_ne by done. by left.
    + intros c. by case_decide.
    + intros m. by intros ?%not_elem_of_nil.
  - destruct (chan_handled C j k msg rest (set_node n' (cl_node C j)) [] (Some AAck) None []) as (Ch1 & Ch2 & Ch3);
      try done; [intros c; by case_decide|]. rewrite app_nil_r in Ch3.
    eexists. split; [eapply rtc_once, (step_get_ack _ _ (abs C) k j); [done|done|done|exact Ch2]|].
    split; [|split; [|split; [|split]]].
    + intros c. cbn [a_clock abs]. rewrite nd_handled. case_decide; [by subst c|done].
    + done.
    + intros c x. cbn [a_queue abs]. rewrite nd_handled. case_decide; [subst c; by rewrite Hq|done].
    + intros c. cbn [a_acks abs]. rewrite nd_handled, insert_case. case_decide; [subst c|done]. rewrite Ha.
      apply set_eq. intros x. rewrite elem_of_union, elem_of_singleton, !elem_of_dom. unfold is_Some.
      setoid_rewrite map_lookup_filter_Some. destruct (decide (x = k)) as [->|Hx].
      * rewrite lookup_insert_eq. naive_solver.
      * rewrite lookup_insert_ne by done. naive_solver.
    + intros a c. cbn [a_chan]. destruct (decide (a = c)) as [->|Hac].
      { unfold set_chan. rewrite !decide_False by naive_solver. unfold abs. cbn [a_chan]. by rewrite !decide_True. }
      unfold set_chan. destruct (decide (a = k ∧ c = j)) as [[-> ->]|H2']; [done|].
      destruct (decide (a = j ∧ c = k)) as [[-> ->]|H1']; [by rewrite Ch3|]. by rewrite Ch1.
Qed.

Lemma acquired_handled C j k to rest now C' : cluster_ok C → j ∈ members → k ∈ members → k ≠ j →
  n_messageChan (nd C j) = mkMessage MessageLockAcquired k to (Some (JStr r)) :: rest →
  run_at j (handleMessages now) C = Some ((), C') → simulated C C'.
Proof.
  intros Hok Hjm Hkm Hkj Emc Hr. apply run_at_inv in Hr as (o & b & E & ->).
  set (msg := mkMessage _ _ _ _) in *. set (n1 := set_messageChan rest (nd C j)).
  set (n' := set_locks (set_holders (<[r := k]> (lk_holders (n_locks n1))) (n_locks n1)) n1).
  rewrite (process_run now (cl_node C j) msg rest (handleLockAcquired msg) [] n' Emc eq_refl eq_refl) in E.
  injection E as <- <-. split.
  - apply (handled_ok C j k msg rest n' [] []); try done.
    + exact (co_sorted _ Hok j Hjm).
    + intros l Hl. by left.
    + intros c. by case_decide.
    + intros m. by intros ?%not_elem_of_nil.
  - destruct (chan_handled C j k msg rest (set_node n' (cl_node C j)) [] None None []) as (Ch1 & Ch2 & Ch3);
      try done; [intros c; by case_decide|]. rewrite app_nil_r in Ch3.
    eexists. split; [done|]. split; [|split; [|split; [|split]]].
    + intros c. cbn [a_clock abs]. rewrite nd_handled. case_decide; [by subst c|done].
    + done.
    + intros c x. cbn [a_queue abs]. rewrite nd_handled. case_decide; [by subst c|done].
    + intros c. cbn [a_acks abs]. rewrite nd_handled. case_decide; [by subst c|done].
    + intros a c. destruct (decide (a = c)) as [->|Hac]; [unfold abs; cbn [a_chan]; by rewrite !decide_True|].
      destruct (decide (a = k ∧ c = j)) as [[-> ->]|H2']; [done|].
      destruct (decide (a = j ∧ c = k)) as [[-> ->]|H1']; [by rewrite Ch3|]. by rewrite Ch1.
Qed.

Lemma release_handled C j k to rest now C' : cluster_ok C → j ∈ members → k ∈ members → k ≠ j →
  n_messageChan (nd C j) = mkMessage MessageLockRelease k to (Some (JStr r)) :: rest →
  run_at j (handleMessages now) C = Some ((), C') → simulated C C'.
Proof.
  intros Hok Hjm Hkm Hkj Emc Hr. apply run_at_inv in Hr as (o & b & E & ->).
  set (msg := mkMessage _ _ _ _) in *. set (n1 := set_messageChan rest (nd C j)).
  set (l1 := set_holders (delete r (lk_holders (n_locks n1))) (set_waitFor (delete k <$> lk_waitFor (n_locks n1)) (n_locks n1))).
  set (n' := set_locks (dequeue r k l1) n1).
  rewrite (process_run now (cl_node C j) msg rest (handleLockRelease msg) [] n' Emc eq_refl eq_refl) in E.
  injection E as <- <-.
  destruct (dequeue_spec k l1) as (D1 & D2 & _ & D4). change (queue_of r l1) with (queue_of r (n_locks (nd C j))) in *.
  assert (acks_of n' = acks_of (nd C j)) as Ha
    by (unfold n', acks_of, dequeue; cbn [n_locks set_locks]; by destruct (remove_first _ _)).
  split.
  - apply (handled_ok C j k msg rest n' [] []); try done.
    + apply dequeue_ok. exact (co_sorted _ Hok j Hjm).
    + unfold own_requests. cbn [n' n_locks set_locks]. by rewrite D4.
    + intros l. rewrite Ha. by left.
    + intros c. by case_decide.
    + intros m. by intros ?%not_elem_of_nil.
  - destruct (chan_handled C j k msg rest (set_node n' (cl_node C j)) [] (Some ARel) None []) as (Ch1 & Ch2 & Ch3);
      try done; [intros c; by case_decide|]. rewrite app_nil_r in Ch3.
    eexists. split.
    { eapply rtc_once, (step_get_release _ _ (abs C) k j _
        (list_to_set (request_of <$> queue_of r (n_locks n')))); [done|done|done|exact Ch2|..]; cbn [a_queue abs].
      - intros t i. rewrite !elem_of_abs_queue, !list_elem_of_fmap. intros (y & -> & Hy). exists y. split; [done|].
        by apply D1.
      - intros t i Hi. rewrite !elem_of_abs_queue, !list_elem_of_fmap. intros (y & Ey & Hy). exists y.
        split; [done|]. apply D2; [|done]. injection Ey. congruence. }
    split; [|split; [|split; [|split]]].
    + intros c. cbn [a_clock abs]. rewrite nd_handled. case_decide; [by subst c|done].
    + done.
    + intros c x. cbn [a_queue abs]. rewrite nd_handled, insert_case. by case_decide.
    + intros c. cbn [a_acks abs]. rewrite nd_handled. case_decide; [subst c; by rewrite Ha|done].
    + intros a c. cbn [a_chan]. destruct (decide (a = c)) as [->|Hac].
      { unfold set_chan. rewrite !decide_False by naive_solver. unfold abs. cbn [a_chan]. by rewrite !decide_True. }
      unfold set_chan. destruct (decide (a = k ∧ c = j)) as [[-> ->]|H2']; [done|].
      destruct (decide (a = j ∧ c = k)) as [[-> ->]|H1']; [by rewrite Ch3|]. by rewrite Ch1.
Qed.

(** A step that sends nothing and changes nothing that the protocol sees. *)
Lemma unseen_simulated j b C : cluster_ok C → j ∈ members → let n' := b_node b in
  n_ID n' = n_ID (nd C j) → n_peers n' = n_peers (nd C j) → n_logicalTime n' = n_logicalTime (nd C j) →
  n_messageChan n' = n_messageChan (nd C j) → queue_of r (n_locks n') = queue_of r (n_locks (nd C j)) →
  acks_of n' = acks_of (nd C j) → queues_ok (n_locks n') → simulated C (stepped j b [] C).
Proof.
  cbv zeta. intros Hok Hjm Eid Ep Ec Em Eq Ea Hs. split.
  - apply (stepped_ok j b [] C (cl_phase C)); try done.
    + by rewrite Ec.
    + intros m. rewrite Em. by left.
    + intros k m. by intros ?%not_elem_of_nil.
    + unfold own_requests. rewrite Eq. exact (co_own _ Hok j Hjm).
    + rewrite Ea. exact (λ k, co_acks _ Hok j k Hjm).
  - assert (∀ a c, in_flight (stepped j b [] C) a c = in_flight C a c) as Hfl
      by (intros a c; rewrite (in_flight_stepped j b [] C (cl_phase C)) by done; case_decide; by rewrite app_nil_r).
    eexists. split; [done|]. split; [|split; [|split; [|split]]]; intros k; unfold abs;
      cbn [a_clock a_phase a_queue a_acks a_chan]; rewrite ?nd_stepped; try (case_decide; [subst k|]);
      rewrite ?Ec, ?Eq, ?Ea; try done; intros c; by rewrite Hfl.
Qed.

Lemma process_simulated C j now C' : cluster_ok C → j ∈ members →
  run_at j (handleMessages now) C = Some ((), C') → simulated C C'.
Proof.
  intros Hok Hjm Hr. destruct (n_messageChan (nd C j)) as [|msg rest] eqn:Emc.
  - apply run_at_inv in Hr as (o & b & E & ->). unfold handleMessages in E.
    rewrite (bind_silent _ _ _ (cl_node C j) (cl_node C j)) in E by done.
    change (b_node (cl_node C j)) with (nd C j) in E. rewrite Emc in E. injection E as <- <-.
    apply unseen_simulated; try done. exact (co_sorted _ Hok j Hjm).
  - destruct (co_chan _ Hok j msg Hjm) as (k & Hkm & Hkj & Hm); [rewrite Emc; left|].
    destruct Hm as [to now0 t Ht Hmax|to|to|to].
    + apply (request_handled C j k to now0 t rest now C'); done.
    + apply (ack_handled C j k to rest now C'); done.
    + apply (acquired_handled C j k to rest now C'); done.
    + apply (release_handled C j k to rest now C'); done.
Qed.

Lemma mjoin_none {A B} (f : A → list B) (l : list A) : (∀ x, x ∈ l → f x = []) → mjoin (f <$> l) = [].
Proof.
  induction l as [|x l IH]; intros Hl; [done|]. csimpl. rewrite (Hl x) by left. apply IH.
  intros y Hy. apply Hl. by right.
Qed.

(** A sweep that finds nothing too old leaves queues and acknowledgements as
    they are and tells nobody. *)
Lemma sweep_quiet now n : map_Forall (λ _ q, Forall (λ req, fresh now req = true) q) (lk_queue (n_locks n)) →
  ∃ n', checkLocksTimeouts now n = ([], Ret ((), n')) ∧ n_ID n' = n_ID n ∧ n_peers n' = n_peers n ∧
    n_logicalTime n' = n_logicalTime n ∧ n_messageChan n' = n_messageChan n ∧
    queue_of r (n_locks n') = queue_of r (n_locks n) ∧ acks_of n' = acks_of n.
Proof.
  intros Hf. destruct (checkLocksTimeouts_correct now n) as (rel & n' & E & Hq & Hrel).
  assert (rel = []) as ->.
  { rewrite Hrel. apply mjoin_none. intros [k q] Hk%elem_of_go_range. simpl.
    rewrite filter_none; [done|]. intros x Hx [Hx' _]. specialize (Hf k q Hk).
    rewrite Forall_forall in Hf. by rewrite (Hf x Hx) in Hx'. }
  exists n'. split; [exact E|]. destruct (checkLocksTimeouts_frame _ _ _ _ _ E) as [l ->].
  assert (∀ x, x ∈ queue_of r (n_locks n) → fresh now x = true) as Hr.
  { intros x. unfold queue_of. destruct (lk_queue (n_locks n) !! r) as [q|] eqn:Eq; [|by intros ?%not_elem_of_nil].
    intros Hx. specialize (Hf r q Eq). rewrite Forall_forall in Hf. by apply Hf. }
  destruct (Hq r) as [Eq Ea]. split_and!; try done.
  - rewrite Eq. by apply filter_all.
  - unfold acks_of. rewrite Ea. destruct (existsb _ _) eqn:Ex; [|done].
    apply existsb_exists in Ex as (x & Hx%list_elem_of_In & Hb). by rewrite (Hr x Hx) in Hb.
Qed.

Lemma sweep_simulated C i now C' : cluster_ok C → i ∈ members → in_time C (Sweeps i now) →
  run_at i (on_node (checkLocksTimeouts now)) C = Some ((), C') → simulated C C'.
Proof.
  intros Hok Him Hf Hr. destruct (sweep_quiet now (nd C i) Hf) as (n' & E & Hid & Hp & Hc & Hm & Hq & Ha).
  destruct (run_at_on_node _ _ _ _ _ _ _ _ E Hr) as [_ ->]. apply unseen_simulated; try done.
  destruct (sorted_timeouts now (nd C i) (co_sorted _ Hok i Him)) as (o & u & n1 & E1 & Hs).
  rewrite E in E1. by injection E1 as _ _ ->.
Qed.

(** ** Properties *)

(** Every timely step of the cluster is a sequence of steps of the protocol. *)
Lemma cl_step_simulated C C' : timely_step C C' → cluster_ok C → simulated C C'.
Proof.
  intros (a & Hst & Htime) Hok.
  destruct Hst as [C i now C'|C i now t ok C'|C i t C'|C i j msg rest net ip port o n Him Eout Hclk E
                  |C i j msg rest net ip port o n m now s1 s2 C' Him Eout Hclk E Hm Hmax Hj Hr|C j now C'|C i now C'].
  - by eapply request_simulated.
  - by eapply enter_simulated.
  - by eapply release_simulated.
  - destruct (SendMessage_run _ _ _ _ _ _ _ _ Hclk E) as (t & -> & Ht & _). by eapply lost_simulated.
  - destruct (SendMessage_run _ _ _ _ _ _ _ _ Hclk E) as (t & -> & Ht & Hmt). rewrite (Hmt m Hm) in *.
    by eapply (send_simulated C i j msg rest t).
  - by eapply process_simulated.
  - by eapply sweep_simulated.
Qed.

(** A quiet cluster: well-formed, nobody has asked for the resource and no
    message of the lock is on the way. *)
Record cl_init (C : Cluster) : Prop := mkClInit {
  ci_member : ∀ i, i ∈ members → member_ok i (nd C i);
  ci_sorted : ∀ i, i ∈ members → queues_ok (n_locks (nd C i));
  ci_clock : ∀ i, i ∈ members → 0 ≤ n_logicalTime (nd C i);
  ci_queue : ∀ i, queue_of r (n_locks (nd C i)) = [];
  ci_acks : ∀ i, acks_of (nd C i) = ∅;
  ci_chan : ∀ i, n_messageChan (nd C i) = [];
  ci_out : ∀ i j, cl_out C i j = [];
  ci_phase : ∀ i, cl_phase C i = Idle }.

Lemma cl_init_ok C : cl_init C → cluster_ok C ∧ lock_init (abs C).
Proof.
  intros Hi. split.
  - split.
    + apply (ci_member _ Hi).
    + apply (ci_sorted _ Hi).
    + intros i j m. rewrite (ci_out _ Hi). by intros ?%not_elem_of_nil.
    + intros j m _. rewrite (ci_chan _ Hi). by intros ?%not_elem_of_nil.
    + intros i _. unfold own_requests. by rewrite (ci_queue _ Hi), (ci_phase _ Hi).
    + intros i j _. rewrite (ci_acks _ Hi), lookup_empty. by intros [].
    + apply (ci_clock _ Hi).
  - split; [|split].
    + apply (ci_phase _ Hi).
    + intros i. cbn [a_acks abs]. rewrite (ci_acks _ Hi), map_filter_empty. by rewrite dom_empty_L.
    + intros i j. unfold abs. cbn [a_chan]. case_decide; [done|]. unfold in_flight.
      by rewrite (ci_chan _ Hi), (ci_out _ Hi).
Qed.

Lemma cl_reachable_inv C0 C : cl_init C0 → rtc timely_step C0 C → cluster_ok C ∧ lock_inv members before (abs C).
Proof.
  intros Hi Hr. destruct (cl_init_ok C0 Hi) as [Hok Hl].
  assert (lock_inv members before (abs C0)) as Hinv by (by apply lock_init_inv; [apply before_time|apply before_asym|apply before_total|]).
  clear Hi Hl. induction Hr as [|C1 C2 C3 Hst _ IH]; [done|].
  destruct (cl_step_simulated C1 C2 Hst Hok) as [Hok' (s' & Hs & Hsame)]. apply IH; [done|].
  eapply inv_same; [exact Hsame|].
  by apply (lock_steps_inv _ _ before_time before_asym before_total (abs C1)).
Qed.

(** C2: The nodes of a cluster implement the lock protocol: every step of a
    well-formed cluster (a client's request, poll or release, a message sent
    or given up, a round of a message loop, a check for time-outs) in which no
    poll and no check finds a request more than 30 seconds old leaves it
    well-formed and is, for the clocks, queues, acknowledgements and ordered
    messages, a sequence of steps of [lock_step]. *)
Theorem cluster_refines_protocol C C' : timely_step C C' → cluster_ok C →
  cluster_ok C' ∧ ∃ s', rtc (lock_step members before) (abs C) s' ∧ same s' (abs C').
Proof. apply cl_step_simulated. Qed.


(** ** Requests that have expired *)

(** The acknowledgements of all other members are enough. *)
Lemma all_acks_enough j n : member_ok j n → (∀ k, k ∈ members → k ≠ j → acks_of n !! k = Some true) →
  (size (n_peers n) ≤ count_acks (acks_of n))%nat.
Proof.
  intros (_ & Hdom & _) Ha. apply count_acks_peers. intros k Hk%elem_of_dom. rewrite Hdom in Hk.
  apply Ha; set_solver.
Qed.

(** With one own request in the queue, those in front of it are of others. *)
Lemma ahead_of_own C j t stale first rest : cluster_ok C → j ∈ members → current (cl_phase C j) = Some t →
  queue_of r (n_locks (nd C j)) = stale ++ first :: rest → lr_NodeID first = j →
  existsb (λ req, bool_decide (lr_NodeID req = j)) stale = false.
Proof.
  intros Hok Hjm Hp Hq Hj. apply not_true_iff_false. intros (x & Hx%list_elem_of_In & Hb)%existsb_exists.
  apply bool_decide_eq_true in Hb. pose proof (co_own _ Hok j Hjm) as Hown. rewrite Hp in Hown.
  apply (f_equal length) in Hown. unfold own_requests in Hown.
  rewrite Hq, filter_app, filter_cons_True, length_fmap, length_app in Hown by done. simpl in Hown.
  assert (x ∈ filter (λ req, lr_NodeID req = j) stale) as Hin by (by apply list_elem_of_filter).
  destruct (filter _ stale); [by apply not_elem_of_nil in Hin|simpl in Hown; lia].
Qed.

(** C17: the lock does not protect a node that stays inside for more than 30
    seconds. In a well-formed cluster in which one member is inside the critical
    section, another that has the acknowledgements of all others, and in whose
    queue only requests older than 30 seconds come before its own, is let in at
    its next poll; the first is still inside, and nobody has asked it. *)
Theorem expired_holder_displaced C i j now t t' stale first rest : cluster_ok C → j ∈ members → i ≠ j →
  cl_phase C i = Inside t → cl_phase C j = Waiting t' →
  (∀ k, k ∈ members → k ≠ j → acks_of (nd C j) !! k = Some true) →
  queue_of r (n_locks (nd C j)) = stale ++ first :: rest →
  Forall (λ req, fresh now req = false) stale → fresh now first = true → lr_NodeID first = j →
  ∃ C', cl_step C (Polls j now) C' ∧ cl_phase C' i = Inside t ∧ cl_phase C' j = Inside t'.
Proof.
  intros Hok Hjm Hij Hi Hj Ha Hq Hs Hf Hid.
  assert (n_ID (nd C j) = j) as Eid by apply (co_member _ Hok j Hjm).
  destruct (EnterCriticalSection_correct now r (nd C j)) as (b & n' & E & Hb & _).
  assert (b = true) as ->.
  { apply Hb. exists stale, first, rest. rewrite Eid. split_and!; try done.
    rewrite (ahead_of_own C j t' stale first rest) by (try done; by rewrite Hj).
    by apply (all_acks_enough j), Ha; apply (co_member _ Hok j Hjm). }
  assert (run_at j (on_node (EnterCriticalSection now r)) C = Some (true,
    stepped j (set_node n' (cl_node C j)) (to_all n' (mkMessage MessageLockAcquired (n_ID (nd C j)) uuid_Nil (Some (JStr r)))) C))
    as Hr by (unfold run_at; by rewrite (on_node_run _ _ _ _ _ E)).
  eexists. split; [by eapply (cs_enter C j now t' true)|]. cbn [set_phase cl_phase stepped].
  by rewrite fn_lookup_insert, fn_lookup_insert_ne.
Qed.


(** ** Running a cluster *)

(** A schedule of what happens; a message is delivered at its first attempt. *)
Inductive action :=
| Ask (i : uuid) (now : Z)
| Poll (i : uuid) (now : Z)
| Leave (i : uuid)
| Deliver (i j : uuid)
| Handle (j : uuid) (now : Z)
| Sweep (i : uuid) (now : Z).

Definition clock_okb (k : Z) (n : Node) : bool := (0 <=? n_logicalTime n) && (n_logicalTime n + k <=? maxInt).

Definition deliver (i j : uuid) (C : Cluster) : option Cluster :=
  match cl_out C i j with
  | [] => None
  | msg :: rest =>
    match SendMessage [] "" 0 msg (nd C i) with
    | (o, Ret (true, n)) =>
      match omap encoded o with
      | [m] => if (mwt_LogicalTime m <? maxInt) && clock_okb 1 (nd C j)
               then snd <$> run_at j (handleConnection 0 uuid_Nil uuid_Nil (Some m)) (after_send i j n rest C) else None
      | _ => None
      end
    | _ => None
    end
  end.

Definition act (a : action) (C : Cluster) : option Cluster :=
  match a with
  | Ask i now =>
    match cl_phase C i with
    | Idle => if bool_decide (i ∈ members) && clock_okb 1 (nd C i)
              then (λ x, set_phase i (Waiting (n_logicalTime (nd x.2 i))) x.2) <$> run_at i (on_node (RequestLock now r)) C
              else None
    | _ => None
    end
  | Poll i now =>
    match cl_phase C i with
    | Waiting t => if bool_decide (i ∈ members)
                   then (λ x : bool * Cluster, if x.1 then set_phase i (Inside t) x.2 else x.2) <$>
                          run_at i (on_node (EnterCriticalSection now r)) C
                   else None
    | _ => None
    end
  | Leave i =>
    match cl_phase C i with
    | Inside t => if bool_decide (i ∈ members)
                  then (λ x, set_phase i Idle x.2) <$> run_at i (on_node (ReleaseLock r)) C else None
    | _ => None
    end
  | Deliver i j => if bool_decide (i ∈ members) && clock_okb 3 (nd C i) then deliver i j C else None
  | Handle j now => if bool_decide (j ∈ members) then snd <$> run_at j (handleMessages now) C else None
  | Sweep i now => if bool_decide (i ∈ members) then snd <$> run_at i (on_node (checkLocksTimeouts now)) C else None
  end.

(** The clock that an action reads for the age of requests. *)
Definition reads (a : action) : clock_read :=
  match a with Poll i now => Polls i now | Sweep i now => Sweeps i now | _ => Untimed end.

#[export] Instance in_time_dec C a : Decision (in_time C a).
Proof. destruct a; apply _. Defined.

Fixpoint run_acts (l : list action) (C : Cluster) : option Cluster :=
  match l with [] => Some C | a :: l => act a C ≫= run_acts l end.

(** A schedule in which nothing is found to have expired. *)
Fixpoint timely (l : list action) (C : Cluster) : bool :=
  match l with
  | [] => true
  | a :: l => bool_decide (in_time C (reads a)) && match act a C with Some C' => timely l C' | None => true end
  end.

Lemma clock_okb_ok k n : clock_okb k n = true → clock_ok k n.
Proof. unfold clock_okb, clock_ok. lia. Qed.

Lemma act_step a C C' : act a C = Some C' → cl_step C (reads a) C'.
Proof.
  destruct a as [i now|i now|i|i j|j now|i now]; simpl.
  - destruct (cl_phase C i) eqn:Ep; try done. destruct (bool_decide _ && _) eqn:Eb; [|done].
    apply andb_prop in Eb as [Hi%bool_decide_eq_true Hc%clock_okb_ok].
    destruct (run_at _ _ _) as [[[] C1]|] eqn:E; [|done]. intros [= <-]. by eapply cs_request.
  - destruct (cl_phase C i) as [|t|] eqn:Ep; try done. destruct (bool_decide _) eqn:Eb; [|done].
    apply bool_decide_eq_true in Eb.
    destruct (run_at _ _ _) as [[ok C1]|] eqn:E; [|done]. intros [= <-]. by eapply cs_enter.
  - destruct (cl_phase C i) as [| |t] eqn:Ep; try done. destruct (bool_decide _) eqn:Eb; [|done].
    apply bool_decide_eq_true in Eb. destruct (run_at _ _ _) as [[[] C1]|] eqn:E; [|done].
    intros [= <-]. by eapply cs_release.
  - destruct (bool_decide _ && _) eqn:Eb; [|done]. apply andb_prop in Eb as [Hi%bool_decide_eq_true Hc%clock_okb_ok].
    unfold deliver. destruct (cl_out C i j) as [|msg rest] eqn:Eo; [done|].
    destruct (SendMessage _ _ _ _ _) as [o [[[] n]|]] eqn:Es; try done.
    destruct (omap encoded o) as [|m [|]] eqn:Em; try done. destruct (_ && _) eqn:Eg; [|done].
    apply andb_prop in Eg as [Hm Hj%clock_okb_ok]. destruct (run_at _ _ _) as [[[] C1]|] eqn:E; [|done].
    intros [= <-]. unfold clock_ok in Hj. eapply (cs_send C i j); [done|done|done|exact Es| | | |exact E]; [|lia|lia].
    assert (m ∈ omap encoded o) as Hin by (rewrite Em; left).
    apply list_elem_of_omap in Hin as (a & Ha & Hea). destruct a; try done. by injection Hea as ->.
  - destruct (bool_decide _) eqn:Eb; [|done]. apply bool_decide_eq_true in Eb.
    destruct (run_at _ _ _) as [[[] C1]|] eqn:E; [|done]. intros [= <-]. by eapply cs_process.
  - destruct (bool_decide _) eqn:Eb; [|done]. apply bool_decide_eq_true in Eb.
    destruct (run_at _ _ _) as [[[] C1]|] eqn:E; [|done]. intros [= <-]. by eapply cs_timeouts.
Qed.

Lemma run_acts_timely l C C' : run_acts l C = Some C' → timely l C = true → rtc timely_step C C'.
Proof.
  revert C. induction l as [|a l IH]; intros C; simpl; [by intros [= ->]|].
  destruct (act a C) as [C1|] eqn:E; [|done]. intros Hr [Ht%bool_decide_eq_true Hl]%andb_prop.
  eapply rtc_l; [exists (reads a); split; [by apply act_step|done]|]. by apply IH.
Qed.
End cluster.

(** ** Examples: two nodes *)

#[local] Existing Instance decimal_uuids.
#[local] Existing Instance decimal_times.
#[local] Existing Instance canonical_range.

Definition pair_peer (id : uuid) : NodeInfo :=
  mkNodeInfo id (if decide (id = 1%N) then "10.0.0.1" else "10.0.0.2") 8000 RoleStorage StatusOnline 5 0.

Definition pair_route (ip : string) (port : Z) : option uuid :=
  if String.eqb ip "10.0.0.1" then Some 1%N else if String.eqb ip "10.0.0.2" then Some 2%N else None.

Definition pair_member (id : uuid) : Node :=
  NodeLocks.example_node id RoleStorage (if decide (id = 1%N) then {[ 2%N := pair_peer 2 ]} else {[ 1%N := pair_peer 1 ]}) no_locks.

Definition pair_cluster : Cluster := mkCluster (λ i, NewBullyElector (pair_member i)) (λ _ _, []) (λ _, Idle).

Lemma pair_init : cl_init {[ 1%N; 2%N ]} pair_route "r" pair_cluster.
Proof.
  split; try done.
  - intros i. rewrite elem_of_union, !elem_of_singleton. intros [->| ->]; (split; [done|split]).
    + vm_compute. reflexivity.
    + intros j p. cbn. intros [<- <-]%lookup_singleton_Some. done.
    + vm_compute. reflexivity.
    + intros j p. cbn. intros [<- <-]%lookup_singleton_Some. done.
Qed.

(** The node after a method that returns. *)
Definition after {A} (m : NodeM A) (n : Node) : Node := default n (state_of (m n)).

(** The order of messages matters: the goroutines that send do not keep it.
    Both nodes ask for the lock at time 1. The request of node 1 is overtaken
    by its own acknowledgement of the request of node 2, so node 2 enters
    without having seen the earlier request; then that request arrives and is
    acknowledged, and node 1, whose request comes first, enters too. *)
Theorem reordering_breaks_exclusion :
  ∃ req1 req2 ack1 ack2,
    outs_of (RequestLock 0 "r" (pair_member 1)) = [GoSend "10.0.0.2" 8000 req1] ∧
    outs_of (RequestLock 0 "r" (pair_member 2)) = [GoSend "10.0.0.1" 8000 req2] ∧
    let n1 := after (RequestLock 0 "r") (pair_member 1) in
    let n2 := after (RequestLock 0 "r") (pair_member 2) in
    outs_of (handleLockRequest req2 n1) = [GoSend "10.0.0.2" 8000 ack1] ∧
    let n1 := after (handleLockRequest req2) n1 in
    let n2 := after (handleLockAck ack1) n2 in
    value_of (EnterCriticalSection 0 "r" n2) = Some true ∧
    let n2 := after (EnterCriticalSection 0 "r") n2 in
    outs_of (handleLockRequest req1 n2) = [GoSend "10.0.0.1" 8000 ack2] ∧
    let n1 := after (handleLockAck ack2) n1 in
    value_of (EnterCriticalSection 0 "r" n1) = Some true.
Proof. do 4 eexists. repeat split; lazy; reflexivity. Qed.

(** Node 1 asks, node 2 acknowledges, node 1 enters, and node 2 asks too. *)
Definition pair_acts : list action :=
  [Ask 1 0; Deliver 1 2; Handle 2 0; Deliver 2 1; Handle 1 0; Poll 1 0; Ask 2 0; Deliver 2 1; Deliver 1 2; Handle 1 0].


Lemma cluster_refines_protocol_witness :
  ∃ C, timely_step {[ 1%N; 2%N ]} pair_route "r" pair_cluster C ∧ cluster_ok {[ 1%N; 2%N ]} pair_route "r" C.
Proof.
  destruct (act {[ 1%N; 2%N ]} pair_route "r" (Ask 1 0) pair_cluster) as [C|] eqn:E;
    [|exfalso; revert E; vm_compute; discriminate].
  apply act_step in E. assert (timely_step {[ 1%N; 2%N ]} pair_route "r" pair_cluster C) as Hst by (by exists Untimed).
  exists C. split; [exact Hst|].
  refine (proj1 (cluster_refines_protocol {[ 1%N; 2%N ]} pair_route "r" pair_cluster C Hst _)).
  apply cl_init_ok, pair_init.
Defined.

(** Node 1 enters at once and stays; node 2 asks after 20 seconds, is
    acknowledged, and polls when the request of node 1 is 31 seconds old. *)
Definition long_acts : list action :=
  [Ask 1 0; Deliver 1 2; Handle 2 0; Deliver 2 1; Handle 1 0; Poll 1 0;
   Ask 2 (20 * Second); Deliver 2 1; Handle 1 (20 * Second);
   Deliver 1 2; Handle 2 (20 * Second); Deliver 1 2; Handle 2 (20 * Second); Sweep 1 (25 * Second)].

Lemma expired_holder_displaced_witness :
  ∃ C C', run_acts {[ 1%N; 2%N ]} pair_route "r" long_acts pair_cluster = Some C ∧
    cl_step {[ 1%N; 2%N ]} pair_route "r" C (Polls 2%N (31 * Second)) C' ∧
    cl_phase C' 1%N = Inside 1 ∧ cl_phase C' 2%N = Inside 5.
Proof.
  set (first := mkLockRequest "r" 2 5 StatusPending (20 * Second)).
  set (expired := mkLockRequest "r" 1 1 StatusPending 0).
  assert ((λ C, (cl_phase C 1%N, cl_phase C 2%N, acks_of "r" (nd C 2) !! 1%N, queue_of "r" (n_locks (nd C 2)))) <$>
    run_acts {[ 1%N; 2%N ]} pair_route "r" long_acts pair_cluster =
    Some (Inside 1, Waiting 5, Some true, [expired; first])) as Hp by (vm_compute; reflexivity).
  assert (timely {[ 1%N; 2%N ]} pair_route "r" long_acts pair_cluster = true) as Ht by (vm_compute; reflexivity).
  destruct (run_acts {[ 1%N; 2%N ]} pair_route "r" long_acts pair_cluster) as [C|] eqn:E; [|discriminate Hp].
  cbn [fmap option_fmap option_map] in Hp. injection Hp as H1 H2 H3 H4. apply run_acts_timely in E as Hr; [|exact Ht].
  destruct (cl_reachable_inv {[ 1%N; 2%N ]} pair_route "r" pair_cluster C pair_init Hr) as [Hok _].
  destruct (expired_holder_displaced {[ 1%N; 2%N ]} pair_route "r" C 1 2 (31 * Second) 1 5 [expired] first [])
    as (C' & Hst & Hi & Hj); [exact Hok|by apply elem_of_union_r, elem_of_singleton|discriminate
    |exact H1|exact H2| |exact H4| | |reflexivity|].
  - intros k Hm Hk. apply elem_of_union in Hm as [Hm|Hm]; apply elem_of_singleton in Hm; subst k; [exact H3|].
    by destruct Hk.
  - constructor; [|constructor]. vm_compute. reflexivity.
  - vm_compute. reflexivity.
  - exists C, C'. split; [reflexivity|]. split; [exact Hst|]. split; [exact Hi|exact Hj].
Defined.
