(* ===== verification/Client.v ===== *)
(** * The client of the cluster: [backend/dfs/client/master_client.go]

    What the API server uses to reach the cluster: requests to the master,
    with a search for a new master among the seed nodes when it does not
    answer, uploads to several storage nodes at once, and downloads whose hash
    is checked. The network is an argument: what becomes of the [k]-th
    connection the client tries to open. Errors are values of [cerr]; the texts
    that Go's packages put in them are left out. *)

From S2P Require Import Prelude GoStd Hashes Types Json Protocol Session Fs LocalStorage StreamServer NodeState.

Record NodeAddr := mkNodeAddr { na_IP : string; na_Port : Z }.

Record MasterClient := mkMasterClient {
  mc_seedNodes : list NodeAddr;
  mc_masterIP : string;
  mc_masterPort : Z;
  mc_timeout : Z;
  mc_clientID : uuid }.

(** The client, and how many connections it has tried to open. *)
Record Caller := mkCaller { ca_client : MasterClient; ca_dials : nat }.

(** An open connection for writing: what the peer has taken, how many more
    bytes it takes before writes fail, what it answers to the bytes it took,
    how much of the answer was read. *)
Record Conn := mkConn {
  cn_id : nat;
  cn_addr : string;
  cn_out : list byte;
  cn_budget : option nat;
  cn_peer : list byte → list byte;
  cn_read : nat;
  cn_closed : bool }.

(** An open connection for reading: the bytes that still come, whether they
    end with an error or with end of file, how many a read takes, and whether a
    deadline can be set before it. *)
Record DStream := mkDStream {
  ds_bytes : list byte;
  ds_fails : bool;
  ds_chunk : nat → nat;
  ds_reads : nat;
  ds_armed : nat → bool }.

(** What becomes of a request on an open connection: the write or the read
    fails, or a message comes back. *)
Inductive reply := WriteFails | ReadFails | Answers (m : MessageWithTime).

(** The network, by connection number and address. A download connection to a
    node that is reached but does not take the request is [None]. *)
Class Network := mkNetwork {
  nw_dial : nat → string → bool;
  nw_serve : nat → string → MessageWithTime → reply;
  nw_upload : nat → string → option nat * (list byte → list byte);
  nw_download : nat → string → list byte → option DStream }.

(** What the client does outwards. *)
Inductive CAct :=
| CDial (addr : string)
| CSend (m : MessageWithTime)
| CDeadline (id : nat) (d : Z)
| CClose (id : nat)
| CRequest (addr : string) (l : list byte)
| CWriter (l : list byte).

Inductive cerr :=
| ENoAnswer                        (* all retries exhausted *)
| EBadPayload                      (* the payload is not what it should be *)
| ERefused (msg : string)          (* the master answered with a failure *)
| ENoStorage                       (* no storage nodes available *)
| EConnect (addr : string)
| EHeader (addr : string)
| EWrite (i : nat)
| EShortWrite (i : nat) (n len : nat)
| EIncomplete (got size : Z)
| EResponse (i : nat)
| EStorage (i : nat) (msg : string)
| EReader
| ERequest
| EBadHeader (e : DecodeError)
| EStorageError (msg : option string)
| ESize (expected got : Z)
| EDeadline
| ERead (at_ : Z)
| EWriter (at_ : Z)
| EShortWriter (at_ : Z) (n len : nat)
| EHash (expected computed : string).

Definition SeedsRequired : string := "at least one seed node is required".

Definition NewMasterClient (ip : string) (port : Z) (id : uuid) : MasterClient :=
  mkMasterClient [mkNodeAddr ip port] ip port (30 * Second) id.

Definition NewMasterClientWithSeeds (seeds : list NodeAddr) (id : uuid) : Res MasterClient :=
  match seeds with
  | [] => Panic SeedsRequired
  | s :: _ => Ret (mkMasterClient seeds (na_IP s) (na_Port s) (30 * Second) id)
  end.

Abbreviation CM := (GoM Caller CAct).

Section client.
Context `{UuidText} `{TimeText} `{Network}.

(** ** Requests to the master *)

Definition getMasterAddr : CM (string * Z) :=
  gets (λ c, (mc_masterIP (ca_client c), mc_masterPort (ca_client c))).

Definition setMasterAddr (ip : string) (port : Z) : CM () :=
  modify (λ c, let mc := ca_client c in
    if decide (mc_masterIP mc ≠ ip ∨ mc_masterPort mc ≠ port)
    then mkCaller (mkMasterClient (mc_seedNodes mc) ip port (mc_timeout mc) (mc_clientID mc)) (ca_dials c)
    else c).

(** [net.DialTimeout]: the number of the connection when it is open. *)
Definition dial (addr : string) : CM (option nat) :=
  k ← gets ca_dials;
  _ ← modify (λ c, mkCaller (ca_client c) (S (ca_dials c)));
  _ ← emit (CDial addr);
  mret (if nw_dial k addr then Some k else None).

(** One connection that sends a message and reads one back. *)
Definition exchange (addr : string) (msg : MessageWithTime) : CM (option MessageWithTime) :=
  d ← dial addr;
  match d with
  | None => mret None
  | Some k =>
    match nw_serve k addr msg with
    | WriteFails => _ ← emit (CClose k); mret None
    | ReadFails => _ ← emit (CSend msg); _ ← emit (CClose k); mret None
    | Answers m => _ ← emit (CSend msg); _ ← emit (CClose k); mret (Some m)
    end
  end.

Definition nil_peer : string := "invalid memory address or nil pointer dereference".

(** The first peer that is an online master. *)
Fixpoint first_master (peers : list (option NodeInfo)) : CM (option NodeInfo) :=
  match peers with
  | [] => mret None
  | None :: _ => panic nil_peer
  | Some peer :: peers' =>
    if String.eqb (ni_Role peer) RoleMaster && String.eqb (ni_Status peer) StatusOnline
    then mret (Some peer) else first_master peers'
  end.

(** The seeds in order; [true] is a nil error. *)
Fixpoint discover_loop (seeds : list NodeAddr) : CM bool :=
  match seeds with
  | [] => mret false
  | seed :: seeds' =>
    id ← gets (λ c, mc_clientID (ca_client c));
    r ← exchange (addr_of (na_IP seed) (na_Port seed))
          (mkMessageWithTime (mkMessage MessageDiscovery id uuid_Nil None) 0);
    match r with
    | Some response =>
      match Unmarshal_ok NodeInfos_of_json (msg_Payload (mwt_Message response)) with
      | None => discover_loop seeds'
      | Some peers =>
        p ← first_master peers;
        match p with
        | Some peer => _ ← setMasterAddr (ni_IP peer) (ni_Port peer); mret true
        | None => discover_loop seeds'
        end
      end
    | None => discover_loop seeds'
    end
  end.

Definition discoverMaster : CM bool :=
  seeds ← gets (λ c, mc_seedNodes (ca_client c)); discover_loop seeds.

Fixpoint retry_loop (todo : nat) (msg : Message) : CM (option Message) :=
  match todo with
  | O => mret None
  | S todo' =>
    a ← getMasterAddr;
    r ← exchange (addr_of a.1 a.2) (mkMessageWithTime msg 0);
    match r with
    | Some response => mret (Some (mwt_Message response))
    | None => _ ← discoverMaster; retry_loop todo' msg
    end
  end.

Definition sendRequestWithRetry (msg : Message) (retries : nat) : CM (option Message) :=
  retry_loop (S retries) msg.

Definition sendRequest (msg : Message) : CM (option Message) := sendRequestWithRetry msg 2.

(** A request and the document of its answer. *)
Definition ask {T} (type : MessageType) (payload : RawMessage) (of_json : json → T * derr) : CM (cerr + T) :=
  id ← gets (λ c, mc_clientID (ca_client c));
  r ← sendRequest (mkMessage type id uuid_Nil payload);
  mret match r with
  | None => inl ENoAnswer
  | Some response =>
    match Unmarshal_ok of_json (msg_Payload response) with
    | None => inl EBadPayload
    | Some v => inr v
    end
  end.

(** The storage nodes that are online. *)
Fixpoint online_storage (peers : list (option NodeInfo)) : CM (list NodeInfo) :=
  match peers with
  | [] => mret []
  | None :: _ => panic nil_peer
  | Some p :: peers' =>
    storage ← online_storage peers';
    mret (if String.eqb (ni_Role p) RoleStorage && String.eqb (ni_Status p) StatusOnline
          then p :: storage else storage)
  end.

Definition GetStorageNodes : CM (cerr + list NodeInfo) :=
  r ← ask MessageDiscovery None NodeInfos_of_json;
  match r with
  | inl e => mret (inl e)
  | inr peers => storage ← online_storage peers; mret (inr storage)
  end.

Definition DeleteFile (requestID fileID : uuid) (hash : string) : CM (cerr + APIFileDeleteResponse) :=
  ask MessageAPIFileDelete
    (Some (APIFileDeleteRequest_to_json (mkAPIFileDeleteRequest (uuid_String requestID) fileID hash)))
    APIFileDeleteResponse_of_json.

(** [Ping]: [true] is a nil error. *)
Definition Ping : CM bool :=
  a ← getMasterAddr;
  d ← dial (addr_of a.1 a.2);
  match d with
  | Some k => _ ← emit (CClose k); mret true
  | None =>
    found ← discoverMaster;
    if found : bool then
      a ← getMasterAddr;
      d ← dial (addr_of a.1 a.2);
      match d with
      | Some k => _ ← emit (CClose k); mret true
      | None => mret false
      end
    else mret false
  end.

(** ** Uploads *)

Record StreamUploadSession := mkStreamUploadSession {
  su_SessionID : string;
  su_FileID : uuid;
  su_Size : Z;
  su_Connections : list Conn;
  su_NodeIDs : list uuid;
  su_bytesWritten : Z }.

Record UploadResult := mkUploadResult { ur_Hash : string; ur_NodeIDs : list uuid }.

Abbreviation SM := (GoM StreamUploadSession CAct).

(** [conn.Write(l)]: how many bytes were written, and whether without error. *)
Definition conn_write (l : list byte) (c : Conn) : (nat * bool) * Conn :=
  if cn_closed c then ((0%nat, false), c)
  else match cn_budget c with
  | None => ((length l, true),
      mkConn (cn_id c) (cn_addr c) (cn_out c ++ l) None (cn_peer c) (cn_read c) false)
  | Some k =>
    let n := (k `min` length l)%nat in
    ((n, bool_decide (length l ≤ k)%nat),
     mkConn (cn_id c) (cn_addr c) (cn_out c ++ take k l) (Some (k - n)%nat) (cn_peer c) (cn_read c) false)
  end.

(** [io.ReadFull(conn, buf)] for a buffer of [n] bytes. *)
Definition conn_read (n : nat) (c : Conn) : option (list byte) * Conn :=
  if cn_closed c then (None, c)
  else
    let r := (ReadFull n (drop (cn_read c) (cn_peer c (cn_out c)))).1 in
    (r, mkConn (cn_id c) (cn_addr c) (cn_out c) (cn_budget c) (cn_peer c) (cn_read c + n) false).

(** 30 minutes, and one more for each full gibibyte; a [time.Duration] is a
    64-bit integer. *)
Definition upload_deadline (size : Z) : Z :=
  int64 (30 * Minute + int64 (Z.quot size (1024 * 1024 * 1024) * Minute)).

Definition close_all (cs : list Conn) : CM () := for_each cs (λ c, emit (CClose (cn_id c))).

(** Connections to all storage nodes, each with its header sent. *)
Fixpoint open_conns (sessionID : string) (size : Z) (nodes : list StorageNodeAddr)
    (connections : list Conn) (nodeIDs : list uuid) : CM (cerr + list Conn * list uuid) :=
  match nodes with
  | [] => mret (inr (connections, nodeIDs))
  | node :: nodes' =>
    d ← dial (sna_Addr node);
    match d with
    | None => _ ← close_all connections; mret (inl (EConnect (sna_Addr node)))
    | Some k =>
      let '(budget, peer) := nw_upload k (sna_Addr node) in
      let conn := mkConn k (sna_Addr node) [] budget peer 0 false in
      _ ← emit (CDeadline k (upload_deadline size));
      let header := mkStreamHeader MagicUpload sessionID size DefaultChunkSize in
      let '(res, conn) := conn_write (StreamHeader_Encode header) conn in
      if (res.2 : bool) then
        open_conns sessionID size nodes' (connections ++ [conn]) (nodeIDs ++ [sna_NodeID node])
      else
        _ ← emit (CClose k); _ ← close_all connections; mret (inl (EHeader (sna_Addr node)))
    end
  end.

Definition InitStreamUpload (requestID fileID : uuid) (filename contentType : string) (size : Z)
    : CM (cerr + StreamUploadSession) :=
  let request := mkStreamUploadInitRequest (uuid_String requestID) fileID filename contentType size in
  r ← ask MessageStreamUploadInit (Some (StreamUploadInitRequest_to_json request))
        StreamUploadReadyResponse_of_json;
  match r with
  | inl e => mret (inl e)
  | inr uploadReady =>
    if negb (sur_Success uploadReady) then mret (inl (ERefused (sur_Error uploadReady)))
    else if decide (sur_StorageNodes uploadReady = []) then mret (inl ENoStorage)
    else
      r ← open_conns (sur_SessionID uploadReady) size (sur_StorageNodes uploadReady) [] [];
      mret match r with
      | inl e => inl e
      | inr (connections, nodeIDs) =>
        inr (mkStreamUploadSession (sur_SessionID uploadReady) fileID size connections nodeIDs 0)
      end
  end.

(** The chunk to every connection, until one fails. *)
Fixpoint write_conns (data : list byte) (i : nat) (cs : list Conn) : option cerr * list Conn :=
  match cs with
  | [] => (None, [])
  | conn :: cs' =>
    let '((n, ok), conn) := conn_write data conn in
    if negb ok then (Some (EWrite i), conn :: cs')
    else if decide (n ≠ length data) then (Some (EShortWrite i n (length data)), conn :: cs')
    else let '(e, cs') := write_conns data (S i) cs' in (e, conn :: cs')
  end.

Definition set_conns (cs : list Conn) (s : StreamUploadSession) : StreamUploadSession :=
  mkStreamUploadSession (su_SessionID s) (su_FileID s) (su_Size s) cs (su_NodeIDs s) (su_bytesWritten s).
Definition set_bytesWritten (n : Z) (s : StreamUploadSession) : StreamUploadSession :=
  mkStreamUploadSession (su_SessionID s) (su_FileID s) (su_Size s) (su_Connections s) (su_NodeIDs s) n.

Definition WriteChunk (data : list byte) : SM (option cerr) :=
  s ← get;
  let '(e, cs) := write_conns data 0 (su_Connections s) in
  _ ← modify (set_conns cs);
  match e with
  | Some e => mret (Some e)
  | None =>
    _ ← modify (λ s, set_bytesWritten (int64 (su_bytesWritten s + int64 (Z.of_nat (length data)))) s);
    mret None
  end.

(** [trimNull]: [i] is one more than the loop's index. *)
Fixpoint trimNull_loop (b : list byte) (i : nat) : list byte :=
  match i with
  | O => []
  | S j => if decide (nth_byte j b ≠ x00) then take (S j) b else trimNull_loop b j
  end.
Definition trimNull (b : list byte) : list byte := trimNull_loop b (length b).

Definition index_panic : string := "index out of range".

(** The answers in order: the first hash, the first error, who succeeded. *)
Fixpoint read_answers (i : nat) (cs : list Conn) (hash : string) (firstError : option cerr) (oks : list uuid)
    : SM (string * option cerr * list uuid * list Conn) :=
  match cs with
  | [] => mret (hash, firstError, oks, [])
  | conn :: cs' =>
    let '(resp, conn) := conn_read 321 conn in
    let first e := match firstError with None => Some e | e => e end in
    r ← match resp with
        | None => read_answers (S i) cs' hash (first (EResponse i)) oks
        | Some resp =>
          if decide (nth_byte 0 resp ≠ x01) then
            read_answers (S i) cs' hash (first (EStorage i (string_of (trimNull (slice 65 321 resp))))) oks
          else
            let hash := if String.eqb hash "" then string_of (trimNull (slice 1 65 resp)) else hash in
            ids ← gets su_NodeIDs;
            match ids !! i with
            | None => panic index_panic
            | Some id => read_answers (S i) cs' hash firstError (oks ++ [id])
            end
        end;
    let '(h, e, ids, cs) := r in mret (h, e, ids, conn :: cs)
  end.

Definition Finalize : SM (cerr + UploadResult) :=
  s ← get;
  if decide (su_bytesWritten s ≠ su_Size s) then mret (inl (EIncomplete (su_bytesWritten s) (su_Size s)))
  else
    r ← read_answers 0 (su_Connections s) "" None [];
    let '(hash, firstError, successfulNodes, cs) := r in
    _ ← modify (set_conns cs);
    mret match firstError with
    | Some e => inl e
    | None => inr (mkUploadResult hash successfulNodes)
    end.

Definition Close : SM () :=
  s ← get;
  _ ← for_each (su_Connections s) (λ c, emit (CClose (cn_id c)));
  modify (set_conns []).

(** What one [reader.Read] of the caller's reader gives: bytes, and no error,
    end of file, or an error. *)
Inductive read_end := More | Eof | Failed.

Fixpoint upload_loop (reads : list (list byte * read_end)) : SM (option cerr) :=
  match reads with
  | [] => mret None                    (* nothing left: end of file *)
  | (data, fin) :: reads' =>
    e ← (if decide (data = []) then mret None else WriteChunk data);
    match e with
    | Some e => mret (Some e)
    | None =>
      match fin with
      | Eof => mret None
      | Failed => mret (Some EReader)
      | More => upload_loop reads'
      end
    end
  end.

(** A method of a session that the caller holds. *)
Definition on_session {A} (m : SM A) (s : StreamUploadSession) : CM (A * StreamUploadSession) := λ c,
  match m s with
  | (o, Ret (a, s')) => (o, Ret ((a, s'), c))
  | (o, Panic w) => (o, Panic w)
  end.

(** The upload in one call; the session is closed at the end in any case. *)
Definition UploadFileStream (requestID fileID : uuid) (filename contentType : string) (size : Z)
    (reads : list (list byte * read_end)) : CM (cerr + UploadResult) :=
  r ← InitStreamUpload requestID fileID filename contentType size;
  match r with
  | inl e => mret (inl e)
  | inr session =>
    r ← on_session (e ← upload_loop reads;
                    r ← match e with Some e => mret (inl e) | None => Finalize end;
                    _ ← Close; mret r) session;
    mret r.1
  end.

(** ** Downloads *)

(** One [conn.Read(buf)] for a buffer of [n > 0] bytes: some bytes; or, when
    none are left, the end of the file ([Eof]) or an error ([Failed]). *)
Definition ds_Read (n : nat) (d : DStream) : (list byte * read_end) * DStream :=
  match ds_bytes d with
  | [] => (([], if ds_fails d then Failed else Eof), d)
  | l =>
    let k := (Nat.max 1 (ds_chunk d (ds_reads d)) `min` n)%nat in
    ((take k l, More), mkDStream (drop k l) (ds_fails d) (ds_chunk d) (S (ds_reads d)) (ds_armed d))
  end.

(** [streamCopier]; the hasher is the bytes written to it, the budget how many
    more bytes the writer takes before it fails. *)
Record Copier := mkCopier {
  sc_conn : DStream;
  sc_budget : option nat;
  sc_totalSize : Z;
  sc_expectedHash : string;
  sc_written : Z;
  sc_hasher : list byte }.

Abbreviation KM := (GoM Copier CAct).

Definition set_conn (d : DStream) (s : Copier) : Copier :=
  mkCopier d (sc_budget s) (sc_totalSize s) (sc_expectedHash s) (sc_written s) (sc_hasher s).

(** [sc.writer.Write(data)]: how many bytes were written, and whether without
    error. *)
Definition writer_Write (data : list byte) : KM (nat * bool) := λ s,
  match sc_budget s with
  | None => ([CWriter data], Ret ((length data, true), s))
  | Some k =>
    let n := (k `min` length data)%nat in
    ([CWriter (take k data)], Ret ((n, bool_decide (length data ≤ k)%nat),
      mkCopier (sc_conn s) (Some (k - n)%nat) (sc_totalSize s) (sc_expectedHash s) (sc_written s) (sc_hasher s)))
  end.

Definition processChunk (data : list byte) : KM (option cerr) :=
  r ← writer_Write data;
  written ← gets sc_written;
  if negb r.2 then mret (Some (EWriter written))
  else if decide (r.1 ≠ length data) then mret (Some (EShortWriter written r.1 (length data)))
  else
    _ ← modify (λ s, mkCopier (sc_conn s) (sc_budget s) (sc_totalSize s) (sc_expectedHash s)
          (int64 (sc_written s + int64 (Z.of_nat (length data)))) (sc_hasher s ++ data));
    mret None.

(** [SetReadDeadline] before the next read. *)
Definition armed (d : DStream) : bool := ds_armed d (ds_reads d).

(** The read and write loop. Each round but the last reads at least one byte,
    so one round more than there are bytes is enough; [None] is out of fuel. *)
Fixpoint copy_loop (fuel : nat) : KM (option (option cerr)) :=
  match fuel with
  | O => mret None
  | S fuel' =>
    s ← get;
    if negb (sc_written s <? sc_totalSize s) then mret (Some None)
    else if negb (armed (sc_conn s)) then mret (Some (Some EDeadline))
    else
      let toRead := Z.min DefaultChunkSize (int64 (sc_totalSize s - sc_written s)) in
      let '((data, fin), conn) := ds_Read (Z.to_nat toRead) (sc_conn s) in
      _ ← modify (set_conn conn);
      e ← (if decide (data = []) then mret None else processChunk data);
      match e with
      | Some e => mret (Some (Some e))
      | None =>
        match fin with
        | Eof => mret (Some None)
        | Failed => written ← gets sc_written; mret (Some (Some (ERead written)))
        | More => copy_loop fuel'
        end
      end
  end.

(** [strings.ToLower] on the letters of ASCII; no other character has a
    lower-case form among the digits of a hash. *)
Fixpoint ToLower (s : string) : string :=
  match s with
  | "" => ""
  | String c s' => String (lower c) (ToLower s')
  end%string.

Definition verifyHash (s : Copier) : option cerr :=
  let computed := ToLower (sha256_hex (sc_hasher s)) in
  let expected := ToLower (sc_expectedHash s) in
  if decide (computed ≠ expected) then Some (EHash expected computed) else None.

(** Completeness, then the hash. *)
Definition verdict (s : Copier) : option cerr :=
  if decide (sc_written s ≠ sc_totalSize s) then Some (EIncomplete (sc_written s) (sc_totalSize s))
  else verifyHash s.

Definition out_of_fuel : string := "out of fuel".

Definition copy : KM (option cerr) :=
  d ← gets sc_conn;
  r ← copy_loop (S (length (ds_bytes d)));
  match r with
  | None => panic out_of_fuel
  | Some (Some e) => mret (Some e)
  | Some None => gets verdict
  end.

(** [strings.TrimRight] with the cutset of zero, space, tab and line ends. *)
Definition in_cutset (b : byte) : bool := bool_decide (b ∈ [x00; x20; x09; x0a; x0d]).
Fixpoint drop_cutset (l : list byte) : list byte :=
  match l with
  | [] => []
  | b :: l' => if in_cutset b then drop_cutset l' else l
  end.
Definition trim_right (l : list byte) : list byte := rev (drop_cutset (rev l)).

(** The message is what the first read gives of it. *)
Definition readStorageError (conn : DStream) : cerr :=
  let '((l, _), _) := ds_Read 1024 conn in
  if decide (l = []) then EStorageError None else EStorageError (Some (string_of (trim_right l))).

(** A method of a copier that the caller has made. *)
Definition on_copier {A} (m : KM A) (s : Copier) : CM A := λ c,
  match m s with
  | (o, Ret (a, _)) => (o, Ret (a, c))
  | (o, Panic w) => (o, Panic w)
  end.

(** [budget]: of the caller's writer. [None] is a nil error. *)
Definition streamFromStorage (addr hash : string) (expectedSize : Z) (budget : option nat) : CM (option cerr) :=
  d ← dial addr;
  match d with
  | None => mret (Some (EConnect addr))
  | Some k =>
    let req := DownloadRequest_Encode (mkDownloadRequest hash) in
    r ← match nw_download k addr req with
        | None => mret (Some ERequest)
        | Some conn =>
          _ ← emit (CRequest addr req);
          match DecodeHeader (ds_bytes conn) with
          | (inl e, _) => mret (Some (EBadHeader e))
          | (inr header, rest) =>
            let conn := mkDStream rest (ds_fails conn) (ds_chunk conn) (ds_reads conn) (ds_armed conn) in
            if sh_FileSize header <? 0 then mret (Some (readStorageError conn))
            else if (0 <? expectedSize) && negb (sh_FileSize header =? expectedSize)
            then mret (Some (ESize expectedSize (sh_FileSize header)))
            else on_copier copy (mkCopier conn budget (sh_FileSize header) hash 0 [])
          end
        end;
    _ ← emit (CClose k);
    mret r
  end.

Definition DownloadFileStream (requestID fileID : uuid) (hash : string) (budget : option nat) : CM (option cerr) :=
  r ← ask MessageStreamDownloadInit
        (Some (StreamDownloadInitRequest_to_json
          (mkStreamDownloadInitRequest (uuid_String requestID) fileID hash)))
        StreamDownloadReadyResponse_of_json;
  match r with
  | inl e => mret (Some e)
  | inr downloadReady =>
    if negb (sdr_Success downloadReady) then mret (Some (ERefused (sdr_Error downloadReady)))
    else streamFromStorage (sdr_StorageAddr downloadReady) hash (sdr_Size downloadReady) budget
  end.
End client.

(** ** The client's [trimNull] *)

Lemma trim_rev_app_nonzero l1 b l2 : b ≠ x00 → trim_rev (l1 ++ b :: l2) = trim_rev l1 ++ b :: l2 ∨
  trim_rev (l1 ++ b :: l2) = b :: l2.
Proof.
  intros Hb. induction l1 as [|a l1 IH]; simpl; [right; by rewrite decide_False|].
  case_decide; [exact IH|by left].
Qed.

(** The client has a copy of the protocol's [trimNull], written as a loop
    over the index from the end; the two agree on all input. *)
Theorem trimNull_agrees b : trimNull b = Protocol.trimNull b.
Proof.
  unfold trimNull, Protocol.trimNull. induction b as [|a b IH] using rev_ind; [done|].
  rewrite length_app, Nat.add_comm, rev_app_distr. cbn [length Nat.add trimNull_loop rev app trim_rev].
  unfold nth_byte. rewrite app_nth2 by lia. rewrite Nat.sub_diag. cbn [nth].
  destruct (decide (a = x00)) as [->|Ha].
  - rewrite decide_False by (intros Hn; by apply Hn). rewrite <-IH.
    assert (∀ i, (i ≤ length b)%nat → trimNull_loop (b ++ [x00]) i = trimNull_loop b i) as Hloop; [|by apply Hloop].
    intros i. induction i as [|j IHj]; intros Hj; [done|]. cbn [trimNull_loop].
    unfold nth_byte. rewrite app_nth1 by lia. rewrite take_app_le by lia. by rewrite IHj by lia.
  - rewrite decide_True by done. cbn [rev]. rewrite rev_involutive.
    rewrite take_ge; [done|]. rewrite length_app. simpl. lia.
Qed.

(** ** The copy loop *)

(** The bytes the caller's writer receives. *)
Definition received (o : list CAct) : list byte :=
  mjoin ((λ a, match a with CWriter l => l | _ => [] end) <$> o).

Lemma received_app o1 o2 : received (o1 ++ o2) = received o1 ++ received o2.
Proof. unfold received. by rewrite fmap_app, join_app. Qed.

(** The writer takes [n] more bytes. *)
Definition takes (n : Z) (b : option nat) : Prop :=
  match b with None => True | Some k => n <= Z.of_nat k end.

Record copier_ok (s : Copier) : Prop := mkCopierOk {
  ck_written : sc_written s = Z.of_nat (length (sc_hasher s));
  ck_total : Z.of_nat (length (sc_hasher s)) <= sc_totalSize s <= maxInt }.

Lemma processChunk_run data s : copier_ok s → Z.of_nat (length (sc_hasher s ++ data)) <= sc_totalSize s →
  ∃ o e s', processChunk data s = (o, Ret (e, s')) ∧
    sc_conn s' = sc_conn s ∧ sc_totalSize s' = sc_totalSize s ∧ sc_expectedHash s' = sc_expectedHash s ∧
    (e = None → copier_ok s' ∧ sc_hasher s' = sc_hasher s ++ data ∧ received o = data ∧
      ∀ n, takes (n + Z.of_nat (length data)) (sc_budget s) → takes n (sc_budget s')) ∧
    (takes (Z.of_nat (length data)) (sc_budget s) → e = None).
Proof.
  intros [Hw Ht] Hl. unfold processChunk, writer_Write. unfold mbind, gom_bind.
  assert (int64 (sc_written s + int64 (Z.of_nat (length data))) = Z.of_nat (length (sc_hasher s ++ data))) as Hi.
  { rewrite length_app in *. unfold maxInt in Ht. rewrite (int64_id (Z.of_nat _)) by (int_bounds; lia).
    rewrite Hw, int64_id by (int_bounds; lia). lia. }
  destruct (sc_budget s) as [k|] eqn:Eb; simpl.
  - destruct (decide (length data ≤ k)%nat) as [Hk|Hk].
    + rewrite bool_decide_true by done. simpl. rewrite decide_False by lia. simpl.
      do 3 eexists. split; [reflexivity|]. simpl. rewrite Hi. split_and!; try done. intros _.
      split; [split; simpl; [done|lia]|]. split; [done|]. split; [|unfold takes; simpl; lia].
      unfold received. simpl. by rewrite take_ge, app_nil_r by lia.
    + rewrite bool_decide_false by done. simpl. do 3 eexists. split; [reflexivity|]. simpl.
      split_and!; try done. unfold takes. lia.
  - rewrite decide_False by lia. simpl. do 3 eexists. split; [reflexivity|]. simpl. rewrite Hi.
    split_and!; try done. intros _. split; [split; simpl; [done|lia]|]. split; [done|].
    split; [|intros n _; by rewrite Eb]. unfold received. simpl. by rewrite app_nil_r.
Qed.

(** How the loop ends: with an error, or having taken a prefix that is as long
    as announced or all there is. *)
Record copied (s : Copier) (o : list CAct) (e : option cerr) (s' : Copier) : Prop := mkCopied {
  cp_total : sc_totalSize s' = sc_totalSize s;
  cp_hash : sc_expectedHash s' = sc_expectedHash s;
  cp_done : e = None → copier_ok s' ∧ ∃ taken,
    sc_hasher s' = sc_hasher s ++ taken ∧ received o = taken ∧
    ds_bytes (sc_conn s) = taken ++ ds_bytes (sc_conn s') ∧
    (sc_written s' = sc_totalSize s' ∨ ds_bytes (sc_conn s') = []);
  cp_ok : takes (sc_totalSize s - sc_written s) (sc_budget s) → (∀ k, ds_armed (sc_conn s) k = true) →
    (ds_fails (sc_conn s) = false ∨
     sc_totalSize s - sc_written s <= Z.of_nat (length (ds_bytes (sc_conn s)))) → e = None }.

Lemma ds_Read_chunk n d : ds_bytes d ≠ [] → (0 < n)%nat →
  ∃ k, (0 < k ≤ n)%nat ∧
    ds_Read n d = ((take k (ds_bytes d), More), mkDStream (drop k (ds_bytes d)) (ds_fails d) (ds_chunk d) (S (ds_reads d)) (ds_armed d)).
Proof.
  intros Hne Hn. unfold ds_Read. destruct (ds_bytes d) as [|x l] eqn:E; [done|].
  exists (Nat.max 1 (ds_chunk d (ds_reads d)) `min` n)%nat. split; [lia|done].
Qed.

(** One round that reads [data], followed by the others. *)
Lemma copied_cons s conn data o1 s1 o2 e s2 :
  copier_ok s → ds_bytes (sc_conn s) = data ++ ds_bytes conn → ds_fails conn = ds_fails (sc_conn s) →
  ds_armed conn = ds_armed (sc_conn s) →
  sc_conn s1 = conn → sc_totalSize s1 = sc_totalSize s → sc_expectedHash s1 = sc_expectedHash s →
  copier_ok s1 → sc_hasher s1 = sc_hasher s ++ data → received o1 = data →
  (∀ n, takes (n + Z.of_nat (length data)) (sc_budget s) → takes n (sc_budget s1)) →
  copied s1 o2 e s2 → copied s (o1 ++ o2) e s2.
Proof.
  intros Hok Hsplit Hfl Harm <- Ht1 Hh1 Hok1 Hha Hr Htake [C1 C2 C3 C4].
  pose proof (ck_written _ Hok) as Hw. split; [congruence|congruence| |].
  - intros He. destruct (C3 He) as (Hok2 & taken & T1 & T2 & T3 & T4). split; [done|].
    exists (data ++ taken). rewrite received_app, Hr, T2, T1, Hha, app_assoc. split_and!; try done.
    rewrite Hsplit, T3. by rewrite app_assoc.
  - intros Htk Har Hin. rewrite (ck_written _ Hok1), Hha, length_app, Ht1, Hfl, Harm in C4. apply C4.
    + apply Htake. unfold takes in *. destruct (sc_budget s); [|done]. lia.
    + exact Har.
    + destruct Hin as [Hin|Hin]; [by left|right]. rewrite Hsplit, length_app in Hin. lia.
Qed.

(** A round that cannot set its deadline ends the loop. *)
Lemma copy_loop_unarmed fuel s : sc_written s < sc_totalSize s → armed (sc_conn s) = false →
  ∃ o e s', copy_loop (S fuel) s = (o, Ret (Some e, s')) ∧ copied s o e s'.
Proof.
  intros Hlt Ea. cbn [copy_loop]. rewrite (bind_silent _ _ _ s s) by done. rewrite (proj2 (Z.ltb_lt _ _) Hlt), Ea. cbn [negb].
  do 3 eexists. split; [reflexivity|]. split; try done. intros _ Har. unfold armed in Ea. by rewrite Har in Ea.
Qed.

(** A round that reads nothing ends the loop. *)
Lemma copy_loop_end fuel s : copier_ok s → sc_written s < sc_totalSize s → armed (sc_conn s) = true → ds_bytes (sc_conn s) = [] →
  ∃ o e s', copy_loop (S fuel) s = (o, Ret (Some e, s')) ∧ copied s o e s'.
Proof.
  intros Hok Hlt Ea E. cbn [copy_loop]. rewrite (bind_silent _ _ _ s s) by done.
  rewrite (proj2 (Z.ltb_lt _ _) Hlt), Ea. cbn [negb]. unfold ds_Read. rewrite E.
  rewrite (bind_silent _ _ _ () (set_conn (sc_conn s) s)) by done.
  rewrite decide_True by done. rewrite (bind_silent _ _ _ None (set_conn (sc_conn s) s)) by done.
  destruct (ds_fails (sc_conn s)) eqn:Ef.
  - do 3 eexists. split; [reflexivity|]. split; try done. simpl. rewrite E. simpl.
    intros _ _ [?|?]; [congruence|lia].
  - do 3 eexists. split; [reflexivity|]. split; try done. intros _. split; [by destruct s|].
    exists []. cbn. rewrite app_nil_r. split_and!; try done. by right.
Qed.

Lemma copy_loop_run fuel s : (length (ds_bytes (sc_conn s)) < fuel)%nat → copier_ok s →
  ∃ o e s', copy_loop fuel s = (o, Ret (Some e, s')) ∧ copied s o e s'.
Proof.
  revert s. induction fuel as [|fuel IH]; intros s Hf Hok; [lia|]. pose proof Hok as [Hw Ht].
  destruct (decide (sc_written s < sc_totalSize s)) as [Hlt|Hge].
  2:{ cbn [copy_loop]. rewrite (bind_silent _ _ _ s s) by done.
      rewrite (proj2 (Z.ltb_ge _ _)) by lia. exists [], None, s. split; [done|]. split; try done.
      intros _. split; [done|]. exists []. rewrite app_nil_r. split_and!; try done. left. lia. }
  destruct (armed (sc_conn s)) eqn:Ea; [|by apply copy_loop_unarmed].
  destruct (decide (ds_bytes (sc_conn s) = [])) as [E|E]; [by apply copy_loop_end|].
  cbn [copy_loop]. rewrite (bind_silent _ _ _ s s) by done. rewrite (proj2 (Z.ltb_lt _ _) Hlt), Ea. cbn [negb].
  rewrite (int64_id (sc_totalSize s - sc_written s)) by (unfold maxInt in Ht; int_bounds; lia).
  set (n := Z.to_nat (Z.min DefaultChunkSize (sc_totalSize s - sc_written s))).
  assert (0 < n)%nat as Hn by (unfold n, DefaultChunkSize; lia).
  destruct (ds_Read_chunk n (sc_conn s) E Hn) as (k & Hk & ->).
  set (data := take k (ds_bytes (sc_conn s))). set (conn := mkDStream _ _ _ _ _).
  rewrite (bind_silent _ _ _ () (set_conn conn s)) by done.
  assert (ds_bytes (sc_conn s) = data ++ ds_bytes conn) as Hsplit by (unfold data; simpl; by rewrite take_drop).
  assert (0 < length data ≤ n)%nat as Hdn.
  { unfold data. rewrite length_take. destruct (ds_bytes (sc_conn s)); [done|]. simpl. lia. }
  rewrite decide_False by (destruct data; [simpl in Hdn; lia|done]).
  destruct (processChunk_run data (set_conn conn s)) as (o1 & e & s1 & E1 & Hc1 & Ht1 & Hh1 & Hdone & Hnone).
  { split; [exact Hw|exact Ht]. }
  { cbn [set_conn sc_hasher sc_totalSize]. rewrite length_app. unfold n in Hdn. lia. }
  destruct e as [e|].
  - do 3 eexists. split; [eapply bind_run; [exact E1|reflexivity]|]. split; [done|done|done|].
    intros Htk _ _. exfalso. discriminate Hnone. cbn [set_conn sc_budget].
    unfold takes in *. destruct (sc_budget s); [|done]. unfold n in Hdn. lia.
  - destruct (Hdone eq_refl) as (Hok1 & Hha & Hr & Htake).
    cbn [set_conn sc_hasher sc_conn sc_totalSize sc_expectedHash sc_budget] in *.
    destruct (IH s1) as (o2 & e & s2 & E2 & Hcp); [|done|].
    { rewrite Hc1. rewrite Hsplit, length_app in Hf. lia. }
    exists (o1 ++ o2), e, s2. split; [eapply bind_run; [exact E1|exact E2]|].
    by apply (copied_cons s conn data o1 s1 o2 e s2).
Qed.

(** The copy loop ends: with as much fuel as [copy] gives it, it never runs
    out, whatever the sizes of the reads and however the connection or the
    writer fails. *)
Theorem copy_loop_terminates s fuel : copier_ok s → (length (ds_bytes (sc_conn s)) < fuel)%nat →
  ∃ o e s', copy_loop fuel s = (o, Ret (Some e, s')).
Proof.
  intros Hok Hf. destruct (copy_loop_run fuel s Hf Hok) as (o & e & s' & E & _). by exists o, e, s'.
Qed.

Lemma is_hex_lower c : is_hex c = true → lower c = c.
Proof. destruct c as [[] [] [] [] [] [] [] []]; vm_compute; congruence. Qed.

Lemma ToLower_hex s : all_hex s = true → ToLower s = s.
Proof.
  induction s as [|c s IH]; [done|]. simpl. intros [Hc Hs]%andb_prop. by rewrite is_hex_lower, IH.
Qed.

(** A fresh copier. *)
Definition fresh_copier (d : DStream) (budget : option nat) (size : Z) (hash : string) : Copier :=
  mkCopier d budget size hash 0 [].

Lemma client_copy_run d budget size hash : 0 <= size <= maxInt →
  ∃ o r s', copy (fresh_copier d budget size hash) = (o, Ret (r, s')) ∧
    (r = None → received o = take (Z.to_nat size) (ds_bytes d) ∧ Z.of_nat (length (received o)) = size ∧
       sha256_hex (received o) = ToLower hash) ∧
    (takes size budget → (∀ k, ds_armed d k = true) → size <= Z.of_nat (length (ds_bytes d)) →
       sha256_hex (take (Z.to_nat size) (ds_bytes d)) = ToLower hash → r = None).
Proof.
  intros Hsize. set (s := fresh_copier d budget size hash).
  destruct (copy_loop_run (S (length (ds_bytes d))) s) as (o & e & s' & E & [C1 C2 C3 C4]).
  { simpl. lia. } { split; simpl; lia. }
  unfold copy. rewrite (bind_silent _ _ _ d s) by done. cbn [s fresh_copier sc_conn sc_totalSize sc_expectedHash sc_hasher sc_written sc_budget] in *.
  destruct e as [e|].
  - do 3 eexists. split; [eapply bind_run; [exact E|reflexivity]|]. rewrite app_nil_r. split; [done|].
    intros Htk Har Hlen _. rewrite Z.sub_0_r in C4. discriminate (C4 Htk Har (or_intror Hlen)).
  - destruct (C3 eq_refl) as ([Hw Ht] & taken & T1 & T2 & T3 & T4). rewrite app_nil_l in T1. subst taken.
    exists o, (verdict s'), s'. split.
    { erewrite bind_run; [by rewrite app_nil_r|exact E|reflexivity]. }
    assert (sc_written s' = size → sc_hasher s' = take (Z.to_nat size) (ds_bytes d)) as Hall.
    { intros Hs. rewrite T3, take_app_le, take_ge by lia. done. }
    unfold verdict, verifyHash. rewrite C1, C2, T2. rewrite (ToLower_hex _ (sha256_hex_all_hex _)). split.
    + case_decide as Hn; [done|]. case_decide as Hh; [done|]. intros _.
      assert (sc_written s' = size) as Hs by lia. split_and!; [by apply Hall|lia|].
      destruct (decide (sha256_hex (sc_hasher s') = ToLower hash)); [done|tauto].
    + intros _ _ Hlen Hhash. rewrite C1 in T4.
      assert (sc_written s' = size) as Hs.
      { destruct T4 as [T4|T4]; [done|]. rewrite T4, app_nil_r in T3. rewrite T3 in Hlen. lia. }
      rewrite decide_False by lia. rewrite (Hall Hs), Hhash. by rewrite decide_False by tauto.
Qed.

(** ** Finding the master *)

Section requests.
Context `{UuidText} `{TimeText} `{Network}.

Definition online_master (p : NodeInfo) : Prop := ni_Role p = RoleMaster ∧ ni_Status p = StatusOnline.

#[export] Instance online_master_dec p : Decision (online_master p).
Proof. unfold online_master. apply _. Defined.

(** The master a peer list names. *)
Definition named (peers : list (option NodeInfo)) : option NodeInfo :=
  head (filter online_master (omap id peers)).

(** The answer on connection [k] to the request [msg]. *)
Definition answer_at (k : nat) (addr : string) (msg : MessageWithTime) : option MessageWithTime :=
  if nw_dial k addr then match nw_serve k addr msg with Answers m => Some m | _ => None end else None.

Definition discovery (id : uuid) : MessageWithTime :=
  mkMessageWithTime (mkMessage MessageDiscovery id uuid_Nil None) 0.

(** The master that a seed names on connection [k]. *)
Definition seed_master (id : uuid) (k : nat) (seed : NodeAddr) : option NodeInfo :=
  m ← answer_at k (addr_of (na_IP seed) (na_Port seed)) (discovery id);
  peers ← Unmarshal_ok NodeInfos_of_json (msg_Payload (mwt_Message m));
  named peers.

(** No peer list on the network has a null entry. *)
Definition no_null_peers : Prop := ∀ k addr msg m peers, nw_serve k addr msg = Answers m →
  Unmarshal_ok NodeInfos_of_json (msg_Payload (mwt_Message m)) = Some peers → None ∉ peers.

Definition with_master (p : option NodeInfo) (mc : MasterClient) : MasterClient :=
  match p with
  | None => mc
  | Some p => mkMasterClient (mc_seedNodes mc) (ni_IP p) (ni_Port p) (mc_timeout mc) (mc_clientID mc)
  end.

Lemma dial_run addr c : dial addr c = ([CDial addr],
  Ret (if nw_dial (ca_dials c) addr then Some (ca_dials c) else None, mkCaller (ca_client c) (S (ca_dials c)))).
Proof. done. Qed.

Lemma exchange_run addr msg c : ∃ o, exchange addr msg c =
  (o, Ret (answer_at (ca_dials c) addr msg, mkCaller (ca_client c) (S (ca_dials c)))).
Proof.
  unfold exchange, answer_at, mbind, gom_bind. rewrite dial_run.
  destruct (nw_dial (ca_dials c) addr); [|eexists; reflexivity].
  destruct (nw_serve (ca_dials c) addr msg); eexists; reflexivity.
Qed.

Lemma exchange_received addr msg c : received (outs_of (exchange addr msg c)) = [].
Proof.
  unfold exchange, mbind, gom_bind. rewrite dial_run. destruct (nw_dial (ca_dials c) addr); [|done].
  by destruct (nw_serve (ca_dials c) addr msg).
Qed.

Lemma first_master_run peers c : None ∉ peers → first_master peers c = ([], Ret (named peers, c)).
Proof.
  induction peers as [|[p|] peers IH]; intros Hn; [done| |set_solver]. cbn [first_master].
  unfold named. csimpl. rewrite filter_cons.
  destruct (decide (online_master p)) as [[Hr Hs]|Hm].
  - by rewrite Hr, Hs, !String.eqb_refl.
  - destruct (String.eqb_spec (ni_Role p) RoleMaster), (String.eqb_spec (ni_Status p) StatusOnline); simpl;
      try (exfalso; apply Hm; by split); apply IH; intros ?; apply Hn; by right.
Qed.

Lemma setMasterAddr_run p c :
  setMasterAddr (ni_IP p) (ni_Port p) c = ([], Ret ((), mkCaller (with_master (Some p) (ca_client c)) (ca_dials c))).
Proof.
  unfold setMasterAddr, modify. cbv zeta. case_decide as Hd; [done|]. destruct c as [[seeds ip port t id] k]. simpl in *.
  destruct (decide (ip = ni_IP p)) as [->|]; [|tauto]. destruct (decide (port = ni_Port p)) as [->|]; [done|tauto].
Qed.

Lemma discover_loop_step seed seeds c : no_null_peers → ∃ o,
  discover_loop (seed :: seeds) c =
  match seed_master (mc_clientID (ca_client c)) (ca_dials c) seed with
  | Some p => (o, Ret (true, mkCaller (with_master (Some p) (ca_client c)) (S (ca_dials c))))
  | None => let '(o', r) := discover_loop seeds (mkCaller (ca_client c) (S (ca_dials c))) in (o ++ o', r)
  end.
Proof.
  intros Hn. cbn [discover_loop]. set (id := mc_clientID (ca_client c)).
  rewrite (bind_silent _ _ _ id c) by done. fold (discovery id).
  destruct (exchange_run (addr_of (na_IP seed) (na_Port seed)) (discovery id) c) as [o E].
  set (c1 := mkCaller _ _) in E. exists o. unfold seed_master. unfold mbind at 1, gom_bind. rewrite E.
  destruct (answer_at _ _ _) as [m|] eqn:Ea; [|done]. simpl.
  destruct (Unmarshal_ok _ _) as [peers|] eqn:Eu; [|done]. simpl.
  assert (None ∉ peers) as Hp.
  { unfold answer_at in Ea. destruct (nw_dial _ _); [|done]. destruct (nw_serve _ _ _) eqn:Es; try done.
    injection Ea as <-. by eapply Hn. }
  rewrite (bind_silent _ _ _ _ _ (first_master_run peers c1 Hp)). destruct (named peers) as [p|]; [|done].
  rewrite (bind_silent _ _ _ _ _ (setMasterAddr_run p c1)). simpl. by rewrite app_nil_r.
Qed.

(** The first master the seeds name, asked in order from connection [k] on. *)
Fixpoint seeds_master (id : uuid) (k : nat) (seeds : list NodeAddr) : option NodeInfo :=
  match seeds with
  | [] => None
  | seed :: seeds' =>
    match seed_master id k seed with Some p => Some p | None => seeds_master id (S k) seeds' end
  end.

(** How many seeds are asked. *)
Fixpoint seeds_asked (id : uuid) (k : nat) (seeds : list NodeAddr) : nat :=
  match seeds with
  | [] => 0
  | seed :: seeds' =>
    S (match seed_master id k seed with Some _ => 0 | None => seeds_asked id (S k) seeds' end)
  end.

Lemma seeds_asked_le id k seeds : (seeds_asked id k seeds ≤ length seeds)%nat.
Proof. revert k. induction seeds as [|s seeds IH]; intros k; simpl; [lia|]. specialize (IH (S k)). case_match; lia. Qed.

Lemma discover_loop_run seeds c : no_null_peers →
  let id := mc_clientID (ca_client c) in let p := seeds_master id (ca_dials c) seeds in
  ∃ o, discover_loop seeds c = (o, Ret (bool_decide (is_Some p),
    mkCaller (with_master p (ca_client c)) (ca_dials c + seeds_asked id (ca_dials c) seeds))).
Proof.
  intros Hn. revert c. induction seeds as [|seed seeds IH]; intros c; cbv zeta.
  { exists []. simpl. rewrite Nat.add_0_r. by destruct c. }
  destruct (discover_loop_step seed seeds c Hn) as [o ->]. cbn [seeds_master seeds_asked].
  destruct (seed_master _ _ seed) as [p|].
  - exists o. by rewrite Nat.add_1_r, bool_decide_true.
  - destruct (IH (mkCaller (ca_client c) (S (ca_dials c)))) as [o' ->]. exists (o ++ o'). cbn [ca_client ca_dials].
    by rewrite Nat.add_succ_r.
Qed.

(** What a request comes to: the answer, the client and the connections used. *)
Definition master_addr (mc : MasterClient) : string := addr_of (mc_masterIP mc) (mc_masterPort mc).

Fixpoint requested (todo : nat) (msg : Message) (c : Caller) : option Message * Caller :=
  match todo with
  | O => (None, c)
  | S todo' =>
    let mc := ca_client c in let k := S (ca_dials c) in
    match answer_at (ca_dials c) (master_addr mc) (mkMessageWithTime msg 0) with
    | Some m => (Some (mwt_Message m), mkCaller mc k)
    | None => requested todo' msg
        (mkCaller (with_master (seeds_master (mc_clientID mc) k (mc_seedNodes mc)) mc)
           (k + seeds_asked (mc_clientID mc) k (mc_seedNodes mc)))
    end
  end.

Lemma retry_loop_run todo msg c : no_null_peers → ∃ o,
  retry_loop todo msg c = (o, Ret (requested todo msg c)).
Proof.
  intros Hn. revert c. induction todo as [|todo IH]; intros c; [by exists []|]. cbn [retry_loop requested].
  rewrite (bind_silent _ _ _ _ c eq_refl). cbn [fst snd].
  destruct (exchange_run (addr_of (mc_masterIP (ca_client c)) (mc_masterPort (ca_client c)))
    (mkMessageWithTime msg 0) c) as [o E].
  change (addr_of _ _) with (master_addr (ca_client c)) in *. unfold mbind at 1, gom_bind. rewrite E.
  destruct (answer_at _ _ _) as [m|]; [eexists; reflexivity|].
  set (c1 := mkCaller (ca_client c) (S (ca_dials c))).
  destruct (discover_loop_run (mc_seedNodes (ca_client c)) c1 Hn) as [o1 E1].
  assert (discoverMaster c1 = discover_loop (mc_seedNodes (ca_client c)) c1) as Ed
    by (unfold discoverMaster; by rewrite (bind_silent _ _ c1 _ c1 eq_refl)).
  set (c2 := mkCaller _ _) in E1. destruct (IH c2) as [o2 E2].
  rewrite (bind_run _ _ c1 _ _ _ _ _ (eq_trans Ed E1) E2). eexists. reflexivity.
Qed.

Lemma with_master_keeps p mc : mc_seedNodes (with_master p mc) = mc_seedNodes mc ∧
  mc_clientID (with_master p mc) = mc_clientID mc ∧ mc_timeout (with_master p mc) = mc_timeout mc.
Proof. by destruct p. Qed.

Lemma requested_bounds todo msg c r c' : requested todo msg c = (r, c') →
  let n := length (mc_seedNodes (ca_client c)) in
  (ca_dials c ≤ ca_dials c' ≤ ca_dials c + todo * S n)%nat ∧
  mc_seedNodes (ca_client c') = mc_seedNodes (ca_client c) ∧ mc_clientID (ca_client c') = mc_clientID (ca_client c) ∧
  ∀ m, r = Some m → ∃ j m', (ca_dials c ≤ j < ca_dials c')%nat ∧ mwt_Message m' = m ∧
    answer_at j (master_addr (ca_client c')) (mkMessageWithTime msg 0) = Some m'.
Proof.
  cbv zeta. revert c. induction todo as [|todo IH]; intros c; cbn [requested].
  { intros [= <- <-]. split_and!; try done; lia. }
  destruct (answer_at _ _ _) as [m|] eqn:Ea.
  - intros [= <- <-]. cbn [ca_client ca_dials]. split_and!; try done; [lia|lia|].
    intros m' [= <-]. exists (ca_dials c), m. split_and!; try done; lia.
  - intros E. specialize (IH _ E). clear E. cbn [ca_client ca_dials] in IH.
    destruct (with_master_keeps (seeds_master (mc_clientID (ca_client c)) (S (ca_dials c)) (mc_seedNodes (ca_client c)))
      (ca_client c)) as (K1 & K2 & _). rewrite K1, K2 in IH.
    pose proof (seeds_asked_le (mc_clientID (ca_client c)) (S (ca_dials c)) (mc_seedNodes (ca_client c))) as Hle.
    destruct IH as (Hd & Hs & Hid & Hm). split; [simpl in *; lia|]. split; [done|]. split; [done|].
    intros m Hr. destruct (Hm m Hr) as (j & m' & Hj & ? & ?). exists j, m'. split_and!; try done; lia.
Qed.

(** ** Properties: requests *)

(** C31: A request ends: it makes at most three attempts, each followed by at
    most one round of the seeds; and an answer it returns is one that the
    address the client now takes for the master gave to this very request. *)
Theorem sendRequest_bounded msg c : no_null_peers →
  ∃ o r c', sendRequest msg c = (o, Ret (r, c')) ∧
    (ca_dials c' ≤ ca_dials c + 3 * S (length (mc_seedNodes (ca_client c))))%nat ∧
    mc_seedNodes (ca_client c') = mc_seedNodes (ca_client c) ∧
    ∀ m, r = Some m → ∃ j m', (ca_dials c ≤ j < ca_dials c')%nat ∧ mwt_Message m' = m ∧
      answer_at j (master_addr (ca_client c')) (mkMessageWithTime msg 0) = Some m'.
Proof.
  intros Hn. destruct (retry_loop_run 3 msg c Hn) as [o E]. destruct (requested 3 msg c) as [r c'] eqn:Er.
  exists o, r, c'. split; [exact E|].
  destruct (requested_bounds 3 msg c r c' Er) as (Hd & Hs & _ & Hm). split_and!; try done. lia.
Qed.

(** C30: Failover: when the master does not answer, the client turns to the
    first online master that the seeds, asked in order, name; if that one
    answers, the request succeeds and the client stays with it. *)
Theorem sendRequest_failover msg c p m : no_null_peers →
  let mc := ca_client c in let k := S (ca_dials c) in
  answer_at (ca_dials c) (master_addr mc) (mkMessageWithTime msg 0) = None →
  seeds_master (mc_clientID mc) k (mc_seedNodes mc) = Some p →
  answer_at (k + seeds_asked (mc_clientID mc) k (mc_seedNodes mc)) (addr_of (ni_IP p) (ni_Port p))
    (mkMessageWithTime msg 0) = Some m →
  ∃ o c', sendRequest msg c = (o, Ret (Some (mwt_Message m), c')) ∧
    mc_masterIP (ca_client c') = ni_IP p ∧ mc_masterPort (ca_client c') = ni_Port p.
Proof.
  intros Hn mc k Ha Hp Hm. destruct (retry_loop_run 3 msg c Hn) as [o E]. exists o.
  unfold sendRequest, sendRequestWithRetry. rewrite E. unfold mc, k in *. cbn [requested]. rewrite Ha, Hp.
  cbn [with_master ca_client ca_dials]. unfold master_addr. cbn [mc_masterIP mc_masterPort]. rewrite Hm.
  eexists. split; [reflexivity|done].
Qed.

(** As long as the address the client knows answers, with whatever message,
    it is kept: a node that is no longer master and refuses every request is
    asked again. *)
Lemma refusal_keeps_master msg c m :
  answer_at (ca_dials c) (master_addr (ca_client c)) (mkMessageWithTime msg 0) = Some m →
  ∃ o, sendRequest msg c = (o, Ret (Some (mwt_Message m), mkCaller (ca_client c) (S (ca_dials c)))) ∧ received o = [].
Proof.
  intros Ha. pose proof (exchange_received (master_addr (ca_client c)) (mkMessageWithTime msg 0) c) as Hrec.
  destruct (exchange_run (master_addr (ca_client c)) (mkMessageWithTime msg 0) c) as [o E].
  rewrite E in Hrec. rewrite Ha in E. exists o. split; [|exact Hrec].
  unfold sendRequest, sendRequestWithRetry. cbn [retry_loop].
  rewrite (bind_silent _ _ _ _ c eq_refl). rewrite <-(app_nil_r o). by eapply bind_run; [exact E|].
Qed.

(** The answer to a request whose document the caller can read. *)
Lemma ask_run {T} type payload (of_json : json → T * derr) c m v :
  answer_at (ca_dials c) (master_addr (ca_client c))
    (mkMessageWithTime (mkMessage type (mc_clientID (ca_client c)) uuid_Nil payload) 0) = Some m →
  Unmarshal_ok of_json (msg_Payload (mwt_Message m)) = Some v →
  ∃ o, ask type payload of_json c = (o, Ret (inr v, mkCaller (ca_client c) (S (ca_dials c)))) ∧ received o = [].
Proof.
  intros Ha Hv. destruct (refusal_keeps_master _ c m Ha) as (o & E & Hrec). exists o. split; [|done].
  unfold ask. rewrite (bind_silent _ _ _ (mc_clientID (ca_client c)) c) by done.
  erewrite bind_run; [|exact E|reflexivity]. rewrite Hv. by rewrite app_nil_r.
Qed.

(** The length of a download is at most the largest number of 64 bits. *)
Lemma DecodeHeader_size l h rest : DecodeHeader l = (inr h, rest) → sh_FileSize h <= maxInt.
Proof.
  unfold DecodeHeader. destruct (ReadFull _ _) as [[buf|] r']; [|done]. case_decide; [done|].
  intros [= <- _]. unfold parse_header. cbn [sh_FileSize].
  pose proof (int64_range (GetUint (slice 37 45 buf))). unfold maxInt. int_bounds. lia.
Qed.

(** C29: What a download that reports success has done, for any network and
    storage node: the caller's writer received bytes whose SHA-256 is the
    requested hash (in any case), as many as the master had announced, if the
    size that it announced is positive (otherwise the client does not check it). *)
Theorem streamFromStorage_checked addr hash size budget c o c' :
  streamFromStorage addr hash size budget c = (o, Ret (None, c')) →
  sha256_hex (received o) = ToLower hash ∧ (0 < size → Z.of_nat (length (received o)) = size).
Proof.
  unfold streamFromStorage. unfold mbind at 1, gom_bind at 1. rewrite dial_run.
  destruct (nw_dial _ _); [|done]. set (req := DownloadRequest_Encode _). set (k := ca_dials c).
  destruct (nw_download k addr req) as [conn|]; [|done].
  destruct (DecodeHeader (ds_bytes conn)) as [[e|header] rest] eqn:Eh; [done|].
  assert (sh_FileSize header <= maxInt) as Hmax by (by eapply DecodeHeader_size).
  destruct (Z.ltb_spec (sh_FileSize header) 0) as [Hneg|Hpos]; [done|].
  destruct (_ && _) eqn:Es; [done|].
  set (d := mkDStream rest _ _ _ _).
  destruct (client_copy_run d budget (sh_FileSize header) hash (conj Hpos Hmax)) as (ok & r & s' & E & Hr & _).
  unfold fresh_copier in E. clearbody req. unfold on_copier, mbind, gom_bind. cbn -[received sha256_hex]. rewrite E.
  intros [= <- -> _]. destruct (Hr eq_refl) as (Hrec & Hlen & Hhash).
  match goal with |- sha256_hex (received ?o) = _ ∧ _ => assert (received o = received ok) as -> end.
  { unfold received. cbn. rewrite ?fmap_app, ?join_app. cbn. by rewrite ?app_nil_r. }
  split; [done|].
  intros Hs. destruct (Z.ltb_spec 0 size), (Z.eqb_spec (sh_FileSize header) size); simpl in Es; lia || done.
Qed.
End requests.

(** ** Examples: a dead master, a seed that knows the new one *)

#[local] Existing Instance decimal_uuids.
#[local] Existing Instance decimal_times.

Definition new_master : NodeInfo := mkNodeInfo 3 "10.0.0.3" 8000 RoleMaster StatusOnline 5 0.

Definition answer_with (payload : RawMessage) : reply :=
  Answers (mkMessageWithTime (mkMessage MessageDiscovery 2 uuid_Nil payload) 7).

Definition failover_network : Network := mkNetwork
  (λ k addr, negb (String.eqb addr "10.0.0.1:8000"))
  (λ k addr msg, if String.eqb addr "10.0.0.2:8000" then answer_with (Some (NodeInfos_to_json [new_master]))
                 else answer_with (Some (JStr "done")))
  (λ k addr, (None, λ l, l))
  (λ k addr req, Some (mkDStream (StreamHeader_Encode (mkStreamHeader MagicDownload "x" 3 4) ++ example_bytes) false (λ _, 2%nat) 0 (λ _, true))).

Definition failover_client : MasterClient := mkMasterClient
  [mkNodeAddr "10.0.0.1" 8000; mkNodeAddr "10.0.0.2" 8000] "10.0.0.1" 8000 (30 * Second) 9.

Lemma failover_no_null : no_null_peers (H1 := failover_network).
Proof.
  intros k addr msg m peers. cbn [nw_serve failover_network]. destruct (String.eqb addr _); intros [= <-];
    vm_compute; [intros [= <-]|discriminate]. intros Hn. by apply list_elem_of_singleton in Hn.
Qed.

Lemma sendRequest_failover_witness :
  ∃ o c', sendRequest (H1 := failover_network) (mkMessage MessageAPIFileDelete 9 uuid_Nil None)
      (mkCaller failover_client 0) =
    (o, Ret (Some (mkMessage MessageDiscovery 2 uuid_Nil (Some (JStr "done"))), c')) ∧
    mc_masterIP (ca_client c') = "10.0.0.3" ∧ mc_masterPort (ca_client c') = 8000.
Proof.
  refine (sendRequest_failover (H1 := failover_network) _ (mkCaller failover_client 0) new_master
    (mkMessageWithTime (mkMessage MessageDiscovery 2 uuid_Nil (Some (JStr "done"))) 7) failover_no_null _ _ _);
    vm_compute; reflexivity.
Defined.

Lemma sendRequest_bounded_witness :
  ∃ o r c', sendRequest (H1 := failover_network) (mkMessage MessageAPIFileDelete 9 uuid_Nil None)
      (mkCaller failover_client 0) = (o, Ret (r, c')) ∧ (ca_dials c' ≤ 9)%nat.
Proof.
  destruct (sendRequest_bounded (H1 := failover_network) (mkMessage MessageAPIFileDelete 9 uuid_Nil None)
    (mkCaller failover_client 0) failover_no_null) as (o & r & c' & E & Hd & _).
  exists o, r, c'. split; [exact E|exact Hd].
Defined.

Lemma copy_loop_terminates_witness :
  ∃ o e s', copy_loop 4 (fresh_copier (mkDStream example_bytes true (λ _, 0%nat) 0 (λ _, true)) (Some 1%nat) 3 "00") =
    (o, Ret (Some e, s')).
Proof. apply copy_loop_terminates; [split; vm_compute; [reflexivity|split; discriminate]|vm_compute; lia]. Defined.

Lemma streamFromStorage_checked_witness :
  ∃ o c', streamFromStorage (H1 := failover_network) "10.0.0.2:8100" (sha256_hex example_bytes) 3 None
      (mkCaller failover_client 0) = (o, Ret (None, c')) ∧
    sha256_hex (received o) = ToLower (sha256_hex example_bytes).
Proof.
  destruct (streamFromStorage (H1 := failover_network) "10.0.0.2:8100" (sha256_hex example_bytes) 3 None
    (mkCaller failover_client 0)) as [o [[[e|] c']|w]] eqn:E;
    [exfalso; revert E; vm_compute; discriminate| |exfalso; revert E; vm_compute; discriminate].
  exists o, c'. split; [reflexivity|].
  exact (proj1 (streamFromStorage_checked (H1 := failover_network) _ _ _ _ _ _ _ E)).
Defined.
