(* ===== verification/BufferPool.v ===== *)
(** * Downloads that share a pool of buffers

    The pool of [backend/dfs/streaming/protocol.go] and the copy loop of
    [backend/dfs/client/master_client.go] that borrows a buffer from it, one
    statement at a time: the buffers are a heap that all downloads of the API
    server share, a read writes into one, and a later statement takes the
    bytes out again. [Client.v] passes the bytes along as a value; here it is
    shown that this is what happens, whatever the other downloads do. *)

From S2P Require Import Prelude GoStd Hashes Types Protocol Client.

(** ** The pool *)

(** The buffers made so far, by their addresses, and those that wait in
    [BufPool]. *)
Record Pool := mkPool {
  po_buffers : list (list byte);
  po_free : list nat }.

(** [BufPool.New] *)
Definition new_buffer (p : Pool) : nat * Pool :=
  (length (po_buffers p), mkPool (po_buffers p ++ [zeros (Z.to_nat DefaultChunkSize)]) (po_free p)).

(** [pick]: which waiting buffer [Get] takes, if any; a [sync.Pool] may forget
    the others. *)
Definition GetBuffer (pick : option nat) (p : Pool) : nat * Pool :=
  match pick with
  | None => new_buffer p
  | Some k =>
    match po_free p !! k with
    | None => new_buffer p
    | Some buf => (buf, mkPool (po_buffers p) (delete k (po_free p)))
    end
  end.

Definition PutBuffer (buf : nat) (p : Pool) : Pool := mkPool (po_buffers p) (buf :: po_free p).

Definition contents (p : Pool) (buf : nat) : list byte := default [] (po_buffers p !! buf).

(** [n] bytes are read into a buffer; the others stay as they were. *)
Definition read_into (buf : nat) (data : list byte) (p : Pool) : Pool :=
  mkPool (alter (λ b, data ++ drop (length data) b) buf (po_buffers p)) (po_free p).

(** ** Downloads *)

(** Where a call of [copy] is: not begun, at the head of its loop, about to
    process the [n] bytes it has read into its buffer, or returned. *)
Inductive CopyPc :=
| Fresh
| AtLoop (buf : nat)
| HasRead (buf n : nat) (fin : read_end)
| Finished (result : option cerr).

Record Download := mkDownload {
  dl_pc : CopyPc;
  dl_copier : Copier;
  dl_out : list CAct }.

(** The buffer goes back when the call returns. *)
Definition finish (buf : nat) (result : option cerr) (s : Copier) (o : list CAct) (p : Pool) : Download * Pool :=
  (mkDownload (Finished result) s o, PutBuffer buf p).

(** The statements of [copy] up to the next that touches the buffer. *)
Definition dl_step (pick : option nat) (d : Download) (p : Pool) : option (Download * Pool) :=
  let s := dl_copier d in
  match dl_pc d with
  | Fresh => let '(buf, p') := GetBuffer pick p in Some (mkDownload (AtLoop buf) s (dl_out d), p')
  | AtLoop buf =>
    if negb (sc_written s <? sc_totalSize s) then Some (finish buf (verdict s) s (dl_out d) p)
    else if negb (armed (sc_conn s)) then Some (finish buf (Some EDeadline) s (dl_out d) p)
    else
      let toRead := Z.min (Z.of_nat (length (contents p buf))) (int64 (sc_totalSize s - sc_written s)) in
      let '((data, fin), conn) := ds_Read (Z.to_nat toRead) (sc_conn s) in
      Some (mkDownload (HasRead buf (length data) fin) (set_conn conn s) (dl_out d), read_into buf data p)
  | HasRead buf n fin =>
    match (if decide (n = 0%nat) then ([], Ret (None, s)) else processChunk (take n (contents p buf)) s) with
    | (_, Panic _) => None
    | (o, Ret (Some e, s')) => Some (finish buf (Some e) s' (dl_out d ++ o) p)
    | (o, Ret (None, s')) =>
      match fin with
      | Eof => Some (finish buf (verdict s') s' (dl_out d ++ o) p)
      | Failed => Some (finish buf (Some (ERead (sc_written s'))) s' (dl_out d ++ o) p)
      | More => Some (mkDownload (AtLoop buf) s' (dl_out d ++ o), p)
      end
    end
  | Finished _ => None
  end.

(** The downloads of a server, and the pool. *)
Record Downloads := mkDownloads {
  dn_all : list Download;
  dn_pool : Pool }.

(** The [i]-th download takes a step. *)
Definition downloads_step (x : nat * option nat) (y : Downloads) : option Downloads :=
  d ← dn_all y !! x.1;
  '(d', p) ← dl_step x.2 d (dn_pool y);
  Some (mkDownloads (<[x.1 := d']> (dn_all y)) p).

Fixpoint downloads_run (xs : list (nat * option nat)) (y : Downloads) : option Downloads :=
  match xs with
  | [] => Some y
  | x :: xs' => y' ← downloads_step x y; downloads_run xs' y'
  end.

(** The calls begin with an empty pool. *)
Definition begin_downloads (cs : list Copier) : Downloads :=
  mkDownloads ((λ c, mkDownload Fresh c []) <$> cs) (mkPool [] []).

(** ** Helper lemmas *)

Lemma copy_loop_more k fuel s o e s' : copy_loop fuel s = (o, Ret (Some e, s')) → copy_loop (fuel + k) s = (o, Ret (Some e, s')).
Proof.
  revert s o. induction fuel as [|fuel IH]; intros s o; [done|]. cbn [copy_loop Nat.add]. rewrite !(bind_silent _ _ s s s eq_refl).
  destruct (negb _); [done|]. destruct (negb _); [done|]. destruct (ds_Read _ _) as [[data fin] conn].
  rewrite !(bind_silent _ _ s () (set_conn conn s) eq_refl). unfold mbind, gom_bind.
  destruct ((if decide (data = []) then mret None else processChunk data) (set_conn conn s)) as [o1 [[[e1|] s1]|w]]; [done| |done].
  destruct fin; [|done..]. destruct (copy_loop fuel s1) as [o2 [[[e2|] s2]|w]] eqn:E; intros [= <-]; subst.
  by rewrite (IH _ _ E).
Qed.

(** How much a round of the loop asks for. *)
Definition room (s : Copier) : nat := Z.to_nat (Z.min DefaultChunkSize (int64 (sc_totalSize s - sc_written s))).

Lemma copy_round fuel s data fin conn : (sc_written s <? sc_totalSize s) = true → armed (sc_conn s) = true → ds_Read (room s) (sc_conn s) = ((data, fin), conn) →
  copy_loop (S fuel) s =
    (e ← (if decide (data = []) then mret None else processChunk data);
     match e with
     | Some e => mret (Some (Some e))
     | None =>
       match fin with
       | Eof => mret (Some None)
       | Failed => written ← gets sc_written; mret (Some (Some (ERead written)))
       | More => copy_loop fuel
       end
     end) (set_conn conn s).
Proof.
  intros Hlt Ha E. cbn [copy_loop]. rewrite (bind_silent _ _ s s s eq_refl), Hlt, Ha. cbn [negb]. unfold room in E. rewrite E.
  by rewrite (bind_silent _ _ s () (set_conn conn s) eq_refl).
Qed.

Lemma copy_loop_stop fuel s : (sc_written s <? sc_totalSize s) = false → copy_loop (S fuel) s = ([], Ret (Some None, s)).
Proof. intros Hlt. cbn [copy_loop]. by rewrite (bind_silent _ _ s s s eq_refl), Hlt. Qed.

Lemma copy_loop_deadline fuel s : (sc_written s <? sc_totalSize s) = true → armed (sc_conn s) = false →
  copy_loop (S fuel) s = ([], Ret (Some (Some EDeadline), s)).
Proof. intros Hlt Ha. cbn [copy_loop]. by rewrite (bind_silent _ _ s s s eq_refl), Hlt, Ha. Qed.

Lemma ds_Read_room n d data fin conn : ds_Read n d = ((data, fin), conn) → (length data ≤ n)%nat.
Proof.
  unfold ds_Read. destruct (ds_bytes d) as [|x l]; [intros [= <- _ _]; simpl; lia|]. intros [= <- _ _]. rewrite length_take. lia.
Qed.

(** From [c], the loop gets to [s], having put out [o]. *)
Definition leads (c s : Copier) (o : list CAct) : Prop :=
  ∀ fuel o' e s', copy_loop fuel s = (o', Ret (Some e, s')) → ∃ fuel', copy_loop fuel' c = (o ++ o', Ret (Some e, s')).

Lemma leads_refl c : leads c c [].
Proof. intros fuel o e s' E. by exists fuel. Qed.

(** A download that began with the copier [c]. *)
Definition dl_ok (c : Copier) (d : Download) (p : Pool) : Prop :=
  match dl_pc d with
  | Fresh => dl_copier d = c ∧ dl_out d = []
  | AtLoop _ => leads c (dl_copier d) (dl_out d)
  | HasRead buf n fin => ∃ s data conn, leads c s (dl_out d) ∧ (sc_written s <? sc_totalSize s) = true ∧ armed (sc_conn s) = true ∧
      ds_Read (room s) (sc_conn s) = ((data, fin), conn) ∧ dl_copier d = set_conn conn s ∧ n = length data ∧
      take n (contents p buf) = data
  | Finished r => ∃ fuel e, copy_loop fuel c = (dl_out d, Ret (Some e, dl_copier d)) ∧
      r = match e with Some e => Some e | None => verdict (dl_copier d) end
  end.

Definition holds (d : Download) : option nat :=
  match dl_pc d with AtLoop buf | HasRead buf _ _ => Some buf | _ => None end.

Lemma dl_ok_frame c d p p' : (∀ b, holds d = Some b → contents p' b = contents p b) → dl_ok c d p → dl_ok c d p'.
Proof. unfold dl_ok, holds. destruct (dl_pc d); try done. intros Hc. by rewrite Hc. Qed.

(** What a step does to the pool: it takes a buffer, fills it, or gives it back. *)
Inductive pool_change (p : Pool) : option nat → option nat → Pool → Prop :=
| pc_take buf k : po_free p !! k = Some buf → pool_change p None (Some buf) (mkPool (po_buffers p) (delete k (po_free p)))
| pc_new : pool_change p None (Some (length (po_buffers p)))
    (mkPool (po_buffers p ++ [zeros (Z.to_nat DefaultChunkSize)]) (po_free p))
| pc_fill buf data : (length data ≤ length (contents p buf))%nat → pool_change p (Some buf) (Some buf) (read_into buf data p)
| pc_keep buf : pool_change p (Some buf) (Some buf) p
| pc_put buf : pool_change p (Some buf) None (PutBuffer buf p).

Lemma take_read_into p buf data : is_Some (po_buffers p !! buf) → (length data ≤ length (contents p buf))%nat →
  take (length data) (contents (read_into buf data p) buf) = data.
Proof.
  unfold contents, read_into. intros [b Hb] Hl. rewrite Hb in Hl. simpl in Hl. cbn [po_buffers].
  rewrite list_lookup_alter_eq, Hb. simpl. by rewrite take_app_le, take_ge by lia.
Qed.

Lemma dl_step_ok c pick d p d' p' : dl_ok c d p →
  (∀ b, holds d = Some b → is_Some (po_buffers p !! b) ∧ length (contents p b) = Z.to_nat DefaultChunkSize) →
  dl_step pick d p = Some (d', p') → dl_ok c d' p' ∧ pool_change p (holds d) (holds d') p'.
Proof.
  intros Hd Hb. unfold dl_step, finish. unfold dl_ok in Hd. destruct d as [pc s o]. cbn [dl_pc dl_copier dl_out holds] in *.
  destruct pc as [|buf|buf n fin|r]; [| | |done].
  - destruct Hd as [-> ->]. intros E. assert (d' = mkDownload (AtLoop (GetBuffer pick p).1) c [] ∧ p' = (GetBuffer pick p).2)
      as [-> ->] by (destruct (GetBuffer pick p); by injection E as <- <-).
    split; [apply leads_refl|]. unfold GetBuffer, new_buffer. unfold holds. cbn [dl_pc].
    destruct pick as [k|]; [|constructor]. destruct (po_free p !! k) eqn:Ek; [|constructor]. by constructor.
  - destruct (Hb buf eq_refl) as [Hsome Hlen]. destruct (sc_written s <? sc_totalSize s) eqn:Hlt; cbn [negb]; [destruct (armed (sc_conn s)) eqn:Ha; cbn [negb]|].
    + rewrite Hlen, Z2Nat.id by done. fold (room s). destruct (ds_Read (room s) (sc_conn s)) as [[data fin] conn] eqn:E.
      intros [= <- <-]. pose proof (ds_Read_room _ _ _ _ _ E) as Hr. assert (length data ≤ length (contents p buf))%nat as Hl.
      { rewrite Hlen. unfold room in Hr. lia. }
      split; [|by constructor]. exists s, data, conn. split_and!; try done. by apply take_read_into.
    + intros [= <- <-]. split; [|constructor].
      destruct (Hd 1%nat [] (Some EDeadline) s) as [fuel E]; [by apply copy_loop_deadline|].
      exists fuel, (Some EDeadline). by rewrite app_nil_r in E.
    + intros [= <- <-]. split; [|constructor]. destruct (Hd 1%nat [] None s) as [fuel E]; [by apply copy_loop_stop|].
      exists fuel, None. by rewrite app_nil_r in E.
  - destruct Hd as (s0 & data & conn & Hled & Hlt & Ha & E & -> & -> & Hdata). rewrite Hdata.
    set (m := if decide (data = []) then mret None else processChunk data : GoM Copier CAct (option cerr)).
    replace (if decide (length data = 0%nat) then ([], Ret (None, set_conn conn s0)) else processChunk data (set_conn conn s0))
      with (m (set_conn conn s0)) by (unfold m; by destruct data).
    destruct (m (set_conn conn s0)) as [o1 [[[e|] s1]|w]] eqn:Em; [| |done].
    + intros [= <- <-]. split; [|constructor]. destruct (Hled 1%nat o1 (Some e) s1) as [fuel Ef].
      { rewrite (copy_round _ _ _ _ _ Hlt Ha E). by erewrite bind_run; [rewrite app_nil_r|exact Em|reflexivity]. }
      by exists fuel, (Some e).
    + destruct fin; intros [= <- <-].
      * split; [|constructor]. intros fuel o' e s' E'. destruct (Hled (S fuel) (o1 ++ o') e s') as [fuel' Ef].
        { rewrite (copy_round _ _ _ _ _ Hlt Ha E). by erewrite bind_run; [|exact Em|exact E']. }
        exists fuel'. cbn [dl_out]. by rewrite <-app_assoc.
      * split; [|constructor]. destruct (Hled 1%nat o1 None s1) as [fuel Ef].
        { rewrite (copy_round _ _ _ _ _ Hlt Ha E). by erewrite bind_run; [rewrite app_nil_r|exact Em|reflexivity]. }
        by exists fuel, None.
      * split; [|constructor]. destruct (Hled 1%nat o1 (Some (ERead (sc_written s1))) s1) as [fuel Ef].
        { rewrite (copy_round _ _ _ _ _ Hlt Ha E). by erewrite bind_run; [rewrite app_nil_r|exact Em|reflexivity]. }
        by exists fuel, (Some (ERead (sc_written s1))).
Qed.

(** The downloads that began with [cs]: nobody else has the buffer that one
    holds, and it is not in the pool. *)
Record downloads_ok (cs : list Copier) (y : Downloads) : Prop := mkDownloadsOk {
  do_all : ∀ i d, dn_all y !! i = Some d → ∃ c, cs !! i = Some c ∧ dl_ok c d (dn_pool y);
  do_once : ∀ i j d e b, dn_all y !! i = Some d → dn_all y !! j = Some e → holds d = Some b → holds e = Some b → i = j;
  do_held : ∀ i d b, dn_all y !! i = Some d → holds d = Some b → b ∉ po_free (dn_pool y) ∧ is_Some (po_buffers (dn_pool y) !! b);
  do_free : ∀ b, b ∈ po_free (dn_pool y) → is_Some (po_buffers (dn_pool y) !! b);
  do_nodup : NoDup (po_free (dn_pool y));
  do_size : ∀ b buf, po_buffers (dn_pool y) !! b = Some buf → length buf = Z.to_nat DefaultChunkSize }.

Lemma begin_ok cs : downloads_ok cs (begin_downloads cs).
Proof.
  split; cbn; try (intros; set_solver).
  - intros i d Hd. apply list_lookup_fmap_Some in Hd as (c & -> & Hc). by exists c.
  - intros i j d e b (c & -> & _)%list_lookup_fmap_Some. done.
  - intros i d b (c & -> & _)%list_lookup_fmap_Some. done.
  - constructor.
Qed.

(** The other downloads do not see what a step does to the pool. *)
Lemma pool_change_other p h h' p' b : pool_change p h h' p' → h ≠ Some b → is_Some (po_buffers p !! b) → contents p' b = contents p b.
Proof.
  unfold contents. intros [] Hne [x Hb]; try done; cbn.
  - by rewrite lookup_app_l by (by eapply lookup_lt_Some).
  - rewrite list_lookup_alter_ne; [done|]. congruence.
Qed.

Lemma taken_out {A} (l : list A) k (x : A) : NoDup l → l !! k = Some x → x ∉ delete k l ∧ NoDup (delete k l) ∧ ∀ y, y ∈ delete k l → y ∈ l.
Proof.
  intros Hnd Hk. pose proof (delete_Permutation l k x Hk) as Hp. rewrite Hp in Hnd. apply NoDup_cons in Hnd as [Hx Hnd].
  split_and!; [done|done|]. intros y Hy. rewrite Hp. by right.
Qed.

(** What a step leaves of the pool, for what is free and for what is there. *)
Lemma pool_change_free p h h' p' : pool_change p h h' p' → NoDup (po_free p) →
  (∀ b, b ∈ po_free p → is_Some (po_buffers p !! b)) → (∀ b, h = Some b → b ∉ po_free p ∧ is_Some (po_buffers p !! b)) →
  NoDup (po_free p') ∧ (∀ b, is_Some (po_buffers p !! b) → is_Some (po_buffers p' !! b)) ∧
  (∀ b, b ∈ po_free p' → b ∈ po_free p ∨ h = Some b) ∧
  (∀ b, h' = Some b → b ∉ po_free p' ∧ is_Some (po_buffers p' !! b) ∧ (h = Some b ∨ b ∈ po_free p ∨ po_buffers p !! b = None)).
Proof.
  intros Hc Hnd Hf Hh. destruct Hc as [buf k Hk| |buf data _|buf|buf]; cbn.
  - destruct (taken_out _ _ _ Hnd Hk) as (Hx & Hnd' & Hin). split_and!; try done; [auto|].
    intros b [= <-]. split_and!; [done|by eapply Hf, list_elem_of_lookup_2|right; left; by eapply list_elem_of_lookup_2].
  - split_and!; try done; [|auto|].
    + intros b Hb%lookup_lt_is_Some. apply lookup_lt_is_Some. rewrite length_app. lia.
    + intros b [= <-]. split_and!.
      * intros Hin%Hf%lookup_lt_is_Some. lia.
      * apply lookup_lt_is_Some. rewrite length_app. simpl. lia.
      * right; right. by apply lookup_ge_None.
  - split_and!; try done; [|auto|].
    + intros b. by rewrite !lookup_lt_is_Some, length_alter.
    + intros b [= <-]. destruct (Hh buf eq_refl) as [Hn Hs]. split_and!; [done| |by left].
      revert Hs. by rewrite !lookup_lt_is_Some, length_alter.
  - split_and!; try done; [auto|]. intros b [= <-]. destruct (Hh buf eq_refl). by split_and!; [| |left].
  - destruct (Hh buf eq_refl) as [Hn Hs]. split_and!; [by apply NoDup_cons|done| |done].
    intros b [->|Hb]%elem_of_cons; auto.
Qed.

Lemma pool_change_size p h h' p' : pool_change p h h' p' →
  (∀ b buf, po_buffers p !! b = Some buf → length buf = Z.to_nat DefaultChunkSize) →
  ∀ b buf, po_buffers p' !! b = Some buf → length buf = Z.to_nat DefaultChunkSize.
Proof.
  intros Hc Hs b buf. destruct Hc as [buf0 k Hk| |buf0 data Hl|buf0|buf0]; cbn; try apply Hs.
  - rewrite lookup_app. destruct (po_buffers p !! b) eqn:E; [intros [= <-]; by eapply Hs|].
    intros Hb. apply list_lookup_singleton_Some in Hb as [_ <-]. apply length_zeros.
  - destruct (decide (buf0 = b)) as [->|Hne]; [|rewrite list_lookup_alter_ne by done; apply Hs].
    rewrite list_lookup_alter_eq. unfold contents in Hl. destruct (po_buffers p !! b) as [x|] eqn:E; [|done].
    intros [= <-]. simpl in Hl. rewrite length_app, length_drop. specialize (Hs b x E). lia.
Qed.

Lemma downloads_step_ok cs x y y' : downloads_ok cs y → downloads_step x y = Some y' → downloads_ok cs y'.
Proof.
  intros [D1 D2 D3 D4 D5 D6]. destruct x as [i pick], y as [ds p]. unfold downloads_step. cbn [fst snd dn_all dn_pool] in *.
  destruct (ds !! i) as [d|] eqn:Hi; [|done]. cbn [mbind option_bind].
  destruct (dl_step pick d p) as [[d' p']|] eqn:E; [|done]. intros [= <-].
  destruct (D1 i d Hi) as (c & Hc & Hd). destruct (dl_step_ok c pick d p d' p' Hd) as [Hd' Hp]; [|done|].
  { intros b Hb. destruct (D3 i d b Hi Hb) as [_ [buf Hbuf]]. split; [by eexists|]. unfold contents. rewrite Hbuf. by eapply D6. }
  destruct (pool_change_free _ _ _ _ Hp D5 D4) as (F1 & F2 & F3 & F4); [intros b Hb; by eapply D3|].
  assert (∀ j e, <[i:=d']> ds !! j = Some e → (j = i ∧ e = d') ∨ (j ≠ i ∧ ds !! j = Some e)) as Hcase.
  { intros j e. rewrite list_lookup_insert_Some. intros [(-> & -> & _)|[? ?]]; [by left|right; by split]. }
  assert (∀ j e b, j ≠ i → ds !! j = Some e → holds e = Some b → holds d ≠ Some b ∧ holds d' ≠ Some b) as Hother.
  { intros j e b Hj He Hb. split; intros Hx; [by apply Hj, (D2 j i e d b)|]. destruct (F4 b Hx) as (_ & _ & Hfrom).
    destruct (D3 j e b He Hb) as [Hnf Hs]. destruct Hfrom as [Hfrom|[Hfrom|Hfrom]]; [by apply Hj, (D2 j i e d b)|done|].
    rewrite Hfrom in Hs. by destruct Hs. }
  split; cbn [dn_all dn_pool]; [| | |intros b [Hb|Hb]%F3; [by apply F2, D4|eapply F2; by eapply D3]|done|by eapply pool_change_size].
  - intros j e [[-> ->]|[Hj He]]%Hcase; [by exists c|]. destruct (D1 j e He) as (c' & Hc' & Hok). exists c'. split; [done|].
    eapply dl_ok_frame; [|exact Hok]. intros b Hb. eapply pool_change_other; [exact Hp|by eapply Hother|by eapply D3].
  - intros j k e f b [[-> ->]|[Hj He]]%Hcase [[-> ->]|[Hk Hf]]%Hcase He' Hf'; [done| | |by eapply D2].
    + by destruct (Hother k f b Hk Hf Hf').
    + by destruct (Hother j e b Hj He He').
  - intros j e b [[-> ->]|[Hj He]]%Hcase Hb; [destruct (F4 b Hb) as (? & ? & _); by split|].
    destruct (D3 j e b He Hb) as [Hnf Hs]. split; [|by apply F2]. intros [?|?]%F3; [done|]. by destruct (Hother j e b Hj He Hb).
Qed.

(** ** How long the downloads can go on *)

Definition dl_work (d : Download) : nat :=
  let left := length (ds_bytes (sc_conn (dl_copier d))) in
  match dl_pc d with
  | Fresh => 2 * left + 3
  | AtLoop _ => 2 * left + 2
  | HasRead _ _ More => 2 * left + 3
  | HasRead _ _ _ => 1
  | Finished _ => 0
  end.

(** What has been read and hashed is not more than was announced. *)
Definition dl_live (d : Download) : Prop :=
  match dl_pc d with
  | Fresh | AtLoop _ => copier_ok (dl_copier d)
  | HasRead _ n fin => copier_ok (dl_copier d) ∧
      Z.of_nat (length (sc_hasher (dl_copier d)) + n) <= sc_totalSize (dl_copier d) ∧ (fin = More → (0 < n)%nat)
  | Finished _ => True
  end.

Lemma room_ok s : copier_ok s → (sc_written s <? sc_totalSize s) = true →
  (0 < room s)%nat ∧ Z.of_nat (length (sc_hasher s) + room s) <= sc_totalSize s.
Proof.
  intros [Hw Ht] Hlt%Z.ltb_lt. unfold room. rewrite int64_id by (unfold maxInt in Ht; int_bounds; lia).
  unfold DefaultChunkSize. lia.
Qed.

Lemma dl_step_lighter pick d p d' p' : dl_live d →
  (∀ b, holds d = Some b → length (contents p b) = Z.to_nat DefaultChunkSize) →
  dl_step pick d p = Some (d', p') → dl_live d' ∧ (dl_work d' < dl_work d)%nat.
Proof.
  intros Hl Hb. unfold dl_step, finish, dl_work. destruct d as [pc s o]. unfold dl_live in Hl. cbn [dl_pc dl_copier dl_out] in *.
  destruct pc as [|buf|buf n fin|r]; [| | |done].
  - destruct (GetBuffer pick p). intros [= <- _]. split; [exact Hl|cbn; lia].
  - destruct (sc_written s <? sc_totalSize s) eqn:Hlt; cbn [negb]; [|intros [= <- _]; split; [done|cbn; lia]].
    destruct (armed (sc_conn s)); cbn [negb]; [|intros [= <- _]; split; [done|cbn; lia]].
    rewrite (Hb buf eq_refl), Z2Nat.id by done. fold (room s). destruct (room_ok s Hl Hlt) as [Hr Hfit].
    destruct (decide (ds_bytes (sc_conn s) = [])) as [E|E].
    + unfold ds_Read. rewrite E. destruct Hl as [Hw Ht].
      destruct (ds_fails (sc_conn s)); intros [= <- _]; (split; [|cbn; lia]); (split; [by split|]);
        (split; [cbn; lia|done]).
    + destruct (ds_Read_chunk (room s) (sc_conn s) E Hr) as (k & Hk & ->). intros [= <- _]. rewrite length_take. cbn.
      destruct Hl as [Hw Ht]. assert (0 < length (ds_bytes (sc_conn s)))%nat by (destruct (ds_bytes (sc_conn s)); simpl; [done|lia]).
      split; [|rewrite length_drop; lia]. split; [by split|]. cbn. split; [lia|intros _; lia].
  - destruct Hl as (Hok & Hfit & Hn). destruct (decide (n = 0%nat)) as [->|Hn0].
    { destruct fin; [specialize (Hn eq_refl); lia| |]; intros [= <- _]; (split; [done|cbn; lia]). }
    destruct (processChunk_run (take n (contents p buf)) s Hok) as (o1 & e & s1 & -> & Hc & _ & _ & Hdone & _).
    { rewrite length_app, length_take. lia. }
    destruct e as [e|]; [intros [= <- _]; split; [done|cbn; destruct fin; lia]|].
    destruct (Hdone eq_refl) as (Hok1 & _). destruct fin; intros [= <- _]; (split; [done|cbn; rewrite ?Hc; lia]).
Qed.

(** A download that has not returned can take a step. *)
Lemma dl_step_goes pick d p : dl_live d → (∀ r, dl_pc d ≠ Finished r) → is_Some (dl_step pick d p).
Proof.
  intros Hl Hne. unfold dl_step. destruct d as [pc s o]. unfold dl_live in Hl. cbn [dl_pc dl_copier dl_out] in *.
  destruct pc as [|buf|buf n fin|r]; [by destruct (GetBuffer pick p)| | |by destruct (Hne r)].
  - destruct (negb _); [done|]. destruct (negb _); [done|]. by destruct (ds_Read _ _) as [[??]?].
  - destruct Hl as (Hok & Hfit & _). destruct (decide (n = 0%nat)) as [->|Hn0]; [by destruct fin|].
    destruct (processChunk_run (take n (contents p buf)) s Hok) as (o1 & e & s1 & -> & _).
    { rewrite length_app, length_take. lia. }
    by destruct e, fin.
Qed.

Lemma sum_list_insert {A} (f : A → nat) (l : list A) i x y : l !! i = Some x →
  (sum_list_with f (<[i := y]> l) + f x = sum_list_with f l + f y)%nat.
Proof.
  revert i. induction l as [|z l IH]; intros [|i] Hi; try done; [injection Hi as ->; simpl; lia|].
  simpl. specialize (IH i Hi). lia.
Qed.

Definition all_live (y : Downloads) : Prop := ∀ i d, dn_all y !! i = Some d → dl_live d.
Definition downloads_work (y : Downloads) : nat := sum_list_with dl_work (dn_all y).

Lemma downloads_step_lighter cs x y y' : downloads_ok cs y → all_live y → downloads_step x y = Some y' →
  all_live y' ∧ (downloads_work y' < downloads_work y)%nat.
Proof.
  intros Hok Hl. destruct x as [i pick]. unfold downloads_step. cbn [fst snd].
  destruct (dn_all y !! i) as [d|] eqn:Hi; [|done]. cbn [mbind option_bind].
  destruct (dl_step pick d (dn_pool y)) as [[d' p']|] eqn:E; [|done]. intros [= <-].
  destruct (dl_step_lighter pick d (dn_pool y) d' p' (Hl i d Hi)) as [Hd' Hw]; [|done|].
  { intros b Hb. destruct (do_held _ _ Hok i d b Hi Hb) as [_ [buf Hbuf]]. unfold contents. rewrite Hbuf. by eapply do_size. }
  split.
  - intros j e. cbn [dn_all]. rewrite list_lookup_insert_Some. intros [(-> & <- & _)|[_ He]]; [done|by eapply Hl].
  - unfold downloads_work. cbn [dn_all]. pose proof (sum_list_insert dl_work _ _ _ d' Hi). lia.
Qed.

Lemma downloads_run_ok cs xs y y' : downloads_ok cs y → downloads_run xs y = Some y' → downloads_ok cs y'.
Proof.
  revert y. induction xs as [|x xs IH]; intros y Hok; cbn [downloads_run]; [by intros [= <-]|].
  destruct (downloads_step x y) as [y1|] eqn:E; [|done]. cbn [mbind option_bind]. apply IH. by eapply downloads_step_ok.
Qed.

Lemma downloads_run_lighter cs xs y y' : downloads_ok cs y → all_live y → downloads_run xs y = Some y' →
  all_live y' ∧ (length xs + downloads_work y' ≤ downloads_work y)%nat.
Proof.
  revert y. induction xs as [|x xs IH]; intros y Hok Hl; cbn [downloads_run]; [intros [= <-]; split; [done|simpl; lia]|].
  destruct (downloads_step x y) as [y1|] eqn:E; [|done]. cbn [mbind option_bind]. intros Er.
  destruct (downloads_step_lighter cs x y y1 Hok Hl E) as [Hl1 Hw1].
  destruct (IH y1 (downloads_step_ok _ _ _ _ Hok E) Hl1 Er) as [Hl' Hw']. split; [done|]. simpl. lia.
Qed.

Lemma begin_live cs : Forall copier_ok cs → all_live (begin_downloads cs).
Proof.
  intros Hcs i d Hd. apply list_lookup_fmap_Some in Hd as (c & -> & Hc). by eapply (Forall_lookup_1 _ _ _ _ Hcs).
Qed.

Lemma downloads_run_snoc xs x y y1 y2 : downloads_run xs y = Some y1 → downloads_step x y1 = Some y2 →
  downloads_run (xs ++ [x]) y = Some y2.
Proof.
  revert y. induction xs as [|x' xs IH]; intros y; cbn [downloads_run app]; [intros [= ->] E; by rewrite E|].
  destruct (downloads_step x' y) as [y3|]; [|done]. cbn [mbind option_bind]. apply IH.
Qed.

Lemma length_downloads_run xs y y' : downloads_run xs y = Some y' → length (dn_all y') = length (dn_all y).
Proof.
  revert y. induction xs as [|[i pick] xs IH]; intros y; cbn [downloads_run]; [by intros [= ->]|].
  destruct (downloads_step _ y) as [y1|] eqn:E; [|done]. cbn [mbind option_bind]. intros ->%IH.
  revert E. unfold downloads_step. destruct (dn_all y !! _); [|done]. cbn [mbind option_bind].
  destruct (dl_step _ _ _) as [[? ?]|]; [|done]. intros [= <-]. cbn [dn_all]. by rewrite length_insert.
Qed.

Lemma step_or_returned y : all_live y →
  (∀ i d, dn_all y !! i = Some d → ∃ r, dl_pc d = Finished r) ∨ ∃ i, is_Some (downloads_step (i, None) y).
Proof.
  intros Hl. assert (∀ i d pick, dn_all y !! i = Some d → (∃ r, dl_pc d = Finished r) ∨ is_Some (downloads_step (i, pick) y)) as Hone.
  { intros i d pick Hi. unfold downloads_step. cbn [fst snd]. rewrite Hi. cbn [mbind option_bind].
    destruct (dl_pc d) as [| | |r] eqn:Ep; [..|left; by exists r]; right;
      (destruct (dl_step_goes pick d (dn_pool y) (Hl i d Hi)) as [[d' p'] ->]; [by rewrite Ep|done]). }
  destruct (decide (Exists (λ i, is_Some (downloads_step (i, None) y)) (seq 0 (length (dn_all y))))) as [He|Hn].
  - apply Exists_exists in He as (i & _ & Hi). right. by exists i.
  - left. intros i d Hi. destruct (Hone i d None Hi) as [?|Hs]; [done|]. destruct Hn. apply Exists_exists. exists i. split; [|done].
    apply elem_of_seq. apply lookup_lt_Some in Hi. lia.
Qed.

Lemma downloads_finish cs xs y : Forall copier_ok cs → downloads_run xs (begin_downloads cs) = Some y →
  ∃ xs' y', downloads_run (xs ++ xs') (begin_downloads cs) = Some y' ∧
    ∀ i d, dn_all y' !! i = Some d → ∃ r, dl_pc d = Finished r.
Proof.
  intros Hcs. remember (downloads_work y) as k eqn:Ek. revert xs y Ek. induction (lt_wf k) as [k _ IH]. intros xs y -> Er.
  destruct (downloads_run_lighter cs xs _ _ (begin_ok cs) (begin_live cs Hcs) Er) as [Hl _].
  destruct (step_or_returned y Hl) as [Hr|(i & y1 & E)]; [exists [], y; by rewrite app_nil_r|].
  destruct (downloads_step_lighter cs _ y y1 (downloads_run_ok _ _ _ _ (begin_ok cs) Er) Hl E) as [_ Hw1].
  destruct (IH _ Hw1 (xs ++ [(i, None)]) y1 eq_refl (downloads_run_snoc _ _ _ _ _ Er E)) as (xs' & y' & E' & Hr).
  exists ((i, None) :: xs'), y'. by rewrite <-app_assoc in E'.
Qed.

(** ** Properties *)

(** C16: downloads that run at the same time do not mix their data, although
    they write into buffers that they take from one pool and give back with
    the bytes of others in them: however their statements interleave and
    whichever buffer each of them gets, a download that has returned has
    delivered, hashed and answered exactly what its copy loop does alone. *)
Theorem downloads_isolated cs xs y i d r : Forall copier_ok cs →
  downloads_run xs (begin_downloads cs) = Some y → dn_all y !! i = Some d → dl_pc d = Finished r →
  ∃ c, cs !! i = Some c ∧ copy c = (dl_out d, Ret (r, dl_copier d)).
Proof.
  intros Hcs Er Hi Hr. destruct (do_all _ _ (downloads_run_ok cs xs _ _ (begin_ok cs) Er) i d Hi) as (c & Hc & Hd).
  exists c. split; [done|]. unfold dl_ok in Hd. rewrite Hr in Hd. destruct Hd as (fuel & e & E & ->).
  destruct (copy_loop_run (S (length (ds_bytes (sc_conn c)))) c) as (o' & e' & s' & E' & _);
    [lia|by eapply (Forall_lookup_1 _ _ _ _ Hcs)|].
  pose proof (copy_loop_more (S (length (ds_bytes (sc_conn c)))) _ _ _ _ _ E) as E1.
  pose proof (copy_loop_more fuel _ _ _ _ _ E') as E2. rewrite Nat.add_comm, E2 in E1. injection E1 as -> -> ->.
  unfold copy. rewrite (bind_silent _ _ c _ c eq_refl). destruct e as [e|]; (erewrite bind_run; [|exact E'|reflexivity]);
    by rewrite app_nil_r.
Qed.

(** C19: the downloads all end: together they take at most two steps for each
    byte that comes and three more for each download, and wherever they are,
    they can go on until all have returned. *)
Theorem downloads_end cs xs y : Forall copier_ok cs → downloads_run xs (begin_downloads cs) = Some y →
  (length xs ≤ sum_list_with (λ c, 2 * length (ds_bytes (sc_conn c)) + 3) cs)%nat ∧
  ∃ xs' y', downloads_run (xs ++ xs') (begin_downloads cs) = Some y' ∧
    ∀ i d, dn_all y' !! i = Some d → ∃ r, dl_pc d = Finished r.
Proof.
  intros Hcs Er. split; [|by eapply downloads_finish].
  destruct (downloads_run_lighter cs xs _ _ (begin_ok cs) (begin_live cs Hcs) Er) as [_ Hw].
  etransitivity; [|etransitivity; [exact Hw|]]; [lia|]. unfold downloads_work, begin_downloads. cbn [dn_all].
  clear. induction cs as [|c cs IH]; [done|]. cbn in *. lia.
Qed.

(** ** Examples: two downloads, the second of which fails *)

Definition example_copiers : list Copier :=
  [ fresh_copier (mkDStream (bytes_of "abc") false (λ _, 2%nat) 0 (λ _, true)) None 3 (sha256_hex (bytes_of "abc"));
    fresh_copier (mkDStream (bytes_of "xy") true (λ _, 1%nat) 0 (λ _, true)) None 3 "00" ].

Lemma example_copiers_ok : Forall copier_ok example_copiers.
Proof. repeat constructor; vm_compute; done. Qed.

Lemma downloads_end_witness : ∃ xs y, downloads_run xs (begin_downloads example_copiers) = Some y ∧
  ∀ i d, dn_all y !! i = Some d → ∃ r, dl_pc d = Finished r.
Proof.
  destruct (downloads_end example_copiers [] (begin_downloads example_copiers) example_copiers_ok eq_refl)
    as [_ (xs & y & E & Hr)]. exists xs, y. split; [exact E|exact Hr].
Defined.

(** The run is the one that [downloads_finish] gives. *)
Lemma downloads_isolated_witness : ∃ xs y d r, downloads_run xs (begin_downloads example_copiers) = Some y ∧
  dn_all y !! 0%nat = Some d ∧ ∃ c, example_copiers !! 0%nat = Some c ∧ copy c = (dl_out d, Ret (r, dl_copier d)).
Proof.
  destruct (downloads_finish example_copiers [] _ example_copiers_ok eq_refl) as (xs & y & E & Hr).
  destruct (dn_all y !! 0%nat) as [d|] eqn:Hd.
  2:{ exfalso. apply lookup_ge_None in Hd. rewrite (length_downloads_run _ _ _ E) in Hd. revert Hd. vm_compute. lia. }
  destruct (Hr 0%nat d Hd) as [r Hfin]. exists xs, y, d, r. split; [exact E|]. split; [exact Hd|].
  exact (downloads_isolated example_copiers xs y 0 d r example_copiers_ok E Hd Hfin).
Defined.
