(* ===== verification/Transfer.v ===== *)
(** * Uploads and downloads between the client and storage nodes

    What the streaming methods of [Client.v] do to their connections, and the
    two ends together: the client of [backend/dfs/client/master_client.go]
    against the storage nodes of [backend/dfs/streaming/stream.go]. A node's
    answer on a connection is what [StreamServer.handleConnection] writes when
    it has been sent the bytes the client wrote. *)

From S2P Require Import Prelude GoStd Hashes Types Json Protocol Session Fs LocalStorage StreamServer NodeState Client.

(** ** Uploads: what reaches the connections *)

(** [c'] is [c] after [data] was written to it without error. *)
Definition advanced (data : list byte) (c c' : Conn) : Prop :=
  cn_closed c = false ∧ ∃ b,
    c' = mkConn (cn_id c) (cn_addr c) (cn_out c ++ data) b (cn_peer c) (cn_read c) false ∧
    (cn_budget c = None → b = None).

(** A connection that takes whatever is written. *)
Definition willing (c : Conn) : Prop := cn_closed c = false ∧ cn_budget c = None.

Lemma advanced_nil c : cn_closed c = false → advanced [] c c.
Proof.
  intros Hc. split; [done|]. exists (cn_budget c). split; [|done]. destruct c; simpl in *. by rewrite app_nil_r, Hc.
Qed.

Lemma advanced_trans d1 d2 c1 c2 c3 : advanced d1 c1 c2 → advanced d2 c2 c3 → advanced (d1 ++ d2) c1 c3.
Proof.
  intros (H1 & b1 & -> & Hb1) (H2 & b2 & -> & Hb2). split; [done|]. exists b2. simpl in *.
  rewrite app_assoc. split; [done|]. auto.
Qed.

Lemma advanced_conns d1 d2 cs1 cs2 cs3 :
  Forall2 (advanced d1) cs1 cs2 → Forall2 (advanced d2) cs2 cs3 → Forall2 (advanced (d1 ++ d2)) cs1 cs3.
Proof.
  intros H12. revert cs3. induction H12 as [|c1 c2 cs1 cs2 H1 H2 IH]; intros cs3 H23;
    inversion_clear H23; constructor; [by eapply advanced_trans|by apply IH].
Qed.

Lemma conn_write_ok l c n c' : conn_write l c = ((n, true), c') → n = length l ∧ advanced l c c'.
Proof.
  unfold conn_write. destruct (cn_closed c) eqn:Ec; [done|]. destruct (cn_budget c) as [k|] eqn:Eb.
  - destruct (decide (length l ≤ k)%nat) as [Hl|Hl].
    + rewrite bool_decide_true by done. intros [= <- <-]. split; [lia|]. split; [done|].
      exists (Some (k - k `min` length l)%nat). split; [|by rewrite Eb]. by rewrite (take_ge l k) by lia.
    + by rewrite bool_decide_false.
  - intros [= <- <-]. split; [done|]. split; [done|]. by exists None.
Qed.

Lemma conn_write_willing l c : willing c →
  ∃ c', conn_write l c = ((length l, true), c') ∧ advanced l c c' ∧ willing c'.
Proof.
  intros [Hc Hb]. eexists. unfold conn_write. rewrite Hc, Hb. split; [done|]. split; [|done].
  split; [done|]. by exists None.
Qed.

Lemma write_conns_ok data i cs cs' : write_conns data i cs = (None, cs') → Forall2 (advanced data) cs cs'.
Proof.
  revert i cs'. induction cs as [|c cs IH]; intros i cs'; simpl; [intros [= <-]; constructor|].
  destruct (conn_write data c) as [[n ok] c'] eqn:Ew. destruct ok; [|done]. simpl.
  apply conn_write_ok in Ew as [-> Ha]. rewrite decide_False by tauto.
  destruct (write_conns data (S i) cs) as [e cs1] eqn:E. intros [= -> <-]. constructor; [done|by eapply IH].
Qed.

Lemma write_conns_willing data i cs : Forall willing cs →
  ∃ cs', write_conns data i cs = (None, cs') ∧ Forall willing cs'.
Proof.
  intros Hw. revert i. induction Hw as [|c cs Hc _ IH]; intros i; simpl; [by exists []|].
  destruct (conn_write_willing data c Hc) as (c' & -> & _ & Hc'). simpl. rewrite decide_False by tauto.
  destruct (IH (S i)) as (cs' & -> & Hcs'). exists (c' :: cs'). split; [done|]. by constructor.
Qed.

(** The session after [data] went out on every connection. *)
Record streamed (data : list byte) (s s' : StreamUploadSession) : Prop := mkStreamed {
  st_conns : Forall2 (advanced data) (su_Connections s) (su_Connections s');
  st_bytes : su_bytesWritten s' = int64 (su_bytesWritten s + Z.of_nat (length data));
  st_ids : su_NodeIDs s' = su_NodeIDs s;
  st_size : su_Size s' = su_Size s;
  st_sid : su_SessionID s' = su_SessionID s;
  st_file : su_FileID s' = su_FileID s }.

Lemma WriteChunk_run data s :
  ∃ e s', WriteChunk data s = ([], Ret (e, s')) ∧ (e = None → streamed data s s') ∧
    (Forall willing (su_Connections s) → e = None ∧ Forall willing (su_Connections s')).
Proof.
  unfold WriteChunk. rewrite (bind_silent _ _ _ s s) by done.
  destruct (write_conns data 0 (su_Connections s)) as [e cs] eqn:E.
  rewrite (bind_silent _ _ _ () (set_conns cs s)) by done. destruct e as [e|].
  - do 2 eexists. split; [reflexivity|]. split; [done|]. intros Hw.
    by destruct (write_conns_willing data 0 _ Hw) as (cs' & [= E' _]%(eq_trans (eq_sym E)) & _).
  - rewrite (bind_silent _ _ _ () _ eq_refl). do 2 eexists. split; [reflexivity|]. split.
    + intros _. split; try done; [by eapply write_conns_ok|]. apply int64_add_r.
    + intros Hw. split; [done|].
      by destruct (write_conns_willing data 0 _ Hw) as (cs' & [= <-]%(eq_trans (eq_sym E)) & ?).
Qed.

Lemma streamed_refl s : Forall (λ c, cn_closed c = false) (su_Connections s) →
  int64 (su_bytesWritten s) = su_bytesWritten s → streamed [] s s.
Proof.
  intros Hc Hb. split; try done; [|by rewrite Z.add_0_r, Hb].
  induction Hc as [|c cs Hc _ IH]; constructor; [by apply advanced_nil|done].
Qed.

Lemma streamed_trans d1 d2 s1 s2 s3 : streamed d1 s1 s2 → streamed d2 s2 s3 → streamed (d1 ++ d2) s1 s3.
Proof.
  intros [A1 A2 A3 A4 A5 A6] [B1 B2 B3 B4 B5 B6]. split; try congruence.
  - by eapply advanced_conns.
  - rewrite B2, A2, length_app, Nat2Z.inj_add, Z.add_assoc, !(Z.add_comm _ (Z.of_nat (length d2))).
    apply int64_add_r.
Qed.

Lemma streamed_open data s s' : streamed data s s' → Forall (λ c, cn_closed c = false) (su_Connections s').
Proof.
  intros [Hc _ _ _ _ _]. induction Hc as [|c c' cs cs' (_ & b & -> & _) _ IH]; by constructor.
Qed.

(** What a reader delivers before its end, and whether that is an error. *)
Fixpoint reader_data (reads : list (list byte * read_end)) : list byte :=
  match reads with
  | [] => []
  | (data, More) :: reads' => data ++ reader_data reads'
  | (data, _) :: _ => data
  end.
Fixpoint reader_fails (reads : list (list byte * read_end)) : bool :=
  match reads with
  | [] => false
  | (_, More) :: reads' => reader_fails reads'
  | (_, Eof) :: _ => false
  | (_, Failed) :: _ => true
  end.

Definition open_session (s : StreamUploadSession) : Prop :=
  Forall (λ c, cn_closed c = false) (su_Connections s) ∧ int64 (su_bytesWritten s) = su_bytesWritten s.

Lemma streamed_session data s s' : streamed data s s' → open_session s'.
Proof.
  intros Hs. split; [by eapply streamed_open|]. rewrite (st_bytes _ _ _ Hs). apply int64_id, int64_range.
Qed.

(** One round of the loop: a read that gives nothing writes nothing. *)
Lemma upload_round data s : open_session s → ∃ e s',
  (if decide (data = []) then mret None else WriteChunk data) s = ([], Ret (e, s')) ∧
  (e = None → streamed data s s') ∧
  (Forall willing (su_Connections s) → e = None ∧ Forall willing (su_Connections s')).
Proof.
  intros [Ho Hb]. case_decide as Hd; [|apply WriteChunk_run].
  subst data. exists None, s. split; [done|]. split; [|done]. intros _. by apply streamed_refl.
Qed.

Lemma upload_loop_run reads s : open_session s → ∃ e s',
  upload_loop reads s = ([], Ret (e, s')) ∧
  (e = None → streamed (reader_data reads) s s' ∧ reader_fails reads = false) ∧
  (Forall willing (su_Connections s) → reader_fails reads = false → e = None ∧ Forall willing (su_Connections s')).
Proof.
  revert s. induction reads as [|[data fin] reads IH]; intros s Ho; cbn [upload_loop].
  { exists None, s. split; [done|]. split; [|done]. intros _. split; [|done]. destruct Ho. by apply streamed_refl. }
  destruct (upload_round data s Ho) as (e & s1 & E1 & Hok1 & Hw1). rewrite (bind_silent _ _ _ _ _ E1).
  destruct e as [e|].
  - do 2 eexists. split; [reflexivity|]. split; [done|]. intros Hw. by destruct (Hw1 Hw).
  - specialize (Hok1 eq_refl). destruct fin; cbn [reader_data reader_fails].
    + destruct (IH s1) as (e & s2 & -> & Hok2 & Hw2); [by eapply streamed_session|].
      do 2 eexists. split; [done|]. split.
      * intros He. destruct (Hok2 He) as [Hs ?]. split; [by eapply streamed_trans|done].
      * intros Hw Hf. apply Hw2; [by apply Hw1|done].
    + do 2 eexists. split; [reflexivity|]. split; [done|]. intros Hw _. by apply Hw1.
    + do 2 eexists. split; [reflexivity|]. split; done.
Qed.

(** ** Uploads: the answers *)

Definition answer_of (c : Conn) : option (list byte) := (conn_read 321 c).1.

Definition stored (c : Conn) : Prop := ∃ resp, answer_of c = Some resp ∧ nth_byte 0 resp = x01.

(** The hash in a connection's answer. *)
Definition hash_of (c : Conn) : string :=
  match answer_of c with Some resp => string_of (trimNull (slice 1 65 resp)) | None => "" end.

Fixpoint first_hash (hash : string) (cs : list Conn) : string :=
  match cs with
  | [] => hash
  | c :: cs' => first_hash (if String.eqb hash "" then hash_of c else hash) cs'
  end.

Lemma read_answers_run i cs hash fe oks s : (i + length cs ≤ length (su_NodeIDs s))%nat →
  ∃ h e ids, read_answers i cs hash fe oks s = ([], Ret ((h, e, ids, (λ c, (conn_read 321 c).2) <$> cs), s)) ∧
    (e = None ↔ fe = None ∧ Forall stored cs) ∧
    (e = None → h = first_hash hash cs ∧ ids = oks ++ take (length cs) (drop i (su_NodeIDs s))).
Proof.
  revert i hash fe oks. induction cs as [|c cs IH]; intros i hash fe oks Hi; cbn [read_answers].
  { do 3 eexists. split; [reflexivity|]. split; [split; [by split|by intros []]|]. simpl. rewrite take_0, app_nil_r. done. }
  simpl in Hi. assert (∃ id, su_NodeIDs s !! i = Some id) as [id Hid] by (apply lookup_lt_is_Some_2; lia).
  unfold stored, answer_of, hash_of in *. destruct (conn_read 321 c) as [resp c'] eqn:Ec.
  assert (∀ h1 fe1 oks1 , (match fe1 with None => False | Some _ => True end) → ∃ h e ids,
    (r ← read_answers (S i) cs h1 fe1 oks1; let '(h, e, ids, cs) := r in mret (h, e, ids, c' :: cs)) s =
      ([], Ret ((h, e, ids, c' :: ((λ c, (conn_read 321 c).2) <$> cs)), s)) ∧ e ≠ None) as Hfail.
  { intros h1 fe1 oks1 Hfe. destruct (IH (S i) h1 fe1 oks1) as (h & e & ids & E & He & _); [lia|].
    rewrite (bind_silent _ _ _ _ _ E). do 3 eexists. split; [reflexivity|]. intros [-> _]%He. done. }
  destruct resp as [resp|].
  2:{ destruct (Hfail hash (match fe with None => Some (EResponse i) | e => e end) oks) as (h & e & ids & E & Hne);
        [by destruct fe|]. do 3 eexists. rewrite fmap_cons, Ec. split; [exact E|]. split; [|done].
      split; [done|]. intros [_ [(r & Hr & _) _]%Forall_cons_1]. by rewrite Ec in Hr. }
  case_decide as Hst.
  { destruct (Hfail hash (match fe with None => Some (EStorage i (string_of (trimNull (slice 65 321 resp)))) | e => e end) oks)
      as (h & e & ids & E & Hne); [by destruct fe|]. do 3 eexists. rewrite fmap_cons, Ec. split; [exact E|].
    split; [|done]. split; [done|]. intros [_ [(r & Hr & ?) _]%Forall_cons_1]. rewrite Ec in Hr. by injection Hr as <-. }
  set (hash1 := if String.eqb hash "" then string_of (trimNull (slice 1 65 resp)) else hash).
  destruct (IH (S i) hash1 fe (oks ++ [id])) as (h & e & ids & E & He & Hres); [lia|].
  do 3 eexists. split.
  { rewrite fmap_cons, Ec. erewrite (bind_silent _ _ s); [|rewrite (bind_silent _ _ _ (su_NodeIDs s) s) by done; rewrite Hid; exact E].
    reflexivity. }
  split.
  - rewrite He, Forall_cons. rewrite Ec. split; [|tauto]. intros [? ?]. split; [done|]. split; [|done]. 
    exists resp. split; [done|]. by destruct (decide (nth_byte 0 resp = x01)).
  - intros Hn. destruct (Hres Hn) as [-> ->]. simpl. unfold hash_of, answer_of. rewrite Ec. split; [done|].
    rewrite (drop_S _ id i) by done. simpl. by rewrite <-app_assoc.
Qed.

(** ** Which connections are opened, and which are closed *)

Section properties.
Context `{UuidText} `{TimeText} `{Network}.

(** The numbers of the connections that are opened, if the next one is the
    [k]-th: those of the attempts that the network lets through. *)
Fixpoint opened (k : nat) (o : list CAct) : list nat :=
  match o with
  | [] => []
  | CDial addr :: o' => (if nw_dial k addr then [k] else []) ++ opened (S k) o'
  | _ :: o' => opened k o'
  end.

Definition closed (o : list CAct) : list nat := omap (λ a, match a with CClose k => Some k | _ => None end) o.

Fixpoint attempts (o : list CAct) : nat :=
  match o with [] => 0 | CDial _ :: o' => S (attempts o') | _ :: o' => attempts o' end.

Lemma opened_app k o1 o2 : opened k (o1 ++ o2) = opened k o1 ++ opened (k + attempts o1) o2.
Proof.
  revert k. induction o1 as [|a o1 IH]; intros k; [by rewrite Nat.add_0_r|].
  destruct a; simpl; rewrite IH; [by rewrite <-app_assoc, Nat.add_succ_r|done..].
Qed.
Lemma attempts_app o1 o2 : attempts (o1 ++ o2) = (attempts o1 + attempts o2)%nat.
Proof. induction o1 as [|[] o1 IH]; simpl; by rewrite ?IH. Qed.
Lemma closed_app o1 o2 : closed (o1 ++ o2) = closed o1 ++ closed o2.
Proof. apply omap_app. Qed.

(** The attempts are counted, *)
Definition counted (c : Caller) (o : list CAct) {A} (r : Res (A * Caller)) : Prop :=
  match r with Ret (_, c') => ca_dials c' = (ca_dials c + attempts o)%nat | Panic _ => True end.

(** and every connection that is opened is closed, once, and no other. *)
Definition tidy {A} (m : CM A) : Prop := ∀ c,
  opened (ca_dials c) (outs_of (m c)) ≡ₚ closed (outs_of (m c)) ∧ counted c (outs_of (m c)) (m c).2.

Lemma tidy_bind {A B} (m : CM A) (f : A → CM B) : tidy m → (∀ a, tidy (f a)) → tidy (m ≫= f).
Proof.
  intros Hm Hf c. destruct (Hm c) as [H1' H2']. unfold mbind, gom_bind, outs_of in *.
  destruct (m c) as [o1 [[a c1]|w]]; [|done]. destruct (Hf a c1) as [H3' H4']. unfold outs_of in *.
  destruct (f a c1) as [o2 r]. cbn [fst snd counted] in *. rewrite opened_app, closed_app, H1', <-H2', H3'.
  split; [done|]. destruct r as [[b c2]|w]; [|done]. cbn [counted] in *. rewrite attempts_app. lia.
Qed.

Lemma tidy_ret {A} (a : A) : tidy (mret a).
Proof. intros c. split; [done|]. cbn. lia. Qed.

Lemma tidy_gets {A} (f : Caller → A) : tidy (gets f).
Proof. intros c. split; [done|]. cbn. lia. Qed.

Lemma tidy_panic {A} why : tidy (panic why : CM A).
Proof. by intros c. Qed.

Create HintDb tidy.
#[local] Hint Resolve tidy_ret tidy_gets tidy_panic : tidy.

(** A connection that is attempted, and what follows in either case. *)
Lemma tidy_dial {A} addr (f : option nat → CM A) : tidy (f None) →
  (∀ k c1, ca_dials c1 = S k → k :: opened (S k) (outs_of (f (Some k) c1)) ≡ₚ closed (outs_of (f (Some k) c1)) ∧
    counted c1 (outs_of (f (Some k) c1)) (f (Some k) c1).2) → tidy (dial addr ≫= f).
Proof.
  intros Hn Hs c. set (k := ca_dials c). set (c1 := mkCaller (ca_client c) (S k)).
  assert ((dial addr ≫= f) c = ([CDial addr] ++ outs_of (f (if nw_dial k addr then Some k else None) c1),
    (f (if nw_dial k addr then Some k else None) c1).2)) as ->.
  { unfold mbind, gom_bind, outs_of. rewrite dial_run. fold k c1. by destruct (f _ c1). }
  unfold outs_of at 1 2 3. cbn [fst snd app opened]. change (closed (CDial addr :: ?o)) with (closed o).
  destruct (nw_dial k addr).
  - destruct (Hs k c1 eq_refl) as [H1' H2']. split; [exact H1'|].
    destruct (f (Some k) c1).2 as [[a c2]|w]; [|done]. cbn in *. lia.
  - destruct (Hn c1) as [H1' H2']. split; [exact H1'|].
    destruct (f None c1).2 as [[a c2]|w]; [|done]. cbn in *. lia.
Qed.

Lemma tidy_exchange addr msg : tidy (exchange addr msg).
Proof.
  apply tidy_dial; [auto with tidy|]. intros k c1 _. destruct (nw_serve k addr msg); (split; [done|unfold outs_of, counted; cbn; by rewrite Nat.add_0_r]).
Qed.
#[local] Hint Resolve tidy_exchange : tidy.

Lemma tidy_first_master peers : tidy (first_master peers).
Proof. induction peers as [|[p|] peers IH]; cbn [first_master]; [auto with tidy| |auto with tidy]. case_match; auto with tidy. Qed.

Lemma tidy_setMasterAddr ip port : tidy (setMasterAddr ip port).
Proof. intros c. split; [done|]. cbn. case_decide; cbn; lia. Qed.
#[local] Hint Resolve tidy_first_master tidy_setMasterAddr : tidy.

Lemma tidy_discover_loop seeds : tidy (discover_loop seeds).
Proof.
  induction seeds as [|seed seeds IH]; cbn [discover_loop]; [auto with tidy|].
  apply tidy_bind; [auto with tidy|]. intros id. apply tidy_bind; [auto with tidy|]. intros [m|]; [|apply IH].
  destruct (Unmarshal_ok _ _); [|apply IH]. apply tidy_bind; [auto with tidy|].
  intros [p|]; [|apply IH]. apply tidy_bind; auto with tidy.
Qed.

Lemma tidy_discoverMaster : tidy discoverMaster.
Proof. apply tidy_bind; [auto with tidy|]. intros seeds. apply tidy_discover_loop. Qed.
#[local] Hint Resolve tidy_discoverMaster : tidy.

Lemma tidy_retry_loop todo msg : tidy (retry_loop todo msg).
Proof.
  induction todo as [|todo IH]; cbn [retry_loop]; [auto with tidy|].
  apply tidy_bind; [apply tidy_gets|]. intros a. apply tidy_bind; [auto with tidy|]. intros [m|]; [auto with tidy|].
  apply tidy_bind; auto with tidy.
Qed.

Lemma tidy_ask {T} type payload (of_json : json → T * derr) : tidy (ask type payload of_json).
Proof. apply tidy_bind; [auto with tidy|]. intros id. apply tidy_bind; [apply tidy_retry_loop|]. auto with tidy. Qed.
#[local] Hint Resolve tidy_ask : tidy.

Lemma tidy_online_storage peers : tidy (online_storage peers).
Proof.
  induction peers as [|[p|] peers IH]; cbn [online_storage]; [auto with tidy| |auto with tidy].
  apply tidy_bind; auto with tidy.
Qed.

Lemma tidy_GetStorageNodes : tidy GetStorageNodes.
Proof.
  apply tidy_bind; [auto with tidy|]. intros [e|peers]; [auto with tidy|].
  apply tidy_bind; [apply tidy_online_storage|auto with tidy].
Qed.

(** A connection that is opened and closed at once. *)
Lemma tidy_probe addr (m : CM bool) : tidy m →
  tidy (d ← dial addr; match d with Some k => _ ← emit (CClose k); mret true | None => m end).
Proof.
  intros Hm. apply tidy_dial; [done|]. intros k c1 _. split; [done|unfold outs_of, counted; cbn; by rewrite Nat.add_0_r].
Qed.

Lemma tidy_Ping : tidy Ping.
Proof.
  apply tidy_bind; [apply tidy_gets|]. intros a. apply tidy_probe. apply tidy_bind; [auto with tidy|].
  intros []; [|auto with tidy]. apply tidy_bind; [apply tidy_gets|]. intros a'. apply tidy_probe. auto with tidy.
Qed.

(** *** Downloads *)

(** A method that does nothing outwards but write to the caller's writer. *)
Definition writes_only (o : list CAct) : Prop := Forall (λ a, ∃ l, a = CWriter l) o.

Lemma writes_only_quiet k o : writes_only o → opened k o = [] ∧ closed o = [] ∧ attempts o = 0%nat.
Proof. induction 1 as [|a o [l ->] _ IH]; [done|exact IH]. Qed.

Definition writes {A} (m : GoM Copier CAct A) : Prop := ∀ s, writes_only (outs_of (m s)).

Lemma writes_bind {A B} (m : GoM Copier CAct A) (f : A → GoM Copier CAct B) : writes m → (∀ a, writes (f a)) → writes (m ≫= f).
Proof.
  intros Hm Hf s. specialize (Hm s). unfold mbind, gom_bind, outs_of in *.
  destruct (m s) as [o1 [[a s1]|w]]; [|done]. specialize (Hf a s1). unfold outs_of in Hf.
  destruct (f a s1) as [o2 r]. by apply Forall_app.
Qed.

Lemma writes_silent {A} (f : Copier → Res (A * Copier)) : writes (λ s, ([], f s)).
Proof. intros s. constructor. Qed.
#[local] Hint Extern 1 (writes _) => exact (writes_silent _) : tidy.

Lemma processChunk_writes data : writes (processChunk data).
Proof.
  apply writes_bind.
  { intros s. unfold writer_Write, outs_of. destruct (sc_budget s); cbn; (constructor; [by eexists|constructor]). }
  intros r. apply writes_bind; [auto with tidy|]. intros w. case_match; [auto with tidy|]. case_decide; [auto with tidy|].
  apply writes_bind; auto with tidy.
Qed.

Lemma copy_loop_writes fuel : writes (copy_loop fuel).
Proof.
  induction fuel as [|fuel IH]; cbn [copy_loop]; [auto with tidy|].
  apply writes_bind; [auto with tidy|]. intros s. case_match; [auto with tidy|]. case_match; [auto with tidy|].
  destruct (ds_Read _ _) as [[data fin] conn]. apply writes_bind; [auto with tidy|]. intros [].
  apply writes_bind; [case_decide; [auto with tidy|apply processChunk_writes]|].
  intros [e|]; [auto with tidy|]. destruct fin; [exact IH|auto with tidy|]. apply writes_bind; auto with tidy.
Qed.

Lemma copy_writes s : copier_ok s → ∃ o e s', copy s = (o, Ret (e, s')) ∧ writes_only o.
Proof.
  intros Hs. destruct (copy_loop_terminates s (S (length (ds_bytes (sc_conn s)))) Hs) as (o & e & s' & E); [lia|].
  pose proof (copy_loop_writes (S (length (ds_bytes (sc_conn s)))) s) as Hw. rewrite E in Hw.
  unfold copy. rewrite (bind_silent _ _ _ (sc_conn s) s) by done. exists o.
  unfold mbind, gom_bind. rewrite E. destruct e as [e|]; do 2 eexists; (split; [|exact Hw]); cbn; by rewrite app_nil_r.
Qed.

Lemma streamFromStorage_tidy addr hash size budget : tidy (streamFromStorage addr hash size budget).
Proof.
  apply tidy_dial; [auto with tidy|]. intros k c1 Hk. cbv beta iota zeta.
  generalize (DownloadRequest_Encode (mkDownloadRequest hash)) as req. intros req.
  match goal with |- context [@mbind ?M ?I ?A ?B ?f ?m c1] =>
    assert (∃ o e, m c1 = (o, Ret (e, c1)) ∧ opened (S k) o = [] ∧ closed o = [] ∧ attempts o = 0%nat) as Hm end.
  2:{ destruct Hm as (o & e & Em & H1' & H2' & H3').
      erewrite (bind_run _ _ _ o _ _ [CClose k]); [|exact Em|reflexivity]. unfold outs_of. cbn [fst snd counted].
      rewrite opened_app, closed_app, attempts_app, H1', H2', H3'. split; [done|]. cbn. lia. }
  destruct (nw_download k addr req) as [conn|]; [|by eexists _, _].
  destruct (DecodeHeader (ds_bytes conn)) as [[e|header] rest] eqn:Eh; [by eexists _, _|].
  assert (sh_FileSize header <= maxInt) as Hmax by (by eapply DecodeHeader_size).
  destruct (Z.ltb_spec (sh_FileSize header) 0) as [Hneg|Hpos]; [by eexists _, _|].
  destruct (_ && _); [by eexists _, _|]. set (s0 := mkCopier _ _ _ _ _ _).
  destruct (copy_writes s0) as (o & e & s' & Ec & Hw).
  { by split; simpl. }
  destruct (writes_only_quiet (S k) o Hw) as (H1' & H2' & H3'). exists ([CRequest addr req] ++ o), e.
  split; [|by split_and!]. eapply bind_run; [reflexivity|]. unfold on_copier. by rewrite Ec.
Qed.

Lemma tidy_DownloadFileStream rid fid hash budget : tidy (DownloadFileStream rid fid hash budget).
Proof.
  apply tidy_bind; [auto with tidy|]. intros [e|ready]; [auto with tidy|].
  case_match; [auto with tidy|apply streamFromStorage_tidy].
Qed.

(** *** Uploads *)

(** A connection just opened, with its header sent. *)
Record started (sid : string) (size : Z) (node : StorageNodeAddr) (c : Conn) : Prop := mkStarted {
  sd_addr : cn_addr c = sna_Addr node;
  sd_out : cn_out c = StreamHeader_Encode (mkStreamHeader MagicUpload sid size DefaultChunkSize);
  sd_read : cn_read c = 0%nat;
  sd_open : cn_closed c = false;
  sd_peer : cn_peer c = (nw_upload (cn_id c) (sna_Addr node)).2 }.

Lemma closed_close_all cs c : close_all cs c = (CClose ∘ cn_id <$> cs, Ret ((), c)).
Proof. apply for_each_emit. Qed.

Lemma opened_closes k ks : opened k (CClose <$> ks) = [].
Proof. by induction ks. Qed.
Lemma closed_closes ks : closed (CClose <$> ks) = ks.
Proof. induction ks as [|k ks IH]; [done|]. csimpl. by rewrite IH. Qed.
Lemma attempts_closes ks : attempts (CClose <$> ks) = 0%nat.
Proof. by induction ks. Qed.

Lemma open_conns_run sid size nodes cs ids c :
  ∃ o r c', open_conns sid size nodes cs ids c = (o, Ret (r, c')) ∧ ca_client c' = ca_client c ∧
  ca_dials c' = (ca_dials c + attempts o)%nat ∧
  match r with
  | inl _ => (cn_id <$> cs) ++ opened (ca_dials c) o ≡ₚ closed o
  | inr (cs', ids') => ∃ new, cs' = cs ++ new ∧ ids' = ids ++ (sna_NodeID <$> nodes) ∧
      Forall2 (started sid size) nodes new ∧ opened (ca_dials c) o = cn_id <$> new ∧ closed o = []
  end.
Proof.
  revert cs ids c. induction nodes as [|node nodes IH]; intros cs ids c; cbn [open_conns].
  { do 3 eexists. split; [reflexivity|]. split; [done|]. split; [cbn; lia|]. exists []. by rewrite !app_nil_r. }
  set (c1 := mkCaller (ca_client c) (S (ca_dials c))).
  pose proof (dial_run (sna_Addr node) c) as Ed. fold c1 in Ed.
  destruct (nw_dial (ca_dials c) (sna_Addr node)) eqn:Edial.
  2:{ do 3 eexists. split.
      { eapply bind_run; [exact Ed|]. eapply bind_run; [apply closed_close_all|reflexivity]. }
      rewrite app_nil_r, list_fmap_compose. csimpl. rewrite Edial, opened_closes, closed_closes, attempts_closes.
      split; [done|]. split; [lia|]. by rewrite app_nil_r. }
  destruct (nw_upload (ca_dials c) (sna_Addr node)) as [budget peer] eqn:Eu.
  set (hdr := StreamHeader_Encode (mkStreamHeader MagicUpload sid size DefaultChunkSize)).
  set (conn := mkConn (ca_dials c) (sna_Addr node) [] budget peer 0 false).
  destruct (conn_write hdr conn) as [[n ok] conn'] eqn:Ew. cbn [snd]. destruct ok.
  - pose proof (conn_write_ok _ _ _ _ Ew) as [_ (_ & bu & Econn & _)].
    destruct (IH (cs ++ [conn']) (ids ++ [sna_NodeID node]) c1) as (o & r & c' & E & Hc & Hd & Hr).
    do 3 eexists. split.
    { eapply bind_run; [exact Ed|]. cbv beta iota. rewrite Eu. eapply bind_run; [reflexivity|].
      fold hdr conn. rewrite Ew. exact E. }
    split; [by rewrite Hc|]. split; [rewrite Hd; cbn; lia|]. cbn [app opened]. rewrite Edial. csimpl.
    destruct r as [e|[cs' ids']].
    + rewrite fmap_app, <-app_assoc in Hr. subst conn'. exact Hr.
    + destruct Hr as (new & -> & -> & Hf & Ho & Hcl). exists (conn' :: new). subst conn'.
      rewrite <-!app_assoc. split_and!; try done; [|csimpl; by rewrite <-Ho].
      constructor; [|done]. split; try done. simpl. by rewrite Eu.
  - do 3 eexists. split.
    { eapply bind_run; [exact Ed|]. cbv beta iota. rewrite Eu. eapply bind_run; [reflexivity|].
      fold hdr conn. rewrite Ew. eapply bind_run; [reflexivity|].
      eapply bind_run; [apply closed_close_all|reflexivity]. }
    rewrite app_nil_r, list_fmap_compose. csimpl. rewrite Edial, opened_closes, closed_closes, attempts_closes.
    split; [done|]. split; [lia|]. rewrite Permutation_app_comm. done.
Qed.

Lemma InitStreamUpload_run rid fid fn ct size c :
  let r := InitStreamUpload rid fid fn ct size c in
  counted c (outs_of r) r.2 ∧
  match r with
  | (o, Panic _) => opened (ca_dials c) o ≡ₚ closed o
  | (o, Ret (inl _, _)) => opened (ca_dials c) o ≡ₚ closed o
  | (o, Ret (inr s, _)) => opened (ca_dials c) o ≡ₚ closed o ++ (cn_id <$> su_Connections s) ∧
      open_session s ∧ su_bytesWritten s = 0 ∧
      su_Size s = size ∧ su_FileID s = fid ∧ length (su_Connections s) = length (su_NodeIDs s) ∧
      ∃ nodes, nodes ≠ [] ∧ Forall2 (started (su_SessionID s) size) nodes (su_Connections s) ∧
        su_NodeIDs s = sna_NodeID <$> nodes
  end.
Proof.
  cbv zeta. unfold InitStreamUpload, mbind, gom_bind.
  destruct (tidy_ask MessageStreamUploadInit (Some (StreamUploadInitRequest_to_json
    (mkStreamUploadInitRequest (uuid_String rid) fid fn ct size))) StreamUploadReadyResponse_of_json c) as [Hq Hd].
  unfold outs_of in *. destruct (ask _ _ _ c) as [o [[[e|ready] c1]|w]]; cbn [fst snd counted] in *; [| |done].
  - simpl. by rewrite app_nil_r.
  - destruct (sur_Success ready); cbn [negb]; [|simpl; by rewrite app_nil_r].
    case_decide as Hn; [simpl; by rewrite app_nil_r|].
    destruct (open_conns_run (sur_SessionID ready) size (sur_StorageNodes ready) [] [] c1) as (o' & r & c' & -> & _ & Hd' & Hr).
    assert (ca_dials c' = (ca_dials c + attempts (o ++ o'))%nat) as Hdials by (rewrite attempts_app; lia).
    destruct r as [e|[cs ids]]; simpl; rewrite app_nil_r, opened_app, closed_app, <-Hd; (split; [exact Hdials|]).
    + by f_equiv.
    + destruct Hr as (new & -> & -> & Hf & -> & ->). rewrite app_nil_r. split_and!; try done.
      * by f_equiv.
      * split; [|done]. clear -Hf. simpl. induction Hf as [|n' c' ns cs Hs _ IH]; constructor; [apply Hs|done].
      * transitivity (length (sur_StorageNodes ready)); [symmetry; by eapply Forall2_length|symmetry; apply length_fmap].
      * by exists (sur_StorageNodes ready).
Qed.

(** ** A whole upload *)

(** What the methods of a session never change. *)
Definition same_session (s s' : StreamUploadSession) : Prop :=
  (cn_id <$> su_Connections s') = (cn_id <$> su_Connections s) ∧ su_NodeIDs s' = su_NodeIDs s.

Lemma conn_write_id l c : cn_id (conn_write l c).2 = cn_id c.
Proof. unfold conn_write. by destruct (cn_closed c), (cn_budget c). Qed.

Lemma write_conns_ids data i cs : (cn_id <$> (write_conns data i cs).2) = (cn_id <$> cs).
Proof.
  revert i. induction cs as [|c cs IH]; intros i; [done|]. cbn [write_conns].
  pose proof (conn_write_id data c) as Hid. destruct (conn_write data c) as [[n ok] c']. cbn [snd] in Hid.
  destruct ok; cbn [negb]; [|by csimpl; rewrite Hid]. case_decide; [by csimpl; rewrite Hid|].
  specialize (IH (S i)). destruct (write_conns data (S i) cs) as [e cs1]. cbn [snd] in *.
  csimpl. by rewrite Hid, IH.
Qed.

Lemma WriteChunk_same data s e s' o : WriteChunk data s = (o, Ret (e, s')) → same_session s s'.
Proof.
  unfold WriteChunk. rewrite (bind_silent _ _ _ s s) by done.
  pose proof (write_conns_ids data 0 (su_Connections s)) as Hid.
  destruct (write_conns data 0 (su_Connections s)) as [r cs]. cbn [snd] in Hid.
  rewrite (bind_silent _ _ _ () (set_conns cs s)) by done. destruct r; intros [= _ _ <-]; by split.
Qed.

Lemma upload_loop_same reads s o e s' : upload_loop reads s = (o, Ret (e, s')) → same_session s s'.
Proof.
  revert s o. induction reads as [|[data fin] reads IH]; intros s o; cbn [upload_loop]; [by intros [= _ _ <-]|].
  unfold mbind, gom_bind. 
  destruct ((if decide (data = []) then mret None else WriteChunk data) s) as [o1 [[e1 s1]|w]] eqn:E1; [|done].
  assert (same_session s s1) as Hs1.
  { case_decide; [by injection E1 as _ _ <-|by eapply WriteChunk_same]. }
  destruct e1 as [e1|]; [by intros [= _ _ <-]|]. destruct fin; [|by intros [= _ _ <-]|by intros [= _ _ <-]].
  destruct (upload_loop reads s1) as [o2 r2] eqn:E2. intros [= _ ->].
  destruct (IH s1 o2 E2), Hs1. split; congruence.
Qed.

Lemma conn_read_id n c : cn_id (conn_read n c).2 = cn_id c.
Proof. unfold conn_read. by destruct (cn_closed c). Qed.

(** Finalize: an error, or every node answered with a success. *)
Lemma Finalize_run_le s : (length (su_Connections s) ≤ length (su_NodeIDs s))%nat →
  ∃ r s', Finalize s = ([], Ret (r, s')) ∧ same_session s s' ∧
    (su_bytesWritten s = su_Size s ∧ Forall stored (su_Connections s) →
       r = inr (mkUploadResult (first_hash "" (su_Connections s)) (take (length (su_Connections s)) (su_NodeIDs s)))) ∧
    (∀ res, r = inr res → su_bytesWritten s = su_Size s ∧ Forall stored (su_Connections s)).
Proof.
  intros Hl. unfold Finalize. rewrite (bind_silent _ _ _ s s) by done. case_decide as Hb.
  { do 2 eexists. split; [reflexivity|]. split; [done|]. split; [tauto|done]. }
  destruct (read_answers_run 0 (su_Connections s) "" None [] s) as (h & e & ids & E & He & Hres); [lia|].
  rewrite (bind_silent _ _ _ _ _ E). rewrite (bind_silent _ _ _ () _ eq_refl).
  do 2 eexists. split; [reflexivity|]. split.
  { split; [|done]. cbn. rewrite <-list_fmap_compose. apply list_fmap_ext. intros i c _. apply conn_read_id. }
  destruct e as [e|].
  - split; [|done]. intros [_ Hst]. discriminate (proj2 He (conj eq_refl Hst)).
  - destruct (Hres eq_refl) as [-> ->]. rewrite drop_0. split; [done|].
    intros res [= <-]. split; [tauto|]. by apply He.
Qed.

Lemma Finalize_run s : length (su_Connections s) = length (su_NodeIDs s) →
  ∃ r s', Finalize s = ([], Ret (r, s')) ∧ same_session s s' ∧
    (su_bytesWritten s = su_Size s ∧ Forall stored (su_Connections s) →
       r = inr (mkUploadResult (first_hash "" (su_Connections s)) (su_NodeIDs s))) ∧
    (∀ res, r = inr res → su_bytesWritten s = su_Size s ∧ Forall stored (su_Connections s)).
Proof.
  intros Hl. destruct (Finalize_run_le s) as (r & s' & E & Hs & Hr & Hres); [lia|].
  rewrite Hl, take_ge in Hr by done. eauto 10.
Qed.

(** The upload of the whole reader over an open session. *)
Definition upload_all (reads : list (list byte * read_end)) : GoM StreamUploadSession CAct (cerr + UploadResult) :=
  e ← upload_loop reads;
  r ← match e with Some e => mret (inl e) | None => Finalize end;
  _ ← Close; mret r.

Lemma Close_run s : Close s = (CClose ∘ cn_id <$> su_Connections s, Ret ((), set_conns [] s)).
Proof.
  unfold Close. rewrite (bind_silent _ _ _ s s) by done.
  erewrite bind_run; [|apply for_each_emit|reflexivity]. by rewrite app_nil_r.
Qed.

Lemma upload_all_run reads s : open_session s → length (su_Connections s) = length (su_NodeIDs s) →
  ∃ r s', upload_all reads s = (CClose <$> (cn_id <$> su_Connections s), Ret (r, s')) ∧
    (∀ res, r = inr res → reader_fails reads = false ∧ ∃ s1, streamed (reader_data reads) s s1 ∧
       su_bytesWritten s1 = su_Size s1 ∧ Forall stored (su_Connections s1) ∧
       res = mkUploadResult (first_hash "" (su_Connections s1)) (su_NodeIDs s)) ∧
    (Forall willing (su_Connections s) → reader_fails reads = false → ∃ s1, streamed (reader_data reads) s s1 ∧
       (su_bytesWritten s1 = su_Size s1 → Forall stored (su_Connections s1) →
        r = inr (mkUploadResult (first_hash "" (su_Connections s1)) (su_NodeIDs s)))).
Proof.
  intros Ho Hl. destruct (upload_loop_run reads s Ho) as (e & s1 & E1 & Hok & Hw).
  destruct (upload_loop_same _ _ _ _ _ E1) as [Hid Hn].
  unfold upload_all. rewrite (bind_silent _ _ _ _ _ E1). destruct e as [e|].
  - do 2 eexists. split.
    { rewrite (bind_silent _ _ _ _ _ eq_refl). erewrite bind_run; [|apply Close_run|reflexivity].
      by rewrite app_nil_r, list_fmap_compose, Hid. }
    split; [done|]. intros H1' H2'. by destruct (Hw H1' H2').
  - destruct (Hok eq_refl) as [Hs Hf].
    destruct (Finalize_run s1) as (r & s2 & E2 & [Hid2 _] & Hr1 & Hr2).
    { rewrite Hn, <-Hl, <-(length_fmap cn_id (su_Connections s1)), Hid. apply length_fmap. }
    do 2 eexists. split.
    { rewrite (bind_silent _ _ _ _ _ E2). erewrite bind_run; [|apply Close_run|reflexivity].
      by rewrite app_nil_r, list_fmap_compose, Hid2, Hid. }
    rewrite Hn in Hr1. split.
    + intros res ->. destruct (Hr2 res eq_refl) as [Hb Hst]. split; [done|]. exists s1. split_and!; try done.
      by injection (Hr1 (conj Hb Hst)) as ->.
    + intros _ _. exists s1. split; [done|]. intros Hb Hst. by apply Hr1.
Qed.

Lemma UploadFileStream_split rid fid fn ct size reads c :
  UploadFileStream rid fid fn ct size reads c =
  match InitStreamUpload rid fid fn ct size c with
  | (o, Panic w) => (o, Panic w)
  | (o, Ret (inl e, c1)) => (o, Ret (inl e, c1))
  | (o, Ret (inr s, c1)) =>
    match upload_all reads s with
    | (o', Ret (r, _)) => (o ++ o', Ret (r, c1))
    | (o', Panic w) => (o ++ o', Panic w)
    end
  end.
Proof.
  unfold UploadFileStream, mbind at 1, gom_bind at 1.
  destruct (InitStreamUpload rid fid fn ct size c) as [o [[[e|s] c1]|w]]; [by cbn; rewrite app_nil_r| |done].
  unfold on_session, mbind at 1, gom_bind at 1. fold (upload_all reads).
  destruct (upload_all reads s) as [o' [[r s']|w]]; [|done]. cbn. by rewrite app_nil_r.
Qed.

Lemma tidy_UploadFileStream rid fid fn ct size reads : tidy (UploadFileStream rid fid fn ct size reads).
Proof.
  intros c. rewrite UploadFileStream_split. destruct (InitStreamUpload_run rid fid fn ct size c) as [Hd Hi].
  destruct (InitStreamUpload rid fid fn ct size c) as [o [[[e|s] c1]|w]]; unfold outs_of in *; cbn [fst snd counted] in *.
  - done.
  - destruct Hi as (Hop & Hs & _ & _ & _ & Hl & _).
    destruct (upload_all_run reads s Hs Hl) as (r & s' & -> & _). cbn [fst snd counted].
    rewrite opened_app, closed_app, attempts_app, opened_closes, closed_closes, attempts_closes, app_nil_r.
    split; [exact Hop|]. lia.
  - done.
Qed.

(** C28: No connection is leaked by a call of the client, whatever the master,
    the seeds, the storage nodes, the reader, the writer and the network do:
    every connection that is opened (to the master, to a seed in the search for
    a new one, or to a storage node) is closed again before the call ends,
    exactly once, and no other is closed, whether the call succeeds, fails at
    any point or panics. This is so for uploads in one call, downloads,
    deletions, the list of storage nodes and the probe of the master. *)
Theorem connections_closed c :
  let closes_all {A} (m : CM A) := opened (ca_dials c) (outs_of (m c)) ≡ₚ closed (outs_of (m c)) in
  (∀ rid fid fn ct size reads, closes_all (UploadFileStream rid fid fn ct size reads)) ∧
  (∀ rid fid hash budget, closes_all (DownloadFileStream rid fid hash budget)) ∧
  (∀ rid fid hash, closes_all (DeleteFile rid fid hash)) ∧
  closes_all GetStorageNodes ∧ closes_all Ping.
Proof.
  cbv zeta. split_and!; intros.
  - apply tidy_UploadFileStream.
  - apply tidy_DownloadFileStream.
  - apply tidy_ask.
  - apply tidy_GetStorageNodes.
  - apply tidy_Ping.
Qed.

(** Node [node] was sent the header and [data], and answered with a success. *)
Definition delivered (sid : string) (size : Z) (data : list byte) (node : StorageNodeAddr) (c : Conn) : Prop :=
  cn_addr c = sna_Addr node ∧ stored c ∧
  cn_out c = StreamHeader_Encode (mkStreamHeader MagicUpload sid size DefaultChunkSize) ++ data.

End properties.

(** ** Both ends *)

Section nodes.
Context `{UuidText} `{TimeText} `{ErrnoText} `{Network}.

(** What a storage node answers to the bytes of a connection. *)
Definition storage_peer (w : World) (nanos now : Z) (sv : StreamServer) (req : list byte) : list byte :=
  written (outs_of (handleConnection w nanos now (mkExchange sv req false None))).

(** A storage node with a session and room on its disk. *)
Definition node_ready (w : World) (sid : string) (sv : StreamServer) : Prop :=
  ∃ b idx files dirs sess cb k session,
    sv = mkStreamServer sess (mkStore b (Some idx) (mkDisk files dirs [])) cb ∧
    found_at w sess sid k session ∧ layout b (mkDisk files dirs []).

Lemma upload_response_success h : String.length h = 64%nat → no_trailing_nul (bytes_of h) →
  nth_byte 0 (upload_response true h "") = x01 ∧
  string_of (Protocol.trimNull (slice 1 65 (upload_response true h ""))) = h.
Proof.
  intros Hl Hn. assert (length (bytes_of h) = 64%nat) as Hb by (by rewrite length_bytes_of).
  assert (upload_response true h "" = x01 :: bytes_of h ++ zeros 256) as ->.
  { unfold upload_response, copy_slice. rewrite Hb. cbn [Nat.min Nat.sub]. rewrite (take_ge (bytes_of h)) by lia. done. }
  split; [done|]. change (slice 1 65 _) with (take 64 (bytes_of h ++ zeros 256)). rewrite take_app_length' by done.
  rewrite <-(app_nil_r (bytes_of h)). change [] with (zeros 0). by rewrite trimNull_pad, string_of_bytes_of.
Qed.

Lemma storage_answers w nanos now sid sv size data : (String.length sid ≤ 36)%nat → no_trailing_nul (bytes_of sid) →
  node_ready w sid sv → size = Z.of_nat (length data) → size <= maxInt →
  storage_peer w nanos now sv
    (StreamHeader_Encode (mkStreamHeader MagicUpload sid size DefaultChunkSize) ++ data) =
  upload_response true (sha256_hex data) "".
Proof.
  intros Hs Hn (b & idx & files & dirs & sess & cb & k & session & -> & Hf & Hd) Hsize Hmax.
  destruct (upload_stores w b idx files dirs sess cb (mkStreamHeader MagicUpload sid size DefaultChunkSize) data []
    false k session nanos now) as (o & s' & E & Ho & _); try done.
  { split; simpl; [by left|done|done| |done]. unfold maxInt in Hmax. int_bounds; lia. }
  rewrite app_nil_r in E. unfold storage_peer. by rewrite E.
Qed.

Lemma answer_of_node k addr out b peer resp : peer out = resp → length resp = 321%nat →
  answer_of (mkConn k addr out b peer 0 false) = Some resp.
Proof.
  intros Hp Hl. change (answer_of _) with (ReadFull 321 (peer out)).1.
  rewrite Hp, <-(app_nil_r resp), ReadFull_app by done. cbn [fst]. by rewrite app_nil_r.
Qed.

(** The connections of an upload to nodes that all take part. *)
Definition node_conns (hdr : list byte) (k : nat) (nodes : list StorageNodeAddr) : list Conn :=
  imap (λ i node, mkConn (k + i) (sna_Addr node) hdr None (nw_upload (k + i) (sna_Addr node)).2 0 false) nodes.

Lemma node_conns_cons hdr k node nodes : node_conns hdr k (node :: nodes) =
  [mkConn k (sna_Addr node) hdr None (nw_upload k (sna_Addr node)).2 0 false] ++ node_conns hdr (S k) nodes.
Proof.
  unfold node_conns. simpl. rewrite Nat.add_0_r. f_equal.
  apply imap_ext. intros i x _. simpl. by rewrite Nat.add_succ_r.
Qed.

Lemma open_conns_willing sid size nodes cs ids c :
  (∀ i node, nodes !! i = Some node → nw_dial (ca_dials c + i) (sna_Addr node) = true ∧
     (nw_upload (ca_dials c + i) (sna_Addr node)).1 = None) →
  ∃ o c', open_conns sid size nodes cs ids c = (o, Ret (inr
    (cs ++ node_conns (StreamHeader_Encode (mkStreamHeader MagicUpload sid size DefaultChunkSize)) (ca_dials c) nodes,
     ids ++ (sna_NodeID <$> nodes)), c')).
Proof.
  revert cs ids c. induction nodes as [|node nodes IH]; intros cs ids c Hn; cbn [open_conns].
  { do 2 eexists. by rewrite !app_nil_r. }
  destruct (Hn 0%nat node eq_refl) as [Hd Hu]. rewrite Nat.add_0_r in *.
  set (c1 := mkCaller (ca_client c) (S (ca_dials c))).
  set (hdr := StreamHeader_Encode (mkStreamHeader MagicUpload sid size DefaultChunkSize)).
  set (conn := mkConn (ca_dials c) (sna_Addr node) hdr None (nw_upload (ca_dials c) (sna_Addr node)).2 0 false).
  destruct (IH (cs ++ [conn]) (ids ++ [sna_NodeID node]) c1) as (o & c' & E).
  { intros i n' Hi. cbn [c1 ca_dials]. rewrite Nat.add_succ_comm. by apply (Hn (S i)). }
  destruct (nw_upload (ca_dials c) (sna_Addr node)) as [budget peer] eqn:Eu. simpl in Hu. subst budget.
  unfold conn in E. cbn [snd] in E.
  do 2 eexists. eapply bind_run; [apply dial_run|]. rewrite Hd. cbv beta iota. rewrite Eu.
  eapply bind_run; [reflexivity|]. cbn [conn_write cn_closed cn_budget snd cn_id cn_addr cn_out cn_peer cn_read app].
  fold hdr c1. rewrite node_conns_cons, Eu. rewrite <-!app_assoc in E. exact E.
Qed.

(** A node that has a file: its storage finds it, with its size. *)
Definition node_has (sv : StreamServer) (h : string) (data : list byte) : Prop :=
  dk_faults (st_disk (sv_storage sv)) = [] ∧ ∃ m, fm_Size m = Z.of_nat (length data) ∧
  GetFile (O := SAct) h (sv_storage sv) = ([], Ret (inr (RegularFile (Raw data), m), sv_storage sv)).

Lemma first_hash_all h cs : h ≠ "" → cs ≠ [] → Forall (λ c, hash_of c = h) cs → first_hash "" cs = h.
Proof.
  intros Hh Hne Hcs. destruct Hcs as [|c cs <- Hcs]; [done|]. simpl. clear Hne.
  assert (∀ cs, Forall (λ c', hash_of c' = hash_of c) cs → first_hash (hash_of c) cs = hash_of c) as Hr; [|by apply Hr].
  clear Hcs cs. intros cs. induction 1 as [|c' cs _ _ IH]; [done|]. simpl.
  by destruct (String.eqb_spec (hash_of c) "").
Qed.

(** The session of an upload when all nodes take part; [k] is the number of
    its first connection. *)
Definition ready_session (fid : uuid) (size : Z) (ready : StreamUploadReadyResponse) (k : nat) : StreamUploadSession :=
  let sid := sur_SessionID ready in
  mkStreamUploadSession sid fid size
    (node_conns (StreamHeader_Encode (mkStreamHeader MagicUpload sid size DefaultChunkSize)) k (sur_StorageNodes ready))
    (sna_NodeID <$> sur_StorageNodes ready) 0.

Lemma InitStreamUpload_ready rid fid fn ct size c ready o1 c1 :
  ask MessageStreamUploadInit
    (Some (StreamUploadInitRequest_to_json (mkStreamUploadInitRequest (uuid_String rid) fid fn ct size)))
    StreamUploadReadyResponse_of_json c = (o1, Ret (inr ready, c1)) →
  sur_Success ready = true → sur_StorageNodes ready ≠ [] →
  (∀ i node, sur_StorageNodes ready !! i = Some node →
     nw_dial (ca_dials c1 + i) (sna_Addr node) = true ∧ (nw_upload (ca_dials c1 + i) (sna_Addr node)).1 = None) →
  ∃ o c', InitStreamUpload rid fid fn ct size c = (o, Ret (inr (ready_session fid size ready (ca_dials c1)), c')).
Proof.
  intros Hask Hok Hne Hnodes. destruct (open_conns_willing (sur_SessionID ready) size (sur_StorageNodes ready) [] [] c1 Hnodes)
    as (o2 & c2 & E2). exists (o1 ++ o2), c2. unfold InitStreamUpload. eapply bind_run; [exact Hask|]. cbn [negb].
  rewrite Hok. cbn [negb]. rewrite decide_False by done. erewrite bind_run; [by rewrite app_nil_r|exact E2|reflexivity].
Qed.

(** Nodes that have the session and take what is written. *)
Definition nodes_ready (w : nat → World) (nanos now : nat → Z) (sid : string) (k : nat) (nodes : list StorageNodeAddr)
    (sv : nat → StreamServer) : Prop :=
  ∀ i node, nodes !! i = Some node → node_ready (w i) sid (sv i) ∧
    nw_upload (k + i) (sna_Addr node) = (None, storage_peer (w i) (nanos i) (now i) (sv i)).

Lemma node_conns_elem w nanos now sid hdr k nodes sv c : nodes_ready w nanos now sid k nodes sv → c ∈ node_conns hdr k nodes →
  ∃ i node, nodes !! i = Some node ∧ c = mkConn (k + i) (sna_Addr node) hdr None (storage_peer (w i) (nanos i) (now i) (sv i)) 0 false.
Proof.
  intros Hn (i & node & -> & Hi)%elem_of_lookup_imap. exists i, node. split; [done|]. by destruct (Hn i node Hi) as [_ ->].
Qed.

Lemma node_conns_willing w nanos now sid hdr k nodes sv : nodes_ready w nanos now sid k nodes sv →
  Forall willing (node_conns hdr k nodes).
Proof. intros Hn. apply Forall_forall. intros c Hc. by destruct (node_conns_elem _ _ _ _ _ _ _ _ c Hn Hc) as (? & ? & _ & ->). Qed.

(** The data of a session, once it is all written, is stored everywhere: the
    client learns its SHA-256 and the nodes. *)
Lemma ready_session_stores w nanos now sv fid ready k data s1 :
  let size := Z.of_nat (length data) in let sid := sur_SessionID ready in
  nodes_ready w nanos now sid k (sur_StorageNodes ready) sv → sur_StorageNodes ready ≠ [] →
  (String.length sid ≤ 36)%nat → no_trailing_nul (bytes_of sid) → size <= maxInt →
  streamed data (ready_session fid size ready k) s1 →
  su_bytesWritten s1 = su_Size s1 ∧ Forall stored (su_Connections s1) ∧
  first_hash "" (su_Connections s1) = sha256_hex data.
Proof.
  intros size sid Hn Hne Hs Hnul Hmax Hstr.
  pose proof (length_sha256_hex data) as Hlen. pose proof (all_hex_no_nul _ (sha256_hex_all_hex data)) as Hnn.
  destruct (upload_response_success _ Hlen Hnn) as [R1 R2].
  assert (Forall (λ c', stored c' ∧ hash_of c' = sha256_hex data) (su_Connections s1)) as Hall.
  { apply Forall_forall. intros c' Hc'. pose proof (st_conns _ _ _ Hstr) as Hadv.
    apply list_elem_of_lookup_1 in Hc' as [i Hi]. destruct (Forall2_lookup_r _ _ _ _ _ Hadv Hi) as (c0 & Hc0 & Ha).
    apply list_elem_of_lookup_2 in Hc0. destruct (node_conns_elem _ _ _ _ _ _ _ _ c0 Hn Hc0) as (j & node & Hj & ->).
    destruct Ha as (_ & b & -> & _). destruct (Hn j node Hj) as [Hready _].
    cbn [cn_id cn_addr cn_out cn_peer cn_read]. unfold stored, hash_of.
    rewrite (answer_of_node _ _ _ _ _ (upload_response true (sha256_hex data) ""));
      [|by apply storage_answers|apply length_upload_response].
    rewrite trimNull_agrees. split; [|done]. by eexists. }
  split_and!.
  - rewrite (st_bytes _ _ _ Hstr), (st_size _ _ _ Hstr). simpl. apply int64_id.
    unfold size, maxInt in *. int_bounds; lia.
  - by eapply Forall_impl; [exact Hall|]; intros c' [? _].
  - apply first_hash_all; [intros Hh; by rewrite Hh in Hlen| |].
    + intros Hnil. pose proof (Forall2_length _ _ _ (st_conns _ _ _ Hstr)) as Hl. rewrite Hnil in Hl.
      simpl in Hl. unfold node_conns in Hl. rewrite length_imap in Hl. by destruct (sur_StorageNodes ready).
    + by eapply Forall_impl; [exact Hall|]; intros c' [_ ?].
Qed.

(** What a node has once it has handled the bytes of its connection. *)
Lemma ready_node_has w nanos now sv k nodes sid data i node :
  let size := Z.of_nat (length data) in
  nodes_ready w nanos now sid k nodes sv → (String.length sid ≤ 36)%nat → no_trailing_nul (bytes_of sid) →
  size <= maxInt → nodes !! i = Some node → ∃ o e,
  handleConnection (w i) (nanos i) (now i) (mkExchange (sv i)
    (StreamHeader_Encode (mkStreamHeader MagicUpload sid size DefaultChunkSize) ++ data) false None) =
    (o, Ret ((), e)) ∧ node_has (ex_server e) (sha256_hex data) data.
Proof.
  intros size Hn Hs Hnul Hmax Hi. destruct (Hn i node Hi) as [Hr _].
  destruct Hr as (b & idx & files & dirs & sess & cb & k' & session & -> & Hf & Hd).
  destruct (upload_stores (w i) b idx files dirs sess cb (mkStreamHeader MagicUpload sid size DefaultChunkSize) data []
    false k' session (nanos i) (now i)) as (o & s' & E & _ & _ & _ & Hhas); try done.
  { split; simpl; [by left|done|done| |done]. unfold size, maxInt in *. int_bounds; lia. }
  rewrite app_nil_r in E. exists o, s'. split; [exact E|exact Hhas].
Qed.

(** An upload from end to end: when the master names storage nodes that
    have the session and can be reached, the upload succeeds with the SHA-256
    of the data and all the nodes, in order; and each node, once it has
    handled the bytes its connection carried, serves exactly the data under
    that hash. *)
Theorem upload_to_storage_nodes rid fid fn ct reads c ready o1 c1 (w : nat → World) (nanos now : nat → Z)
    (sv : nat → StreamServer) :
  let data := reader_data reads in let size := Z.of_nat (length data) in let sid := sur_SessionID ready in
  ask MessageStreamUploadInit
    (Some (StreamUploadInitRequest_to_json (mkStreamUploadInitRequest (uuid_String rid) fid fn ct size)))
    StreamUploadReadyResponse_of_json c = (o1, Ret (inr ready, c1)) →
  sur_Success ready = true → sur_StorageNodes ready ≠ [] →
  (String.length sid ≤ 36)%nat → no_trailing_nul (bytes_of sid) →
  reader_fails reads = false → size <= maxInt →
  (∀ i node, sur_StorageNodes ready !! i = Some node →
     nw_dial (ca_dials c1 + i) (sna_Addr node) = true ∧ node_ready (w i) sid (sv i) ∧
     nw_upload (ca_dials c1 + i) (sna_Addr node) = (None, storage_peer (w i) (nanos i) (now i) (sv i))) →
  (∃ o c', UploadFileStream rid fid fn ct size reads c =
    (o, Ret (inr (mkUploadResult (sha256_hex data) (sna_NodeID <$> sur_StorageNodes ready)), c'))) ∧
  ∀ i node, sur_StorageNodes ready !! i = Some node → ∃ o e,
    handleConnection (w i) (nanos i) (now i) (mkExchange (sv i)
      (StreamHeader_Encode (mkStreamHeader MagicUpload sid size DefaultChunkSize) ++ data) false None) =
      (o, Ret ((), e)) ∧ node_has (ex_server e) (sha256_hex data) data.
Proof.
  intros data size sid Hask Hok Hne Hs Hnul Hfails Hmax Hnodes.
  assert (nodes_ready w nanos now sid (ca_dials c1) (sur_StorageNodes ready) sv) as Hn
    by (intros i node Hi; by destruct (Hnodes i node Hi) as (_ & ? & ?)).
  split; [|intros i node Hi; by eapply ready_node_has].
  destruct (InitStreamUpload_ready rid fid fn ct size c ready o1 c1 Hask Hok Hne) as (o & c' & Einit).
  { intros i node Hi. destruct (Hnodes i node Hi) as (? & _ & ->). done. }
  set (s := ready_session fid size ready (ca_dials c1)) in Einit.
  pose proof (node_conns_willing _ _ _ _ (StreamHeader_Encode (mkStreamHeader MagicUpload sid size DefaultChunkSize)) _ _ _ Hn) as Hw.
  destruct (upload_all_run reads s) as (r & s' & E & _ & Hr).
  { split; [|done]. by eapply Forall_impl; [exact Hw|]; intros ? []. }
  { simpl. unfold node_conns. by rewrite length_imap, length_fmap. }
  destruct Hr as (s1 & Hstr & Hr); [exact Hw|done|].
  destruct (ready_session_stores _ _ _ _ fid ready _ data s1 Hn Hne Hs Hnul Hmax Hstr) as (Hb & Hst & Hh).
  do 2 eexists. rewrite UploadFileStream_split, Einit, E. do 3 f_equal. rewrite Hr by done. by rewrite Hh.
Qed.

(** A download from end to end: from a node that has the data under its
    SHA-256, over a connection that carries the node's answer in reads of any
    sizes, to a writer with enough room, the client delivers exactly the data
    and reports success. *)
Theorem download_from_storage_node addr data size budget c w nanos now sv fails chunk :
  let h := sha256_hex data in let req := DownloadRequest_Encode (mkDownloadRequest h) in
  nw_dial (ca_dials c) addr = true →
  nw_download (ca_dials c) addr req = Some (mkDStream (storage_peer w nanos now sv req) fails chunk 0 (λ _, true)) →
  node_has sv h data → (size = 0 ∨ size = Z.of_nat (length data)) → Z.of_nat (length data) <= maxInt →
  takes (Z.of_nat (length data)) budget →
  ∃ o c', streamFromStorage addr h size budget c = (o, Ret (None, c')) ∧ received o = data.
Proof.
  intros h req Hdial Hdown (Hf & m & Hm & Hget) Hsize Hmax Htakes.
  pose proof (length_sha256_hex data) as Hlen. pose proof (sha256_hex_all_hex data) as Hhex. fold h in Hlen, Hhex.
  destruct sv as [sess [b idx d] cb]. cbn [sv_storage st_disk] in *.
  destruct (download_run w nanos now h data m sess b idx d cb [] false Hf Hlen (all_hex_no_nul h Hhex) Hget)
    as (os & E & Hw).
  rewrite app_nil_r in E. set (hd := mkStreamHeader _ _ _ _) in Hw.
  assert (storage_peer w nanos now (mkStreamServer sess (mkStore b idx d) cb) req = StreamHeader_Encode hd ++ data) as Hpeer.
  { unfold storage_peer, req. by rewrite E. }
  assert (DecodeHeader (StreamHeader_Encode hd ++ data) = (inr hd, data)) as Hdec.
  { unfold DecodeHeader. rewrite ReadFull_app by apply length_StreamHeader_Encode.
    rewrite <-manual_header_parse, header_back; [done| |apply length_StreamHeader_Encode].
    constructor; simpl; [by right|rewrite length_substring; lia| | |done].
    - by apply all_hex_no_nul, all_hex_substring.
    - rewrite Hm. unfold maxInt in Hmax. int_bounds; lia. }
  destruct (client_copy_run (mkDStream data fails chunk 0 (λ _, true)) budget (Z.of_nat (length data)) h) as (o & r & s' & Ec & Hr & Hnone).
  { lia. }
  assert (r = None) as ->.
  { apply Hnone; [done|done|done|]. cbn [ds_bytes]. rewrite Nat2Z.id, take_ge by lia. by rewrite (ToLower_hex h Hhex). }
  destruct (Hr eq_refl) as (Hrec & _ & _). cbn [ds_bytes] in Hrec. rewrite Nat2Z.id, take_ge in Hrec by lia.
  set (k := ca_dials c) in *. unfold streamFromStorage. fold req.
  do 2 eexists. split.
  { eapply bind_run; [apply dial_run|]. fold k. rewrite Hdial. cbv beta iota. rewrite Hdown.
    eapply bind_run; [eapply bind_run; [reflexivity|]|reflexivity].
    cbn [ds_bytes ds_fails ds_chunk ds_reads ds_armed]. rewrite Hpeer, Hdec. cbv beta iota.
    cbn [hd sh_FileSize]. rewrite Hm. rewrite (proj2 (Z.ltb_ge _ _)) by lia.
    replace (_ && _) with false.
    - unfold on_copier. unfold fresh_copier in Ec. by rewrite Ec.
    - symmetry. destruct Hsize as [->| ->]; [done|]. rewrite Z.eqb_refl. apply andb_false_r. }
  rewrite !received_app, Hrec. unfold received. simpl. by rewrite app_nil_r.
Qed.
End nodes.

(** ** Examples: a master, one storage node *)

#[local] Existing Instance decimal_uuids.
#[local] Existing Instance decimal_times.
#[local] Instance plain_errors : ErrnoText := λ op _ _, op.

Definition example_ready : StreamUploadReadyResponse :=
  mkStreamUploadReadyResponse "r" "s1" [mkStorageNodeAddr 2 "10.0.0.2:8100"] true "".

(** The node of [StreamServer.v] after the upload of its example. *)
Definition stored_server : StreamServer :=
  match handleConnection quiet_world 99 1000 (mkExchange example_server
    (StreamHeader_Encode (mkStreamHeader MagicUpload "s1" 3 DefaultChunkSize) ++ example_bytes) false None) with
  | (_, Ret (_, e)) => ex_server e
  | _ => example_server
  end.

Definition transfer_network : Network := mkNetwork
  (λ k addr, true)
  (λ k addr msg, Answers (mkMessageWithTime (mkMessage MessageStreamUploadReady 1 uuid_Nil
    (Some (StreamUploadReadyResponse_to_json example_ready))) 7))
  (λ k addr, (None, storage_peer quiet_world 99 1000 example_server))
  (λ k addr req, Some (mkDStream (storage_peer quiet_world 0 0 stored_server req) true (λ _, 1%nat) 0 (λ _, true))).

Definition transfer_client : Caller := mkCaller (NewMasterClient "10.0.0.1" 8000 9) 0.

Lemma example_node_ready : node_ready quiet_world "s1" example_server.
Proof.
  exists example_base, ∅, ∅, ∅, {[ "s1" := example_session ]}, true, 0%nat, example_session.
  split; [done|]. split; [exact example_found|apply layout_fresh].
Qed.

Lemma stored_server_has : node_has stored_server (sha256_hex example_bytes) example_bytes.
Proof.
  destruct (upload_stores quiet_world example_base ∅ ∅ ∅ {[ "s1" := example_session ]} true
    (mkStreamHeader MagicUpload "s1" 3 DefaultChunkSize) example_bytes [] false 0 example_session 99 1000)
    as (o & s' & E & _ & _ & _ & Hhas).
  - split; [by left|simpl; lia|vm_compute; discriminate|done|done].
  - done.
  - exact example_found.
  - apply layout_fresh.
  - reflexivity.
  - rewrite app_nil_r in E. unfold stored_server. unfold example_server. unfold NewLocalStorage. rewrite E. exact Hhas.
Qed.

Lemma upload_to_storage_nodes_witness :
  ∃ o c', UploadFileStream (H1 := transfer_network) 5 7 "abc.txt" "text/plain" 3
      [(bytes_of "a", More); ([], More); (bytes_of "bc", Eof)] transfer_client =
    (o, Ret (inr (mkUploadResult (sha256_hex example_bytes) [2%N]), c')).
Proof.
  assert (Unmarshal_ok StreamUploadReadyResponse_of_json (Some (StreamUploadReadyResponse_to_json example_ready)) =
    Some example_ready) as Hu by (vm_compute; reflexivity).
  destruct (ask_run (H1 := transfer_network) MessageStreamUploadInit
    (Some (StreamUploadInitRequest_to_json (mkStreamUploadInitRequest (uuid_String 5%N) 7 "abc.txt" "text/plain" 3)))
    StreamUploadReadyResponse_of_json transfer_client _ example_ready eq_refl Hu)
    as (o1 & E1 & _).
  refine (proj1 (upload_to_storage_nodes (H2 := transfer_network) 5 7 "abc.txt" "text/plain"
    [(bytes_of "a", More); ([], More); (bytes_of "bc", Eof)] transfer_client example_ready o1 _
    (λ _, quiet_world) (λ _, 99) (λ _, 1000) (λ _, example_server) E1 eq_refl _ _ _ eq_refl _ _)).
  - discriminate.
  - simpl. lia.
  - vm_compute. discriminate.
  - vm_compute. discriminate.
  - intros i node Hi. split; [done|]. split; [exact example_node_ready|reflexivity].
Defined.

Lemma download_from_storage_node_witness :
  ∃ o c', streamFromStorage (H1 := transfer_network) "10.0.0.2:8100" (sha256_hex example_bytes) 3 (Some 5%nat) transfer_client =
    (o, Ret (None, c')) ∧ received o = example_bytes.
Proof.
  apply (download_from_storage_node (H2 := transfer_network) "10.0.0.2:8100" example_bytes 3 (Some 5%nat) transfer_client
    quiet_world 0 0 stored_server true (λ _, 1%nat)).
  - reflexivity.
  - reflexivity.
  - exact stored_server_has.
  - right. reflexivity.
  - vm_compute. discriminate.
  - vm_compute. discriminate.
Defined.

(** The same master, and nodes that answer at once. *)
Definition answering_network : Network := mkNetwork
  (λ k addr, true) (@nw_serve transfer_network)
  (λ k addr, (None, λ l, upload_response true "0a" "")) (λ k addr req, None).

