(* ===== verification/EndToEnd.v ===== *)
(** * The cluster from end to end

    The client of [Client.v], the master and the storage nodes of [Node.v] and
    the stream servers of [StreamServer.v] put together: a network that takes
    the client's requests to the master's [handleConnection] and its streams
    to those of the nodes, the messages that the nodes send each other, and
    what a file goes through from its upload to its download. *)

From S2P Require Import Prelude GoStd Hashes Types Json HashRing Protocol Session Fs LocalStorage StreamServer NodeState NodeFiles Bully Node Client Transfer.

(** A storage node while a stream is served: at which of the ten looks at the
    session table its mail has been handled, the clock, the time stamps of the
    mail, and how a client reads from it. *)
Record Site := mkSite {
  si_node : FullNode;
  si_attempt : nat;
  si_now : Z;
  si_nanos : Z;
  si_stamp : Z;
  si_fails : bool;
  si_chunk : nat → nat }.

Abbreviation site_of s := (b_node (si_node s)).
Abbreviation site_server s := (n_streamServer (site_of s)).

Section system.
Context `{UuidText} `{TimeText} `{MapRange} `{ErrnoText}.

(** ** Messages between nodes *)

(** What was sent to an address. *)
Definition mail (ip : string) (port : Z) (o : list NAct) : list Message :=
  omap (λ a, match a with
             | GoSend ip' port' msg => if decide (ip' = ip ∧ port' = port) then Some msg else None
             | _ => None
             end) o.

(** A node reads a message from a connection, and its loop takes it. *)
Definition receive (now : Z) (m : MessageWithTime) : FullM () :=
  _ ← Node.handleConnection now uuid_Nil uuid_Nil (Some m); handleMessages now.

Definition state_after {S O A} (s : S) (r : list O * Res (A * S)) : S := default s (state_of r).

(** ** Storage nodes *)

Definition site_mail (sent : list NAct) (s : Site) : list MessageWithTime :=
  (λ m, mkMessageWithTime m (si_stamp s)) <$> mail (n_AdvertiseIP (site_of s)) (n_Port (site_of s)) sent.

Definition with_table (t : SessionManager) (b : FullNode) : FullNode :=
  set_node (set_streamServer (with_sessions (λ _, t) (n_streamServer (b_node b))) (b_node b)) b.

(** The node when it has handled its mail, with the session table it has then. *)
Definition told (sent : list NAct) (s : Site) (t : SessionManager) : FullNode :=
  let b := with_table t (si_node s) in
  state_after b (for_each (site_mail sent s) (receive (si_now s)) b).

Definition site_world (sent : list NAct) (s : Site) : World :=
  mkWorld (λ _, si_now s)
    (λ k t, if decide (k = si_attempt s) then sv_sessions (n_streamServer (b_node (told sent s t))) else t).

(** A connection to its stream server. *)
Definition site_serve (sent : list NAct) (s : Site) (req : list byte) : list SAct * Res (() * Exchange) :=
  StreamServer.handleConnection (site_world sent s) (si_nanos s) (si_now s)
    (mkExchange (site_server s) req false None).

Definition site_answer (sent : list NAct) (s : Site) : list byte → list byte :=
  storage_peer (site_world sent s) (si_nanos s) (si_now s) (site_server s).

(** The node after the connection, and what its upload callback sends. *)
Definition site_after (sent : list NAct) (req : list byte) (s : Site) : Site :=
  let b := told sent s (sv_sessions (site_server s)) in
  let sv := ex_server (state_after (mkExchange (site_server s) req false None) (site_serve sent s req)) in
  mkSite (set_node (set_streamServer sv (b_node b)) b) (si_attempt s) (si_now s) (si_nanos s) (si_stamp s)
    (si_fails s) (si_chunk s).

Definition completions (o : list SAct) : list (string * string * string) :=
  omap (λ a, match a with SUploadComplete sid fid h => Some (sid, fid, h) | _ => None end) o.

Definition site_sends (sent : list NAct) (req : list byte) (s : Site) : list NAct :=
  outs_of (for_each (completions (outs_of (site_serve sent s req)))
    (λ '(sid, fid, h), onStreamUploadComplete sid fid h) (b_node (told sent s (sv_sessions (site_server s))))).

(** ** The network of the client *)

(** The master with the clock and the UUIDs it draws, the storage nodes by the
    addresses of their stream servers, and what the master has sent them. *)
Record System := mkSystem {
  sy_master : FullNode;
  sy_now : Z;
  sy_newSession : uuid;
  sy_newReply : uuid;
  sy_sites : string → option Site;
  sy_sent : list NAct }.

Definition node_addr (n : Node) : string := addr_of (n_AdvertiseIP n) (n_Port n).

Definition reply_of (o : list NAct) : reply :=
  match omap encoded o with m :: _ => Answers m | [] => ReadFails end.

(** Messages and bytes arrive, and deadlines can be set on the connections. *)
Definition system_network (y : System) : Network := mkNetwork
  (λ _ addr, bool_decide (addr = node_addr (b_node (sy_master y))) || bool_decide (is_Some (sy_sites y addr)))
  (λ _ addr msg,
     if decide (addr = node_addr (b_node (sy_master y)))
     then reply_of (outs_of (Node.handleConnection (sy_now y) (sy_newSession y) (sy_newReply y) (Some msg) (sy_master y)))
     else ReadFails)
  (λ _ addr, match sy_sites y addr with
             | Some s => (None, site_answer (sy_sent y) s)
             | None => (Some 0%nat, λ _, [])
             end)
  (λ _ addr req, (λ s, mkDStream (site_answer (sy_sent y) s req) (si_fails s) (si_chunk s) 0 (λ _, true)) <$> sy_sites y addr).
End system.

(** ** Helper lemmas: receiving *)
Section receiving.
Context `{UuidText} `{TimeText} `{MapRange}.

(** The messages that are not answered on their connection. *)
Definition queued (ty : string) : Prop :=
  ty ≠ MessageDiscovery ∧ ty ≠ MessageAPIFileDelete ∧ ty ≠ MessageStreamUploadInit ∧ ty ≠ MessageStreamDownloadInit.

(** A node that has read a message. *)
Definition heard_time (m : MessageWithTime) (n : Node) : Z := int64 (Z.max (mwt_LogicalTime m) (n_logicalTime n) + 1).
Definition heard (m : MessageWithTime) (b : FullNode) : FullNode :=
  set_node (set_logicalTime (heard_time m (b_node b)) (b_node b)) b.

Lemma hears_run now newSession newReply m b :
  Node.handleConnection now newSession newReply (Some m) b = dispatch now newSession newReply (mwt_Message m) (heard m b).
Proof. unfold Node.handleConnection. by rewrite (bind_silent _ _ b (heard_time m (b_node b)) (heard m b)). Qed.

Lemma receive_run now m b : queued (msg_Type (mwt_Message m)) → n_messageChan (b_node b) = [] →
  receive now m b = processMessage now (mwt_Message m) (heard m b).
Proof.
  intros (H1' & H2' & H3' & H4') Hq. unfold receive.
  rewrite (bind_silent _ _ b () (set_node (set_messageChan [mwt_Message m] (b_node (heard m b))) (heard m b))).
  - unfold handleMessages. rewrite (bind_silent _ _ _ _ _ eq_refl). cbn [b_node set_node n_messageChan set_messageChan].
    rewrite (bind_silent _ _ _ () (heard m b)); [done|].
    unfold on_node, node_do, zoom, modify. cbn [b_node set_node]. destruct b as [n ? ? ? ? ? ?], n. simpl in *. by subst.
  - rewrite hears_run. unfold dispatch. rewrite !(proj2 (String.eqb_neq _ _)) by done.
    unfold enqueue_message, on_node, node_do, zoom, modify. simpl. by rewrite Hq.
Qed.

Definition notice_session (now : Z) (sid : string) (request : StreamUploadInitRequest) : UploadSession :=
  mkUploadSession sid (sui_FileID request) (sui_Filename request) (sui_ContentType request) (sui_Size request) now.

(** A storage node that is told of an upload adds its session. *)
Lemma notice_run now sid request n peer stamp b : in_int64 (sui_Size request) = true → n_messageChan (b_node b) = [] →
  let m := mkMessageWithTime (session_notice n sid request peer) stamp in
  receive now m b = ([], Ret ((), set_node (set_streamServer
    (with_sessions (AddSession (notice_session now sid request)) (n_streamServer (b_node b))) (b_node (heard m b))) b)).
Proof.
  intros Hs Hq m. rewrite receive_run; [|by split_and!|done]. unfold m at 1. cbn [mwt_Message].
  change (processMessage now (session_notice n sid request peer)) with
    (on_node (handleStreamUploadReady now (session_notice n sid request peer))).
  unfold on_node, node_do, zoom, handleStreamUploadReady. cbn [msg_Payload session_notice]. unfold Unmarshal_ok.
  by rewrite SessionData_json.
Qed.

Lemma untouched (b : FullNode) :
  set_node (set_master (n_master (b_node b)) (set_logicalTime (n_logicalTime (b_node b)) (b_node b))) b = b.
Proof. by destruct b as [[] ]. Qed.

(** An acknowledgement concerns only the master's tables. *)
Lemma store_ack_master msg n n1 n' : n_master n = n_master n1 →
  handleStreamStoreAck msg n = ([], Ret ((), n')) →
  n' = set_master (n_master n') n ∧ handleStreamStoreAck msg n1 = ([], Ret ((), set_master (n_master n') n1)).
Proof.
  intros Hm. unfold handleStreamStoreAck. destruct (Unmarshal_ok _ _) as [ack|].
  2:{ intros [= <-]. split; [by destruct n|]. rewrite Hm. by destruct n1. }
  rewrite (bind_silent _ _ _ n n), (bind_silent _ _ _ n1 n1) by done. rewrite <-Hm.
  destruct (_ !! _) as [session|]; [|intros [= <-]; split; [by destruct n|rewrite Hm; by destruct n1]].
  cbv zeta. erewrite bind_silent by reflexivity. erewrite (bind_silent _ _ n1) by reflexivity. rewrite <-Hm.
  destruct (_ <=? _)%nat; [|by intros [= <-]].
  destruct (ma_globalFileIndex (n_master n)) as [idx|]; [|done].
  erewrite bind_silent by reflexivity. erewrite (bind_silent _ _ (set_master _ n1)) by reflexivity.
  by intros [= <-].
Qed.

Lemma acks_received now acks b n n' : n_master (b_node b) = n_master n → n_messageChan (b_node b) = [] →
  (∀ m, m ∈ acks → msg_Type (mwt_Message m) = MessageStreamStoreAck) →
  for_each acks (λ m, handleStreamStoreAck (mwt_Message m)) n = ([], Ret ((), n')) →
  ∃ t, for_each acks (receive now) b =
    ([], Ret ((), set_node (set_master (n_master n') (set_logicalTime t (b_node b))) b)).
Proof.
  revert b n. induction acks as [|m acks IH]; intros b n Hm Hq Hty.
  { intros [= <-]. exists (n_logicalTime (b_node b)). by rewrite <-Hm, untouched. }
  cbn [for_each]. unfold mbind at 1, gom_bind at 1. intros E.
  destruct (handleStreamStoreAck (mwt_Message m) n) as [o1 [[[] n1]|w]] eqn:E1; [|done].
  destruct (for_each acks _ n1) as [o2 r2] eqn:E2. injection E as Eo ->. apply app_eq_nil in Eo as [-> ->].
  destruct (store_ack_master _ n (b_node (heard m b)) n1 (eq_sym Hm) E1) as [_ E1'].
  set (b1 := set_node (set_master (n_master n1) (b_node (heard m b))) b).
  assert (receive now m b = ([], Ret ((), b1))) as Er.
  { rewrite receive_run; [|rewrite Hty by (by left); by split_and!|done].
    transitivity (on_node (handleStreamStoreAck (mwt_Message m)) (heard m b)).
    - unfold processMessage. rewrite Hty by (by left). reflexivity.
    - unfold on_node, node_do, zoom. by rewrite E1'. }
  destruct (IH b1 n1) as [t Et]; [done|done|intros; apply Hty; by right|done|].
  exists t. by rewrite (bind_silent _ _ _ _ _ Er), Et.
Qed.
End receiving.

(** ** Helper lemmas: one storage node *)
Section site.
Context `{UuidText} `{TimeText} `{MapRange} `{ErrnoText}.

Lemma table_waits (w : World) r k t : (∀ j t, (r ≤ j < r + k)%nat → w_step w j t = t) →
  table w r k t = w_step w (r + k) t.
Proof.
  revert r t. induction k as [|k IH]; intros r t Hw; [by rewrite Nat.add_0_r|].
  rewrite table_S, IH by (intros; apply Hw; lia). rewrite (Hw r t) by lia. by rewrite Nat.add_succ_r.
Qed.

(** The node [s] is the one that the master [m] knows as [node]: with this
    identifier and addresses; it has [m] for its master, an empty queue, no
    session [sid] and room on its disk. *)
Record site_for (m : Node) (sid : string) (node : NodeInfo) (s : Site) : Prop := mkSiteFor {
  sf_id : n_ID (site_of s) = ni_ID node;
  sf_IP : n_AdvertiseIP (site_of s) = ni_IP node;
  sf_Port : n_Port (site_of s) = ni_Port node;
  sf_peer : ∃ p, n_peers m !! ni_ID node = Some p ∧ ni_IP p = ni_IP node ∧ ni_Port p = ni_Port node ∧
    ni_Status p = StatusOnline;
  sf_master : ∃ p, List.find (λ p, String.eqb (ni_Role p) RoleMaster) (GetPeers (site_of s)) = Some p ∧
    ni_IP p = n_AdvertiseIP m ∧ ni_Port p = n_Port m;
  sf_queue : n_messageChan (site_of s) = [];
  sf_attempt : (si_attempt s < 10)%nat;
  sf_server : ∃ b idx files dirs sess, site_server s = mkStreamServer sess (mkStore b (Some idx) (mkDisk files dirs [])) true ∧
    sess !! sid = None ∧ layout b (mkDisk files dirs []) }.

Context (m m1 : Node) (sid : string) (request : StreamUploadInitRequest) (node peer : NodeInfo) (s : Site) (sent : list NAct).
Hypothesis Hsite : site_for m sid node s.
Hypothesis Hsize : in_int64 (sui_Size request) = true.
Hypothesis Hmail : mail (ni_IP node) (ni_Port node) sent = [session_notice m1 sid request peer].

Let us := notice_session (si_now s) sid request.

Lemma told_run t : ∃ n, told sent s t = set_node (set_streamServer (with_sessions (AddSession us)
    (with_sessions (λ _, t) (site_server s))) n) (si_node s) ∧
  n_ID n = n_ID (site_of s) ∧ GetPeers n = GetPeers (site_of s).
Proof.
  unfold told, site_mail. rewrite (sf_IP _ _ _ _ Hsite), (sf_Port _ _ _ _ Hsite), Hmail. cbn [fmap list_fmap for_each].
  erewrite bind_silent; [|apply notice_run; [done|exact (sf_queue _ _ _ _ Hsite)]].
  eexists. split; [reflexivity|]. done.
Qed.

Lemma told_sessions t : sv_sessions (n_streamServer (b_node (told sent s t))) = AddSession us t.
Proof. by destruct (told_run t) as (n & -> & _). Qed.

Lemma site_found sess : sess !! sid = None → found_at (site_world sent s) sess sid (si_attempt s) us.
Proof.
  intros Hs. assert (∀ j, (j ≤ si_attempt s)%nat → table (site_world sent s) 0 j sess = w_step (site_world sent s) j sess) as Ht.
  { intros j Hj. rewrite table_waits; [done|]. intros i t Hi. simpl. by rewrite decide_False by lia. }
  split; [exact (sf_attempt _ _ _ _ Hsite)|]. split.
  - intros j Hj. rewrite Ht by lia. simpl. rewrite decide_False by lia. unfold GetSession. by rewrite Hs.
  - rewrite Ht by lia. simpl. rewrite decide_True, told_sessions by done. unfold GetSession, AddSession.
    change (us_SessionID us) with sid. rewrite lookup_insert_eq. unfold expired. simpl. by rewrite Z.sub_diag.
Qed.

Lemma site_ready : node_ready (site_world sent s) sid (site_server s).
Proof.
  destruct (sf_server _ _ _ _ Hsite) as (b & idx & files & dirs & sess & E & Hs & Hd).
  exists b, idx, files, dirs, sess, true, (si_attempt s), us. split; [done|]. split; [by apply site_found|done].
Qed.

Lemma completions_sleeps k o : completions (replicate k sleep ++ o) = completions o.
Proof. unfold completions. rewrite omap_app. by induction k. Qed.

(** The stream of an upload that arrives in full: the node stores the data,
    and acknowledges it to its master. *)
Lemma site_uploaded data : let h := sha256_hex data in
  let req := StreamHeader_Encode (mkStreamHeader MagicUpload sid (Z.of_nat (length data)) DefaultChunkSize) ++ data in
  (String.length sid ≤ 36)%nat → no_trailing_nul (bytes_of sid) → Z.of_nat (length data) <= maxInt →
  node_has (site_server (site_after sent req s)) h data ∧
  ∃ p, ni_IP p = n_AdvertiseIP m ∧ ni_Port p = n_Port m ∧ site_sends sent req s =
    [GoSend (ni_IP p) (ni_Port p) (mkMessage MessageStreamStoreAck (ni_ID node) (ni_ID p)
      (Some (StreamStoreAck_to_json (mkStreamStoreAck sid (sui_FileID request) h (ni_ID node) true ""))))].
Proof.
  intros h req Hlen Hnul Hmax. destruct (sf_server _ _ _ _ Hsite) as (b & idx & files & dirs & sess & Esv & Hs & Hd).
  destruct (upload_stores (site_world sent s) b idx files dirs sess true (mkStreamHeader MagicUpload sid
    (Z.of_nat (length data)) DefaultChunkSize) data [] false (si_attempt s) us (si_nanos s) (si_now s))
    as (o & s' & E & _ & Eo & _ & Hhas); [|done|by apply site_found|done|done|].
  { split; simpl; [by left|done|done| |done]. unfold maxInt in *. int_bounds; lia. }
  rewrite app_nil_r in E. fold req h in E, Eo.
  assert (site_serve sent s req = (o, Ret ((), s'))) as Eserve by (unfold site_serve; by rewrite Esv).
  split.
  - unfold site_after. rewrite Eserve. exact Hhas.
  - destruct (sf_master _ _ _ _ Hsite) as (p & Hp & Hip & Hport). exists p. split_and!; [done|done|].
    unfold site_sends. rewrite Eserve. cbn [outs_of fst]. rewrite Eo, completions_sleeps.
    destruct (told_run (sv_sessions (site_server s))) as (n & -> & Hid & Hpeers). cbn [b_node set_node].
    set (n1 := set_streamServer _ n). unfold completions. cbn [omap list_omap app for_each sh_SessionID].
    unfold onStreamUploadComplete. change (us_FileID us) with (sui_FileID request).
    unfold mbind at 1, gom_bind at 1. rewrite (bind_silent _ _ _ n1 n1) by done.
    change (GetPeers n1) with (GetPeers n). rewrite Hpeers, Hp, uuid_Parse_String. cbn.
    by rewrite Hid, (sf_id _ _ _ _ Hsite).
Qed.
End site.

(** ** Helper lemmas: the master and its storage nodes *)
Section upload.
Context `{UuidText} `{TimeText} `{MapRange} `{ErrnoText}.

Definition addr_of_node (node : NodeInfo) : string := stream_addr (ni_IP node) (ni_Port node).

(** Every chosen node is there, under its address. *)
Definition all_there (m : Node) (sid : string) (nodes : list NodeInfo) (sites : string → option Site) : Prop :=
  ∀ node, node ∈ nodes → ∃ s, sites (addr_of_node node) = Some s ∧ site_for m sid node s.

Lemma mail_app ip port o1 o2 : mail ip port (o1 ++ o2) = mail ip port o1 ++ mail ip port o2.
Proof. apply omap_app. Qed.

Lemma session_notices_app n sid request l1 l2 :
  session_notices n sid request (l1 ++ l2) = session_notices n sid request l1 ++ session_notices n sid request l2.
Proof. apply omap_app. Qed.

Lemma notices_elsewhere m m1 sid request ip port nodes sites : n_peers m1 = n_peers m → all_there m sid nodes sites →
  (∀ x, x ∈ nodes → ¬ (ni_IP x = ip ∧ ni_Port x = port)) → mail ip port (session_notices m1 sid request nodes) = [].
Proof.
  intros Hp. induction nodes as [|x nodes IH]; intros Ha Hx; [done|].
  change (x :: nodes) with ([x] ++ nodes). rewrite session_notices_app, mail_app, IH;
    [|by intros y Hy; apply Ha; right|by intros y Hy; apply Hx; right].
  destruct (Ha x ltac:(by left)) as (s & _ & [_ _ _ (p & Ep & Hip & Hport & _) _ _ _ _]).
  rewrite app_nil_r. unfold session_notices. csimpl. rewrite Hp, Ep. csimpl.
  rewrite decide_False; [done|]. rewrite Hip, Hport. apply Hx. by left.
Qed.

(** Each node is told once, and its mail is nothing else. *)
Lemma notices_mail m m1 sid request nodes sites node e : n_peers m1 = n_peers m → all_there m sid nodes sites →
  NoDup (ni_ID <$> nodes) → node ∈ nodes →
  ∃ peer, mail (ni_IP node) (ni_Port node) (session_notices m1 sid request nodes ++ [Encode e]) =
    [session_notice m1 sid request peer].
Proof.
  intros Hp Ha Hnd Hin. destruct (Ha node Hin) as (s & Hs & Hsf).
  assert (∀ x, x ∈ nodes → ni_IP x = ni_IP node ∧ ni_Port x = ni_Port node → ni_ID x = ni_ID node) as Hsame.
  { intros x Hx [E1 E2]. destruct (Ha x Hx) as (s' & Hs' & Hsf'). unfold addr_of_node in *. rewrite E1, E2, Hs in Hs'.
    injection Hs' as <-. by rewrite <-(sf_id _ _ _ _ Hsf'), (sf_id _ _ _ _ Hsf). }
  apply list_elem_of_split in Hin as (l1 & l2 & ->).
  rewrite fmap_app, fmap_cons in Hnd. apply NoDup_app in Hnd as (_ & Hd1 & [Hd2 _]%NoDup_cons).
  destruct (sf_peer _ _ _ _ Hsf) as (p & Ep & Hip & Hport & _). exists p.
  change (node :: l2) with ([node] ++ l2). rewrite !session_notices_app, !mail_app.
  rewrite (notices_elsewhere m m1 sid request _ _ l1 sites); [|done|by intros x Hx; apply Ha, elem_of_app; left|].
  2:{ intros x Hx E. apply (Hd1 (ni_ID x)); [by apply list_elem_of_fmap_2|].
      rewrite (Hsame x) by (done || (apply elem_of_app; by left)). by left. }
  rewrite (notices_elsewhere m m1 sid request _ _ l2 sites); [|done| |].
  2:{ intros x Hx. apply Ha. apply elem_of_app. right. by right. }
  2:{ intros x Hx E. apply Hd2. rewrite <-(Hsame x); [by apply list_elem_of_fmap_2| |done].
      apply elem_of_app. right. by right. }
  unfold session_notices. csimpl. rewrite Hp, Ep. csimpl. by rewrite decide_True.
Qed.

Lemma reply_of_notices n sid request nodes e : reply_of (session_notices n sid request nodes ++ [Encode e]) = Answers e.
Proof.
  unfold reply_of. rewrite omap_app. assert (omap encoded (session_notices n sid request nodes) = []) as ->; [|done].
  induction nodes as [|x nodes IH]; [done|]. unfold session_notices. csimpl. by destruct (n_peers n !! ni_ID x).
Qed.

Lemma found_ids f n ring : ring_wf ring → NoDup (ni_ID <$> FindNodesForFile f n ring).
Proof.
  intros Hwf. rewrite ids_of_find by done. eapply sublist_NoDup; [apply NoDup_firsts|]. apply sublist_take.
Qed.
End upload.

(** ** Helper lemmas: a download *)
Section download.
Context `{UuidText} `{TimeText} `{MapRange} `{ErrnoText}.

(** An index entry whose online replicas have the file; one is online. *)
Record available (y : System) (h : string) (data : list byte) (info : GlobalFileInfo) : Prop := mkAvailable {
  av_size : gfi_Size info = Z.of_nat (length data);
  av_online : ∃ id p, id ∈ gfi_Replicas info ∧ n_peers (b_node (sy_master y)) !! id = Some p ∧ ni_Status p = StatusOnline;
  av_has : ∀ id p, id ∈ gfi_Replicas info → n_peers (b_node (sy_master y)) !! id = Some p → ni_Status p = StatusOnline →
    ∃ s, sy_sites y (addr_of_node p) = Some s ∧ node_has (site_server s) h data }.

(** A master finds the file, and a client that asks it gets the data. *)
Lemma download_indexed y idx c rid fid h data info budget :
  n_Role (b_node (sy_master y)) = RoleMaster → ma_globalFileIndex (n_master (b_node (sy_master y))) = Some idx →
  h = sha256_hex data → idx !! h = Some info → available y h data info →
  Z.of_nat (length data) <= maxInt → takes (Z.of_nat (length data)) budget →
  master_addr (ca_client c) = node_addr (b_node (sy_master y)) →
  ∃ o c', DownloadFileStream (H1 := system_network y) rid fid h budget c = (o, Ret (None, c')) ∧ received o = data.
Proof.
  intros Hr Hi -> Hinfo [Hsz (id0 & p0 & Hid0 & Hp0 & Hon0) Hhas] Hmax Htakes Hc.
  set (request := mkStreamDownloadInitRequest (uuid_String rid) fid (sha256_hex data)).
  set (msg := mkMessageWithTime (mkMessage MessageStreamDownloadInit (mc_clientID (ca_client c)) uuid_Nil
    (Some (StreamDownloadInitRequest_to_json request))) 0).
  destruct (handleStreamDownloadInit_correct (mwt_Message msg) request idx info (b_node (heard msg (sy_master y))))
    as (payload & resp & E & Hresp & _ & Hres); [done|done| |exact Hinfo| |].
  { cbn [msg mwt_Message msg_Payload]. unfold Unmarshal. by rewrite StreamDownloadInitRequest_json. }
  { rewrite Hsz. unfold maxInt in Hmax. int_bounds; lia. }
  destruct (sdr_Success resp) eqn:Hok; [|by destruct (Hres id0 p0 Hid0 Hp0)].
  destruct Hres as (before & id & after & p & Erep & Hp & Hon & _ & Haddr & _ & _ & Hsize & _).
  destruct (Hhas id p) as (s & Hs & Hdata); [rewrite Erep; set_solver|done|done|].
  set (e := mkMessageWithTime (mkMessage MessageStreamDownloadReady (n_ID (b_node (sy_master y))) (mc_clientID (ca_client c))
    (Some payload)) (n_logicalTime (tick (b_node (heard msg (sy_master y)))))).
  destruct (ask_run (H1 := system_network y) MessageStreamDownloadInit (Some (StreamDownloadInitRequest_to_json request))
    StreamDownloadReadyResponse_of_json c e resp) as (o1 & E1 & Hrec1).
  { unfold answer_at. rewrite Hc. cbn [nw_dial nw_serve system_network].
    rewrite bool_decide_true, decide_True by done. cbn [orb]. fold msg. rewrite hears_run.
    change (dispatch _ _ _ _ _) with (on_node (handleStreamDownloadInit (mwt_Message msg)) (heard msg (sy_master y))).
    unfold on_node, node_do, zoom. rewrite E. reflexivity. }
  { cbn [e mwt_Message msg_Payload]. unfold Unmarshal_ok. by rewrite Hresp. }
  destruct (download_from_storage_node (H2 := system_network y) (addr_of_node p) data (gfi_Size info) budget
    (mkCaller (ca_client c) (S (ca_dials c))) (site_world (sy_sent y) s) (si_nanos s) (si_now s) (site_server s)
    (si_fails s) (si_chunk s)) as (o2 & c2 & E2 & Hrec2); [| |done|by right|done|done|].
  { cbn [nw_dial system_network]. rewrite Hs, orb_comm. by rewrite bool_decide_true. }
  { cbn [nw_download system_network]. by rewrite Hs. }
  exists (o1 ++ o2), c2. split; [|by rewrite received_app, Hrec1].
  unfold DownloadFileStream. eapply bind_run; [exact E1|]. cbv beta iota. rewrite Hok, Haddr, Hsize. exact E2.
Qed.
(** A master that does not have the hash in its index refuses. *)
Lemma download_unknown y idx c rid fid h budget :
  n_Role (b_node (sy_master y)) = RoleMaster → ma_globalFileIndex (n_master (b_node (sy_master y))) = Some idx →
  idx !! h = None → master_addr (ca_client c) = node_addr (b_node (sy_master y)) →
  ∃ o c', DownloadFileStream (H1 := system_network y) rid fid h budget c =
    (o, Ret (Some (ERefused "file not found"), c')) ∧ received o = [].
Proof.
  intros Hr Hi Hh Hc. set (request := mkStreamDownloadInitRequest (uuid_String rid) fid h).
  set (msg := mkMessageWithTime (mkMessage MessageStreamDownloadInit (mc_clientID (ca_client c)) uuid_Nil
    (Some (StreamDownloadInitRequest_to_json request))) 0).
  set (n := b_node (heard msg (sy_master y))).
  set (resp := mkStreamDownloadReadyResponse (uuid_String rid) "" "" 0 "" false "file not found").
  set (e := mkMessageWithTime (mkMessage MessageStreamDownloadReady (n_ID n) (mc_clientID (ca_client c))
    (Some (StreamDownloadReadyResponse_to_json resp))) (n_logicalTime (tick n))).
  assert (handleStreamDownloadInit (mwt_Message msg) n = ([Encode e], Ret ((), tick n))) as E.
  { unfold handleStreamDownloadInit. cbn [msg mwt_Message msg_Payload]. unfold Unmarshal.
    rewrite StreamDownloadInitRequest_json. cbn [negb]. rewrite (bind_silent _ _ _ n n) by done.
    rewrite decide_False by (intros Hn; by apply Hn). change (n_master n) with (n_master (b_node (sy_master y))).
    rewrite Hi. cbn [default from_option id sdi_Hash request]. rewrite Hh. reflexivity. }
  destruct (ask_run (H1 := system_network y) MessageStreamDownloadInit (Some (StreamDownloadInitRequest_to_json request))
    StreamDownloadReadyResponse_of_json c e resp) as (o1 & E1 & Hrec1).
  { unfold answer_at. rewrite Hc. cbn [nw_dial nw_serve system_network].
    rewrite bool_decide_true, decide_True by done. cbn [orb]. fold msg. rewrite hears_run.
    change (dispatch _ _ _ _ _) with (on_node (handleStreamDownloadInit (mwt_Message msg)) (heard msg (sy_master y))).
    unfold on_node, node_do, zoom. fold n. rewrite E. reflexivity. }
  { cbn [e mwt_Message msg_Payload]. unfold Unmarshal_ok. by rewrite StreamDownloadReadyResponse_json. }
  do 2 eexists. split; [|exact Hrec1]. unfold DownloadFileStream. rewrite <-(app_nil_r o1).
  eapply bind_run; [exact E1|]. reflexivity.
Qed.
End download.

(** ** An upload and a download *)
Section cluster.
Context `{UuidText} `{TimeText} `{MapRange} `{ErrnoText}.

(** A master that has nodes to place files on, and has nothing to do. *)
Record master_ready (ring : HashRing) (idx : gmap string GlobalFileInfo) (m : Node) : Prop := mkMasterReady {
  mr_role : n_Role m = RoleMaster;
  mr_ring : ma_hashRing (n_master m) = Some ring;
  mr_wf : ring_wf ring;
  mr_nodes : hr_nodes ring ≠ ∅;
  mr_index : ma_globalFileIndex (n_master m) = Some idx;
  mr_queue : n_messageChan m = [] }.

Definition upload_message (c : Caller) (request : StreamUploadInitRequest) : MessageWithTime :=
  mkMessageWithTime (mkMessage MessageStreamUploadInit (mc_clientID (ca_client c)) uuid_Nil
    (Some (StreamUploadInitRequest_to_json request))) 0.

(** The bytes of an upload. *)
Definition upload_stream (sid : string) (data : list byte) : list byte :=
  StreamHeader_Encode (mkStreamHeader MagicUpload sid (Z.of_nat (length data)) DefaultChunkSize) ++ data.

(** The acknowledgement that the master gets from a node. *)
Definition node_acks (m : Node) (sent : list NAct) (req : list byte) (sites : string → option Site) (node : NodeInfo)
    : list Message :=
  match sites (addr_of_node node) with
  | Some s => mail (n_AdvertiseIP m) (n_Port m) (site_sends sent req s)
  | None => []
  end.

(** The storage nodes when those that were chosen have served the upload. *)
Definition after_upload (sent : list NAct) (req : list byte) (nodes : list NodeInfo) (sites : string → option Site)
    (addr : string) : option Site :=
  if decide (addr ∈ (addr_of_node <$> nodes)) then site_after sent req <$> sites addr else sites addr.

Context (m : FullNode) (ring : HashRing) (idx : gmap string GlobalFileInfo) (now : Z) (newSession newReply : uuid)
  (sites : string → option Site) (c : Caller) (request : StreamUploadInitRequest).
Hypothesis Hm : master_ready ring idx (b_node m).
Hypothesis Hsize : in_int64 (sui_Size request) = true.

Let msg := upload_message c request.
Let nodes := FindNodesForFile (sui_FileID request) 3 ring.
Let sid := uuid_String newSession.
Let m1 := heard msg m.
Let m2 := set_node (with_session now sid request nodes (b_node m1)) m.
Let r := Node.handleConnection now newSession newReply (Some msg) m.
Let sent := outs_of r.
Let y := mkSystem m now newSession newReply sites sent.
Let ready := mkStreamUploadReadyResponse (uuid_String newReply) sid (storage_addrs nodes) true "".

(** The master's answer to the request. *)
Let e := mkMessageWithTime (mkMessage MessageStreamUploadReady (n_ID (b_node m)) (mc_clientID (ca_client c))
  (Some (StreamUploadReadyResponse_to_json ready))) (n_logicalTime (b_node m2)).

Lemma upload_request_run : nodes ≠ [] ∧
  r = (session_notices (b_node m1) sid request nodes ++ [Encode e], Ret ((), m2)).
Proof.
  assert (Unmarshal_ok StreamUploadInitRequest_of_json (msg_Payload (mwt_Message msg)) = Some request) as Hreq.
  { cbn [msg upload_message mwt_Message msg_Payload]. unfold Unmarshal_ok. by rewrite StreamUploadInitRequest_json. }
  destruct (upload_init_run now newSession newReply (mwt_Message msg) request ring (b_node m1)) as [Hne E];
    [apply Hm|apply Hm|apply Hm|apply Hm|done|].
  split; [done|]. unfold r. rewrite hears_run. fold m1.
  change (dispatch now newSession newReply (mwt_Message msg) m1) with
    (on_node (handleStreamUploadInit now newSession newReply (mwt_Message msg)) m1).
  unfold on_node, node_do, zoom. by rewrite E.
Qed.

Hypothesis Hclient : master_addr (ca_client c) = node_addr (b_node m).
Hypothesis Hthere : all_there (b_node m) sid nodes sites.

Lemma upload_asked : ∃ o, ask (H1 := system_network y) MessageStreamUploadInit
    (Some (StreamUploadInitRequest_to_json request)) StreamUploadReadyResponse_of_json c =
  (o, Ret (inr ready, mkCaller (ca_client c) (S (ca_dials c)))) ∧ received o = [].
Proof.
  apply (ask_run (H1 := system_network y)) with (m := e).
  - unfold answer_at. rewrite Hclient. unfold y at 1. cbn [nw_dial system_network sy_master].
    rewrite bool_decide_true by done. cbn [orb nw_serve system_network y sy_master sy_now sy_newSession sy_newReply].
    rewrite decide_True by done. change (Node.handleConnection _ _ _ _ _) with r. rewrite (proj2 upload_request_run). cbn [outs_of fst].
    by rewrite reply_of_notices.
  - cbn [e mwt_Message msg_Payload]. unfold Unmarshal_ok. by rewrite StreamUploadReadyResponse_json.
Qed.

(** What a chosen node has been told. *)
Lemma node_mail node : node ∈ nodes → ∃ peer,
  mail (ni_IP node) (ni_Port node) sent = [session_notice (b_node m1) sid request peer].
Proof.
  intros Hin. unfold sent. rewrite (proj2 upload_request_run). cbn [outs_of fst].
  eapply (notices_mail (b_node m)); [done|exact Hthere|apply found_ids, Hm|done].
Qed.

(** The [i]-th chosen node. *)
Definition site_at (i : nat) : Site :=
  default (mkSite m 0 0 0 0 false (λ _, 0%nat)) (nodes !! i ≫= λ node, sites (addr_of_node node)).

Lemma site_at_index i a : storage_addrs nodes !! i = Some a → ∃ node, nodes !! i = Some node ∧
  a = mkStorageNodeAddr (ni_ID node) (addr_of_node node) ∧ sites (addr_of_node node) = Some (site_at i) ∧
  site_for (b_node m) sid node (site_at i).
Proof.
  unfold storage_addrs. rewrite list_lookup_fmap. intros (node & Hn & ->)%fmap_Some.
  exists node. destruct (Hthere node) as (s & Hs & Hsf); [by eapply list_elem_of_lookup_2|].
  unfold site_at. rewrite Hn. simpl. rewrite Hs. done.
Qed.

Hypothesis Hsid : (String.length sid ≤ 36)%nat.
Hypothesis Hnul : no_trailing_nul (bytes_of sid).

(** The client's side of the upload. *)
Lemma cluster_upload_run rid reads :
  sui_RequestID request = uuid_String rid → sui_Size request = Z.of_nat (length (reader_data reads)) →
  reader_fails reads = false → sui_Size request <= maxInt →
  ∃ o c', UploadFileStream (H1 := system_network y) rid (sui_FileID request) (sui_Filename request)
      (sui_ContentType request) (sui_Size request) reads c =
    (o, Ret (inr (mkUploadResult (sha256_hex (reader_data reads)) (ni_ID <$> nodes)), c')).
Proof.
  intros Hrid Hsz Hf Hmax. destruct upload_asked as (o1 & E1 & _). destruct upload_request_run as [Hne _].
  assert (request = mkStreamUploadInitRequest (uuid_String rid) (sui_FileID request) (sui_Filename request)
    (sui_ContentType request) (sui_Size request)) as Ereq by (rewrite <-Hrid; by destruct request).
  rewrite Ereq in E1 at 1. rewrite Hsz in E1, Hmax |- *.
  destruct (upload_to_storage_nodes (H2 := system_network y) rid (sui_FileID request) (sui_Filename request)
    (sui_ContentType request) reads c ready o1 _ (λ i, site_world sent (site_at i)) (λ i, si_nanos (site_at i))
    (λ i, si_now (site_at i)) (λ i, site_server (site_at i)) E1 eq_refl) as [(o & c' & E) _]; try done.
  - unfold ready, storage_addrs. cbn [sur_StorageNodes]. by destruct nodes.
  - intros i a Ha. destruct (site_at_index i a Ha) as (node & Hn & -> & Hs & Hsf). cbn [sna_Addr].
    destruct (node_mail node) as [peer Hp]; [by eapply list_elem_of_lookup_2|].
    cbn [nw_dial nw_upload system_network y sy_sites sy_sent]. rewrite Hs. split_and!; [|by eapply site_ready|done].
    rewrite orb_comm. by rewrite bool_decide_true.
  - do 2 eexists. rewrite E. do 4 f_equal. unfold ready, storage_addrs. cbn [sur_StorageNodes].
    by rewrite <-list_fmap_compose.
Qed.

(** The acknowledgement of a chosen node. *)
Lemma node_ack data node : node ∈ nodes → Z.of_nat (length data) <= maxInt →
  let h := sha256_hex data in
  ∃ to, node_acks (b_node m) sent (upload_stream sid data) sites node =
    [mkMessage MessageStreamStoreAck (ni_ID node) to (msg_Payload (ack_message sid (sui_FileID request) h (ni_ID node)))].
Proof.
  intros Hin Hmax h. destruct (Hthere node Hin) as (s & Hs & Hsf). destruct (node_mail node Hin) as [peer Hp].
  destruct (site_uploaded (b_node m) (b_node m1) sid request node peer s sent Hsf Hsize Hp data Hsid Hnul Hmax)
    as (_ & p & Hip & Hport & E).
  exists (ni_ID p). unfold node_acks. rewrite Hs. unfold upload_stream. rewrite E. unfold mail. csimpl.
  by rewrite decide_True.
Qed.

(** The acknowledgement [a] is that of [node]. *)
Definition acks_for (h : string) (a : MessageWithTime) (node : NodeInfo) : Prop :=
  msg_Type (mwt_Message a) = MessageStreamStoreAck ∧
  msg_Payload (mwt_Message a) = msg_Payload (ack_message sid (sui_FileID request) h (ni_ID node)).

(** Acknowledgements that came, and [rest] that did not. *)
Lemma acks_listed data acks rest :
  Z.of_nat (length data) <= maxInt →
  (mwt_Message <$> acks) ++ rest ≡ₚ nodes ≫= node_acks (b_node m) sent (upload_stream sid data) sites →
  ∃ ns ms, nodes ≡ₚ ns ++ ms ∧ Forall2 (acks_for (sha256_hex data)) acks ns ∧ length ms = length rest.
Proof.
  intros Hmax Hacks. set (f := λ node, default (ack_message "" 0 "" 0)
    (head (node_acks (b_node m) sent (upload_stream sid data) sites node))).
  assert (∀ node, node ∈ nodes → node_acks (b_node m) sent (upload_stream sid data) sites node = [f node] ∧
    msg_Type (f node) = MessageStreamStoreAck ∧
    msg_Payload (f node) = msg_Payload (ack_message sid (sui_FileID request) (sha256_hex data) (ni_ID node))) as Hf.
  { intros node Hin. unfold f. by destruct (node_ack data node Hin Hmax) as [to ->]. }
  assert (∀ l, (∀ node, node ∈ l → node ∈ nodes) →
    l ≫= node_acks (b_node m) sent (upload_stream sid data) sites = f <$> l) as Hl.
  { induction l as [|x l IH]; intros Hl; [done|]. csimpl. rewrite (proj1 (Hf x (Hl x ltac:(by left)))), IH; [done|].
    intros z Hz. apply Hl. by right. }
  rewrite Hl in Hacks by done. destruct (Permutation_map_inv _ _ Hacks) as (l & El & Hnl).
  symmetry in El. apply map_eq_app in El as (ns & ms & -> & Ens & Ems).
  exists ns, ms. split; [done|]. split; [|rewrite <-Ems; symmetry; apply length_fmap].
  assert (∀ node, node ∈ ns → node ∈ nodes) as Hsub by (intros x Hx; rewrite Hnl; apply elem_of_app; by left).
  clear -Ens Hf Hsub. revert ns Ens Hsub. induction acks as [|a acks IH]; intros [|x ns] Ens Hsub; try done.
  injection Ens as Ea Ens. constructor; [|apply IH; [done|]; intros z Hz; apply Hsub; by right].
  unfold acks_for. rewrite <-Ea. apply Hf, Hsub. by left.
Qed.

(** The acknowledgements in any order: when all have come, the file is in the
    index; before that, the index is as it was. *)
Lemma upload_acknowledged data t acks rest :
  Z.of_nat (length data) <= maxInt →
  (mwt_Message <$> acks) ++ rest ≡ₚ nodes ≫= node_acks (b_node m) sent (upload_stream sid data) sites →
  let h := sha256_hex data in
  ∃ ma time, for_each acks (receive t) m2 =
      ([], Ret ((), set_node (set_master ma (set_logicalTime time (b_node m2))) m2)) ∧
    ma_globalFileIndex ma = Some (if decide (rest = []) then
      <[h := mkGlobalFileInfo (sui_FileID request) (sui_Filename request) h
        (sui_Size request) (sui_ContentType request) (ni_ID <$> nodes)]> idx else idx).
Proof.
  intros Hmax Hacks h. destruct (acks_listed data acks rest Hmax Hacks) as (ns & ms & Hns & Hall & Hms).
  assert (length nodes = (length ns + length rest)%nat) as Hlen by (by rewrite Hns, length_app, Hms).
  destruct (decide (acks = [])) as [->|Hne].
  { inversion Hall; subst ns. exists (n_master (b_node m2)), (n_logicalTime (b_node m2)). split; [by rewrite untouched|].
    rewrite decide_False; [exact (mr_index _ _ _ Hm)|]. intros ->. simpl in Hlen.
    destruct upload_request_run as [Hnodes _]. by apply nil_length_inv in Hlen. }
  destruct (store_acks_run sid (sui_FileID request) h (mkStreamSession sid (sui_FileID request) (sui_Filename request)
    (sui_ContentType request) (sui_Size request) (ni_ID <$> nodes) ∅ now) idx (ni_ID <$> ns) (b_node m2))
    as (n' & E & Hfull & Hpart); [apply lookup_insert_eq|exact (mr_index _ _ _ Hm)|done| | | |].
  { pose proof (found_ids (sui_FileID request) 3 ring (mr_wf _ _ _ Hm)) as Hnd. fold nodes in Hnd.
    rewrite Hns, fmap_app in Hnd. by apply NoDup_app in Hnd as (? & _ & _). }
  { intros Hnil%fmap_nil_inv. subst ns. by inversion Hall. }
  { cbn [ss_ExpectedNodes]. rewrite !length_fmap. lia. }
  cbn [ss_ExpectedNodes] in Hfull, Hpart. rewrite !length_fmap in Hfull, Hpart.
  destruct (acks_received t acks m2 (b_node m2) n') as [time Et]; [done|exact (mr_queue _ _ _ Hm)| | |].
  { intros a [i Hi]%list_elem_of_lookup_1. by destruct (Forall2_lookup_l _ _ _ _ _ Hall Hi) as (x & _ & ? & _). }
  { rewrite <-E. apply for_each_Forall2, Forall2_fmap_r. eapply Forall2_impl; [exact Hall|].
    intros a node [_ Hp] n. by erewrite store_ack_payload by exact Hp. }
  exists (n_master n'), time. split; [exact Et|]. destruct rest as [|a rest]; simpl in Hlen.
  - rewrite decide_True by done. apply Hfull. lia.
  - rewrite decide_False by done. apply Hpart. lia.
Qed.

(** After the upload the chosen nodes have the data. *)
Lemma upload_available data now' newSession' newReply' m3 info :
  Z.of_nat (length data) <= maxInt → n_peers (b_node m3) = n_peers (b_node m) →
  gfi_Size info = Z.of_nat (length data) → gfi_Replicas info = (ni_ID <$> nodes) →
  available (mkSystem m3 now' newSession' newReply' (after_upload sent (upload_stream sid data) nodes sites) [])
    (sha256_hex data) data info.
Proof.
  intros Hmax Hpeers Hsz Hrep. split; [done| |]; cbn [sy_master sy_sites]; rewrite Hrep, Hpeers.
  - assert (∀ l : list NodeInfo, l ≠ [] → ∃ x, x ∈ l) as Hex by (intros [|x l] ?; [done|exists x; by left]).
    destruct (Hex _ (proj1 upload_request_run)) as [node Hin].
    destruct (Hthere node Hin) as (s & _ & Hsf). destruct (sf_peer _ _ _ _ Hsf) as (p & Hp & _ & _ & Hon).
    exists (ni_ID node), p. split; [by apply list_elem_of_fmap_2|done].
  - intros id p (node & -> & Hin)%list_elem_of_fmap Hp _. destruct (Hthere node Hin) as (s & Hs & Hsf).
    destruct (sf_peer _ _ _ _ Hsf) as (p' & Hp' & Hip & Hport & _). assert (p' = p) as -> by congruence.
    exists (site_after sent (upload_stream sid data) s). split.
    + assert (addr_of_node p = addr_of_node node) as -> by (unfold addr_of_node; by rewrite Hip, Hport).
      unfold after_upload. rewrite decide_True by (by apply list_elem_of_fmap_2). by rewrite Hs.
    + destruct (node_mail node Hin) as [peer Hmail].
      by destruct (site_uploaded (b_node m) (b_node m1) sid request node peer s sent Hsf Hsize Hmail data Hsid Hnul Hmax).
Qed.
End cluster.

(** ** Properties *)
Section properties.
Context `{UuidText} `{TimeText} `{MapRange} `{ErrnoText}.

(** C5: a file that is uploaded through the cluster can be downloaded from it.
    The client asks the master, which tells the chosen nodes; each of them may
    be told while the client's stream already waits. The upload succeeds on all
    of them; their acknowledgements, in any order, put the file into the
    master's index with exactly these replicas; and then any client that asks
    the master for the hash gets exactly the data, from one of the nodes. *)
Theorem upload_then_download m ring idx now newSession newReply sites c rid fid fn ct reads :
  let data := reader_data reads in let size := Z.of_nat (length data) in let h := sha256_hex data in
  let request := mkStreamUploadInitRequest (uuid_String rid) fid fn ct size in
  let nodes := FindNodesForFile fid 3 ring in let sid := uuid_String newSession in
  let r := Node.handleConnection now newSession newReply (Some (upload_message c request)) m in
  let sent := outs_of r in let req := upload_stream sid data in
  master_ready ring idx (b_node m) → all_there (b_node m) sid nodes sites →
  master_addr (ca_client c) = node_addr (b_node m) → (String.length sid ≤ 36)%nat → no_trailing_nul (bytes_of sid) →
  reader_fails reads = false → size <= maxInt →
  (∃ o c', UploadFileStream (H1 := system_network (mkSystem m now newSession newReply sites sent)) rid fid fn ct size reads c =
    (o, Ret (inr (mkUploadResult h (ni_ID <$> nodes)), c'))) ∧
  ∃ m2, state_of r = Some m2 ∧
  ∀ t acks, mwt_Message <$> acks ≡ₚ nodes ≫= node_acks (b_node m) sent req sites →
  ∃ m3, for_each acks (receive t) m2 = ([], Ret ((), m3)) ∧
    ma_globalFileIndex (n_master (b_node m3)) = Some (<[h := mkGlobalFileInfo fid fn h size ct (ni_ID <$> nodes)]> idx) ∧
  ∀ now' newSession' newReply' c' rid' fid' budget,
    master_addr (ca_client c') = node_addr (b_node m) → takes size budget →
    let y := mkSystem m3 now' newSession' newReply' (after_upload sent req nodes sites) [] in
    ∃ o c'', DownloadFileStream (H1 := system_network y) rid' fid' h budget c' = (o, Ret (None, c'')) ∧ received o = data.
Proof.
  intros data size h request nodes sid r sent req Hm Hthere Hc Hsid Hnul Hf Hmax.
  assert (in_int64 (sui_Size request) = true) as Hsz by (cbn; unfold maxInt in Hmax; int_bounds; lia).
  split; [by apply (cluster_upload_run m ring idx now newSession newReply sites c request)|].
  eexists. split; [unfold r; rewrite (proj2 (upload_request_run m ring idx now newSession newReply c request Hm Hsz)); reflexivity|].
  intros t acks Hacks. rewrite <-(app_nil_r (mwt_Message <$> acks)) in Hacks.
  destruct (upload_acknowledged m ring idx now newSession newReply sites c request Hm Hsz Hthere Hsid Hnul data t acks [] Hmax Hacks)
    as (ma & time & E & Hidx). rewrite decide_True in Hidx by done.
  eexists. split; [exact E|]. split; [exact Hidx|]. intros now' ns' nr' c' rid' fid' budget Hc' Htakes.
  eapply download_indexed; [|exact Hidx|done|apply lookup_insert_eq| |done|done|exact Hc'].
  - exact (mr_role _ _ _ Hm).
  - by apply (upload_available m ring idx now newSession newReply sites c request).
Qed.
(** C36: a client is told that its upload succeeded before the cluster knows the
    file: as long as the acknowledgement of one node has not reached the master,
    the index is what it was, and a download of the new file is refused. *)
Theorem upload_not_yet_indexed m ring idx now newSession newReply sites c rid fid fn ct reads :
  let data := reader_data reads in let size := Z.of_nat (length data) in let h := sha256_hex data in
  let request := mkStreamUploadInitRequest (uuid_String rid) fid fn ct size in
  let nodes := FindNodesForFile fid 3 ring in let sid := uuid_String newSession in
  let r := Node.handleConnection now newSession newReply (Some (upload_message c request)) m in
  let sent := outs_of r in let req := upload_stream sid data in
  master_ready ring idx (b_node m) → all_there (b_node m) sid nodes sites →
  master_addr (ca_client c) = node_addr (b_node m) → (String.length sid ≤ 36)%nat → no_trailing_nul (bytes_of sid) →
  reader_fails reads = false → size <= maxInt → idx !! h = None →
  (∃ o c', UploadFileStream (H1 := system_network (mkSystem m now newSession newReply sites sent)) rid fid fn ct size reads c =
    (o, Ret (inr (mkUploadResult h (ni_ID <$> nodes)), c'))) ∧
  ∃ m2, state_of r = Some m2 ∧
  ∀ t acks late, (mwt_Message <$> acks) ++ late ≡ₚ nodes ≫= node_acks (b_node m) sent req sites → late ≠ [] →
  ∃ m3, for_each acks (receive t) m2 = ([], Ret ((), m3)) ∧ ma_globalFileIndex (n_master (b_node m3)) = Some idx ∧
  ∀ now' newSession' newReply' c' rid' fid' budget, master_addr (ca_client c') = node_addr (b_node m) →
    let y := mkSystem m3 now' newSession' newReply' (after_upload sent req nodes sites) [] in
    ∃ o c'', DownloadFileStream (H1 := system_network y) rid' fid' h budget c' =
      (o, Ret (Some (ERefused "file not found"), c'')) ∧ received o = [].
Proof.
  intros data size h request nodes sid r sent req Hm Hthere Hc Hsid Hnul Hf Hmax Hnew.
  assert (in_int64 (sui_Size request) = true) as Hsz by (cbn; unfold maxInt in Hmax; int_bounds; lia).
  split; [by apply (cluster_upload_run m ring idx now newSession newReply sites c request)|].
  eexists. split; [unfold r; rewrite (proj2 (upload_request_run m ring idx now newSession newReply c request Hm Hsz)); reflexivity|].
  intros t acks late Hacks Hlate.
  destruct (upload_acknowledged m ring idx now newSession newReply sites c request Hm Hsz Hthere Hsid Hnul data t acks late Hmax Hacks)
    as (ma & time & E & Hidx). rewrite decide_False in Hidx by done.
  eexists. split; [exact E|]. split; [exact Hidx|]. intros now' ns' nr' c' rid' fid' budget Hc'.
  eapply download_unknown; [exact (mr_role _ _ _ Hm)|exact Hidx|exact Hnew|exact Hc'].
Qed.
End properties.

(** ** Examples: a master and two storage nodes, the first one told late *)

#[local] Existing Instance decimal_uuids.
#[local] Existing Instance decimal_times.
#[local] Existing Instance canonical_range.
#[local] Existing Instance Transfer.plain_errors.

Definition pair_info (id : uuid) (ip : string) : NodeInfo := mkNodeInfo id ip 8000 RoleStorage StatusOnline 1 0.
Definition first_info : NodeInfo := pair_info 1 "10.0.0.1".
Definition second_info : NodeInfo := pair_info 2 "10.0.0.2".
Definition master_info : NodeInfo := mkNodeInfo 9 "10.0.0.9" 8000 RoleMaster StatusOnline 10 0.
Definition pair_ring : HashRing := AddNode second_info (AddNode first_info (NewHashRing 2)).

Definition pair_node (info : NodeInfo) (peers : gmap uuid NodeInfo) (ma : Master) : FullNode :=
  NewBullyElector (mkNode (ni_ID info) "0.0.0.0" (ni_IP info) 8000 (ni_Priority info) (ni_Role info) StatusOnline
    peers 0 (mkLocks ∅ ∅ ∅ ∅) ma (mkStreamServer ∅ (NewLocalStorage LocalStorage.example_base (mkDisk ∅ ∅ [])) true) []).

Definition pair_master : FullNode :=
  pair_node master_info {[ 1%N := first_info; 2%N := second_info ]} (mkMaster (Some pair_ring) (Some ∅) false None ∅).

Definition pair_site (info : NodeInfo) (attempt : nat) : Site :=
  mkSite (pair_node info {[ 9%N := master_info ]} (mkMaster None None false None ∅)) attempt 1000 99 5 false (λ _, 1%nat).

Definition pair_sites (addr : string) : option Site :=
  if String.eqb addr "10.0.0.1:8100" then Some (pair_site first_info 3)
  else if String.eqb addr "10.0.0.2:8100" then Some (pair_site second_info 0)
  else None.

Definition pair_client (k : nat) : Caller := mkCaller (NewMasterClient "10.0.0.9" 8000 77) k.

Lemma pair_ring_wf : ring_wf pair_ring.
Proof.
  apply reachable_wf. unfold pair_ring. apply rr_add; [apply rr_add; [apply rr_new|]|].
  - by apply (bool_decide_unpack (no_collision _ _)); vm_compute.
  - by apply (bool_decide_unpack (no_collision _ _)); vm_compute.
Qed.

Lemma pair_chosen : FindNodesForFile 7 3 pair_ring = [first_info; second_info] ∨
  FindNodesForFile 7 3 pair_ring = [second_info; first_info].
Proof. vm_compute. auto. Qed.

Lemma pair_master_ready : master_ready pair_ring ∅ (b_node pair_master).
Proof.
  constructor; [reflexivity|reflexivity|exact pair_ring_wf| |reflexivity|reflexivity].
  intros E. apply (f_equal size) in E. vm_compute in E. discriminate.
Qed.

Lemma pair_site_for info attempt : info = first_info ∨ info = second_info → (attempt < 10)%nat →
  site_for (b_node pair_master) "5" info (pair_site info attempt).
Proof.
  intros Hi Ha. constructor; [reflexivity|reflexivity|by destruct Hi as [->| ->]| | |reflexivity|exact Ha|].
  - exists info. by destruct Hi as [->| ->].
  - exists master_info. by destruct Hi as [->| ->].
  - do 5 eexists. split; [reflexivity|]. split; [done|apply layout_fresh].
Qed.

Lemma pair_there : all_there (b_node pair_master) "5" (FindNodesForFile 7 3 pair_ring) pair_sites.
Proof.
  intros node Hin. assert (node = first_info ∨ node = second_info) as Hn.
  { destruct pair_chosen as [E|E]; rewrite E in Hin;
      apply elem_of_cons in Hin as [Hin|Hin%list_elem_of_singleton]; auto. }
  destruct Hn as [-> | ->]; eexists; (split; [reflexivity|apply pair_site_for; [auto|lia]]).
Qed.

Lemma upload_then_download_witness : ∃ y o c',
  DownloadFileStream (H1 := system_network y) 8 7 (sha256_hex (bytes_of "abc")) (Some 5%nat) (pair_client 4) =
    (o, Ret (None, c')) ∧ received o = bytes_of "abc".
Proof.
  destruct (upload_then_download pair_master pair_ring ∅ 1000 5 6 pair_sites (pair_client 0) 4 7 "abc.txt" "text/plain"
    [(bytes_of "a", More); ([], More); (bytes_of "bc", Eof)]) as (_ & m2 & _ & Hdone).
  - exact pair_master_ready.
  - exact pair_there.
  - reflexivity.
  - simpl. lia.
  - vm_compute. discriminate.
  - reflexivity.
  - vm_compute. discriminate.
  - destruct (Hdone 2000 ((λ msg, mkMessageWithTime msg 3) <$> (FindNodesForFile 7 3 pair_ring ≫=
      node_acks (b_node pair_master) (outs_of (Node.handleConnection 1000 5 6 (Some (upload_message (pair_client 0)
        (mkStreamUploadInitRequest (uuid_String 4) 7 "abc.txt" "text/plain" 3))) pair_master))
        (upload_stream "5" (bytes_of "abc")) pair_sites))) as (m3 & _ & _ & Hget).
    + rewrite <-list_fmap_compose. rewrite (list_fmap_ext _ id) by done. by rewrite list_fmap_id.
    + destruct (Hget 3000 1%N 2%N (pair_client 4) 8%N 7%N (Some 5%nat)) as (o & c' & E & Hrec);
        [reflexivity|vm_compute; discriminate|].
      eexists _, o, c'. split; [exact E|exact Hrec].
Defined.

Lemma upload_not_yet_indexed_witness : ∃ y o c',
  DownloadFileStream (H1 := system_network y) 8 7 (sha256_hex (bytes_of "abc")) None (pair_client 4) =
    (o, Ret (Some (ERefused "file not found"), c')).
Proof.
  destruct (upload_not_yet_indexed pair_master pair_ring ∅ 1000 5 6 pair_sites (pair_client 0) 4 7 "abc.txt" "text/plain"
    [(bytes_of "abc", Eof)]) as (_ & m2 & _ & Hdone).
  - exact pair_master_ready.
  - exact pair_there.
  - reflexivity.
  - simpl. lia.
  - vm_compute. discriminate.
  - reflexivity.
  - vm_compute. discriminate.
  - apply lookup_empty.
  - match type of Hdone with ∀ t acks late, _ ≡ₚ ?l → _ => assert (l ≠ []) as Hlate by (vm_compute; discriminate);
      set (all := l) in *; clearbody all end.
    destruct (Hdone 2000 [] all (Permutation_refl _) Hlate) as (m3 & _ & _ & Hget).
    destruct (Hget 3000 1%N 2%N (pair_client 4) 8%N 7%N None eq_refl) as (o & c' & E & _).
    eexists _, o, c'. exact E.
Defined.
