(* ===== verification/Elections.v ===== *)
(** * Elections in the cluster

    The elector of [Bully.v] inside the node of [Node.v], with the messages
    that it sends handled by the other nodes: what the cluster agrees on when
    the strongest node has announced itself, and what becomes of another node
    that believes itself the master. *)

From S2P Require Import Prelude GoStd Hashes Types Json HashRing Session Fs LocalStorage Protocol StreamServer NodeState NodeLocks NodeFiles Resync Bully Node Client Transfer EndToEnd.

Section definitions.
Context `{UuidText} `{TimeText} `{MapRange}.

Definition id_of (b : FullNode) : uuid := n_ID (b_node b).

Definition address_of (b : FullNode) : string * Z := (n_AdvertiseIP (b_node b), n_Port (b_node b)).
Definition peer_addresses (b : FullNode) : list (string * Z) := (λ p, (ni_IP p, ni_Port p)) <$> GetPeers (b_node b).

(** The candidate that has asked the stronger peers and waits for an answer. *)
Definition waiting_for_OK (l : FullNode) : FullNode :=
  set_tasks (b_tasks l ++ [WaitOK (length (b_chans l))]) (renewed (set_inProgress true l)).

(** What a node is sent, with the time stamps that the sender puts on it. *)
Definition sent_to_node (b : FullNode) (o : list NAct) (ms : list MessageWithTime) : Prop :=
  mwt_Message <$> ms = mail (address_of b).1 (address_of b).2 o.

(** [b] can be reached from [h] and knows it as a node that is not weaker than
    itself; its elector is in any state, between two messages. *)
Record knows (h b : FullNode) : Prop := mkKnows {
  kn_elector : elector_ok b;
  kn_keyed : keyed (b_node b);
  kn_peer : ∃ p, n_peers (b_node b) !! id_of h = Some p ∧ ni_Priority p = n_Priority (b_node h);
  kn_weaker : n_Priority (b_node b) ≤ n_Priority (b_node h);
  kn_idle : n_messageChan (b_node b) = [];
  kn_reached : address_of b ∈ peer_addresses h }.

(** [b] takes [h] for the master, and nobody else, not itself either. *)
Record follows (h b : FullNode) : Prop := mkFollows {
  fo_role : n_Role (b_node b) ≠ RoleMaster;
  fo_election : electionInProgress b = false;
  fo_master : ∃ p, n_peers (b_node b) !! id_of h = Some p ∧ ni_Role p = RoleMaster;
  fo_only : ∀ id p, n_peers (b_node b) !! id = Some p → ni_Role p = RoleMaster → id = id_of h }.
End definitions.

(** ** Helper lemmas *)
Section lemmas.
Context `{UuidText} `{TimeText} `{MapRange}.

Lemma sublist_NoDup_fmap {A B} (f : A → B) (l k : list A) : l `sublist_of` k → NoDup (f <$> k) → NoDup (f <$> l).
Proof.
  intros Hs. induction Hs as [|x l k Hs IH|x l k _ IH]; csimpl; [done| |].
  - intros [Hn Hnd]%NoDup_cons. apply NoDup_cons. split; [|by apply IH]. intros Hin. apply Hn.
    apply list_elem_of_fmap in Hin as (y & -> & Hy). apply list_elem_of_fmap_2. by eapply sublist_subseteq.
  - intros [_ Hnd]%NoDup_cons. by apply IH.
Qed.

Lemma mail_sends_none ip port ps msg : (ip, port) ∉ (λ p, (ni_IP p, ni_Port p)) <$> ps →
  mail ip port (sends (N := Node) ps msg) = [].
Proof.
  unfold sends, mail. induction ps as [|p ps IH]; [done|]. csimpl. intros [Hne Hps]%not_elem_of_cons.
  rewrite decide_False by (intros [? ?]; congruence). by apply IH.
Qed.

(** A message for all peers reaches each of them once. *)
Lemma mail_sends ip port ps msg : NoDup ((λ p, (ni_IP p, ni_Port p)) <$> ps) → (ip, port) ∈ (λ p, (ni_IP p, ni_Port p)) <$> ps →
  mail ip port (sends (N := Node) ps msg) = [msg].
Proof.
  unfold sends. induction ps as [|p ps IH]; csimpl; [by intros _ ?%elem_of_nil|]. intros [Hni Hnd]%NoDup_cons Hin.
  unfold mail. cbn [omap list_omap]. destruct (decide (ni_IP p = ip ∧ ni_Port p = port)) as [[<- <-]|Hne].
  - f_equal. by apply mail_sends_none.
  - apply elem_of_cons in Hin as [[= -> ->]|Hin]; [tauto|]. by apply IH.
Qed.

(** Every peer but one is put down as a storage node if it was a master. *)
Lemma demote_run from l (b : FullNode) :
  ∃ ps, for_each l (λ peer,
      if negb (bool_decide (ni_ID peer = from)) && String.eqb (ni_Role peer) RoleMaster
      then node_do (nc_UpdatePeerRole (ni_ID peer) RoleStorage) else skip) b =
    ([], Ret ((), set_node (set_peers ps (b_node b)) b)) ∧
  ps !! from = n_peers (b_node b) !! from ∧
  (∀ id p, ps !! id = Some p → ni_Role p = RoleMaster →
     n_peers (b_node b) !! id = Some p ∧ (id = from ∨ ∀ q, q ∈ l → ni_ID q = id → ni_Role q ≠ RoleMaster)).
Proof.
  revert b. induction l as [|q l IH]; intros b; cbn [for_each].
  { exists (n_peers (b_node b)). split_and!; [by destruct b as [[]]|done|]. intros id p Hp _. split; [done|right]. by intros q ?%elem_of_nil. }
  destruct (decide (ni_ID q ≠ from ∧ ni_Role q = RoleMaster)) as [[Hne Hm]|Hc].
  - set (ps1 := alter (ni_set_Role RoleStorage) (ni_ID q) (n_peers (b_node b))).
    set (b1 := set_node (set_peers ps1 (b_node b)) b). destruct (IH b1) as (ps & E & Hf & Hps). exists ps. split_and!.
    + rewrite bool_decide_false, (proj2 (String.eqb_eq _ _) Hm) by done. cbn [negb andb].
      rewrite (bind_silent _ _ b () b1) by reflexivity. rewrite E. by destruct b as [[]].
    + rewrite Hf. unfold b1, ps1. cbn. by rewrite lookup_alter_ne.
    + intros id p Hp Hr. destruct (Hps id p Hp Hr) as [Hl Hq]. unfold b1, ps1 in Hl. cbn in Hl.
      destruct (decide (id = ni_ID q)) as [->|Hid].
      * rewrite lookup_alter_eq in Hl. destruct (n_peers (b_node b) !! ni_ID q) as [p'|]; [|done]. injection Hl as <-. done.
      * rewrite lookup_alter_ne in Hl by done. split; [done|]. destruct Hq as [->|Hq]; [by left|right].
        intros q' [->|Hin]%elem_of_cons; [congruence|by apply Hq].
  - rewrite (bind_silent _ _ b () b).
    2: { destruct (bool_decide_reflect (ni_ID q = from)); [done|]. destruct (String.eqb_spec (ni_Role q) RoleMaster); [tauto|done]. }
    destruct (IH b) as (ps & E & Hf & Hps). exists ps. split_and!; [done|done|]. intros id p Hp Hr. destruct (Hps id p Hp Hr) as [Hl Hq].
    split; [done|]. destruct (decide (id = from)) as [->|Hid]; [by left|right]. destruct Hq as [->|Hq]; [done|].
    intros q' [->|Hin]%elem_of_cons; [intros <-; tauto|by apply Hq].
Qed.

(** The announcement of a node that is not weaker, accepted. *)
Lemma accept_run from p b : keyed (b_node b) → n_peers (b_node b) !! from = Some p →
  ∃ o b', accept_coordinator from b = (o, Ret ((), b')) ∧ n_Role (b_node b') ≠ RoleMaster ∧
    electionInProgress b' = electionInProgress b ∧
    n_peers (b_node b') !! from = Some (ni_set_Role RoleMaster p) ∧
    ∀ id q, n_peers (b_node b') !! id = Some q → ni_Role q = RoleMaster → id = from.
Proof.
  intros Hk Hp. unfold accept_coordinator. set (ps1 := alter (ni_set_Role RoleMaster) from (n_peers (b_node b))).
  set (b1 := set_node (set_peers ps1 (b_node b)) b). rewrite (bind_silent _ _ b () b1) by reflexivity.
  rewrite (bind_silent get _ b1 b1 b1) by done.
  destruct (demote_run from (nc_Peers (b_node b1)) b1) as (ps & E & Hf & Hps). rewrite (bind_silent _ _ _ _ _ E).
  set (b2 := set_node (set_peers ps (b_node b1)) b1). rewrite (bind_silent get _ b2 b2 b2) by done.
  assert (ps !! from = Some (ni_set_Role RoleMaster p)) as Hm.
  { rewrite Hf. unfold b1, ps1. cbn. by rewrite lookup_alter_eq, Hp. }
  assert (∀ id q, ps !! id = Some q → ni_Role q = RoleMaster → id = from) as Ho.
  { intros id q Hq Hr. destruct (Hps id q Hq Hr) as [Hl [->|Hn]]; [done|]. exfalso. apply (Hn q); [| |done].
    - apply list_elem_of_fmap. exists (id, q). split; [done|]. by apply elem_of_go_range.
    - unfold b1, ps1 in Hl. cbn in Hl. destruct (decide (id = from)) as [->|Hid].
      + rewrite lookup_alter_eq, Hp in Hl. injection Hl as <-. simpl. by apply Hk.
      + rewrite lookup_alter_ne in Hl by done. by apply Hk. }
  destruct (String.eqb_spec (nc_Role (b_node b2)) RoleMaster) as [Hr|Hr]; [|by exists [], b2].
  unfold node_do, zoom. change (nc_SetRole RoleStorage) with (SetRole RoleStorage). rewrite SetRole_run.
  do 2 eexists. split; [reflexivity|]. cbn [b_node set_node]. by repeat case_decide.
Qed.

Lemma sender_known from p n : keyed n → n_peers n !! from = Some p → senderPriority from (GetPeers n) = ni_Priority p.
Proof.
  intros Hk Hp. unfold senderPriority.
  destruct (List.find (λ q, bool_decide (ni_ID q = from)) (GetPeers n)) as [q|] eqn:Ef.
  - apply find_some in Ef as [Hin Hq%bool_decide_eq_true]. apply list_elem_of_In, list_elem_of_fmap in Hin as ([k q'] & -> & Hin).
    apply elem_of_go_range in Hin. simpl in *. rewrite (Hk _ _ Hin) in Hq. congruence.
  - exfalso. assert (p ∈ GetPeers n) as Hin.
    { apply list_elem_of_fmap. exists (from, p). split; [done|]. by apply elem_of_go_range. }
    apply list_elem_of_In in Hin. pose proof (find_none _ _ Ef _ Hin) as Hn. simpl in Hn.
    by rewrite bool_decide_eq_false, (Hk _ _ Hp) in Hn.
Qed.

(** A node that reads the announcement of one it [knows] follows it. *)
Lemma reads_coordinator now h b m : knows h b → mwt_Message m = coordinator_msg h →
  ∃ o b', receive now m b = (o, Ret ((), b')) ∧ follows h b'.
Proof.
  intros [He Hk (p & Hp & Hprio) Hw Hi _] Hm.
  rewrite (receive_run now m b); [|by rewrite Hm; split_and!; vm_compute|done]. rewrite Hm.
  set (b1 := heard m b). change (processMessage now (coordinator_msg h) b1) with (handleCoordinator (coordinator_msg h) b1).
  assert (elector_ok b1) as He1 by exact He. assert (keyed (b_node b1)) as Hk1 by exact Hk.
  assert (n_peers (b_node b1) !! id_of h = Some p) as Hp1 by exact Hp.
  destruct (handleCoordinator_accept (coordinator_msg h) b1 He1) as (cs & -> & _).
  { cbn [msg_From coordinator_msg]. change (nc_ID (b_node h)) with (id_of h).
    change (nc_Peers (b_node b1)) with (GetPeers (b_node b1)). rewrite (sender_known _ p) by done. rewrite Hprio.
    change (nc_Priority (b_node b1)) with (n_Priority (b_node b)).
    by rewrite (proj2 (Z.ltb_ge _ _) Hw), andb_false_r. }
  destruct (accept_run (id_of h) p (set_chans cs (set_inProgress false b1)) Hk1 Hp1) as (o & b' & E & Hr & Hel & Hm' & Ho).
  exists o, b'. split; [exact E|]. split; [done|done| |done]. by exists (ni_set_Role RoleMaster p).
Qed.

(** The announcement of [h], among the messages it sends. *)
Lemma announced h b o ms : NoDup (peer_addresses h) → knows h b →
  mail (address_of b).1 (address_of b).2 o = mail (address_of b).1 (address_of b).2 (sends (GetPeers (b_node h)) (coordinator_msg h)) →
  sent_to_node b o ms → ∃ m, ms = [m] ∧ mwt_Message m = coordinator_msg h.
Proof.
  intros Hnd Hb Ho Hms. unfold sent_to_node in Hms. rewrite Ho, mail_sends in Hms; [|exact Hnd|].
  - destruct ms as [|m [|? ?]]; try done. exists m. split; [done|]. by injection Hms.
  - pose proof (kn_reached _ _ Hb) as Hr. unfold address_of in *. exact Hr.
Qed.

Lemma all_follow h o : NoDup (peer_addresses h) →
  (∀ ip port, mail ip port o = mail ip port (sends (GetPeers (b_node h)) (coordinator_msg h))) →
  ∀ b ms now, knows h b → sent_to_node b o ms → ∃ o' b', for_each ms (receive now) b = (o', Ret ((), b')) ∧ follows h b'.
Proof.
  intros Hnd Ho b ms now Hb Hms. destruct (announced h b o ms Hnd Hb (Ho _ _) Hms) as (m & -> & Hm).
  destruct (reads_coordinator now h b m Hb Hm) as (o' & b' & E & Hf). exists o', b'. split; [|done]. cbn [for_each].
  rewrite <-(app_nil_r o'). by eapply bind_run.
Qed.

(** The election of a node without a stronger peer, with what it sends. *)
Lemma takes_over now t h : elector_ok h → electionInProgress h = false → higher_peers h = [] →
  ∃ o h', run_events [EvStart now; EvResume t (length (b_tasks h)) TimedOut] h = (o, Ret ((), h')) ∧
    SetRole RoleMaster (b_node h) = (drop (length (GetPeers (b_node h))) o, Ret ((), b_node h')) ∧
    (∀ ip port, mail ip port o = mail ip port (sends (GetPeers (b_node h)) (coordinator_msg h))) ∧
    electionInProgress h' = false ∧ b_tasks h' = b_tasks h ∧ elector_ok h'.
Proof.
  intros Hb Hp Hh. pose proof (StartElection_run now h Hb Hp) as E. cbv zeta in E. rewrite Hh, becomeLeader_run in E.
  set (b1 := renewed (set_inProgress true h)) in *. set (c := length (b_chans b1)) in *.
  set (b2 := set_tasks _ _) in E. cbn [sends fmap list_fmap app] in E.
  assert (elector_ok b2) as Hb2.
  { destruct (safe_StartElection now h Hb) as (o & [] & b' & E' & Hok). rewrite E in E'. by injection E' as _ <-. }
  set (b3 := set_tasks (b_tasks h) b2). set (oR := if decide (RoleMaster = RoleMaster ∧ n_Role (b_node h) ≠ RoleMaster) then [GoSyncMetadata] else []).
  pose proof (SetRole_run RoleMaster (b_node h)) as ER. fold oR in ER. set (n' := (if decide (_ ∧ _) then _ else _)) in ER at 1.
  set (h' := set_inProgress false (set_leaderCancelChan None (set_node n' b3))).
  assert (resume_becomeLeader c false TimedOut b3 = (oR, Ret ((), h'))) as E3.
  { cbn [resume_becomeLeader]. rewrite <-(app_nil_r oR). refine (bind_run _ _ b3 oR () (set_node n' b3) [] _ _ _); [|reflexivity].
    unfold node_do, zoom. change (nc_SetRole RoleMaster (b_node b3)) with (SetRole RoleMaster (b_node h)). by rewrite ER. }
  assert (run_event (EvResume t (length (b_tasks h)) TimedOut) b2 = (oR, Ret ((), h'))) as E2.
  { by rewrite (resume_last t TimedOut b2 (b_tasks h) (WaitCancel c false) eq_refl eq_refl). }
  exists (sends (GetPeers (b_node h)) (coordinator_msg h) ++ oR), h'. split_and!.
  - exact (bind_run (StartElection now) _ h _ () _ _ _ E (eq_trans (run_one _ _) E2)).
  - unfold sends. rewrite drop_app_length' by (by rewrite length_fmap). exact ER.
  - intros ip port. rewrite mail_app. unfold oR. case_decide; by rewrite app_nil_r.
  - done.
  - done.
  - destruct (safe_resume_becomeLeader c false TimedOut b3 Hb2) as (o & [] & b' & E' & Hok).
    rewrite E3 in E'. by injection E' as _ <-.
Qed.

(** A strong node is asked by a weak one. *)
Lemma asked_run now h m info : n_messageChan (b_node h) = [] → n_Role (b_node h) ≠ RoleMaster → electionInProgress h = false →
  msg_Type (mwt_Message m) = MessageElection →
  Unmarshal_ok NodeInfo_of_json (msg_Payload (mwt_Message m)) = Some info → ni_Priority info < n_Priority (b_node h) →
  receive now m h = ([GoSend (ni_IP info) (ni_Port info) (mkMessage MessageOK (id_of h) uuid_Nil None)],
                     Ret ((), set_tasks (b_tasks h ++ [Starting]) (heard m h))).
Proof.
  intros Hi Hr Hp Ht Hinfo Hlt. rewrite (receive_run now m h); [|by rewrite Ht; split_and!; vm_compute|done]. unfold processMessage.
  rewrite Ht. cbn [String.eqb Ascii.eqb Bool.eqb orb MessageElection]. unfold HandleMessage. rewrite Ht. cbn [String.eqb Ascii.eqb Bool.eqb MessageElection].
  unfold handleElection. rewrite Hinfo. set (h1 := heard m h). rewrite (bind_silent get _ h1 h1 h1) by done.
  change (nc_Priority (b_node h1)) with (n_Priority (b_node h)). rewrite (proj2 (Z.ltb_lt _ _) Hlt).
  refine (bind_run _ _ h1 [_] () h1 [] _ eq_refl _). change (electionInProgress h1) with (electionInProgress h). rewrite Hp.
  change (nc_Role (b_node h1)) with (n_Role (b_node h)). by rewrite (proj2 (String.eqb_neq _ _) Hr).
Qed.

(** The goroutine that [handleElection] starts is an election from its start. *)
Lemma resumed_start t1 t2 h : run_events [EvResume t1 (length (b_tasks h)) Received; EvResume t2 (length (b_tasks h)) TimedOut]
    (set_tasks (b_tasks h ++ [Starting]) h) = run_events [EvStart t1; EvResume t2 (length (b_tasks h)) TimedOut] h.
Proof.
  cbn [run_events]. unfold mbind at 1, gom_bind at 1.
  rewrite (resume_last t1 Received (set_tasks (b_tasks h ++ [Starting]) h) (b_tasks h) Starting eq_refl eq_refl).
  assert (set_tasks (b_tasks h) (set_tasks (b_tasks h ++ [Starting]) h) = h) as -> by (by destruct h). reflexivity.
Qed.

(** A node hears an OK while it waits for one. *)
Lemma OK_run now b c m from : n_messageChan (b_node b) = [] → okChan b = Some c → from ≠ id_of b →
  mwt_Message m = mkMessage MessageOK from uuid_Nil None →
  receive now m b = ([], Ret ((), set_tasks (b_tasks b ++ [SendingOK c]) (heard m b))).
Proof.
  intros Hi Hc Hne Hm. rewrite (receive_run now m b); [|by rewrite Hm; split_and!; vm_compute|done]. rewrite Hm.
  set (b1 := heard m b). change (processMessage now (mkMessage MessageOK from uuid_Nil None) b1) with (handleOK (mkMessage MessageOK from uuid_Nil None) b1).
  unfold handleOK. rewrite (bind_silent get _ b1 b1 b1) by done. rewrite decide_False by done.
  change (okChan b1) with (okChan b). by rewrite Hc.
Qed.

Lemma candidate_run now l : elector_ok l → electionInProgress l = false → higher_peers l ≠ [] →
  StartElection now l = (sends (higher_peers l) (election_msg now l), Ret ((), waiting_for_OK l)) ∧
  elector_ok (waiting_for_OK l) ∧ okChan (waiting_for_OK l) = Some (length (b_chans l)) ∧
  chan (length (b_chans l)) (waiting_for_OK l) = make_chan.
Proof.
  intros Hl Hp Hh. pose proof (StartElection_run now l Hl Hp) as E. cbv zeta in E.
  destruct (renewed_ok (set_inProgress true l) Hl) as [Hok Hnew]. split_and!; [|exact Hok|done|exact Hnew].
  destruct (higher_peers l) as [|p ps]; [done|]. etransitivity; [exact E|]. cbn. by rewrite app_nil_r.
Qed.

(** The OK is handed on, and the candidate gives up. *)
Lemma candidate_gives_up t1 t2 l c ts : elector_ok l → okChan l = Some c → chan c l = make_chan → b_tasks l = (ts ++ [WaitOK c]) ++ [SendingOK c] →
  ∃ l', run_events [EvResume t1 (S (length ts)) Received; EvResume t2 (length ts) Received] l = ([], Ret ((), l')) ∧
    b_node l' = b_node l ∧ electionInProgress l' = false ∧ b_tasks l' = ts ∧ elector_ok l'.
Proof.
  intros Hok Hc Hnew Ht. pose proof Hok as (Hopen & _). destruct (Hopen c Hc) as [Hlen _].
  set (l1 := set_tasks (ts ++ [WaitOK c]) l). set (l2 := set_chans (<[c := mkChan true false]> (b_chans l)) l1).
  assert (try_send (N := Node) (O := NAct) c l1 = ([], Ret ((), l2))) as E1.
  { unfold try_send. rewrite (bind_silent get _ l1 l1 l1) by done. change (chan c l1) with (chan c l). by rewrite Hnew. }
  assert (elector_ok l2) as Hok2.
  { destruct (safe_try_send (N := Node) (O := NAct) c l1) as (o & [] & b' & E' & Hb'); [split; [exact Hok|]; change (chan c l1) with (chan c l); by rewrite Hnew|].
    rewrite E1 in E'. by injection E' as _ <-. }
  assert (run_event (EvResume t1 (S (length ts)) Received) l = ([], Ret ((), l2))) as E2.
  { replace (S (length ts)) with (length (ts ++ [WaitOK c])) by (rewrite length_app; simpl; lia).
    by rewrite (resume_last t1 Received l _ _ Ht eq_refl). }
  assert (chan c l2 = mkChan true false) as Hfull by (unfold chan, l2; cbn; by rewrite list_lookup_insert_eq).
  set (l3 := set_tasks ts l2).
  destruct (safe_resume_StartElection (N := Node) (O := NAct) c Received l3 Hok2) as (o & [] & l' & E3 & Hok').
  assert (run_event (EvResume t2 (length ts) Received) l2 = (o, Ret ((), l'))) as E4.
  { rewrite (resume_last t2 Received l2 ts (WaitOK c) eq_refl); [exact E3|]. cbn [resumable]. unfold can_receive. by rewrite Hfull. }
  cbn [resume_StartElection] in E3. unfold receive in E3. erewrite bind_silent in E3 by reflexivity. injection E3 as <- El.
  exists l'. split_and!; [|by rewrite <-El..|exact Hok'].
  refine (bind_run _ _ l [] () l2 [] _ E2 _). exact (eq_trans (run_one _ _) E4).
Qed.

(** Who is on the ring of a new master. *)
Lemma ring_of_peers_ok n : ring_ok (ring_of_peers n).
Proof.
  unfold ring_of_peers. assert (∀ l h, ring_ok h →
    ring_ok (fold_left (λ ring peer, if String.eqb (ni_Role peer) RoleStorage then AddNode peer ring else ring) l h)) as Hl.
  { induction l as [|p l IH]; intros h Hh; [done|]. cbn [fold_left]. apply IH. destruct (String.eqb _ _); [by apply AddNode_ok|done]. }
  apply Hl, NewHashRing_wf.
Qed.

Lemma found_on_ring f n ring id : ring_ok ring → id ∈ ni_ID <$> FindNodesForFile f n ring → is_Some (hr_nodes ring !! id).
Proof.
  intros Hok Hin. rewrite FindNodesForFile_preference in Hin by done. apply list_elem_of_fmap in Hin as (node & -> & Hin).
  apply elem_of_take in Hin as (i & Hi & _). apply list_elem_of_lookup_2 in Hi.
  apply list_elem_of_omap in Hi as (o & _ & Ho). rewrite (ok_keys _ Hok _ _ Ho). by eexists.
Qed.
End lemmas.

(** ** Properties *)
Section properties.
Context `{UuidText} `{TimeText} `{MapRange}.

(** C10: an election ends in agreement. When a node that no peer is stronger
    than has run its election, it is the master; and every node that it can
    reach and that knows it, whatever it was doing, in an election of its own,
    following another master or being one, has the new master as its only one
    when it has read what the new master sent, is not a master itself and is in
    no election. *)
Theorem election_agreed now t h : elector_ok h → electionInProgress h = false → higher_peers h = [] →
  NoDup (peer_addresses h) →
  ∃ o h', run_events [EvStart now; EvResume t (length (b_tasks h)) TimedOut] h = (o, Ret ((), h')) ∧
    n_Role (b_node h') = RoleMaster ∧ electionInProgress h' = false ∧ elector_ok h' ∧
    ∀ b ms now', knows h b → sent_to_node b o ms → ∃ o' b', for_each ms (receive now') b = (o', Ret ((), b')) ∧ follows h' b'.
Proof.
  intros He Hp Hh Hnd. destruct (takes_over now t h He Hp Hh) as (o & h' & E & ER & Ho & Hel & _ & He').
  destruct (SetRole_keeps RoleMaster (b_node h)) as (o1 & n1 & E1 & Hr & Hid & _). rewrite E1 in ER. injection ER as _ ->.
  exists o, h'. split_and!; [done..|]. intros b ms now' Hb Hms. destruct (all_follow h o Hnd Ho b ms now' Hb Hms) as (o' & b' & E' & Hf).
  exists o', b'. split; [done|]. destruct Hf. split; try done; unfold id_of in *; by rewrite Hid.
Qed.

(** C12: of two masters the weaker one steps down. A master with nothing else to
    read, that reads the announcement of a peer whose priority is lower than its
    own and is not -1 (which stands for a sender that is no peer: see
    [priority_minus_one_wins]), stays as it is and announces itself again; every
    node that it can reach and that knows it, the weaker master among them, then
    has it as its only master, whatever it had been told before. *)
Theorem challenge_repelled now h l m : n_Role (b_node h) = RoleMaster → elector_ok h → keyed (b_node h) →
  n_messageChan (b_node h) = [] → NoDup (peer_addresses h) →
  (∃ p, n_peers (b_node h) !! id_of l = Some p ∧ ni_Priority p < n_Priority (b_node h) ∧ ni_Priority p ≠ -1) →
  mwt_Message m = coordinator_msg l →
  ∃ o, receive now m h = (o, Ret ((), heard m h)) ∧ n_Role (b_node (heard m h)) = RoleMaster ∧
    ∀ b ms now', knows h b → sent_to_node b o ms → ∃ o' b', for_each ms (receive now') b = (o', Ret ((), b')) ∧ follows (heard m h) b'.
Proof.
  intros Hr He Hk Hi Hnd (p & Hp & Hlt & Hne) Hm. exists (sends (GetPeers (b_node h)) (coordinator_msg h)). split_and!; [|done|].
  - rewrite (receive_run now m h); [|by rewrite Hm; split_and!; vm_compute|done]. rewrite Hm. set (h1 := heard m h).
    change (processMessage now (coordinator_msg l) h1) with (handleCoordinator (coordinator_msg l) h1).
    unfold handleCoordinator. rewrite (bind_silent get _ h1 h1 h1) by done. cbv zeta. cbn [msg_From coordinator_msg].
    change (nc_ID (b_node l)) with (id_of l). change (nc_Peers (b_node h1)) with (GetPeers (b_node h)).
    rewrite (sender_known _ p) by done. change (nc_Priority (b_node h1)) with (n_Priority (b_node h)).
    rewrite (proj2 (Z.eqb_neq _ _) Hne), (proj2 (Z.ltb_lt _ _) Hlt). cbn [negb andb].
    change (nc_Role (b_node h1)) with (n_Role (b_node h)). rewrite Hr. rewrite String.eqb_refl. unfold node_do, zoom. rewrite nc_Broadcast_run. unfold h1. by destruct h as [[]].
  - intros b ms now' Hb Hms. destruct (all_follow h _ Hnd (λ _ _, eq_refl) b ms now' Hb Hms) as (o' & b' & E' & Hf).
    exists o', b'. split; [done|]. by destruct Hf.
Qed.

(** C11: a node that starts an election although one of its peers is stronger,
    and this one has no stronger peer itself, ends up following it. That node,
    which is no master, in no election and has nothing else to read, is asked,
    answers with an OK and starts an election of its own; this makes it the
    master, its timer being the next thing to wake it; and the first node, when
    it has read the OK and the announcement, has given its election up and
    follows it. *)
Theorem candidate_yields_to_strongest now l h :
  elector_ok l → electionInProgress l = false → NoDup (peer_addresses l) → knows h l → machine_info (GetNodeInfo now (b_node l)) →
  address_of h ∈ (λ p, (ni_IP p, ni_Port p)) <$> higher_peers l → n_Priority (b_node l) < n_Priority (b_node h) → id_of h ≠ id_of l →
  elector_ok h → electionInProgress h = false → higher_peers h = [] → NoDup (peer_addresses h) → n_messageChan (b_node h) = [] →
  n_Role (b_node h) ≠ RoleMaster →
  ∃ o1 l1, StartElection now l = (o1, Ret ((), l1)) ∧
  ∀ ms, sent_to_node h o1 ms → ∀ t, ∃ o2 h1, for_each ms (receive t) h = (o2, Ret ((), h1)) ∧
  ∀ t1 t2, let k := length (b_tasks h) in ∃ o3 h2,
    run_events [EvResume t1 k Received; EvResume t2 k TimedOut] h1 = (o3, Ret ((), h2)) ∧ n_Role (b_node h2) = RoleMaster ∧
  ∀ ms', sent_to_node l (o2 ++ o3) ms' → ∃ ok coord l2, ms' = [ok; coord] ∧ receive t ok l1 = ([], Ret ((), l2)) ∧
    ∀ t3 t4, let k := length (b_tasks l) in ∃ l3 o4 l4,
      run_events [EvResume t3 (S k) Received; EvResume t4 k Received] l2 = ([], Ret ((), l3)) ∧ b_tasks l3 = b_tasks l ∧
      receive t4 coord l3 = (o4, Ret ((), l4)) ∧ follows h2 l4.
Proof.
  intros Hl Hlp Hlnd Hkn [Hi1 Hi2] Hreach Hlt Hid Hh Hhp Hhh Hhnd Hhi Hhr.
  assert (higher_peers l ≠ []) as Hhigher by (intros E; rewrite E in Hreach; by apply elem_of_nil in Hreach).
  destruct (candidate_run now l Hl Hlp Hhigher) as (E1 & Hok1 & Hc1 & Hnew1). set (c := length (b_chans l)) in *. set (l1 := waiting_for_OK l) in *.
  exists (sends (higher_peers l) (election_msg now l)), l1. split; [exact E1|]. intros ms Hms t. unfold sent_to_node in Hms.
  rewrite mail_sends in Hms; [|eapply sublist_NoDup_fmap; [apply sublist_filter|exact Hlnd]|by destruct (address_of h)].
  destruct ms as [|m [|? ?]]; try done. injection Hms as Hm. set (h0 := heard m h).
  pose proof (asked_run t h m (GetNodeInfo now (b_node l)) Hhi Hhr Hhp) as Ea. rewrite Hm in Ea.
  specialize (Ea eq_refl). cbn [msg_Payload election_msg] in Ea. unfold Unmarshal_ok in Ea at 1.
  change (nc_Info now (b_node l)) with (GetNodeInfo now (b_node l)) in Ea. rewrite NodeInfo_json in Ea by done. specialize (Ea eq_refl Hlt).
  set (okm := mkMessage MessageOK (id_of h) uuid_Nil None) in *.
  exists [GoSend (n_AdvertiseIP (b_node l)) (n_Port (b_node l)) okm], (set_tasks (b_tasks h0 ++ [Starting]) h0). split.
  { cbn [for_each]. exact (bind_run _ _ h _ () _ [] _ Ea eq_refl). }
  intros t1 t2 k. destruct (takes_over t1 t2 h0 Hh Hhp Hhh) as (o3 & h2 & Eh & ER & Ho & _).
  destruct (SetRole_keeps RoleMaster (b_node h0)) as (o1 & n1 & E1' & Hr & Hid2 & _). rewrite E1' in ER. injection ER as _ ->.
  exists o3, h2. split_and!; [|done|].
  { exact (eq_trans (resumed_start t1 t2 h0) Eh). }
  intros ms' Hms'. unfold sent_to_node in Hms'. rewrite mail_app, Ho in Hms'. change (GetPeers (b_node h0)) with (GetPeers (b_node h)) in Hms'.
  rewrite mail_sends in Hms'; [|exact Hhnd|exact (kn_reached _ _ Hkn)]. unfold mail in Hms'. cbn [omap list_omap address_of fst snd] in Hms'.
  rewrite decide_True in Hms' by done. destruct ms' as [|mo [|mc [|? ?]]]; try done. injection Hms' as Hmo Hmc.
  pose proof Hkn as [_ Hkeyed Hpeer Hweak Hidle Hr'].
  pose proof (OK_run t l1 c mo (id_of h) Hidle Hc1 Hid Hmo) as Eo. set (l2 := set_tasks _ _) in Eo.
  exists mo, mc, l2. split_and!; [done|exact Eo|]. intros t3 t4 k'.
  destruct (candidate_gives_up t3 t4 l2 c (b_tasks l)) as (l3 & Eg & Hn3 & _ & Ht3 & Hok3); [exact Hok1|exact Hc1|exact Hnew1|reflexivity|].
  assert (knows h0 l3) as Hkn3.
  { split; [exact Hok3|..]; unfold keyed, id_of, address_of; rewrite ?Hn3; done. }
  destruct (reads_coordinator t4 h0 l3 mc Hkn3 Hmc) as (o4 & l4 & Ec & Hf). exists l3, o4, l4. split_and!; [exact Eg|done|exact Ec|].
  destruct Hf. split; try done; unfold id_of in *; by rewrite Hid2.
Qed.

(** A master that has to step down gets no files afterwards: the new master
    goes on taking it for a master, because the change of its own role does not
    touch its table of peers, and puts only storage nodes on its ring. *)
Theorem demoted_master_gets_no_files now t h b p : elector_ok h → electionInProgress h = false → higher_peers h = [] →
  NoDup (peer_addresses h) → knows h b → keyed (b_node h) → n_Role (b_node h) ≠ RoleMaster →
  n_peers (b_node h) !! id_of b = Some p → ni_Role p = RoleMaster →
  ∃ o h' ring, run_events [EvStart now; EvResume t (length (b_tasks h)) TimedOut] h = (o, Ret ((), h')) ∧
    n_Role (b_node h') = RoleMaster ∧ n_peers (b_node h') !! id_of b = Some p ∧ ma_hashRing (n_master (b_node h')) = Some ring ∧
    (∀ f k, id_of b ∉ ni_ID <$> FindNodesForFile f k ring) ∧
    ∀ ms now', sent_to_node b o ms → ∃ o' b', for_each ms (receive now') b = (o', Ret ((), b')) ∧ n_Role (b_node b') ≠ RoleMaster.
Proof.
  intros He Hp Hh Hnd Hb Hk Hr Hpeer Hrole. destruct (takes_over now t h He Hp Hh) as (o & h' & E & ER & Ho & _).
  rewrite SetRole_run, !decide_True in ER by done. injection ER as _ Eh. exists o, h', (ring_of_peers (b_node h)). rewrite <-Eh. split_and!; [done..| |].
  - intros f k Hin. apply (found_on_ring _ _ _ _ (ring_of_peers_ok _)) in Hin. apply elem_of_dom in Hin.
    rewrite dom_ring_of_peers, elem_of_list_to_set in Hin. apply list_elem_of_fmap in Hin as (q & Hq & Hin).
    apply list_elem_of_filter in Hin as [Hs Hin]. apply list_elem_of_fmap in Hin as ([i q'] & -> & Hin).
    apply elem_of_go_range in Hin. simpl in *. rewrite (Hk _ _ Hin) in Hq. subst i. rewrite Hpeer in Hin. injection Hin as ->.
    rewrite Hrole in Hs. done.
  - intros ms now' Hms. destruct (all_follow h o Hnd Ho b ms now' Hb Hms) as (o' & b' & E' & Hf). exists o', b'. split; [done|]. by destruct Hf.
Qed.

(** The priority -1 stands for a sender that is no peer: the announcement of a
    peer that has this priority is accepted by every master. *)
Theorem priority_minus_one_wins now h l m p : n_Role (b_node h) = RoleMaster → elector_ok h → keyed (b_node h) →
  n_messageChan (b_node h) = [] → n_peers (b_node h) !! id_of l = Some p → ni_Priority p = -1 →
  mwt_Message m = coordinator_msg l →
  ∃ o h', receive now m h = (o, Ret ((), h')) ∧ n_Role (b_node h') ≠ RoleMaster.
Proof.
  intros Hr He Hk Hi Hp Hprio Hm. rewrite (receive_run now m h); [|by rewrite Hm; split_and!; vm_compute|done]. rewrite Hm.
  set (h1 := heard m h). change (processMessage now (coordinator_msg l) h1) with (handleCoordinator (coordinator_msg l) h1).
  destruct (handleCoordinator_accept (coordinator_msg l) h1 He) as (cs & -> & _).
  { cbn [msg_From coordinator_msg]. change (nc_ID (b_node l)) with (id_of l). change (nc_Peers (b_node h1)) with (GetPeers (b_node h)).
    rewrite (sender_known _ p) by done. by rewrite Hprio. }
  destruct (accept_run (id_of l) p (set_chans cs (set_inProgress false h1)) Hk Hp) as (o & h' & E & Hrole & _).
  exists o, h'. by split.
Qed.
End properties.

(** ** Examples: a strong node and a weak one, each with the other as peer *)

#[local] Existing Instance decimal_uuids.
#[local] Existing Instance decimal_times.
#[local] Existing Instance canonical_range.

Definition member_info (id : uuid) (ip : string) (role : NodeRole) (prio : Z) : NodeInfo :=
  mkNodeInfo id ip 8000 role StatusOnline prio 0.

Definition member (id : uuid) (ip : string) (role : NodeRole) (prio : Z) (peer : NodeInfo) : FullNode :=
  NewBullyElector (mkNode id "0.0.0.0" ip 8000 prio role StatusOnline {[ ni_ID peer := peer ]} 0 (mkLocks ∅ ∅ ∅ ∅)
    (mkMaster None None false None ∅)
    (StreamServer.mkStreamServer ∅ (NewLocalStorage "./data" (mkDisk ∅ ∅ [])) true) []).

Definition strong (role : NodeRole) : FullNode := member 1 "10.0.0.1" role 10 (member_info 2 "10.0.0.2" RoleMaster 5).
Definition weak : FullNode := member 2 "10.0.0.2" RoleMaster 5 (member_info 1 "10.0.0.1" RoleStorage 10).

Lemma member_keyed id ip role prio peer : keyed (b_node (member id ip role prio peer)).
Proof. intros i p. cbn. intros Hp. by apply lookup_singleton_Some in Hp as [<- <-]. Qed.

Lemma strong_known role : knows (strong role) weak.
Proof.
  split.
  - apply new_elector_ok.
  - apply member_keyed.
  - eexists. split; [apply lookup_singleton_eq|reflexivity].
  - vm_compute. discriminate.
  - reflexivity.
  - vm_compute. by left.
Qed.

Lemma strong_addresses role : NoDup (peer_addresses (strong role)).
Proof. apply NoDup_singleton. Qed.

Lemma strong_highest role : higher_peers (strong role) = [].
Proof. vm_compute. reflexivity. Qed.

Definition stamped (b : FullNode) : MessageWithTime := mkMessageWithTime (coordinator_msg b) 3.

Lemma election_agreed_witness : ∃ o h' o' b', run_events [EvStart 0; EvResume 1 0 TimedOut] (strong RoleStorage) = (o, Ret ((), h')) ∧
  for_each [stamped (strong RoleStorage)] (receive 2) weak = (o', Ret ((), b')) ∧
  n_Role (b_node weak) = RoleMaster ∧ n_Role (b_node b') ≠ RoleMaster ∧ follows h' b'.
Proof.
  destruct (election_agreed 0 1 (strong RoleStorage) (new_elector_ok _) eq_refl (strong_highest _) (strong_addresses _))
    as (o & h' & E & _ & _ & _ & Hall).
  assert (run_events [EvStart 0; EvResume 1 0 TimedOut] (strong RoleStorage) =
    ([GoSend "10.0.0.2" 8000 (coordinator_msg (strong RoleStorage)); GoSyncMetadata],
     (run_events [EvStart 0; EvResume 1 0 TimedOut] (strong RoleStorage)).2)) as Eo by (vm_compute; reflexivity).
  pose proof (f_equal fst (eq_trans (eq_sym E) Eo)) as Hfst. cbn [fst] in Hfst. subst o.
  destruct (Hall weak [stamped (strong RoleStorage)] 2 (strong_known _)) as (o' & b' & E' & Hf); [vm_compute; reflexivity|].
  exists [GoSend "10.0.0.2" 8000 (coordinator_msg (strong RoleStorage)); GoSyncMetadata], h', o', b'.
  split; [exact E|]. split; [exact E'|]. split; [reflexivity|]. split; [exact (fo_role _ _ Hf)|exact Hf].
Defined.

Lemma challenge_repelled_witness : ∃ o o' b', receive 2 (stamped weak) (strong RoleMaster) = (o, Ret ((), heard (stamped weak) (strong RoleMaster))) ∧
  for_each [stamped (strong RoleMaster)] (receive 3) weak = (o', Ret ((), b')) ∧ n_Role (b_node b') ≠ RoleMaster.
Proof.
  destruct (challenge_repelled 2 (strong RoleMaster) weak (stamped weak) eq_refl (new_elector_ok _) (member_keyed _ _ _ _ _) eq_refl
    (strong_addresses _)) as (o & E & _ & Hall).
  - exists (member_info 2 "10.0.0.2" RoleMaster 5). split_and!; [apply lookup_singleton_eq|reflexivity|discriminate].
  - reflexivity.
  - assert (receive 2 (stamped weak) (strong RoleMaster) =
      ([GoSend "10.0.0.2" 8000 (coordinator_msg (strong RoleMaster))], (receive 2 (stamped weak) (strong RoleMaster)).2)) as Eo
      by (vm_compute; reflexivity).
    pose proof (f_equal fst (eq_trans (eq_sym E) Eo)) as Hfst. cbn [fst] in Hfst. subst o.
    destruct (Hall weak [stamped (strong RoleMaster)] 3 (strong_known _)) as (o' & b' & E' & Hf); [vm_compute; reflexivity|].
    exists [GoSend "10.0.0.2" 8000 (coordinator_msg (strong RoleMaster))], o', b'. split; [exact E|]. split; [exact E'|exact (fo_role _ _ Hf)].
Defined.

Lemma demoted_master_gets_no_files_witness : ∃ o h' ring,
  run_events [EvStart 0; EvResume 1 0 TimedOut] (strong RoleStorage) = (o, Ret ((), h')) ∧
  ma_hashRing (n_master (b_node h')) = Some ring ∧ ∀ f k, 2%N ∉ ni_ID <$> FindNodesForFile f k ring.
Proof.
  destruct (demoted_master_gets_no_files 0 1 (strong RoleStorage) weak (member_info 2 "10.0.0.2" RoleMaster 5) (new_elector_ok _) eq_refl
    (strong_highest _) (strong_addresses _) (strong_known _) (member_keyed _ _ _ _ _)) as (o & h' & ring & E & _ & _ & Hr & Hf & _).
  - vm_compute. discriminate.
  - apply lookup_singleton_eq.
  - reflexivity.
  - exists o, h', ring. split; [exact E|]. split; [exact Hr|exact Hf].
Defined.

Definition minus_one : FullNode := member 1 "10.0.0.1" RoleMaster 10 (member_info 2 "10.0.0.2" RoleStorage (-1)).

Lemma priority_minus_one_wins_witness : ∃ o h', receive 0 (stamped weak) minus_one = (o, Ret ((), h')) ∧ n_Role (b_node h') ≠ RoleMaster.
Proof.
  apply (priority_minus_one_wins 0 minus_one weak (stamped weak) (member_info 2 "10.0.0.2" RoleStorage (-1)) eq_refl (new_elector_ok _)
    (member_keyed _ _ _ _ _) eq_refl (lookup_singleton_eq _ _) eq_refl eq_refl).
Defined.

Definition candidate : FullNode := member 2 "10.0.0.2" RoleStorage 5 (member_info 1 "10.0.0.1" RoleStorage 10).

Lemma candidate_knows_strong : knows (strong RoleStorage) candidate.
Proof.
  split.
  - apply new_elector_ok.
  - apply member_keyed.
  - eexists. split; [apply lookup_singleton_eq|reflexivity].
  - vm_compute. discriminate.
  - reflexivity.
  - vm_compute. by left.
Qed.

Lemma candidate_info : machine_info (GetNodeInfo 0 (b_node candidate)).
Proof. split; apply (bool_decide_unpack _); vm_compute; exact I. Qed.

Lemma candidate_addresses : NoDup (peer_addresses candidate).
Proof. apply NoDup_singleton. Qed.

(** What the two nodes send in this election. *)
Definition asking : MessageWithTime := mkMessageWithTime (election_msg 0 candidate) 3.
Definition OK_answer : MessageWithTime := mkMessageWithTime (mkMessage MessageOK 1 uuid_Nil None) 5.
Definition announcement : MessageWithTime := mkMessageWithTime (coordinator_msg (strong RoleStorage)) 6.

Lemma answer_sent o o' h : for_each [asking] (receive 1) (strong RoleStorage) = (o, Ret ((), h)) →
  (run_events [EvResume 2 0 Received; EvResume 3 0 TimedOut] h).1 = o' →
  sent_to_node candidate (o ++ o') [OK_answer; announcement].
Proof.
  intros E <-. pose (state r := match r with Ret ((), s) => s | _ => strong RoleStorage end : FullNode).
  assert (h = state (for_each [asking] (receive 1) (strong RoleStorage)).2) as -> by (by rewrite E).
  rewrite (f_equal fst (eq_sym E) : o = (for_each [asking] (receive 1) (strong RoleStorage)).1). clear E.
  unfold sent_to_node, state. vm_compute. reflexivity.
Qed.

Lemma candidate_yields_to_strongest_witness : ∃ l1 l2 l3 l4 h2 o4,
  receive 1 OK_answer l1 = ([], Ret ((), l2)) ∧
  run_events [EvResume 4 1 Received; EvResume 5 0 Received] l2 = ([], Ret ((), l3)) ∧
  receive 5 announcement l3 = (o4, Ret ((), l4)) ∧ n_Role (b_node h2) = RoleMaster ∧ follows h2 l4.
Proof.
  destruct (candidate_yields_to_strongest 0 candidate (strong RoleStorage) (new_elector_ok _) eq_refl candidate_addresses
    candidate_knows_strong candidate_info) as (o1 & l1 & E & Hall).
  - vm_compute. by left.
  - reflexivity.
  - discriminate.
  - apply new_elector_ok.
  - reflexivity.
  - apply strong_highest.
  - apply strong_addresses.
  - reflexivity.
  - discriminate.
  - assert (o1 = (StartElection 0 candidate).1) as -> by (rewrite E; reflexivity).
    destruct (Hall [asking]) with (t := 1) as (o2 & h1 & E2 & Hrest); [vm_compute; reflexivity|].
    destruct (Hrest 2 3) as (o3 & h2 & E3 & Hr & Hlast).
    destruct (Hlast [OK_answer; announcement]) as (ok & coord & l2 & [= <- <-] & Ea & Hgive).
    { apply (answer_sent _ _ h1 E2). cbn [b_tasks strong member NewBullyElector length] in E3. rewrite E3. reflexivity. }
    destruct (Hgive 4 5) as (l3 & o4 & l4 & Eg & _ & Ec & Hf). exists l1, l2, l3, l4, h2, o4.
    split; [exact Ea|]. split; [exact Eg|]. split; [exact Ec|]. split; [exact Hr|exact Hf].
Defined.

(** A candidate that waits for the announcement of a stronger node and reads it
    at the moment its timer fires: the [select] of [becomeLeader] may take
    either. With the timer the node becomes a master, although it has accepted
    the stronger one, and tells nobody. *)
Theorem late_timer_usurps : let evs := [EvStart 0; EvResume 1 0 TimedOut; EvMessage (coordinator_msg (strong RoleStorage))] in
  (∃ o b, run_events (evs ++ [EvResume 2 0 Received]) candidate = (o, Ret ((), b)) ∧ follows (strong RoleMaster) b) ∧
  ∃ o o' b, run_events evs candidate = (o, Ret ((), b)) ∧ n_Role (b_node b) = RoleStorage ∧
    ni_Role <$> n_peers (b_node b) !! 1%N = Some RoleMaster ∧
    run_events (evs ++ [EvResume 2 0 TimedOut]) candidate = (o ++ o', (run_events (evs ++ [EvResume 2 0 TimedOut]) candidate).2) ∧
    o' = [GoSyncMetadata] ∧
    match run_events (evs ++ [EvResume 2 0 TimedOut]) candidate with
    | (_, Ret (_, b')) => n_Role (b_node b') = RoleMaster ∧ ni_Role <$> n_peers (b_node b') !! 1%N = Some RoleMaster
    | _ => False
    end.
Proof.
  cbv zeta. split.
  - pose (b := match run_events ([EvStart 0; EvResume 1 0 TimedOut; EvMessage (coordinator_msg (strong RoleStorage))] ++ [EvResume 2 0 Received]) candidate
               with (_, Ret (_, b)) => b | _ => candidate end).
    eexists _, b. split; [vm_compute; reflexivity|]. split.
    + vm_compute. discriminate.
    + vm_compute. reflexivity.
    + eexists. split; vm_compute; reflexivity.
    + assert (n_peers (b_node b) = {[ 1%N := member_info 1 "10.0.0.1" RoleMaster 10 ]}) as -> by (vm_compute; reflexivity).
      by intros id p [<- _]%lookup_singleton_Some.
  - do 3 eexists. split; [vm_compute; reflexivity|]. split; [vm_compute; reflexivity|]. split; [vm_compute; reflexivity|].
    split; [|split; [reflexivity|vm_compute; split; reflexivity]]. vm_compute. reflexivity.
Qed.
