(* ===== verification/Lifecycle.v ===== *)
(** * The life of a node: its goroutines, and how they are stopped

    [Start], [Stop] and the loops of [backend/dfs/node/node.go], the listener
    of [backend/dfs/streaming/stream.go] and the monitor of
    [backend/dfs/election/bully.go]. The process of a node is a state on which
    the goroutines take steps in any order; what a step does to the node is
    what the other files say. Between two statements of a loop that other
    goroutines can interfere with, the loop has a state of its own. *)

From S2P Require Import Prelude GoStd Types Json Session Fs LocalStorage Protocol StreamServer NodeState NodeLocks NodeFiles Bully Node Client Transfer EndToEnd.

(** Where a goroutine [acceptConnections] is: at its [select], about to call
    [Accept], blocked in it, with an error, or with a connection. *)
Inductive Acceptor := AtSelect | AtAccept | InAccept | AcceptFailed | Accepted | Returned.

(** What happens to it: it goes on, a connection comes in, or [Accept] fails. *)
Inductive AcceptEvent := Proceed | Incoming | Failing.

(** The loops that [Start] starts besides. *)
Inductive Loop := Messages | Heartbeats | Peers | LockTimeouts | Deadlocks | Leader | Cleanup.

(** The statements of [Stop]: which one comes next. *)
Inductive StopPc :=
| StopIdle                         (* not called *)
| CloseStopChan
| CloseStreamStopChan
| CloseStreamListener
| WaitForStreams
| CloseListener
| ClearListener
| MarkOffline
| Stopped.

(** The channels and listeners of a node: a listener is there ([net.Listener]
    is not nil) and open. *)
Record Shutdown := mkShutdown {
  sd_pc : StopPc;
  sd_stopChan : bool;
  sd_streamStopChan : bool;
  sd_streamOpen : bool;
  sd_open : bool;
  sd_nil : bool }.

(** A node that runs: whether its context has ended; the goroutines that serve
    connections and, counted by [wg] too, streams. *)
Record Process := mkProcess {
  pr_node : FullNode;
  pr_done : bool;
  pr_down : Shutdown;
  pr_acceptor : Acceptor;
  pr_conns : nat;
  pr_streamAcceptor : Acceptor;
  pr_streams : nat;
  pr_wg : nat;
  pr_loops : Loop → bool }.

Definition set_pr_node (b : FullNode) (p : Process) : Process :=
  mkProcess b (pr_done p) (pr_down p) (pr_acceptor p) (pr_conns p) (pr_streamAcceptor p) (pr_streams p) (pr_wg p) (pr_loops p).
Definition set_done (p : Process) : Process :=
  mkProcess (pr_node p) true (pr_down p) (pr_acceptor p) (pr_conns p) (pr_streamAcceptor p) (pr_streams p) (pr_wg p) (pr_loops p).
Definition set_down (d : Shutdown) (p : Process) : Process :=
  mkProcess (pr_node p) (pr_done p) d (pr_acceptor p) (pr_conns p) (pr_streamAcceptor p) (pr_streams p) (pr_wg p) (pr_loops p).
Definition set_acceptor (a : Acceptor) (conns : nat) (p : Process) : Process :=
  mkProcess (pr_node p) (pr_done p) (pr_down p) a conns (pr_streamAcceptor p) (pr_streams p) (pr_wg p) (pr_loops p).
Definition set_streams (a : Acceptor) (streams wg : nat) (p : Process) : Process :=
  mkProcess (pr_node p) (pr_done p) (pr_down p) (pr_acceptor p) (pr_conns p) a streams wg (pr_loops p).
Definition set_loops (f : Loop → bool) (p : Process) : Process :=
  mkProcess (pr_node p) (pr_done p) (pr_down p) (pr_acceptor p) (pr_conns p) (pr_streamAcceptor p) (pr_streams p) (pr_wg p) f.

#[export] Instance Loop_eq_dec : EqDecision Loop.
Proof. solve_decision. Defined.
#[export] Instance StopPc_eq_dec : EqDecision StopPc.
Proof. solve_decision. Defined.
#[export] Instance Acceptor_eq_dec : EqDecision Acceptor.
Proof. solve_decision. Defined.

(** The next state of [acceptConnections], unless it blocks: [told] to stop by
    its context or channel, [stopped] by the channel. *)
Definition accept_step (told stopped nil open : bool) (a : Acceptor) (ev : AcceptEvent) : option (Res Acceptor) :=
  match a, ev with
  | AtSelect, Proceed => Some (Ret (if told then Returned else AtAccept))
  | AtAccept, Proceed => Some (if nil then Panic "invalid memory address or nil pointer dereference" else Ret InAccept)
  | InAccept, Incoming => if open then Some (Ret Accepted) else None
  | InAccept, Proceed => if open then None else Some (Ret AcceptFailed)
  | InAccept, Failing => Some (Ret AcceptFailed)
  | AcceptFailed, Proceed => Some (Ret (if stopped then Returned else AtSelect))
  | Accepted, Proceed => Some (Ret AtSelect)
  | _, _ => None
  end.

(** What wakes a loop; the monitor of the elector has two. *)
Inductive Round := OnMessage | OnHeartbeat | OnPeers | OnLocks | OnDeadlocks | OnNotified | OnLeader | OnCleanup.

Definition loop_of (r : Round) : Loop :=
  match r with
  | OnMessage => Messages
  | OnHeartbeat => Heartbeats
  | OnPeers => Peers
  | OnLocks => LockTimeouts
  | OnDeadlocks => Deadlocks
  | OnNotified | OnLeader => Leader
  | OnCleanup => Cleanup
  end.

Inductive PEvent :=
| PAccept (ev : AcceptEvent)
| PStreamAccept (ev : AcceptEvent)
| PConnection (now : Z) (newSession newReply : uuid) (received : option MessageWithTime)
| PStream (w : World) (nanos now : Z) (req : list byte) (fails : bool) (budget : option nat)
| PRound (r : Round) (now : Z)
| PReturn (l : Loop)
| PElection (now : Z) (i : nat) (w : Wakeup)
| PCancel
| PStop.

Section process.
Context `{UuidText} `{TimeText} `{MapRange} `{ErrnoText}.

Abbreviation PM := (GoM Process NAct).

Definition on_full {A} (m : FullM A) : PM A := zoom pr_node set_pr_node m.

(** One round of a loop. *)
Definition round (r : Round) (now : Z) : FullM () :=
  match r with
  | OnMessage => handleMessages now
  | OnHeartbeat => on_node (sendHeartbeat now)
  | OnPeers => checkPeersHealth now
  | OnLocks => on_node (checkLocksTimeouts now)
  | OnDeadlocks => on_node checkDeadlocks
  | OnNotified => monitor_notified now
  | OnLeader => monitor_tick now
  | OnCleanup => on_node (modify (λ n, set_streamServer (with_sessions (CleanupExpired now) (n_streamServer n)) n))
  end.

(** A loop can take a round while it runs; a message or a notification has to
    be there. *)
Definition awake (r : Round) (p : Process) : bool :=
  pr_loops p (loop_of r) &&
  match r with
  | OnMessage => negb (bool_decide (n_messageChan (b_node (pr_node p)) = []))
  | OnNotified => bool_decide (is_Some (coordinatorDeadChan (pr_node p)))
  | _ => true
  end.

(** What tells a loop to return. The monitor of the elector was started with the
    node; nothing calls the [Stop] of the elector. *)
Definition told_loop (l : Loop) (p : Process) : bool :=
  match l with
  | Cleanup => sd_streamStopChan (pr_down p)
  | Leader => monitor_told (pr_done p) (elector_Start new_monitor)
  | _ => pr_done p || sd_stopChan (pr_down p)
  end.

Definition stop_loop (l : Loop) (p : Process) : Process :=
  set_loops (λ k, if decide (k = l) then false else pr_loops p k) p.

(** A goroutine of the stream server: the whole connection. *)
Definition serve_stream (w : World) (nanos now : Z) (req : list byte) (fails : bool) (budget : option nat) : NodeM () := λ n,
  match StreamServer.handleConnection w nanos now (mkExchange (n_streamServer n) req fails budget) with
  | (o, Ret (_, e)) =>
    for_each (completions o) (λ '(sid, fid, h), onStreamUploadComplete sid fid h) (set_streamServer (ex_server e) n)
  | (_, Panic why) => ([], Panic why)
  end.

Definition set_pc (pc : StopPc) (d : Shutdown) : Shutdown :=
  mkShutdown pc (sd_stopChan d) (sd_streamStopChan d) (sd_streamOpen d) (sd_open d) (sd_nil d).

Definition node_status (st : NodeStatus) (p : Process) : Process :=
  set_pr_node (set_node (set_Status st (b_node (pr_node p))) (pr_node p)) p.

(** The next statement of the stream server's [Stop]; [wg.Wait] blocks. *)
Definition stream_stop_step (p : Process) : option Process :=
  let d := pr_down p in
  match sd_pc d with
  | CloseStreamStopChan =>
    Some (set_down (mkShutdown CloseStreamListener (sd_stopChan d) true (sd_streamOpen d) (sd_open d) (sd_nil d)) p)
  | CloseStreamListener =>
    Some (set_down (mkShutdown WaitForStreams (sd_stopChan d) (sd_streamStopChan d) false (sd_open d) (sd_nil d)) p)
  | WaitForStreams => if decide (pr_wg p = 0%nat) then Some (set_down (set_pc CloseListener d) p) else None
  | _ => None
  end.

(** The next statement of the node's [Stop], which calls that of the stream
    server. *)
Definition stop_step (p : Process) : option Process :=
  let d := pr_down p in
  match sd_pc d with
  | StopIdle => Some (node_status StatusStopping (set_down (set_pc CloseStopChan d) p))
  | CloseStopChan =>
    Some (set_down (mkShutdown CloseStreamStopChan true (sd_streamStopChan d) (sd_streamOpen d) (sd_open d) (sd_nil d)) p)
  | CloseStreamStopChan | CloseStreamListener | WaitForStreams => stream_stop_step p
  | CloseListener =>
    if sd_nil d then Some (set_down (set_pc MarkOffline d) p)
    else Some (set_down (mkShutdown ClearListener (sd_stopChan d) (sd_streamStopChan d) (sd_streamOpen d) false (sd_nil d)) p)
  | ClearListener =>
    Some (set_down (mkShutdown MarkOffline (sd_stopChan d) (sd_streamStopChan d) (sd_streamOpen d) (sd_open d) true) p)
  | MarkOffline => Some (node_status StatusOffline (set_down (set_pc Stopped d) p))
  | Stopped => None
  end.

(** A step: what the process does outwards, and its next state or a panic,
    which ends it. A step that is not possible is [None]. *)
Definition perform (ev : PEvent) (p : Process) : option (list NAct * Res (() * Process)) :=
  let d := pr_down p in
  match ev with
  | PAccept e =>
    match accept_step (pr_done p || sd_stopChan d) (sd_stopChan d) (sd_nil d) (sd_open d) (pr_acceptor p) e with
    | None => None
    | Some (Panic why) => Some ([], Panic why)
    | Some (Ret a) =>
      let conns := if decide (pr_acceptor p = Accepted) then S (pr_conns p) else pr_conns p in
      Some ([], Ret ((), set_acceptor a conns p))
    end
  | PStreamAccept e =>
    match accept_step (pr_done p || sd_streamStopChan d) (sd_streamStopChan d) false (sd_streamOpen d) (pr_streamAcceptor p) e with
    | None => None
    | Some (Panic why) => Some ([], Panic why)
    | Some (Ret a) =>
      let '(streams, wg) := if decide (pr_streamAcceptor p = Accepted) then (S (pr_streams p), S (pr_wg p))
                            else (pr_streams p, pr_wg p) in
      Some ([], Ret ((), set_streams a streams wg p))
    end
  | PConnection now newSession newReply received =>
    match pr_conns p with
    | O => None
    | S conns => Some ((_ ← on_full (Node.handleConnection now newSession newReply received);
                        modify (λ p, set_acceptor (pr_acceptor p) conns p)) p)
    end
  | PStream w nanos now req fails budget =>
    match pr_streams p with
    | O => None
    | S streams => Some ((_ ← on_full (on_node (serve_stream w nanos now req fails budget));
                          modify (λ p, set_streams (pr_streamAcceptor p) streams (pred (pr_wg p)) p)) p)
    end
  | PRound r now => if awake r p then Some (on_full (round r now) p) else None
  | PReturn l => if pr_loops p l && told_loop l p then Some ([], Ret ((), stop_loop l p)) else None
  | PElection now i w =>
    match b_tasks (pr_node p) !! i with
    | None => None
    | Some t =>
      if resumable t w (pr_node p) && (match w with CtxDone => pr_done p | _ => true end)
      then Some (on_full (run_event (EvResume now i w)) p) else None
    end
  | PCancel => if pr_done p then None else Some ([], Ret ((), set_done p))
  | PStop => (λ p, ([], Ret ((), p))) <$> stop_step p
  end.

(** A run: the steps in order; it ends early with a panic. *)
Fixpoint run (evs : list PEvent) (p : Process) : option (list NAct * Res (() * Process)) :=
  match evs with
  | [] => Some ([], Ret ((), p))
  | ev :: evs' =>
    match perform ev p with
    | None => None
    | Some (o, Panic why) => Some (o, Panic why)
    | Some (o, Ret (_, p')) => (λ r, (o ++ r.1, r.2)) <$> run evs' p'
    end
  end.

(** The [Start] of the stream server, when its listener could be opened. *)
Definition stream_Start (p : Process) : Process :=
  let d := pr_down p in
  set_streams AtSelect (pr_streams p) (pr_wg p)
    (set_loops (λ l, bool_decide (l = Cleanup) || pr_loops p l)
       (set_down (mkShutdown (sd_pc d) (sd_stopChan d) (sd_streamStopChan d) true (sd_open d) (sd_nil d)) p)).

(** The goroutines that the node's [Start] starts in the end. *)
Definition start_goroutines (p : Process) : Process :=
  set_acceptor AtSelect (pr_conns p) (set_loops (λ l, bool_decide (l ≠ Cleanup) || pr_loops p l) p).

(** The process when [Start] has returned, with what it returned. *)
Definition launch (listen_ok stream_ok : bool) (b : FullNode) : list NAct * Res (bool * Process) :=
  match Start listen_ok stream_ok b with
  | (o, Panic why) => (o, Panic why)
  | (o, Ret (ok, b')) =>
    let down := mkShutdown StopIdle false false false listen_ok (negb listen_ok) in
    let p := mkProcess b' false down Returned 0 Returned 0 0 (λ _, false) in
    (o, Ret (ok, if ok then start_goroutines (stream_Start p) else p))
  end.

(** What a node that was launched can become. *)
Inductive reachable : Process → Prop :=
| reach_launch listen_ok stream_ok b o ok p : launch listen_ok stream_ok b = (o, Ret (ok, p)) → reachable p
| reach_step ev p o p' : reachable p → perform ev p = Some (o, Ret ((), p')) → reachable p'.
End process.

(** ** Helper lemmas *)
Section lemmas.
Context `{UuidText} `{TimeText} `{MapRange} `{ErrnoText}.

Lemma on_full_frame {A} (m : FullM A) p o a p' : on_full m p = (o, Ret (a, p')) → p' = set_pr_node (pr_node p') p.
Proof. unfold on_full, zoom. destruct (m (pr_node p)) as [o1 [[a1 b]|w]]; [|done]. by intros [= _ _ <-]. Qed.

(** A step on the node, and then one on the rest of the process. *)
Lemma on_full_then {A} (m : FullM A) f p o p' :
  (_ ← on_full m; modify f) p = (o, Ret ((), p')) →
  ∃ o1 a b, m (pr_node p) = (o1, Ret (a, b)) ∧ p' = f (set_pr_node b p).
Proof.
  unfold mbind, gom_bind, on_full, zoom. destruct (m (pr_node p)) as [o1 [[a b]|w]] eqn:E; [|done].
  intros [= _ <-]. by exists o1, a, b.
Qed.

(** What a method does to the blocked elections of the elector: it makes them
    at most [k] heavier, if each weighs as much as it can still go on. *)
Definition task_weight (t : Task) : nat :=
  match t with Starting => 5 | WaitOK _ => 3 | WaitCancel _ _ => 2 | SendingOK _ => 1 end.
Definition tasks_weight (b : FullNode) : nat := sum_list_with task_weight (b_tasks b).

Definition adds {A} (k : nat) (m : FullM A) : Prop :=
  ∀ b o a b', m b = (o, Ret (a, b')) → (tasks_weight b' ≤ tasks_weight b + k)%nat.

Lemma adds_bind {A B} k1 k2 (m : FullM A) (f : A → FullM B) : adds k1 m → (∀ a, adds k2 (f a)) → adds (k1 + k2) (m ≫= f).
Proof.
  intros Hm Hf b o a b'. unfold mbind, gom_bind. destruct (m b) as [o1 [[x b1]|w]] eqn:E1; [|done].
  destruct (f x b1) as [o2 [[y b2]|w]] eqn:E2; [|done]. intros [= _ _ <-].
  specialize (Hm _ _ _ _ E1). specialize (Hf _ _ _ _ _ E2). lia.
Qed.

Lemma adds_modify k (f : FullNode → FullNode) : (∀ b, (tasks_weight (f b) ≤ tasks_weight b + k)%nat) → adds k (modify f).
Proof. intros Hf b o a b' [= _ _ <-]. apply Hf. Qed.

Lemma adds_node {A} (m : NodeM A) : adds 0 (node_do m).
Proof.
  intros b o a b'. unfold node_do, zoom. destruct (m (b_node b)) as [o1 [[x n]|w]]; [|done]. intros [= _ _ <-].
  unfold tasks_weight. simpl. lia.
Qed.

Lemma adds_get {A} k (f : FullNode → FullM A) : (∀ b, adds k (f b)) → adds k (get ≫= f).
Proof. intros Hf. apply (adds_bind 0 k); [|exact Hf]. intros b o a b' [= _ _ <-]. lia. Qed.

Lemma adds_skip k : adds k skip.
Proof. intros b o a b' [= _ _ <-]. lia. Qed.

Lemma adds_start t : adds (task_weight t) (start_task (O := NAct) (N := Node) t).
Proof.
  apply adds_modify. intros b. unfold tasks_weight. simpl. rewrite sum_list_with_app. simpl. lia.
Qed.

Lemma adds_connection now newSession newReply received : adds 0 (Node.handleConnection now newSession newReply received).
Proof.
  unfold Node.handleConnection. destruct received as [m|]; [|apply adds_skip].
  apply (adds_bind 0 0); [apply adds_node|]. intros _. unfold dispatch. repeat case_match; apply adds_node.
Qed.

Lemma adds_becomeLeader after_wait : adds 2 (becomeLeader_begin after_wait).
Proof.
  unfold becomeLeader_begin. apply (adds_bind 0 2); [intros b o a b' [= _ _ <-]; unfold tasks_weight; simpl; lia|].
  intros c. apply (adds_bind 0 2); [apply adds_modify; intros b; unfold tasks_weight; simpl; lia|].
  intros _. apply (adds_bind 0 2); [intros b o a b' [= _ _ <-]; lia|]. intros id.
  apply (adds_bind 0 2); [apply adds_node|]. intros _. apply (adds_start (WaitCancel c after_wait)).
Qed.

Lemma adds_StartElection now : adds 3 (Bully.StartElection now).
Proof.
  unfold Bully.StartElection. apply adds_get. intros b0. case_match; [apply adds_skip|].
  apply (adds_bind 0 3); [apply adds_modify; intros b; unfold tasks_weight; simpl; lia|]. intros _.
  apply (adds_bind 0 3); [intros b o a b' [= _ _ <-]; unfold tasks_weight; simpl; lia|]. intros ok.
  apply (adds_bind 0 3).
  { destruct (okChan b0); [|apply adds_skip]. apply adds_get. intros b1. case_match; [intros b o a b' [=]|].
    apply adds_modify. intros b. unfold tasks_weight. simpl. lia. }
  intros _. apply (adds_bind 0 3); [apply adds_modify; intros b; unfold tasks_weight; simpl; lia|]. intros _.
  apply (adds_bind 0 3).
  { intros b o a b'. rewrite for_each_emit. intros [= _ _ <-]. lia. }
  intros _. case_match; [|apply (adds_start (WaitOK ok))].
  intros b o a b' E. apply adds_becomeLeader in E. lia.
Qed.

Lemma adds_clear_okChan : adds 0 (clear_okChan (N := Node) (O := NAct)).
Proof. intros b o a b' [= _ _ <-]. unfold tasks_weight. simpl. lia. Qed.

Lemma adds_resume_StartElection ok w : adds 2 (resume_StartElection (N := Node) ok w).
Proof.
  destruct w; simpl; [|apply adds_becomeLeader|intros b o a b' [= _ _ <-]; unfold tasks_weight; simpl; lia].
  apply (adds_bind 0 2); [intros b o a b' [= _ _ <-]; unfold tasks_weight; simpl; lia|].
  intros _ b o a b' E. apply adds_clear_okChan in E. lia.
Qed.

Lemma adds_resume_becomeLeader c after_wait w : adds 0 (resume_becomeLeader (N := Node) c after_wait w).
Proof.
  apply (adds_bind 0 0).
  { destruct w; [intros b o a b' [= _ _ <-]; unfold tasks_weight; simpl; lia|apply adds_node..]. }
  intros _. apply (adds_bind 0 0); [apply adds_modify; intros b; unfold tasks_weight; simpl; lia|].
  intros _. destruct after_wait; [apply adds_clear_okChan|intros b o a b' [= _ _ <-]; unfold tasks_weight; simpl; lia].
Qed.

Lemma adds_try_send c : adds 0 (try_send (N := Node) (O := NAct) c).
Proof.
  apply adds_get. intros b1. case_match; [intros b o a b' [=]|]. case_match; [apply adds_skip|].
  apply adds_modify. intros b. unfold tasks_weight. simpl. lia.
Qed.

Lemma weight_delete i t l : l !! i = Some t → (sum_list_with task_weight (delete i l) + task_weight t)%nat = sum_list_with task_weight l.
Proof. intros Hi. rewrite (delete_Permutation l i t Hi) at 2. simpl. lia. Qed.

(** An election that goes on gets lighter. *)
Lemma resumed_lighter now i w t (b : FullNode) o b' : b_tasks b !! i = Some t →
  run_event (EvResume now i w) b = (o, Ret ((), b')) → resumable t w b = true → (tasks_weight b' < tasks_weight b)%nat.
Proof.
  intros Ht E Hr. cbn [run_event] in E. rewrite (bind_silent _ _ b b b eq_refl), Ht, Hr in E.
  rewrite (bind_silent _ _ b () (set_tasks (delete i (b_tasks b)) b) eq_refl) in E.
  set (b1 := set_tasks _ b) in E. assert ((tasks_weight b1 + task_weight t)%nat = tasks_weight b) as Hb1
    by (by apply weight_delete).
  destruct t; simpl in Hb1.
  - apply adds_resume_StartElection in E. lia.
  - apply adds_resume_becomeLeader in E. lia.
  - apply adds_try_send in E. lia.
  - apply adds_StartElection in E. lia.
Qed.

(** How a step that is no panic changes the process. *)
Inductive change (p : Process) : PEvent → Process → Prop :=
| ch_accept e a : accept_step (pr_done p || sd_stopChan (pr_down p)) (sd_stopChan (pr_down p)) (sd_nil (pr_down p))
      (sd_open (pr_down p)) (pr_acceptor p) e = Some (Ret a) →
    change p (PAccept e) (set_acceptor a (if decide (pr_acceptor p = Accepted) then S (pr_conns p) else pr_conns p) p)
| ch_stream e a : accept_step (pr_done p || sd_streamStopChan (pr_down p)) (sd_streamStopChan (pr_down p)) false
      (sd_streamOpen (pr_down p)) (pr_streamAcceptor p) e = Some (Ret a) →
    change p (PStreamAccept e) (if decide (pr_streamAcceptor p = Accepted)
      then set_streams a (S (pr_streams p)) (S (pr_wg p)) p else set_streams a (pr_streams p) (pr_wg p) p)
| ch_conn now s r m k b : pr_conns p = S k → (tasks_weight b ≤ tasks_weight (pr_node p))%nat →
    change p (PConnection now s r m) (set_acceptor (pr_acceptor p) k (set_pr_node b p))
| ch_serve w nanos now req fails budget k b : pr_streams p = S k → (tasks_weight b ≤ tasks_weight (pr_node p))%nat →
    change p (PStream w nanos now req fails budget) (set_streams (pr_streamAcceptor p) k (pred (pr_wg p)) (set_pr_node b p))
| ch_round r now b : awake r p = true → change p (PRound r now) (set_pr_node b p)
| ch_return l : pr_loops p l = true → told_loop l p = true → change p (PReturn l) (stop_loop l p)
| ch_election now i w t o b : b_tasks (pr_node p) !! i = Some t → resumable t w (pr_node p) = true →
    run_event (EvResume now i w) (pr_node p) = (o, Ret ((), b)) → change p (PElection now i w) (set_pr_node b p)
| ch_cancel : pr_done p = false → change p PCancel (set_done p)
| ch_stop p' : stop_step p = Some p' → change p PStop p'.

Lemma perform_change ev p o p' : perform ev p = Some (o, Ret ((), p')) → change p ev p'.
Proof.
  destruct ev; cbn [perform].
  - destruct (accept_step _ _ _ _ _ _) as [[a|why]|] eqn:E; [|done..]. intros [= _ <-]. by constructor.
  - destruct (accept_step _ _ _ _ _ _) as [[a|why]|] eqn:E; [|done..]. intros E'.
    pose proof (ch_stream p ev a E) as Hc. case_decide; by injection E' as _ <-.
  - destruct (pr_conns p) as [|k] eqn:E; [done|]. intros [= E']. apply on_full_then in E' as (o1 & a & b & Em & ->).
    apply (ch_conn p _ _ _ _ k b E). apply adds_connection in Em. lia.
  - destruct (pr_streams p) as [|k] eqn:E; [done|]. intros [= E']. apply on_full_then in E' as (o1 & a & b & Em & ->).
    apply (ch_serve p _ _ _ _ _ _ k b E). apply adds_node in Em. lia.
  - destruct (awake r p) eqn:E; [|done]. intros [= E']. rewrite (on_full_frame _ _ _ _ _ E'). by constructor.
  - destruct (pr_loops p l && told_loop l p) eqn:E; [|done]. apply andb_prop in E as [E1 E2]. intros [= _ <-]. by constructor.
  - destruct (b_tasks _ !! i) as [t|] eqn:Et; [|done]. destruct (resumable t w (pr_node p)) eqn:Er; [|done]. cbn [andb].
    destruct (match w with CtxDone => _ | _ => _ end); [|done]. unfold on_full, zoom.
    destruct (run_event (EvResume now i w) (pr_node p)) as [o1 [[[] b]|why]] eqn:E; [|done]. intros [= _ <-].
    by eapply ch_election.
  - destruct (pr_done p) eqn:E; [done|]. intros [= _ <-]. by constructor.
  - destruct (stop_step p) as [p1|] eqn:E; [|done]. intros [= _ <-]. by constructor.
Qed.

(** The channels and listeners go with the statements of [Stop]. *)
Definition pc_index (pc : StopPc) : nat :=
  match pc with
  | StopIdle => 0 | CloseStopChan => 1 | CloseStreamStopChan => 2 | CloseStreamListener => 3 | WaitForStreams => 4
  | CloseListener => 5 | ClearListener => 6 | MarkOffline => 7 | Stopped => 8
  end.

Definition down_ok (d : Shutdown) : Prop :=
  let i := pc_index (sd_pc d) in
  sd_stopChan d = bool_decide (1 < i)%nat ∧ sd_streamStopChan d = bool_decide (2 < i)%nat ∧
  ((3 < i)%nat → sd_streamOpen d = false) ∧ ((5 < i)%nat → sd_open d = false) ∧ ((6 < i)%nat → sd_nil d = true) ∧
  (sd_nil d = true → sd_open d = false).

(** A connection that was accepted but not yet counted. *)
Definition uncounted (p : Process) : nat := if decide (pr_streamAcceptor p = Accepted) then 1 else 0.

Record life_ok (p : Process) : Prop := mkLifeOk {
  lo_down : down_ok (pr_down p);
  lo_wg : pr_wg p = pr_streams p;
  lo_waited : (4 < pc_index (sd_pc (pr_down p)))%nat → (pr_streams p + uncounted p ≤ 1)%nat;
  lo_nil : sd_nil (pr_down p) = true → (pc_index (sd_pc (pr_down p)) < 7)%nat → pr_acceptor p = Returned }.

Lemma life_launch listen_ok stream_ok b o ok p : launch listen_ok stream_ok b = (o, Ret (ok, p)) → life_ok p.
Proof.
  unfold launch. destruct (Start listen_ok stream_ok b) as [o1 [[ok1 b']|w]] eqn:E; [|done]. intros [= _ -> <-].
  assert (listen_ok = false → ok = false) as Hok.
  { intros ->. by injection E as _ <- _. }
  destruct ok; (split; cbn; [|done|intros; exfalso; lia|]).
  - unfold down_ok; cbn. split_and!; try done; try (intros; exfalso; lia). by destruct listen_ok; [|discriminate Hok].
  - destruct listen_ok; [done|]. by discriminate Hok.
  - unfold down_ok; cbn. split_and!; try done; try (intros; exfalso; lia). by destruct listen_ok.
  - done.
Qed.

Lemma life_stop p p' : life_ok p → stop_step p = Some p' → life_ok p'.
Proof.
  intros [(D1 & D2 & D3 & D4 & D5 & D6) Hwg Hw Hn]. unfold stop_step, stream_stop_step. unfold uncounted in *.
  destruct (pr_down p) as [pc sc ssc so op nl] eqn:Ed.
  cbn [sd_pc sd_stopChan sd_streamStopChan sd_streamOpen sd_open sd_nil] in *.
  destruct pc; cbn [pc_index] in *; try (destruct (decide (pr_wg p = 0%nat))); try (destruct nl); intros [= <-];
    (split; [unfold down_ok; cbn; split_and!|exact Hwg|unfold uncounted; cbn|cbn]); intros;
    first [done | exfalso; lia | apply D3; lia | apply D4; lia | by apply D6 | apply Hw; lia | apply Hn; done || lia
          | case_decide; lia].
Qed.

Lemma life_change p ev p' : life_ok p → change p ev p' → life_ok p'.
Proof.
  intros Hp Hc. pose proof Hp as [D Hwg Hw Hn]. pose proof D as (D1 & D2 & D3 & D4 & D5 & D6).
  destruct Hc as [e a Ha|e a Ha|now s r m k b Hk _|w nanos now req fails budget k b Hk _|r now b _|l _ _|now i w t o b _ _ _|_|p' Hs];
    try (by eapply life_stop); try (by split).
  - split; [exact D|exact Hwg|exact Hw|]. intros Hnil Hpc. cbn in *. rewrite (Hn Hnil Hpc) in Ha. by destruct e.
  - destruct (decide (pr_streamAcceptor p = Accepted)) as [Ea|Ea]; (split; cbn; [exact D|congruence| |exact Hn]); intros Hpc;
      specialize (Hw Hpc); unfold uncounted in *; cbn.
    + rewrite Ea in Ha. destruct e; try done. injection Ha as <-. rewrite decide_True in Hw by done. rewrite decide_False by done. lia.
    + rewrite decide_False in Hw by done. destruct (decide (a = Accepted)) as [->|]; [|lia]. rewrite D3 in Ha by lia.
      by destruct (pr_streamAcceptor p), e; cbn in Ha; repeat case_match.
  - split; cbn; [exact D|by rewrite Hwg, Hk|intros Hpc; specialize (Hw Hpc); unfold uncounted in *; cbn; lia|exact Hn].
Qed.

Lemma reachable_ok p : reachable p → life_ok p.
Proof. induction 1 as [?????? E|??? p' _ IH E]; [by eapply life_launch|]. eapply life_change; [exact IH|by eapply perform_change]. Qed.

(** ** How much a process that was told to stop can still do *)

Definition acceptor_work (a : Acceptor) : nat :=
  match a with Returned => 0 | AtSelect => 1 | AcceptFailed => 2 | Accepted => 3 | InAccept => 4 | AtAccept => 5 end.

Definition all_loops : list Loop := [Messages; Heartbeats; Peers; LockTimeouts; Deadlocks; Leader; Cleanup].

Definition loops_work (f : Loop → bool) : nat := sum_list_with (λ l, if f l then 1%nat else 0%nat) all_loops.

Definition work (p : Process) : nat :=
  acceptor_work (pr_acceptor p) + pr_conns p + acceptor_work (pr_streamAcceptor p) + pr_streams p +
  loops_work (pr_loops p) + (8 - pc_index (sd_pc (pr_down p))) + tasks_weight (pr_node p).

(** Its context has ended and both channels are closed. *)
Record told (p : Process) : Prop := mkTold {
  to_done : pr_done p = true;
  to_stop : sd_stopChan (pr_down p) = true;
  to_stream : sd_streamStopChan (pr_down p) = true }.

Definition is_round (ev : PEvent) : bool := match ev with PRound _ _ => true | _ => false end.

Lemma accept_lighter nil open a e a' : accept_step true true nil open a e = Some (Ret a') →
  (acceptor_work a' + (if decide (a = Accepted) then 1 else 0) < acceptor_work a)%nat.
Proof. destruct a, e, open, nil; simpl; try done; intros [= <-]; simpl; lia. Qed.

Lemma loops_lighter f l : f l = true → (loops_work (λ k, if decide (k = l) then false else f k) < loops_work f)%nat.
Proof.
  intros Hl. unfold loops_work, all_loops. cbn [sum_list_with].
  destruct l; rewrite Hl; repeat (first [rewrite decide_True by done|rewrite decide_False by done]); lia.
Qed.

Lemma stop_told p p' : stop_step p = Some p' → told p → told p' ∧ tasks_weight (pr_node p') = tasks_weight (pr_node p) ∧
  (pc_index (sd_pc (pr_down p)) < pc_index (sd_pc (pr_down p')) ≤ 8)%nat ∧
  p' = set_pr_node (pr_node p') (set_down (pr_down p') p).
Proof.
  unfold stop_step, stream_stop_step. intros E [T1 T2 T3]. destruct p as [b done_ [pc sc ssc so op nl] a cn sa st wg lp]; simpl in *; subst.
  destruct pc; simpl in E; repeat case_decide; try (destruct nl); try discriminate E; injection E as <-;
    (split; [by split|]); (split; [reflexivity|]); (split; [simpl; lia|]); reflexivity.
Qed.

(** A process that was told to stop gets lighter with every step that is not a
    round of a loop. *)
Lemma change_lighter p ev p' : told p → is_round ev = false → change p ev p' → told p' ∧ (work p' < work p)%nat.
Proof.
  intros Ht Hr Hc. pose proof Ht as [T1 T2 T3]. unfold work.
  destruct Hc as [e a Ha|e a Ha|now s r m k b Hk Hb|w nanos now req fails budget k b Hk Hb|r now b _|l Hl _|
    now i w t o b Hi Hres E|Hd|p' Hs]; try done.
  - split; [by split|]. rewrite T1, T2 in Ha. apply accept_lighter in Ha. simpl. case_decide; lia.
  - rewrite T1, T3 in Ha. apply accept_lighter in Ha. case_decide; (split; [by split|]); simpl; lia.
  - split; [by split|]. simpl. lia.
  - split; [by split|]. simpl. lia.
  - split; [by split|]. apply loops_lighter in Hl. simpl. lia.
  - split; [by split|]. pose proof (resumed_lighter _ _ _ _ _ _ _ Hi E Hres). simpl. lia.
  - congruence.
  - destruct (stop_told _ _ Hs Ht) as (Ht' & Hw & Hpc & E). split; [done|].
    rewrite E. simpl. lia.
Qed.

(** ** What it can always do *)

(** No election is blocked, and the acceptor is not about to call a listener
    that is gone. *)
Definition calm (p : Process) : Prop :=
  b_tasks (pr_node p) = [] ∧ (pr_acceptor p = AtAccept → sd_nil (pr_down p) = false).

(** A step to a calm process. *)
Definition can_go (p : Process) : Prop := ∃ ev p', is_round ev = false ∧ perform ev p = Some ([], Ret ((), p')) ∧ calm p'.

Lemma go_accept p : told p → calm p → pr_acceptor p ≠ Returned →
  (pr_acceptor p = InAccept → sd_open (pr_down p) = false) → can_go p.
Proof.
  intros [T1 T2 T3] [Hb Hn] Hr Ho. exists (PAccept Proceed). unfold can_go. cbn [perform]. rewrite T1, T2.
  destruct (pr_acceptor p) eqn:E; cbn [accept_step orb]; try done; rewrite ?Ho, ?Hn by done;
    (eexists; split; [done|]; split; [reflexivity|by split]).
Qed.

Lemma go_stream_accept p : told p → calm p → pr_streamAcceptor p ≠ Returned →
  (pr_streamAcceptor p = InAccept → sd_streamOpen (pr_down p) = false) → can_go p.
Proof.
  intros [T1 T2 T3] [Hb Hn] Hr Ho. exists (PStreamAccept Proceed). cbn [perform]. rewrite T1, T3.
  destruct (pr_streamAcceptor p) eqn:E; cbn [accept_step orb]; try done; rewrite ?Ho by done;
    (case_decide; try done; eexists; split; [done|]; split; [reflexivity|by split]).
Qed.

(** A connection on which nothing comes. *)
Lemma go_connection p : calm p → pr_conns p ≠ 0%nat → can_go p.
Proof.
  intros Hc Hk. exists (PConnection 0 uuid_Nil uuid_Nil None). cbn [perform].
  destruct (pr_conns p) as [|k] eqn:E; [done|]. eexists. split; [done|]. split; [reflexivity|exact Hc].
Qed.

Definition idle_world : World := mkWorld (λ _, 0) (λ _ t, t).

Lemma go_stream p : calm p → pr_streams p ≠ 0%nat → can_go p.
Proof.
  intros Hc Hk. exists (PStream idle_world 0 0 [] false None). cbn [perform].
  destruct (pr_streams p) as [|k] eqn:E; [done|]. eexists. split; [done|]. split; [reflexivity|exact Hc].
Qed.

Lemma go_loop p l : told p → calm p → pr_loops p l = true → can_go p.
Proof.
  intros [T1 T2 T3] Hc Hl. exists (PReturn l). cbn [perform].
  assert (told_loop l p = true) as -> by (destruct l; simpl; by rewrite ?T1, ?T3). rewrite Hl.
  eexists. split; [done|]. split; [reflexivity|exact Hc].
Qed.

Lemma go_stop p : told p → b_tasks (pr_node p) = [] → pr_acceptor p ≠ AtAccept → sd_pc (pr_down p) ≠ Stopped →
  (sd_pc (pr_down p) = WaitForStreams → pr_wg p = 0%nat) → can_go p.
Proof.
  intros Ht Hb Ha Hs Hw. destruct (stop_step p) as [p'|] eqn:E.
  2:{ exfalso. unfold stop_step, stream_stop_step in E. destruct (sd_pc (pr_down p)); try done; [|by destruct (sd_nil (pr_down p))].
      rewrite decide_True in E by auto. done. }
  exists PStop, p'. split; [done|]. split; [cbn [perform]; by rewrite E|].
  unfold calm. assert (b_tasks (pr_node p') = b_tasks (pr_node p) ∧ pr_acceptor p' = pr_acceptor p) as [-> Ha'].
  { unfold stop_step, stream_stop_step in E. destruct (sd_pc (pr_down p)); repeat case_match; try done; by injection E as <-. }
  split; [done|]. by rewrite Ha'.
Qed.

Lemma no_loops f : (∀ l, f l = true → False) → loops_work f = 0%nat.
Proof.
  intros Hf. unfold loops_work, all_loops. cbn [sum_list_with].
  repeat match goal with |- context [f ?l] => destruct (f l) eqn:?; [by exfalso; eapply Hf|] end. done.
Qed.

(** Told to stop, a process is done or can go on. *)
Lemma told_progress p : life_ok p → told p → calm p → work p = 0%nat ∨ can_go p.
Proof.
  intros Hl Ht Hc. pose proof Hl as [(D1 & D2 & D3 & D4 & D5 & D6) Hwg _ _]. pose proof Ht as [T1 T2 T3].
  destruct (decide (pr_acceptor p = Returned ∨ pr_acceptor p = InAccept)) as [Ha|Ha].
  2:{ right. apply go_accept; [done|done|tauto|]. intros E. tauto. }
  assert (pr_acceptor p ≠ AtAccept) as Hna by (by destruct Ha as [-> | ->]).
  assert (2 < pc_index (sd_pc (pr_down p)))%nat as Hpc.
  { rewrite T3 in D2. symmetry in D2. by apply bool_decide_eq_true in D2. }
  destruct (decide (sd_pc (pr_down p) = CloseStreamListener)) as [Ep|Ep].
  { right. apply go_stop; [done|apply Hc|done|by rewrite Ep|by rewrite Ep]. }
  assert (3 < pc_index (sd_pc (pr_down p)))%nat as Hpc3 by (destruct (sd_pc (pr_down p)); simpl in *; lia || done).
  destruct (decide (pr_streamAcceptor p = Returned)) as [Hs|Hs]; [|right; apply go_stream_accept; auto].
  destruct (decide (pr_streams p = 0%nat)) as [Hst|Hst]; [|right; by apply go_stream].
  destruct (decide (pr_conns p = 0%nat)) as [Hcn|Hcn]; [|right; by apply go_connection].
  destruct (decide (sd_pc (pr_down p) = Stopped)) as [Est|Est].
  2:{ right. apply go_stop; [done|apply Hc|done|done|]. intros _. by rewrite Hwg. }
  destruct (decide (pr_acceptor p = Returned)) as [Har|Har].
  2:{ right. apply go_accept; [done|done|done|]. intros _. apply D4. rewrite Est. simpl. lia. }
  destruct (existsb (pr_loops p) all_loops) eqn:Ex; [apply existsb_exists in Ex as (l & _ & Hlp); right; by eapply go_loop|].
  left. unfold work, tasks_weight. rewrite Har, Hs, Hst, Hcn, Est, (proj1 Hc), no_loops; [done|].
  intros l Hlp. apply not_true_iff_false in Ex. apply Ex, existsb_exists. exists l. split; [destruct l; simpl; tauto|done].
Qed.
End lemmas.

(** ** Properties *)
Section properties.
Context `{UuidText} `{TimeText} `{MapRange} `{ErrnoText}.

Definition no_rounds (evs : list PEvent) : Prop := Forall (λ ev, is_round ev = false) evs.

Lemma run_cons ev evs p p1 : perform ev p = Some ([], Ret ((), p1)) → run (ev :: evs) p = run evs p1.
Proof. intros E. cbn [run]. rewrite E. by destruct (run evs p1) as [[o r]|]. Qed.

Lemma life_run evs p o p' : life_ok p → run evs p = Some (o, Ret ((), p')) → life_ok p'.
Proof.
  revert p o. induction evs as [|ev evs IH]; intros p o Hl; cbn [run]; [by intros [= _ <-]|].
  destruct (perform ev p) as [[o1 [[[] p1]|why]]|] eqn:E; [|done..].
  destruct (run evs p1) as [[o2 r2]|] eqn:E2; [|done]. intros [= _ ->].
  eapply IH; [|exact E2]. eapply life_change; [exact Hl|by eapply perform_change].
Qed.

Lemma run_lighter evs p o p' : told p → no_rounds evs → run evs p = Some (o, Ret ((), p')) →
  (length evs + work p' ≤ work p)%nat.
Proof.
  intros Ht Hr. revert p o Ht. induction Hr as [|ev evs Hev _ IH]; intros p o Ht; cbn [run]; [intros [= _ <-]; simpl; lia|].
  destruct (perform ev p) as [[o1 [[[] p1]|why]]|] eqn:E; [|done..].
  destruct (run evs p1) as [[o2 r2]|] eqn:E2; [|done]. intros [= _ ->].
  destruct (change_lighter p ev p1 Ht Hev) as [Ht1 Hw]; [by eapply perform_change|].
  specialize (IH p1 o2 Ht1 E2). simpl. lia.
Qed.

Lemma shut_down p : life_ok p → told p → calm p →
  ∃ evs p', run evs p = Some ([], Ret ((), p')) ∧ no_rounds evs ∧ told p' ∧ work p' = 0%nat.
Proof.
  remember (work p) as k eqn:Ek. revert p Ek. induction (lt_wf k) as [k _ IH]. intros p -> Hl Ht Hc.
  destruct (told_progress p Hl Ht Hc) as [Hw|(ev & p1 & Hev & E & Hc1)]; [by exists [], p; split_and!; [|constructor| |]|].
  pose proof (perform_change _ _ _ _ E) as Hch. destruct (change_lighter p ev p1 Ht Hev Hch) as [Ht1 Hw1].
  destruct (IH _ Hw1 p1 eq_refl (life_change _ _ _ Hl Hch) Ht1 Hc1) as (evs & p' & Er & Hr & Ht' & Hw').
  exists (ev :: evs), p'. split_and!; [by rewrite (run_cons _ _ _ _ E)|by constructor|done|done].
Qed.

(** Nothing is left to do. *)
Lemma ended p ev : told p → work p = 0%nat → perform ev p = None.
Proof.
  intros [T1 T2 T3] Hw. unfold work in Hw. assert (pr_acceptor p = Returned) as Ha by (by destruct (pr_acceptor p)).
  assert (pr_streamAcceptor p = Returned) as Hs by (destruct (pr_streamAcceptor p); simpl in Hw; lia || done).
  assert (∀ l, pr_loops p l = false) as Hl.
  { intros l. assert (loops_work (pr_loops p) = 0%nat) as H0' by lia. unfold loops_work, all_loops in H0'.
    cbn [sum_list_with] in H0'. destruct (pr_loops p l) eqn:E; [|done]. destruct l; rewrite E in H0'; lia. }
  destruct ev as [e|e|now s r m|w nanos now req f bu|r now|l|now i w| |]; cbn [perform].
  - by rewrite Ha.
  - by rewrite Hs.
  - by replace (pr_conns p) with 0%nat by lia.
  - by replace (pr_streams p) with 0%nat by lia.
  - unfold awake. by rewrite Hl.
  - by rewrite Hl.
  - assert (tasks_weight (pr_node p) = 0%nat) as Hb by lia. unfold tasks_weight in Hb.
    destruct (b_tasks (pr_node p)) as [|[] ts]; [done|simpl in Hb; lia..].
  - by rewrite T1.
  - unfold stop_step, stream_stop_step. destruct (sd_pc (pr_down p)); simpl in Hw; lia || done.
Qed.

Lemma work_stopped p : work p = 0%nat → sd_pc (pr_down p) = Stopped.
Proof. unfold work. intros Hw. destruct (sd_pc (pr_down p)); simpl in Hw; lia || done. Qed.

(** The first statements of a shutdown. *)
Lemma begin_shut_down p : reachable p → pr_done p = false → sd_pc (pr_down p) = StopIdle → b_tasks (pr_node p) = [] →
  ∃ p1, run [PCancel; PStop; PStop; PStop] p = Some ([], Ret ((), p1)) ∧ told p1 ∧ life_ok p1 ∧ calm p1.
Proof.
  intros Hr%reachable_ok Hd Hpc Hb. destruct p as [b dn [pc sc ssc so op nl] a cn sa st wg lp]. cbn in Hd, Hpc, Hb.
  subst dn pc. eexists. split; [reflexivity|]. split; [by split|]. split; [|split; [exact Hb|]].
  - by eapply (life_run [PCancel; PStop; PStop; PStop]); [exact Hr|].
  - simpl. intros ->. destruct Hr as [_ _ _ Hn]. cbn in Hn. destruct nl; [|done]. discriminate Hn; [done|lia].
Qed.

(** C14: a node shuts down. When its program cancels the context and calls
    [Stop] while no election is blocked, then, whatever else the goroutines are
    doing, no schedule can keep the process going for long except by rounds of
    loops that were already due; it can always be finished, without a panic;
    and then [Stop] has returned, every goroutine has ended and nothing can
    happen any more. *)
Theorem node_shuts_down p : reachable p → pr_done p = false → sd_pc (pr_down p) = StopIdle → b_tasks (pr_node p) = [] →
  ∃ p1, run [PCancel; PStop; PStop; PStop] p = Some ([], Ret ((), p1)) ∧
  (∀ evs o p', no_rounds evs → run evs p1 = Some (o, Ret ((), p')) → (length evs ≤ work p1)%nat) ∧
  ∃ evs p', run evs p1 = Some ([], Ret ((), p')) ∧ no_rounds evs ∧ sd_pc (pr_down p') = Stopped ∧
    ∀ ev, perform ev p' = None.
Proof.
  intros Hr Hd Hpc Hb. destruct (begin_shut_down p Hr Hd Hpc Hb) as (p1 & E & Ht & Hl1 & Hc1). exists p1. split; [exact E|]. split.
  - intros evs o p' Hev Er. pose proof (run_lighter evs p1 o p' Ht Hev Er). lia.
  - destruct (shut_down p1 Hl1 Ht Hc1) as (evs & p' & Er & Hev & Ht' & Hw). exists evs, p'.
    split_and!; [done|done|by apply work_stopped|by intros ev; apply ended].
Qed.

(** When [Stop] has returned, at most one stream can still be running: one
    whose connection had been accepted, but not yet counted, when [Stop] looked.
    Before, exactly the running ones are counted. *)
Theorem Stop_leaves_one_stream p : reachable p →
  pr_wg p = pr_streams p ∧
  (sd_pc (pr_down p) = Stopped → (pr_streams p + (if decide (pr_streamAcceptor p = Accepted) then 1 else 0) ≤ 1)%nat ∧
     sd_streamOpen (pr_down p) = false ∧ sd_open (pr_down p) = false).
Proof.
  intros Hr. destruct (reachable_ok p Hr) as [(_ & _ & D3 & D4 & _) Hwg Hw _]. split; [done|]. intros Hpc.
  rewrite Hpc in D3, D4, Hw. simpl in *. split_and!; [apply Hw; lia|apply D3; lia|apply D4; lia].
Qed.

(** C15: the accept loop of the node crashes only while the node is being
    stopped: it was past its [select] when [Stop] cleared the listener. The one
    of the stream server never does. *)
Theorem acceptor_panics_only_in_Stop p e o why : reachable p →
  perform (PAccept e) p = Some (o, Panic why) ∨ perform (PStreamAccept e) p = Some (o, Panic why) →
  perform (PAccept e) p = Some (o, Panic why) ∧ e = Proceed ∧ pr_acceptor p = AtAccept ∧
  (sd_pc (pr_down p) = MarkOffline ∨ sd_pc (pr_down p) = Stopped).
Proof.
  intros Hr [E|E].
  - split; [done|]. destruct (reachable_ok p Hr) as [_ _ _ Hn]. cbn [perform] in E.
    destruct (accept_step _ _ _ _ _ _) as [[a|w]|] eqn:Ea; [done| |done].
    destruct (pr_acceptor p) eqn:Ep, e; cbn in Ea; repeat case_match; try done.
    split_and!; [done|done|]. destruct (sd_pc (pr_down p)); simpl in Hn; auto; exfalso;
      (assert (AtAccept = Returned) by (apply Hn; [done|lia])); done.
  - exfalso. cbn [perform] in E. destruct (accept_step _ _ _ _ _ _) as [[a|w]|] eqn:Ea; [|clear E|done].
    + by case_decide.
    + by destruct (pr_streamAcceptor p), e; cbn in Ea; repeat case_match.
Qed.
End properties.

(** ** Examples: a storage node whose master has been silent *)

#[local] Existing Instance decimal_uuids.
#[local] Existing Instance decimal_times.
#[local] Existing Instance canonical_range.
#[local] Instance plain_errors : ErrnoText := λ op _ _, op.

Definition silent_master : NodeInfo := mkNodeInfo 9 "10.0.0.9" 8000 RoleMaster StatusOnline 20 0.

Definition storage_node : FullNode :=
  NewBullyElector (NodeLocks.example_node 1 RoleStorage {[ 9%N := silent_master ]} no_locks).

Definition launched : Process :=
  match launch true true storage_node with
  | (_, Ret (_, p)) => p
  | _ => mkProcess storage_node true (mkShutdown Stopped true true false false true) Returned 0 Returned 0 0 (λ _, false)
  end.

Lemma launched_runs : ∃ o, launch true true storage_node = (o, Ret (true, launched)).
Proof. eexists. reflexivity. Qed.

Lemma launched_reachable : reachable launched.
Proof. destruct launched_runs as [o E]. by eapply reach_launch. Qed.

Lemma run_reachable evs p o p' : reachable p → run evs p = Some (o, Ret ((), p')) → reachable p'.
Proof.
  revert p o. induction evs as [|ev evs IH]; intros p o Hp; cbn [run]; [by intros [= _ <-]|].
  destruct (perform ev p) as [[o1 [[[] p1]|why]]|] eqn:E; [|done..].
  destruct (run evs p1) as [[o2 r2]|] eqn:E2; [|done]. intros [= _ ->].
  eapply IH; [|exact E2]. by eapply reach_step.
Qed.

(** The whole of [Stop], when no stream is running. *)
Definition stop_node : list PEvent := replicate 8 PStop.

(** Stopping a node can crash it: the accept loop has looked at the stop
    channel before [Stop] closes it, and calls [Accept] after [Stop] has set the
    listener to nil. *)
Theorem Stop_crashes_acceptor :
  run ([PAccept Proceed] ++ replicate 7 PStop ++ [PAccept Proceed]) launched =
    Some ([], Panic "invalid memory address or nil pointer dereference").
Proof. vm_compute. reflexivity. Qed.

(** A stream can start after [Stop] has returned. *)
Theorem stream_after_Stop :
  match run ([PStreamAccept Proceed; PStreamAccept Proceed; PStreamAccept Incoming] ++ stop_node ++ [PStreamAccept Proceed])
    launched with
  | Some (_, Ret (_, p)) => (sd_pc (pr_down p), pr_streams p) = (Stopped, 1%nat)
  | _ => False
  end.
Proof. vm_compute. reflexivity. Qed.

(** [Stop] does not stop the elector: as long as the context of the node
    lives, a stopped node goes on watching the master, and becomes the master
    itself when that one is silent. *)
Theorem stopped_node_becomes_master :
  match run (stop_node ++ [PReturn Messages; PReturn Heartbeats; PRound OnLeader (20 * Second); PElection 0 0 TimedOut]) launched with
  | Some (o, Ret (_, p)) =>
    sd_pc (pr_down p) = Stopped ∧ n_Status (b_node (pr_node p)) = StatusOffline ∧ n_Role (b_node (pr_node p)) = RoleMaster
  | _ => False
  end.
Proof. vm_compute. split_and!; reflexivity. Qed.

Lemma node_shuts_down_witness :
  ∃ p1 evs p', run [PCancel; PStop; PStop; PStop] launched = Some ([], Ret ((), p1)) ∧
    run evs p1 = Some ([], Ret ((), p')) ∧ ∀ ev, perform ev p' = None.
Proof.
  destruct (node_shuts_down launched launched_reachable eq_refl eq_refl eq_refl)
    as (p1 & E & _ & evs & p' & Er & _ & _ & Hend).
  exists p1, evs, p'. split; [exact E|]. split; [exact Er|exact Hend].
Defined.

Lemma Stop_leaves_one_stream_witness : pr_wg launched = pr_streams launched.
Proof. exact (proj1 (Stop_leaves_one_stream launched launched_reachable)). Defined.

Lemma acceptor_panics_only_in_Stop_witness : ∃ p, reachable p ∧ pr_acceptor p = AtAccept ∧
  (sd_pc (pr_down p) = MarkOffline ∨ sd_pc (pr_down p) = Stopped).
Proof.
  destruct (run ([PAccept Proceed] ++ replicate 7 PStop) launched) as [[o [[[] p]|w]]|] eqn:E;
    [|exfalso; revert E; vm_compute; discriminate..].
  exists p. split; [exact (run_reachable _ _ _ _ launched_reachable E)|].
  destruct (acceptor_panics_only_in_Stop p Proceed [] "invalid memory address or nil pointer dereference"
    (run_reachable _ _ _ _ launched_reachable E)) as (_ & _ & Ha & Hpc); [|split; [exact Ha|exact Hpc]].
  left. revert E. vm_compute. intros [= _ <-]. reflexivity.
Defined.
