(* ===== verification/Partition.v ===== *)
(** * A node without peers

    What becomes of a node of [Lifecycle.v] whose peers have all been silent for
    too long, as on either side of a network that is divided: it forgets them,
    and whatever its loops and elections do from then on, it sends nothing to
    anyone, until somebody opens a connection to it. *)

From S2P Require Import Prelude GoStd Types Json WaitFor Session Fs LocalStorage Protocol StreamServer NodeState NodeLocks NodeFiles Bully Node Client Transfer EndToEnd Lifecycle.

(** What a method does outwards as long as [I] holds, which it keeps: it starts
    the synchronisation of a new master, or nothing. *)
Definition quiet {S A} (I : S → Prop) (m : GoM S NAct A) : Prop :=
  ∀ s, I s → (∀ a, a ∈ (m s).1 → a = GoSyncMetadata) ∧ match (m s).2 with Ret (_, s') => I s' | Panic _ => True end.

(** No peers, and no messages that were read and not handled yet. *)
Definition alone (n : Node) : Prop := n_peers n = ∅ ∧ n_messageChan n = [].

Definition node_alone (b : FullNode) : Prop := alone (b_node b).
Definition process_alone (p : Process) : Prop := node_alone (pr_node p).

(** What a node does that nobody connects to: the steps of its process but the
    messages that it is sent, and the two parts of [syncMetadataAfterElection],
    whenever they come. *)
Inductive LoneEvent := Does (ev : PEvent) | SyncBegins (newID : uuid) | SyncEnds.

Definition is_connection (ev : PEvent) : bool := match ev with PConnection _ _ _ _ => true | _ => false end.

Section lone.
Context `{UuidText} `{TimeText} `{MapRange} `{ErrnoText}.

Definition lone_step (ev : LoneEvent) (p : Process) : option (list NAct * Res (() * Process)) :=
  match ev with
  | Does ev => if is_connection ev then None else perform ev p
  | SyncBegins newID => Some ((_ ← on_full (on_node (syncMetadata_begin newID)); mret ()) p)
  | SyncEnds => Some (on_full (on_node syncMetadata_end) p)
  end.

Fixpoint lone_run (evs : list LoneEvent) (p : Process) : option (list NAct * Res (() * Process)) :=
  match evs with
  | [] => Some ([], Ret ((), p))
  | ev :: evs' =>
    match lone_step ev p with
    | None => None
    | Some (o, Panic why) => Some (o, Panic why)
    | Some (o, Ret (_, p')) => (λ r, (o ++ r.1, r.2)) <$> lone_run evs' p'
    end
  end.
End lone.

(** ** Helper lemmas *)
Section combinators.
Context {S : Type} (I : S → Prop).

Lemma quiet_ret {A} (a : A) : quiet I (mret a).
Proof. intros s Hs. split; [by intros x ?%elem_of_nil|done]. Qed.

Lemma quiet_skip : quiet I skip.
Proof. apply quiet_ret. Qed.

Lemma quiet_panic {A} w : quiet I (panic w : GoM S NAct A).
Proof. intros s Hs. split; [by intros x ?%elem_of_nil|done]. Qed.

Lemma quiet_emit : quiet I (emit GoSyncMetadata).
Proof. intros s Hs. split; [by intros x ?%list_elem_of_singleton|done]. Qed.

Lemma quiet_modify (f : S → S) : (∀ s, I s → I (f s)) → quiet I (modify f).
Proof. intros Hf s Hs. split; [by intros x ?%elem_of_nil|by apply Hf]. Qed.

Lemma quiet_then {A B} (m : GoM S NAct A) (f : A → GoM S NAct B) : quiet I m → (∀ a, quiet I (f a)) → quiet I (m ≫= f).
Proof.
  intros Hm Hf s Hs. destruct (Hm s Hs) as [Ho Hr]. unfold mbind, gom_bind. destruct (m s) as [o1 [[a s1]|w]]; [|done].
  destruct (Hf a s1 Hr) as [Ho2 Hr2]. destruct (f a s1) as [o2 r]. split; [|done]. intros x [Hx|Hx]%elem_of_app; auto.
Qed.

(** Reading the state: what follows may use that [I] holds of it. *)
Lemma quiet_get {B} (f : S → GoM S NAct B) : (∀ s, I s → quiet I (f s)) → quiet I (get ≫= f).
Proof. intros Hf s Hs. rewrite (bind_silent _ _ s s s) by done. by apply Hf. Qed.

Lemma quiet_gets {A B} (g : S → A) (f : A → GoM S NAct B) : (∀ a, quiet I (f a)) → quiet I (gets g ≫= f).
Proof. intros Hf s Hs. rewrite (bind_silent _ _ s (g s) s) by done. by apply Hf. Qed.

Lemma quiet_for {A} (l : list A) (body : A → GoM S NAct ()) : (∀ x, quiet I (body x)) → quiet I (for_each l body).
Proof. intros Hb. induction l as [|x l IH]; [apply quiet_ret|]. by apply quiet_then; [|intros []]. Qed.

Lemma quiet_zoom {T A} (view : T → S) put (m : GoM S NAct A) (J : T → Prop) :
  (∀ t, J t → I (view t)) → (∀ s t, J t → I s → J (put s t)) → quiet I m → quiet J (zoom view put m).
Proof.
  intros Hv Hp Hm t Ht. destruct (Hm _ (Hv t Ht)) as [Ho Hr]. unfold zoom. destruct (m (view t)) as [o [[a s]|w]]; [|done].
  split; [done|]. by apply Hp.
Qed.
End combinators.

Section lemmas.
Context `{UuidText} `{TimeText} `{MapRange} `{ErrnoText}.

Lemma alone_peers n : alone n → GetPeers n = [].
Proof.
  intros [Hp _]. unfold GetPeers. rewrite Hp. apply elem_of_nil_inv. intros q Hq.
  apply list_elem_of_fmap in Hq as ([i q'] & -> & Hi). apply elem_of_go_range in Hi. by rewrite lookup_empty in Hi.
Qed.

(** A node has nobody to send to. *)
Lemma quiet_Broadcast msg : quiet alone (BroadcastMessage msg).
Proof. apply quiet_get. intros n Hn. rewrite alone_peers by done. apply quiet_skip. Qed.

Lemma quiet_SetRole role : quiet alone (SetRole role).
Proof.
  apply quiet_gets. intros old. apply quiet_then; [by apply quiet_modify|]. intros _. apply quiet_then.
  - destruct (decide _); [|apply quiet_skip]. apply quiet_get. intros n _. cbv zeta.
    apply quiet_then; [by apply quiet_modify|]. intros _. apply quiet_emit.
  - intros _. destruct (decide _); [by apply quiet_modify|apply quiet_skip].
Qed.

Lemma quiet_Remove id : quiet alone (RemovePeer id).
Proof. apply quiet_modify. intros n [Hp Hm]. split; [|done]. cbn. by rewrite Hp, delete_empty. Qed.

Lemma quiet_Release r : quiet alone (ReleaseLock r).
Proof. apply quiet_gets. intros id. apply quiet_then; [by apply quiet_modify|]. intros _. apply quiet_Broadcast. Qed.

Lemma quiet_heartbeat now : quiet alone (sendHeartbeat now).
Proof. apply quiet_get. intros n _. apply quiet_Broadcast. Qed.

Lemma quiet_timeouts now : quiet alone (checkLocksTimeouts now).
Proof.
  apply quiet_get. intros n _. cbv zeta. destruct (fold_left _ _ _) as [[queues acks] released].
  apply quiet_then; [by apply quiet_modify|]. intros _. apply quiet_for. intros r. apply quiet_Broadcast.
Qed.

Lemma quiet_deadlocks : quiet alone checkDeadlocks.
Proof.
  apply quiet_get. intros n _. destruct (decide _); [apply quiet_skip|]. destruct (HasCycle _) as [[] path]; [|apply quiet_skip].
  apply quiet_get. intros n' [Hp _]. cbv zeta. destruct (decide _).
  - apply quiet_get. intros n2 _. cbv zeta. apply quiet_for, quiet_Release.
  - rewrite Hp, lookup_empty. apply quiet_skip.
Qed.

Lemma quiet_uploaded sid fid h : quiet alone (onStreamUploadComplete sid fid h).
Proof. apply quiet_get. intros n Hn. rewrite alone_peers by done. apply quiet_skip. Qed.

Lemma quiet_stream w nanos now req fails budget : quiet alone (serve_stream w nanos now req fails budget).
Proof.
  intros n Hn. unfold serve_stream. destruct (StreamServer.handleConnection _ _ _ _) as [o [[x e]|why]].
  - apply quiet_for with (I := alone); [|done]. intros [[sid fid] h]. apply quiet_uploaded.
  - split; [by intros a ?%elem_of_nil|done].
Qed.

(** The same for the elector and its node. *)
Lemma quiet_node {A} (m : NodeM A) : quiet alone m → quiet node_alone (node_do m).
Proof. by apply quiet_zoom. Qed.

Lemma quiet_elector (f : FullNode → FullNode) : (∀ b, b_node (f b) = b_node b) → quiet node_alone (modify f).
Proof. intros Hf. apply quiet_modify. intros b. unfold node_alone. by rewrite Hf. Qed.

Lemma quiet_receive c : quiet node_alone (Bully.receive c).
Proof. by apply quiet_elector. Qed.

Lemma quiet_new_chan : quiet node_alone new_chan.
Proof. intros b Hb. split; [by intros x ?%elem_of_nil|done]. Qed.

Lemma quiet_close_chan c : quiet node_alone (close_chan c).
Proof. apply quiet_get. intros b _. destruct (ch_closed _); [apply quiet_panic|by apply quiet_elector]. Qed.

Lemma quiet_try_send c : quiet node_alone (try_send c).
Proof.
  apply quiet_get. intros b _. destruct (ch_closed _); [apply quiet_panic|].
  destruct (ch_full _); [apply quiet_skip|by apply quiet_elector].
Qed.

Lemma quiet_becomeLeader after_wait : quiet node_alone (becomeLeader_begin after_wait).
Proof.
  apply quiet_then; [apply quiet_new_chan|]. intros c. apply quiet_then; [by apply quiet_elector|]. intros _.
  apply quiet_gets. intros id. apply quiet_then; [apply quiet_node, quiet_Broadcast|]. intros _. by apply quiet_elector.
Qed.

Lemma quiet_StartElection now : quiet node_alone (StartElection now).
Proof.
  apply quiet_get. intros b Hb. destruct (electionInProgress b); [apply quiet_skip|].
  apply quiet_then; [by apply quiet_elector|]. intros _. cbv zeta. apply quiet_then; [apply quiet_new_chan|]. intros ok.
  apply quiet_then; [destruct (okChan b); [apply quiet_close_chan|apply quiet_skip]|]. intros _.
  apply quiet_then; [by apply quiet_elector|]. intros _. change (nc_Peers (b_node b)) with (GetPeers (b_node b)).
  rewrite alone_peers by done. apply quiet_then; [apply quiet_skip|]. intros _. apply quiet_becomeLeader.
Qed.

Lemma quiet_clear : quiet node_alone clear_okChan.
Proof. apply quiet_then; [by apply quiet_elector|]. intros _. by apply quiet_elector. Qed.

Lemma quiet_resume now i w : quiet node_alone (run_event (EvResume now i w)).
Proof.
  apply quiet_get. intros b _. destruct (b_tasks b !! i) as [t|]; [|apply quiet_skip].
  destruct (resumable t w b); [|apply quiet_skip]. apply quiet_then; [by apply quiet_elector|]. intros _. destruct t as [ok|c after_wait|c|].
  - destruct w; [apply quiet_then; [apply quiet_receive|intros _; apply quiet_clear]|apply quiet_becomeLeader|by apply quiet_elector].
  - apply quiet_then; [destruct w; [apply quiet_receive|apply quiet_node, quiet_SetRole..]|]. intros _.
    apply quiet_then; [by apply quiet_elector|]. intros _. destruct after_wait; [apply quiet_clear|by apply quiet_elector].
  - apply quiet_try_send.
  - apply quiet_StartElection.
Qed.

Lemma quiet_health now : quiet node_alone (checkPeersHealth now).
Proof.
  apply quiet_get. intros b _. apply quiet_for. intros [id peer]. destruct (silent now peer); [|apply quiet_skip].
  apply quiet_then; [|intros _; apply quiet_node, quiet_Remove]. destruct (String.eqb _ _); [|apply quiet_skip].
  apply quiet_elector. intros b'. by destruct (coordinatorDeadChan b').
Qed.

Lemma quiet_round r now : quiet node_alone (round r now).
Proof.
  destruct r; cbn [round].
  - apply quiet_get. intros b [_ ->]. apply quiet_skip.
  - apply quiet_node, quiet_heartbeat.
  - apply quiet_health.
  - apply quiet_node, quiet_timeouts.
  - apply quiet_node, quiet_deadlocks.
  - apply quiet_get. intros b _. destruct (coordinatorDeadChan b); [|apply quiet_skip].
    apply quiet_then; [by apply quiet_elector|]. intros _.
    apply quiet_then; [apply quiet_node, quiet_Remove|]. intros _. apply quiet_StartElection.
  - apply quiet_get. intros b Hb. change (nc_Peers (b_node b)) with (GetPeers (b_node b)).
    rewrite alone_peers by done. apply quiet_skip.
  - apply quiet_node. by apply quiet_modify.
Qed.

Lemma quiet_full {A} (m : FullM A) : quiet node_alone m → quiet process_alone (on_full m).
Proof. by apply quiet_zoom. Qed.

Lemma quiet_sync_begins newID : quiet alone (syncMetadata_begin newID).
Proof.
  apply quiet_get. intros n _. destruct (ma_syncInProgress _); [apply quiet_ret|].
  apply quiet_then; [by apply quiet_modify|]. intros _. destruct (ma_hashRing _) as [ring|].
  2: { apply quiet_then; [by apply quiet_modify|]. intros _. apply quiet_ret. }
  cbv zeta. destruct (_ =? 0).
  { apply quiet_then; [by apply quiet_modify|]. intros _. apply quiet_ret. }
  apply quiet_then; [by apply quiet_modify|]. intros _. apply quiet_then; [|intros _; apply quiet_ret].
  apply quiet_get. intros n' Hn. rewrite alone_peers by done. apply quiet_skip.
Qed.

(** A file has nobody that it could be copied from. *)
Lemma quiet_replication f k : quiet alone (initiateReplication f k).
Proof.
  unfold initiateReplication. destruct (gfi_Replicas f) as [|source rs]; [apply quiet_skip|]. apply quiet_get. intros n [Hp _].
  destruct (ma_hashRing _) as [ring|]; [|apply quiet_panic]. cbv zeta. destruct (filter _ _) as [|x l]; [apply quiet_skip|].
  rewrite Hp, lookup_empty. apply quiet_skip.
Qed.

Lemma quiet_sync_ends : quiet alone syncMetadata_end.
Proof.
  apply quiet_then.
  - apply quiet_get. intros n _. cbv zeta. apply quiet_for. intros f. apply quiet_replication.
  - intros _. apply quiet_then; [by apply quiet_modify|]. intros _. by apply quiet_modify.
Qed.

(** The outcome of a step or of a run. *)
Definition quiet_outcome (r : list NAct * Res (() * Process)) : Prop :=
  (∀ a, a ∈ r.1 → a = GoSyncMetadata) ∧ match r.2 with Ret (_, p') => process_alone p' | Panic _ => True end.

Lemma quiet_silence p : process_alone p → quiet_outcome ([], Ret ((), p)).
Proof. intros Hp. split; [by intros a ?%elem_of_nil|done]. Qed.

Lemma stop_alone p p' : stop_step p = Some p' → process_alone p → process_alone p'.
Proof.
  unfold stop_step, stream_stop_step. intros E Hp. destruct p as [b d [pc sc ssc so op nl] a cn sa st wg lp]; simpl in *.
  destruct pc; simpl in E; repeat case_decide; try (destruct nl); try discriminate E; by injection E as <-.
Qed.

Lemma perform_quiet ev p r : is_connection ev = false → process_alone p → perform ev p = Some r → quiet_outcome r.
Proof.
  intros Hc Hp. destruct ev as [e|e| |w nanos now req fails budget|rd now|l|now i w| |]; try done; cbn [perform].
  - destruct (accept_step _ _ _ _ _ _) as [[a|why]|]; [|intros [= <-]; split; [by intros a ?%elem_of_nil|done]|done].
    intros [= <-]. by apply quiet_silence.
  - destruct (accept_step _ _ _ _ _ _) as [[a|why]|]; [|intros [= <-]; split; [by intros a ?%elem_of_nil|done]|done].
    destruct (if decide _ then _ else _) as [streams wg]. intros [= <-]. by apply quiet_silence.
  - destruct (pr_streams p) as [|k]; [done|]. intros [= <-]. apply (quiet_then process_alone); [|intros []; by apply quiet_modify|done].
    apply quiet_full, quiet_node, quiet_stream.
  - destruct (awake rd p); [|done]. intros [= <-]. by apply quiet_full; [apply quiet_round|].
  - destruct (_ && _); [|done]. intros [= <-]. by apply quiet_silence.
  - destruct (b_tasks _ !! i) as [t|]; [|done]. destruct (_ && _); [|done]. intros [= <-]. by apply quiet_full; [apply quiet_resume|].
  - destruct (pr_done p); [done|]. intros [= <-]. by apply quiet_silence.
  - destruct (stop_step p) as [p'|] eqn:E; [|done]. intros [= <-]. apply quiet_silence. by eapply stop_alone.
Qed.

Lemma lone_step_quiet ev p r : process_alone p → lone_step ev p = Some r → quiet_outcome r.
Proof.
  intros Hp. destruct ev as [ev|newID|]; cbn [lone_step].
  - destruct (is_connection ev) eqn:Hc; [done|]. by apply perform_quiet.
  - intros [= <-]. apply (quiet_then process_alone); [|intros; apply quiet_ret|done]. apply quiet_full, quiet_node, quiet_sync_begins.
  - intros [= <-]. by apply quiet_full; [apply quiet_node, quiet_sync_ends|].
Qed.

Lemma lone_run_quiet evs p r : process_alone p → lone_run evs p = Some r → quiet_outcome r.
Proof.
  revert p r. induction evs as [|ev evs IH]; intros p r Hp; cbn [lone_run]; [intros [= <-]; by apply quiet_silence|].
  destruct (lone_step ev p) as [r1|] eqn:E; [|done]. pose proof (lone_step_quiet _ _ _ Hp E) as [Ho1 Hr1].
  destruct r1 as [o1 [[[] p1]|why]]; [|intros [= <-]; by split].
  destruct (lone_run evs p1) as [[o2 r2]|] eqn:E2; [|done]. intros [= <-]. destruct (IH p1 _ Hr1 E2) as [Ho2 Hr2].
  split; [|done]. cbn [fst]. intros a [Ha|Ha]%elem_of_app; auto.
Qed.

(** The health check of a node whose peers are all silent. *)
Lemma all_forgotten now b : (∀ id q, n_peers (b_node b) !! id = Some q → silent now q = true) → n_messageChan (b_node b) = [] →
  ∃ b', checkPeersHealth now b = ([], Ret ((), b')) ∧ node_alone b'.
Proof.
  intros Hs Hm. unfold checkPeersHealth. rewrite (bind_silent get _ b b b) by done.
  destruct (health_run now (go_range (n_peers (b_node b))) b) as (dead & ps & E & Hps & _). eexists. split; [exact E|].
  split; [|exact Hm]. cbn. apply map_eq. intros id. rewrite lookup_empty. destruct (ps !! id) as [q|] eqn:Eq; [|done].
  apply Hps in Eq as [Hq Hn]. specialize (Hn q (proj2 (elem_of_go_range _ _ _) Hq)). by rewrite (Hs _ _ Hq) in Hn.
Qed.
End lemmas.

(** ** Properties *)
Section properties.
Context `{UuidText} `{TimeText} `{MapRange} `{ErrnoText}.

(** C13: a node that has lost all its peers does not come back by itself. When
    none of them was heard for longer than fifteen seconds, the health check
    forgets them all; and however its loops, its elections, the streams it
    serves, its synchronisation as a master, and its end go on from there, in
    any order, no message is sent to anyone, not even a heartbeat, and the node
    has no peer and no message to handle, until somebody opens a connection to
    it. *)
Theorem lost_node_stays_lost now p evs r : n_messageChan (b_node (pr_node p)) = [] →
  (∀ id q, n_peers (b_node (pr_node p)) !! id = Some q → silent now q = true) →
  lone_run (Does (PRound OnPeers now) :: evs) p = Some r →
  (∀ a, a ∈ r.1 → a = GoSyncMetadata) ∧
  match r.2 with
  | Ret (_, p') => GetPeers (b_node (pr_node p')) = [] ∧ n_messageChan (b_node (pr_node p')) = []
  | Panic _ => True
  end.
Proof.
  intros Hm Hs. cbn [lone_run lone_step is_connection perform]. destruct (awake OnPeers p); [|done].
  destruct (all_forgotten now (pr_node p) Hs Hm) as (b & E & Hb). unfold on_full, zoom. cbn [round]. rewrite E.
  destruct (lone_run evs _) as [[o r']|] eqn:El; [|done]. intros [= <-].
  destruct (lone_run_quiet evs (set_pr_node b p) (o, r') Hb El) as [Ho Hr]. split; [exact Ho|]. cbn [snd fst] in *.
  destruct r' as [[[] p']|]; [|done]. split; [by apply alone_peers|exact (proj2 Hr)].
Qed.
End properties.

(** ** Example: both sides of a divided network have a master *)
#[local] Existing Instance decimal_uuids.
#[local] Existing Instance decimal_times.
#[local] Existing Instance canonical_range.
#[local] Instance plain_errors : ErrnoText := λ op _ _, op.

(** The storage node of [Lifecycle.v] loses the master, its only peer, and
    becomes one, while that master may still be there. *)
Definition lost_evs : list LoneEvent :=
  [Does (PRound OnNotified (20 * Second)); Does (PElection 0 0 TimedOut); SyncBegins 5; Does (PRound OnHeartbeat (25 * Second))].

Lemma lost_node_stays_lost_witness : ∃ o p, lone_run (Does (PRound OnPeers (20 * Second)) :: lost_evs) launched = Some (o, Ret ((), p)) ∧
  o = [GoSyncMetadata] ∧ n_Role (b_node (pr_node p)) = RoleMaster ∧ GetPeers (b_node (pr_node p)) = [].
Proof.
  pose (r := lone_run (Does (PRound OnPeers (20 * Second)) :: lost_evs) launched).
  pose (p' := match r with Some (_, Ret (_, p)) => p | _ => launched end).
  assert (r = Some ([GoSyncMetadata], Ret ((), p'))) as E by (vm_compute; reflexivity).
  exists [GoSyncMetadata], p'. split; [exact E|]. split; [reflexivity|]. split; [vm_compute; reflexivity|].
  refine (proj1 (proj2 (lost_node_stays_lost (20 * Second) launched lost_evs _ eq_refl _ E))).
  intros id q Hq. change (({[ 9%N := silent_master ]} : gmap uuid NodeInfo) !! id = Some q) in Hq.
  apply lookup_singleton_Some in Hq as [_ <-]. reflexivity.
Defined.
