(* ===== verification/Lab.v ===== *)
(** * Several nodes in one program

    The programs [backend/cmd/test-*] and [backend/cmd/exp-*] start a few
    nodes on addresses of their own machine, call their methods, sleep, and
    print or record what they see. Here is what they have in common: the nodes
    with their goroutines ([Lifecycle.v]) on one clock, the messages between
    them, and the calls of the main goroutine. What the other goroutines do
    while it sleeps is a parameter, a [Schedule]; [prompt] is one in which
    messages arrive at once and timers fire when they are due. *)

From S2P Require Import Prelude GoStd Types Json Session Fs LocalStorage StreamServer NodeState NodeLocks NodeFiles Bully Node Client EndToEnd Lifecycle.

(** A goroutine that a method of a node has started. *)
Inductive Goroutine :=
| Sending (ip : string) (port : Z) (msg : Message)
| SyncBegins
| SyncEnds (deadline : Z).

(** A node in the program. For the schedules: when its tickers fire next, and
    since when each of its elections is blocked. *)
Record Host := mkHost {
  h_process : Process;
  h_tickers : list (Round * Z);
  h_blocked : list Z }.

(** The program: its clock, the nodes in the order of their creation, the
    goroutines that are started but have not run, and how many identifiers
    were drawn. *)
Record Lab := mkLab {
  lb_now : Z;
  lb_hosts : list Host;
  lb_started : list (nat * Goroutine);
  lb_ids : N }.

Definition set_now (t : Z) (L : Lab) : Lab := mkLab t (lb_hosts L) (lb_started L) (lb_ids L).
Definition set_hosts (hs : list Host) (L : Lab) : Lab := mkLab (lb_now L) hs (lb_started L) (lb_ids L).
Definition set_started (gs : list (nat * Goroutine)) (L : Lab) : Lab := mkLab (lb_now L) (lb_hosts L) gs (lb_ids L).
Definition set_ids (k : N) (L : Lab) : Lab := mkLab (lb_now L) (lb_hosts L) (lb_started L) k.

(** The visible actions of a program: the lines it prints, and the records it
    writes. *)
Inductive LAct :=
| Print (line : string)
| Record_ (fields : list string).

Abbreviation LabM := (GoM Lab LAct).

(** What the other goroutines do while the main goroutine sleeps at least [d],
    and while it waits for a message on a channel, but not longer than until
    [t]. *)
Class Schedule := { elapse : Z → LabM (); await (t : Z) : LabM () }.

(** [log.Fatalf]: the line, and the end of the program. *)
Definition Fatal {A} (line : string) : LabM A := _ ← emit (Print line); panic "exit status 1".

(** A task of an elector that blocks: until when, if it began at [t]. *)
Definition task_deadline (t : Z) (task : Task) : Z :=
  match task with
  | WaitOK _ => t + electionTimeout
  | WaitCancel _ _ => t + coordinatorWaitTimeout
  | SendingOK _ | Starting => t
  end.

Section lab.
Context `{UuidText} `{TimeText} `{MapRange} `{ErrnoText}.

Definition node_of (h : Host) : Node := b_node (pr_node (h_process h)).

Definition goroutines_of (i : nat) (o : list NAct) : list (nat * Goroutine) :=
  omap (λ a, match a with
             | GoSend ip port msg => Some (i, Sending ip port msg)
             | GoSyncMetadata => Some (i, SyncBegins)
             | _ => None
             end) o.

(** The elections that are blocked now and were not before begin at [t]. *)
Definition note_blocked (t : Z) (tasks : nat) (since : list Z) : list Z :=
  take tasks since ++ replicate (tasks - length since) t.

(** A host whose process has taken a step, with what the step started. *)
Definition stepped (i : nat) (p : Process) (o : list NAct) (L : Lab) : Lab :=
  set_started (lb_started L ++ goroutines_of i o)
    (set_hosts (alter (λ h, mkHost p (h_tickers h)
       (note_blocked (lb_now L) (length (b_tasks (pr_node p))) (h_blocked h))) i (lb_hosts L)) L).

(** The method of a node, called by the main goroutine. *)
Definition call {A} (i : nat) (m : FullM A) : LabM A := λ L,
  match lb_hosts L !! i with
  | None => ([], Panic "invalid memory address or nil pointer dereference")
  | Some h =>
    match m (pr_node (h_process h)) with
    | (o, Ret (a, b)) => ([], Ret (a, stepped i (set_pr_node b (h_process h)) o L))
    | (_, Panic why) => ([], Panic why)
    end
  end.

(** A step of a goroutine of a node; [false] if it is not possible. *)
Definition goes (i : nat) (ev : PEvent) : LabM bool := λ L,
  match lb_hosts L !! i with
  | None => ([], Ret (false, L))
  | Some h =>
    match perform ev (h_process h) with
    | None => ([], Ret (false, L))
    | Some (_, Panic why) => ([], Panic why)
    | Some (o, Ret (_, p)) => ([], Ret (true, stepped i p o L))
    end
  end.

(** [uuid.New()] *)
Definition new_id : LabM uuid := k ← gets lb_ids; _ ← modify (set_ids (k + 1)%N); mret (k + 1)%N.

(** [time.Now()] *)
Definition Now : LabM Z := gets lb_now.

(** The first host that listens at an address. *)
Definition listens (ip : string) (port : Z) (h : Host) : bool :=
  bool_decide (n_IP (node_of h) = ip ∧ n_Port (node_of h) = port) && sd_open (pr_down (h_process h)).

Definition host_at (ip : string) (port : Z) (L : Lab) : option nat :=
  fst <$> list_find (λ h, listens ip port h = true) (lb_hosts L).

Fixpoint repeat_goes (k : nat) (i : nat) (ev : PEvent) : LabM () :=
  match k with
  | O => skip
  | S k' => went ← goes i ev; if went : bool then repeat_goes k' i ev else skip
  end.

(** A connection that a host has accepted, with what the host writes. *)
Definition talk (i : nat) (newSession newReply : uuid) (m : MessageWithTime) : LabM (option MessageWithTime) := λ L,
  match lb_hosts L !! i with
  | None => ([], Ret (None, L))
  | Some h =>
    match perform (PConnection (lb_now L) newSession newReply (Some m)) (h_process h) with
    | None => ([], Ret (None, L))
    | Some (_, Panic why) => ([], Panic why)
    | Some (o, Ret (_, p)) => ([], Ret (head (omap encoded o), stepped i p o L))
    end
  end.

(** A connection to a host, up to its end. The accept loop goes on until it
    blocks. *)
Definition connect (i : nat) (m : MessageWithTime) : LabM (option MessageWithTime) :=
  _ ← repeat_goes 2 i (PAccept Proceed);
  _ ← goes i (PAccept Incoming);
  _ ← repeat_goes 3 i (PAccept Proceed);
  newSession ← new_id;
  newReply ← new_id;
  talk i newSession newReply m.

(** A goroutine [SendMessage] of the [i]-th host, from its start to its end. *)
Definition send (i : nat) (ip : string) (port : Z) (msg : Message) : LabM () := λ L,
  match lb_hosts L !! i with
  | None => ([], Ret ((), L))
  | Some h =>
    let target := host_at ip port L in
    let net := if target then [Delivered] else [DialFails; DialFails; DialFails] in
    match on_node (SendMessage net ip port msg) (pr_node (h_process h)) with
    | (_, Panic why) => ([], Panic why)
    | (o, Ret (_, b)) =>
      let L' := stepped i (set_pr_node b (h_process h)) o L in
      match target, omap encoded o with
      | Some j, m :: _ => (_ ← connect j m; skip) L'
      | _, _ => ([], Ret ((), L'))
      end
    end
  end.

(** [DiscoverPeers], called by the main goroutine: what the node writes is what
    the seed reads, and the other way round. *)
Definition discover (i : nat) (seedIP : string) (seedPort : Z) : LabM bool :=
  L ← get;
  now ← Now;
  match host_at seedIP seedPort L with
  | None => call i (on_node (DiscoverPeers now SeedUnreachable seedIP seedPort))
  | Some j =>
    match lb_hosts L !! i with
    | None => panic "invalid memory address or nil pointer dereference"
    | Some h =>
      match omap encoded (outs_of (DiscoverPeers now SeedReadFails seedIP seedPort (node_of h))) with
      | [] => mret false
      | request :: _ =>
        answer ← connect j request;
        call i (on_node (DiscoverPeers now (match answer with Some m => SeedAnswers m | None => SeedReadFails end) seedIP seedPort))
      end
    end
  end.

(** The tickers that the goroutines of a node make when they start. *)
Definition tickers_at (t : Z) : list (Round * Z) :=
  [(OnHeartbeat, t + 5 * Second); (OnPeers, t + 5 * Second); (OnLocks, t + 5 * Second); (OnDeadlocks, t + 10 * Second);
   (OnLeader, t + 2 * Second); (OnCleanup, t + Minute)].

Definition period (r : Round) : Z :=
  match r with
  | OnHeartbeat | OnPeers | OnLocks => 5 * Second
  | OnDeadlocks => 10 * Second
  | OnLeader => 2 * Second
  | _ => Minute
  end.

(** [CreateNodeWithBully]: the index of the host. *)
Definition created (id : uuid) (ip : string) (port : Z) (role : NodeRole) (priority : Z) : LabM nat := λ L,
  match CreateNodeWithBully id (mkDisk ∅ ∅ []) ip ip port role priority with
  | (_, Panic why) => ([], Panic why)
  | (o, Ret (_, b)) =>
    let p := mkProcess b false (mkShutdown StopIdle false false false false true) Returned 0 Returned 0 0 (λ _, false) in
    let i := length (lb_hosts L) in
    ([], Ret (i, stepped i p o (set_hosts (lb_hosts L ++ [mkHost p [] []]) L)))
  end.

Definition create_node (ip : string) (port : Z) (role : NodeRole) (priority : Z) : LabM nat :=
  id ← new_id; created id ip port role priority.

(** [Start], which fails when another node listens at the address. *)
Definition start_node (i : nat) : LabM bool := λ L,
  match lb_hosts L !! i with
  | None => ([], Panic "invalid memory address or nil pointer dereference")
  | Some h =>
    let free := negb (existsb (listens (n_IP (node_of h)) (n_Port (node_of h))) (lb_hosts L)) in
    match launch free free (pr_node (h_process h)) with
    | (_, Panic why) => ([], Panic why)
    | (o, Ret (ok, p)) =>
      ([], Ret (ok, set_hosts (alter (λ h, mkHost (h_process h) (if ok then tickers_at (lb_now L) else []) (h_blocked h)) i
             (lb_hosts (stepped i p o L))) (stepped i p o L)))
    end
  end.

(** [Stop], called by the main goroutine, if the streams of the node have
    ended. *)
Definition stop_node_at (i : nat) : LabM () := repeat_goes 8 i PStop.
End lab.

(** ** What the main goroutine does *)
Section main.
Context `{UuidText} `{TimeText} `{MapRange} `{ErrnoText} `{Schedule}.

Definition println (line : string) : LabM () := emit (Print line).
Definition sleep (d : Z) : LabM () := elapse d.

(** A statement; then the others may run. *)
Definition stm {A} (m : LabM A) : LabM A := a ← m; _ ← elapse 0; mret a.

Definition CreateNode (ip : string) (port : Z) (role : NodeRole) (priority : Z) : LabM nat := stm (create_node ip port role priority).
Definition StartNode (i : nat) : LabM bool := stm (start_node i).
Definition StopNode (i : nat) : LabM () := stm (stop_node_at i).
Definition Discover (i : nat) (port : Z) : LabM bool := stm (discover i "127.0.0.1" port).
Definition Request (i : nat) (r : string) : LabM () := stm (now ← Now; call i (on_node (RequestLock now r))).
Definition CanEnter (i : nat) (r : string) : LabM bool := stm (now ← Now; call i (on_node (CanEnterCriticalSection now r))).
Definition Enter (i : nat) (r : string) : LabM bool := stm (now ← Now; call i (on_node (EnterCriticalSection now r))).
Definition Release (i : nat) (r : string) : LabM () := stm (call i (on_node (ReleaseLock r))).

Definition node_state (i : nat) : LabM Node := call i (gets b_node).
Definition InfoOf (i : nat) : LabM NodeInfo := now ← Now; n ← node_state i; mret (GetNodeInfo now n).
Definition PeersOf (i : nat) : LabM (list NodeInfo) := n ← node_state i; mret (GetPeers n).
Definition RoleOf (i : nat) : LabM NodeRole := n ← node_state i; mret (n_Role n).

(** [nodes[i].AddPeer(nodes[j].GetNodeInfo())] for all pairs. *)
Definition ConnectAll (nodes : list nat) : LabM () :=
  for_each nodes (λ i, for_each nodes (λ j,
    if decide (i = j) then skip
    else stm (info ← InfoOf j; now ← Now; call i (on_node (AddPeer now info))))).
End main.

(** ** A prompt schedule

    Whatever can run runs before time goes on, in a fixed order; timers fire in
    the order in which they are due. *)
Section prompt.
Context `{UuidText} `{TimeText} `{MapRange} `{ErrnoText}.

(** The first of these steps that is possible; [false] if none is. *)
Fixpoint first_of (steps : list (LabM bool)) : LabM bool :=
  match steps with
  | [] => mret false
  | m :: steps' => went ← m; if went : bool then mret true else first_of steps'
  end.

Definition answered (n : Node) : bool :=
  match ma_pendingMetadataSync (n_master n) with Some s => mss_Done s | None => false end.

Definition runnable (L : Lab) (g : nat * Goroutine) : bool :=
  match g.2 with
  | SyncEnds deadline => (deadline <=? lb_now L) || match lb_hosts L !! g.1 with Some h => answered (node_of h) | None => false end
  | _ => true
  end.

Definition run_goroutine (g : nat * Goroutine) : LabM () :=
  match g.2 with
  | Sending ip port msg => send g.1 ip port msg
  | SyncBegins =>
    newID ← new_id;
    waits ← call g.1 (on_node (syncMetadata_begin newID));
    if waits : bool then now ← Now; modify (λ L, set_started (lb_started L ++ [(g.1, SyncEnds (now + 10 * Second))]) L)
    else skip
  | SyncEnds _ => call g.1 (on_node syncMetadata_end)
  end.

Definition next_goroutine : LabM bool :=
  L ← get;
  match list_find (λ g, runnable L g = true) (lb_started L) with
  | None => mret false
  | Some (k, g) => _ ← modify (set_started (delete k (lb_started L))); _ ← run_goroutine g; mret true
  end.

(** The first blocked election of a host that can go on. *)
Definition due_task (L : Lab) (h : Host) : option (nat * Wakeup) :=
  (λ x, (x.1, if resumable x.2.1 Received (pr_node (h_process h)) then Received else TimedOut)) <$>
    list_find (λ x, (resumable x.1 Received (pr_node (h_process h)) || (task_deadline x.2 x.1 <=? lb_now L)) = true)
      (zip (b_tasks (pr_node (h_process h))) (h_blocked h)).

Definition next_task (i : nat) : LabM bool :=
  L ← get;
  match lb_hosts L !! i ≫= due_task L with
  | None => mret false
  | Some (k, w) =>
    _ ← modify (λ L, set_hosts (alter (λ h, mkHost (h_process h) (h_tickers h) (delete k (h_blocked h))) i (lb_hosts L)) L);
    goes i (PElection (lb_now L) k w)
  end.

Definition next_of_host (i : nat) : LabM bool :=
  now ← Now;
  first_of ([goes i (PRound OnMessage now); next_task i; goes i (PRound OnNotified now);
             goes i (PAccept Proceed); goes i (PStreamAccept Proceed)] ++
            ((λ l, goes i (PReturn l)) <$> all_loops)).

(** Until nothing can run. *)
Fixpoint settle (fuel : nat) : LabM () :=
  match fuel with
  | O => panic out_of_fuel
  | S fuel' =>
    L ← get;
    went ← first_of (next_goroutine :: (next_of_host <$> seq 0 (length (lb_hosts L))));
    if went : bool then settle fuel' else skip
  end.

(** When the next timer is due. *)
Definition host_times (h : Host) : list Z :=
  (snd <$> filter (λ x, pr_loops (h_process h) (loop_of x.1) = true) (h_tickers h)) ++
  zip_with (λ task t, task_deadline t task) (b_tasks (pr_node (h_process h))) (h_blocked h).

Definition goroutine_times (gs : list (nat * Goroutine)) : list Z :=
  omap (λ g, match g.2 with SyncEnds deadline => Some deadline | _ => None end) gs.

Definition next_time (L : Lab) : option Z :=
  match goroutine_times (lb_started L) ++ (lb_hosts L ≫= host_times) with
  | [] => None
  | t :: ts => Some (fold_left Z.min ts t)
  end.

Definition fire_one (i : nat) (x : Round * Z) : LabM (Round * Z) :=
  now ← Now;
  if now <? x.2 then mret x else _ ← goes i (PRound x.1 now); mret (x.1, x.2 + period x.1).

Fixpoint fire_all (i : nat) (xs : list (Round * Z)) : LabM (list (Round * Z)) :=
  match xs with
  | [] => mret []
  | x :: xs' => y ← fire_one i x; ys ← fire_all i xs'; mret (y :: ys)
  end.

Definition fire (i : nat) : LabM () :=
  L ← get;
  ts ← fire_all i (default [] (h_tickers <$> lb_hosts L !! i));
  modify (λ L, set_hosts (alter (λ h, mkHost (h_process h) ts (h_blocked h)) i (lb_hosts L)) L).

(** As much fuel as the programs need between two timers, and timers as they
    need within a sleep; too little of either is a panic. *)
Definition busy : nat := 5000.

Fixpoint until (fuel : nat) (target : Z) : LabM () :=
  match fuel with
  | O => panic out_of_fuel
  | S fuel' =>
    _ ← settle busy;
    L ← get;
    match next_time L with
    | Some t =>
      if t <=? target then
        _ ← modify (set_now (Z.max t (lb_now L)));
        _ ← for_each (seq 0 (length (lb_hosts L))) fire;
        until fuel' target
      else modify (set_now (Z.max target (lb_now L)))
    | None => modify (set_now (Z.max target (lb_now L)))
    end
  end.

Definition prompt : Schedule := {| elapse d := now ← Now; until busy (now + d); await t := until busy t |}.
End prompt.
