(* ===== verification/TestPrograms.v ===== *)
(** * The test programs: [backend/cmd/test-lock], [test-message], [test-bully]
    and [test-sync]

    Each [main] as a program of [Lab.v]: the same nodes, calls, pauses and
    lines, in the same order. The properties are what these programs print
    when they are run on the model, with the prompt schedule. The time stamps
    that [log] puts before its lines, and the texts of errors at their end, are
    left out. *)

From S2P Require Import Prelude GoStd Hashes Types Json Session Fs LocalStorage StreamServer NodeState NodeLocks NodeFiles Bully Node Client EndToEnd Lifecycle Lab.

Definition nl : string := String (Ascii.ascii_of_nat 10) "".
Definition localhost : string := "127.0.0.1".

Section programs.
Context `{UuidText} `{TimeText} `{MapRange} `{ErrnoText} `{Schedule}.

(** ** [cmd/test-lock] *)

(** The end of each turn: whether the node may enter; it holds the lock for
    half a second. *)
Definition take_turn (node : nat) (enters error : string) : LabM () :=
  can ← CanEnter node "shared.txt";
  if can : bool then
    _ ← println enters;
    _ ← sleep (500 * Millisecond);
    Release node "shared.txt"
  else println error.

Definition test_lock_single : LabM nat :=
  _ ← println (nl +:+ "test 1: single node");
  node1 ← CreateNode "localhost" 8001 RoleStorage 1;
  _ ← StartNode node1;
  _ ← sleep (100 * Millisecond);
  _ ← Request node1 "file.txt";
  _ ← sleep (200 * Millisecond);
  can ← CanEnter node1 "file.txt";
  _ ← (if can : bool then _ ← println "[X] single node can enter"; Release node1 "file.txt"
       else println "ERROR: single node cannot enter");
  mret node1.

Definition test_lock : LabM () :=
  node1 ← test_lock_single;
  _ ← println (nl +:+ "test 2: five nodes");
  node2 ← CreateNode "localhost" 8002 RoleStorage 2;
  node3 ← CreateNode "localhost" 8003 RoleStorage 3;
  node4 ← CreateNode "localhost" 8004 RoleStorage 4;
  node5 ← CreateNode "localhost" 8005 RoleStorage 5;
  _ ← for_each [node2; node3; node4; node5] (λ n, _ ← StartNode n; skip);
  _ ← sleep (200 * Millisecond);
  let nodes := [node1; node2; node3; node4; node5] in
  _ ← ConnectAll nodes;
  _ ← sleep (200 * Millisecond);
  _ ← println (nl +:+ "All nodes requesting lock on 'shared.txt'...");
  _ ← Request node1 "shared.txt";
  _ ← sleep (50 * Millisecond);
  _ ← Request node3 "shared.txt";
  _ ← sleep (30 * Millisecond);
  _ ← Request node5 "shared.txt";
  _ ← sleep (20 * Millisecond);
  _ ← Request node2 "shared.txt";
  _ ← sleep (40 * Millisecond);
  _ ← Request node4 "shared.txt";
  _ ← sleep (1 * Second);
  _ ← println (nl +:+ "--- Expected order based on timestamps ---");
  _ ← println "1. Node1 (requested first)";
  _ ← println "2. Node3";
  _ ← println "3. Node5";
  _ ← println "4. Node2";
  _ ← println "5. Node4 (requested last)";
  _ ← println "------------------------------------------";
  _ ← take_turn node1 "[1/5] Node1 enters critical section" "ERROR: Node1 should enter first";
  _ ← sleep (300 * Millisecond);
  _ ← take_turn node3 "[2/5] Node3 enters critical section" "ERROR: Node3 should enter second";
  _ ← sleep (300 * Millisecond);
  _ ← take_turn node5 "[3/5] Node5 enters critical section" "ERROR: Node5 should enter third";
  _ ← sleep (300 * Millisecond);
  _ ← take_turn node2 "[4/5] Node2 enters critical section" "ERROR: Node2 should enter fourth";
  _ ← sleep (300 * Millisecond);
  _ ← take_turn node4 "[5/5] Node4 enters critical section (last)" "ERROR: Node4 should enter last";
  _ ← sleep (1 * Second);
  _ ← for_each nodes StopNode;
  println "Done.".

(** ** [cmd/test-bully] *)

Definition peer_line (peer : NodeInfo) : string :=
  "  -> Peer " +:+ uuid_String (ni_ID peer) +:+ ": Priority=" +:+ itoa (ni_Priority peer) +:+ ", Role=" +:+ ni_Role peer.

Definition print_node (title : string) (node : option nat) : LabM () :=
  match node with
  | None => skip
  | Some i =>
    info ← InfoOf i;
    _ ← println (title +:+ ": Role=" +:+ ni_Role info +:+ ", Status=" +:+ ni_Status info);
    peers ← PeersOf i;
    for_each peers (λ peer, println (peer_line peer))
  end.

Definition printCoordinatorStatus (node1 node2 node3 : option nat) : LabM () :=
  _ ← print_node "Node1 (Priority 10)" node1;
  _ ← print_node "Node2 (Priority 5)" node2;
  print_node "Node3 (Priority 1)" node3.

Definition must_start (i : nat) (name : string) : LabM () :=
  ok ← StartNode i;
  if ok : bool then skip else Fatal ("Failed to start " +:+ name).

(** The nodes, and the first of three rounds: each finds its peers. *)
Definition test_bully_start : LabM (nat * nat * nat) :=
  _ ← println "Bully algorithm test";
  _ ← println "";
  node1 ← CreateNode localhost 9000 RoleMaster 10;
  node2 ← CreateNode localhost 9001 RoleStorage 5;
  node3 ← CreateNode localhost 9002 RoleStorage 1;
  _ ← must_start node1 "node1";
  _ ← must_start node2 "node2";
  _ ← must_start node3 "node3";
  let warn (ok : bool) (name : string) : LabM () := if ok then skip else println ("Warning: Discovery error on " +:+ name) in
  ok ← Discover node2 9000; _ ← warn ok "node2";
  ok ← Discover node3 9000; _ ← warn ok "node3";
  ok ← Discover node3 9001; _ ← warn ok "node3";
  _ ← println "Waiting for heartbeats (6 seconds)...";
  _ ← sleep (6 * Second);
  _ ← println "";
  mret (node1, node2, node3).

Definition test_bully : LabM () :=
  '(node1, node2, node3) ← test_bully_start;
  peers1 ← PeersOf node1;
  peers2 ← PeersOf node2;
  peers3 ← PeersOf node3;
  let counts := itoa (Z.of_nat (length peers1)) +:+ " peers, node2 has " +:+ itoa (Z.of_nat (length peers2)) +:+
                " peers, node3 has " +:+ itoa (Z.of_nat (length peers3)) +:+ " peers" in
  _ ← (if decide (length peers1 ≠ 2%nat ∨ length peers2 ≠ 2%nat ∨ length peers3 ≠ 2%nat)
       then Fatal ("Peer discovery failed: node1 has " +:+ counts) else skip);
  _ ← println "Peer discovery successfull";
  _ ← printCoordinatorStatus (Some node1) (Some node2) (Some node3);
  _ ← println "Stopping node1";
  _ ← StopNode node1;
  _ ← println "Waiting for election (20 seconds)...";
  _ ← sleep (20 * Second);
  _ ← println "After election:";
  _ ← printCoordinatorStatus None (Some node2) (Some node3);
  _ ← println "Stopping node2";
  _ ← StopNode node2;
  _ ← println "Waiting for election (20 seconds)...";
  _ ← sleep (20 * Second);
  _ ← println "After election:";
  printCoordinatorStatus None None (Some node3).

(** ** [cmd/test-message] *)

Definition known_peer_line (peer : NodeInfo) : string :=
  "  - " +:+ uuid_String (ni_ID peer) +:+ " (" +:+ ni_IP peer +:+ ":" +:+ itoa (ni_Port peer) +:+ ") [" +:+ ni_Role peer +:+ "]".

(** [select] over the channels of the two nodes and the timeout: the first
    message of the first channel that has one. *)
Definition take_message (i : nat) : LabM (option Message) :=
  call i (b ← get;
          match n_messageChan (b_node b) with
          | [] => mret None
          | msg :: rest => _ ← on_node (modify (set_messageChan rest)); mret (Some msg)
          end).

Fixpoint check_messages (fuel : nat) (node1 node2 : nat) (timeout : Z) (messagesReceived : nat) : LabM nat :=
  match fuel with
  | O => panic out_of_fuel
  | S fuel' =>
    let received (name : string) (msg : Message) : LabM () :=
      println (name +:+ " received: " +:+ msg_Type msg +:+ " from " +:+ uuid_String (msg_From msg)) in
    m1 ← take_message node1;
    match m1 with
    | Some msg => _ ← received "Node1" msg; check_messages fuel' node1 node2 timeout (S messagesReceived)
    | None =>
      m2 ← take_message node2;
      match m2 with
      | Some msg => _ ← received "Node2" msg; check_messages fuel' node1 node2 timeout (S messagesReceived)
      | None =>
        now ← Now;
        if timeout <=? now then mret messagesReceived
        else _ ← await timeout; check_messages fuel' node1 node2 timeout messagesReceived
      end
    end
  end.

Definition test_message_peers (node1 node2 : nat) : LabM () :=
  peers1 ← PeersOf node1;
  peers2 ← PeersOf node2;
  info1 ← InfoOf node1;
  info2 ← InfoOf node2;
  let knows (name : string) (info : NodeInfo) (peers : list NodeInfo) : LabM () :=
    _ ← println (name +:+ " (" +:+ uuid_String (ni_ID info) +:+ ") knows about " +:+ itoa (Z.of_nat (length peers)) +:+ " peer(s):");
    _ ← for_each peers (λ peer, println (known_peer_line peer));
    println "" in
  _ ← println "Results";
  _ ← knows "Node1" info1 peers1;
  _ ← knows "Node2" info2 peers2;
  _ ← (if decide ((0 < length peers1)%nat ∧ (0 < length peers2)%nat) then
         _ ← println "SUCCESS: Nodes discovered each other!";
         _ ← println "   - Heartbeat mechanism working";
         _ ← println "   - Discovery mechanism working";
         println "   - Peer management working"
       else
         _ ← println "FAILED: Nodes did not discover each other";
         _ ← (if decide (length peers1 = 0%nat) then println "   - Node1 has no peers" else skip);
         if decide (length peers2 = 0%nat) then println "   - Node2 has no peers" else skip);
  println "".

Definition test_message : LabM () :=
  _ ← println "Node Communication Test";
  _ ← println "";
  _ ← println "Creating nodes...";
  node1 ← CreateNode localhost 9000 RoleMaster 10;
  node2 ← CreateNode localhost 9001 RoleStorage 5;
  info1 ← InfoOf node1;
  info2 ← InfoOf node2;
  _ ← println ("Node1 ID: " +:+ uuid_String (ni_ID info1));
  _ ← println ("Node2 ID: " +:+ uuid_String (ni_ID info2));
  _ ← println "";
  _ ← println "Starting nodes...";
  _ ← must_start node1 "node1";
  _ ← must_start node2 "node2";
  _ ← println "Both nodes started";
  _ ← println "";
  _ ← sleep Second;
  _ ← println "Starting discovery...";
  ok ← Discover node2 9000;
  _ ← (if ok : bool then println "Discovery request sent" else println "Warning: Discovery error");
  _ ← println "";
  _ ← println "Waiting for heartbeats (6 seconds)...";
  _ ← sleep (6 * Second);
  _ ← println "";
  _ ← test_message_peers node1 node2;
  _ ← println "Testing message channels...";
  now ← Now;
  messagesReceived ← check_messages busy node1 node2 (now + 3 * Second) 0;
  _ ← (if decide (0 < messagesReceived)%nat
       then println ("Message system working (" +:+ itoa (Z.of_nat messagesReceived) +:+ " messages received)")
       else println "No messages captured (this is OK, they might have been processed already)");
  _ ← println "";
  _ ← println "Stopping nodes...";
  _ ← StopNode node1;
  _ ← StopNode node2;
  _ ← println "Nodes stopped";
  _ ← println "";
  println "Test Complete".

(** ** [cmd/test-sync] *)

Definition rule : string := "═══════════════════════════════════════════════════════".

Fixpoint print_nodes (i : nat) (nodes : list (option nat)) : LabM () :=
  match nodes with
  | [] => skip
  | n :: nodes' =>
    _ ← (match n with
         | None => println ("  Node " +:+ itoa (Z.of_nat (i + 1)) +:+ ": STOPPED")
         | Some k =>
           info ← InfoOf k;
           peers ← PeersOf k;
           println ("  Node " +:+ itoa (Z.of_nat (i + 1)) +:+ ": Role=" +:+ ni_Role info +:+ ", Priority=" +:+ itoa (ni_Priority info) +:+
                    ", Peers=" +:+ itoa (Z.of_nat (length peers)))
         end);
    print_nodes (S i) nodes'
  end.

Definition printStatus (nodes : list (option nat)) : LabM () :=
  _ ← println "";
  _ ← println rule;
  _ ← print_nodes 0 nodes;
  _ ← println rule;
  println "".

Fixpoint findMaster (nodes : list (option nat)) : LabM (option nat) :=
  match nodes with
  | [] => mret None
  | None :: nodes' => findMaster nodes'
  | Some i :: nodes' =>
    role ← RoleOf i;
    if String.eqb role RoleMaster then mret (Some i) else findMaster nodes'
  end.

(** [GetStorage().SaveFile]: [true] is a nil error. *)
Definition SaveOn (i : nat) (fileID : uuid) (name content : string) : LabM bool :=
  stm (now ← Now;
       r ← call i (on_node (storage (SaveFile now now fileID name "text/plain" (mkReader (bytes_of content) false))));
       mret (match r with inl _ => false | inr _ => true end)).

Definition FilesOn (i : nat) : LabM nat := l ← call i (on_node (storage GetAllMetadata)); mret (length l).

Definition store_file (label warning : string) (i : nat) (name content : string) : LabM () :=
  fileID ← new_id;
  ok ← SaveOn i fileID name content;
  if ok : bool then println ("  Stored: " +:+ name +:+ " (ID: " +:+ uuid_String fileID +:+ ")")
  else println ("  Warning: Failed to save " +:+ warning).

(** Steps 1 to 4: a master and three storage nodes that know each other. *)
Definition test_sync_start : LabM (nat * nat * nat * nat) :=
  _ ← println rule;
  _ ← println "        METADATA SYNC AFTER ELECTION TEST";
  _ ← println rule;
  _ ← println "";
  _ ← println "Step 1: Creating nodes...";
  master ← CreateNode localhost 9100 RoleMaster 10;
  storage1 ← CreateNode localhost 9101 RoleStorage 5;
  storage2 ← CreateNode localhost 9102 RoleStorage 3;
  storage3 ← CreateNode localhost 9103 RoleStorage 1;
  _ ← println "Step 2: Starting nodes...";
  _ ← must_start master "master";
  _ ← must_start storage1 "storage1";
  _ ← must_start storage2 "storage2";
  _ ← must_start storage3 "storage3";
  _ ← println "Step 3: Discovering peers...";
  _ ← sleep (1 * Second);
  _ ← Discover storage1 9100;
  _ ← Discover storage2 9100;
  _ ← Discover storage3 9100;
  _ ← sleep (1 * Second);
  _ ← Discover storage1 9102;
  _ ← Discover storage1 9103;
  _ ← Discover storage2 9101;
  _ ← Discover storage2 9103;
  _ ← Discover storage3 9101;
  _ ← println "Step 4: Waiting for cluster to stabilize (6s)...";
  _ ← sleep (6 * Second);
  _ ← printStatus [Some master; Some storage1; Some storage2; Some storage3];
  mret (master, storage1, storage2, storage3).

(** Steps 5 to 7: files on the storage nodes. *)
Definition test_sync_files (storage1 storage2 storage3 : nat) : LabM () :=
  _ ← println "Step 5: Storing test files directly on storage nodes...";
  _ ← store_file "test-file-1.txt" "test-file-1.txt" storage1 "test-file-1.txt" "Content of file 1";
  _ ← store_file "test-file-2.txt" "test-file-2.txt" storage2 "test-file-2.txt" "Content of file 2";
  _ ← store_file "test-file-3.txt" "test-file-3.txt" storage3 "test-file-3.txt" "Content of file 3";
  _ ← println "Step 6: Waiting for files to be replicated (3s)...";
  _ ← sleep (3 * Second);
  _ ← println "Step 7: Storing file directly on storage1 (simulate pre-existing data)...";
  _ ← store_file "direct-file.txt" "direct file" storage1 "direct-file.txt" "Direct content on storage1";
  _ ← println "";
  _ ← println "Storage node file counts:";
  n1 ← FilesOn storage1; _ ← println ("  Storage1: " +:+ itoa (Z.of_nat n1) +:+ " files");
  n2 ← FilesOn storage2; _ ← println ("  Storage2: " +:+ itoa (Z.of_nat n2) +:+ " files");
  n3 ← FilesOn storage3; _ ← println ("  Storage3: " +:+ itoa (Z.of_nat n3) +:+ " files");
  println "".

Definition index_line (f : string * GlobalFileInfo) : string :=
  "    - " +:+ gfi_Filename f.2 +:+ " (hash: " +:+ String.substring 0 8 f.1 +:+ "..., replicas: " +:+
  itoa (Z.of_nat (length (gfi_Replicas f.2))) +:+ ")".

(** Steps 10 and 11: the new master and its index. *)
Definition test_sync_check (storage1 storage2 storage3 : nat) : LabM () :=
  _ ← println "Step 10: Checking election results...";
  newMaster ← findMaster [Some storage1; Some storage2; Some storage3];
  match newMaster with
  | None => println "  ERROR: No new master was elected!"
  | Some i =>
    info ← InfoOf i;
    _ ← println ("  SUCCESS: New master elected (Priority=" +:+ itoa (ni_Priority info) +:+ ")");
    _ ← println "";
    _ ← println "Step 11: Verifying metadata sync...";
    n ← node_state i;
    match ma_globalFileIndex (n_master n) with
    | None => println "  WARNING: globalFileIndex is nil"
    | Some index =>
      _ ← println ("  Global file index has " +:+ itoa (Z.of_nat (size index)) +:+ " files:");
      for_each (go_range index) (λ f, println (index_line f))
    end
  end.

Definition test_sync : LabM () :=
  '(master, storage1, storage2, storage3) ← test_sync_start;
  _ ← test_sync_files storage1 storage2 storage3;
  _ ← println "Step 8: Killing the master node...";
  _ ← StopNode master;
  let status := printStatus [None; Some storage1; Some storage2; Some storage3] in
  _ ← status;
  _ ← println "Step 9: Waiting for election + metadata sync (20s)...";
  _ ← println "        (storage1 should become new master and sync metadata)";
  _ ← sleep (20 * Second);
  _ ← status;
  _ ← test_sync_check storage1 storage2 storage3;
  _ ← println "";
  _ ← println "Step 12: Stopping remaining nodes...";
  _ ← for_each [storage1; storage2; storage3] StopNode;
  _ ← println "";
  _ ← println rule;
  _ ← println "                    TEST COMPLETE";
  println rule.
End programs.

(** ** What the programs print *)
#[local] Existing Instance decimal_uuids.
#[local] Existing Instance decimal_times.
#[local] Existing Instance canonical_range.
#[local] Instance plain_errors : ErrnoText := λ op _ _, op.
#[local] Existing Instance prompt.

Definition empty_lab : Lab := mkLab 0 [] [] 0.

Definition printed (o : list LAct) : list string :=
  omap (λ a, match a with Print line => Some line | Record_ _ => None end) o.

(** What a program prints, when it ends without a crash. *)
Definition output (m : LabM ()) : option (list string) :=
  match m empty_lab with (o, Ret _) => Some (printed o) | _ => None end.

(** The lines are printed in this order, with others in between. *)
Fixpoint in_order (lines printed : list string) : bool :=
  match lines, printed with
  | [], _ => true
  | _, [] => false
  | l :: lines', p :: printed' => if String.eqb l p then in_order lines' printed' else in_order lines printed'
  end.

Definition prints (m : LabM ()) (lines : list string) : bool :=
  match output m with Some printed => in_order lines printed | None => false end.

(** The lock test passes: five nodes that ask for the lock one after the
    other get it in this order, one at a time, and none is refused. *)
Theorem test_lock_passes : output test_lock = Some
  [nl +:+ "test 1: single node"; "[X] single node can enter"; nl +:+ "test 2: five nodes";
   nl +:+ "All nodes requesting lock on 'shared.txt'..."; nl +:+ "--- Expected order based on timestamps ---";
   "1. Node1 (requested first)"; "2. Node3"; "3. Node5"; "4. Node2"; "5. Node4 (requested last)";
   "------------------------------------------";
   "[1/5] Node1 enters critical section"; "[2/5] Node3 enters critical section"; "[3/5] Node5 enters critical section";
   "[4/5] Node2 enters critical section"; "[5/5] Node4 enters critical section (last)"; "Done."].
Proof. vm_compute. reflexivity. Qed.

(** The election test passes: three nodes find each other, and twenty
    seconds after the master was stopped the node of the next priority is the
    master and the others know it; and so again when that one is stopped. *)
Theorem test_bully_passes : prints test_bully
  ["Peer discovery successfull"; "Node1 (Priority 10): Role=master, Status=online"; "Stopping node1"; "After election:";
   "Node2 (Priority 5): Role=master, Status=online"; "  -> Peer 4: Priority=1, Role=storage";
   "Node3 (Priority 1): Role=storage, Status=online"; "  -> Peer 3: Priority=5, Role=master";
   "Stopping node2"; "After election:"; "Node3 (Priority 1): Role=master, Status=online"] = true.
Proof. vm_compute. reflexivity. Qed.

(** Two nodes discover each other; their own loops take all messages. *)
Theorem test_message_passes : prints test_message
  ["Node1 (1) knows about 1 peer(s):"; "  - 3 (127.0.0.1:9001) [storage]"; "Node2 (3) knows about 1 peer(s):";
   "  - 1 (127.0.0.1:9000) [master]"; "SUCCESS: Nodes discovered each other!";
   "No messages captured (this is OK, they might have been processed already)"; "Test Complete"] = true.
Proof. vm_compute. reflexivity. Qed.

(** A node that becomes the master does not index its own files. In the
    test of the synchronisation the storage nodes have four files, two of them
    on the one that is elected; its index then has the two of the other nodes,
    so nobody can download the rest any more. *)
Theorem new_master_forgets_own_files : prints test_sync
  ["  Stored: test-file-1.txt (ID: 88)"; "  Stored: direct-file.txt (ID: 115)";
   "  Storage1: 2 files"; "  Storage2: 1 files"; "  Storage3: 1 files"; "Step 8: Killing the master node...";
   "  Node 2: Role=master, Priority=5, Peers=2"; "  SUCCESS: New master elected (Priority=5)";
   "  Global file index has 2 files:"; "    - test-file-2.txt (hash: 52a426fb..., replicas: 1)";
   "    - test-file-3.txt (hash: 87a78cc9..., replicas: 1)"; ""; "Step 12: Stopping remaining nodes..."] = true.
Proof. vm_compute. reflexivity. Qed.
