(* ===== verification/Experiments.v ===== *)
(** * The experiments: [backend/cmd/exp-lock], [exp-deadlock] and [exp-bully]

    Each [main] as a program of [Lab.v], with its flags as arguments and the
    records that it gives to its writer ([Csv.v]) as its actions. A polling
    loop has as much fuel as its deadline allows it rounds. *)

From S2P Require Import Prelude GoStd Types Json Session Fs LocalStorage StreamServer NodeState NodeLocks NodeFiles Bully Node Client EndToEnd Lifecycle Csv Lab TestPrograms.

(** [d.Milliseconds()] *)
Definition Milliseconds (d : Z) : Z := Z.quot d Millisecond.

Definition millis (n : Z) : Z := n * Millisecond.

(** [startedNode]; the pointer is nil once the node has been stopped. *)
Record startedNode := mkStartedNode { sn_n : option nat; sn_port : Z; sn_priority : Z }.

Section experiments.
Context `{UuidText} `{TimeText} `{MapRange} `{ErrnoText} `{Schedule}.

Definition write_record (record : list string) : LabM () := emit (Record_ record).

(** [for time.Now().Before(deadline) { if cond() { return }; time.Sleep(pause) }]:
    whether the condition came to hold. *)
Fixpoint poll (fuel : nat) (cond : LabM bool) (pause deadline : Z) : LabM bool :=
  match fuel with
  | O => panic out_of_fuel
  | S fuel' =>
    now ← Now;
    if now <? deadline then
      ok ← cond;
      if ok : bool then mret true
      else _ ← sleep pause; poll fuel' cond pause deadline
    else mret false
  end.

(** A round takes at least a pause. *)
Definition rounds (timeout pause : Z) : nat := S (S (Z.to_nat (timeout / pause))).

Definition poll_for (timeout pause : Z) (cond : LabM bool) : LabM bool :=
  now ← Now; poll (rounds timeout pause) cond pause (now + timeout).

Definition waitUntil (cond : LabM bool) (timeout : Z) : LabM () := _ ← poll_for timeout (millis 10) cond; skip.

Fixpoint stopAll (nodes : list startedNode) : LabM (list startedNode) :=
  match nodes with
  | [] => mret []
  | s :: nodes' =>
    _ ← (match sn_n s with Some i => StopNode i | None => skip end);
    rest ← stopAll nodes';
    mret (mkStartedNode None (sn_port s) (sn_priority s) :: rest)
  end.

(** [cancel()]: the context of the nodes of a run ends. *)
Definition cancel (nodes : list startedNode) : LabM () :=
  stm (for_each nodes (λ s, match sn_n s with Some i => _ ← goes i PCancel; skip | None => skip end)).

Definition end_run (nodes : list startedNode) : LabM () :=
  _ ← stopAll nodes; _ ← cancel nodes; sleep (millis 200).

Definition indices (nodes : list startedNode) : list nat := omap sn_n nodes.

(** Start the nodes that were created, in order; when one does not start, all
    are stopped and the program ends. *)
Fixpoint start_all (nodes todo : list startedNode) : LabM () :=
  match todo with
  | [] => skip
  | s :: todo' =>
    ok ← (match sn_n s with Some i => StartNode i | None => mret true end);
    if ok : bool then start_all nodes todo'
    else _ ← stopAll nodes; _ ← cancel nodes; Fatal "start: failed to start listener"
  end.

(** ** [cmd/exp-lock] *)

Fixpoint startLockCluster_from (basePort : Z) (i todo : nat) (nodes : list startedNode) : LabM (list startedNode) :=
  match todo with
  | O => mret nodes
  | S todo' =>
    let priority := Z.of_nat i + 1 in
    n ← CreateNode localhost (basePort + Z.of_nat i) RoleStorage priority;
    ok ← StartNode n;
    if ok : bool then
      startLockCluster_from basePort (S i) todo' (nodes ++ [mkStartedNode (Some n) (basePort + Z.of_nat i) priority])
    else _ ← stopAll nodes; Fatal ("start node " +:+ itoa (Z.of_nat i))
  end.

Definition startLockCluster (n : nat) (basePort : Z) : LabM (list startedNode) := startLockCluster_from basePort 0 n [].

(** The [i]-th node, with the place it came in, once it has had the lock. *)
Record Turn := mkTurn { tn_index : nat; tn_host : nat; tn_priority : Z; tn_start : Z; tn_completed : bool }.

Definition complete (t : Turn) : Turn := mkTurn (tn_index t) (tn_host t) (tn_priority t) (tn_start t) true.

(** One node in a round: its turn, the number of turns so far, and whether there
    was progress. *)
Definition try_turn (run : Z) (resource : string) (hold : Z) (t : Turn) (order : nat) : LabM (Turn * nat * bool) :=
  if tn_completed t then mret (t, order, false)
  else
    can ← CanEnter (tn_host t) resource;
    if can : bool then
      _ ← Enter (tn_host t) resource;
      now ← Now;
      let wait := now - tn_start t in
      let order := S order in
      _ ← write_record [itoa run; itoa (Z.of_nat (tn_index t)); itoa (tn_priority t); itoa (Milliseconds wait); itoa (Z.of_nat order)];
      _ ← sleep hold;
      _ ← Release (tn_host t) resource;
      mret (complete t, order, true)
    else mret (t, order, false).

Fixpoint try_turns (run : Z) (resource : string) (hold : Z) (ts : list Turn) (order : nat) : LabM (list Turn * nat * bool) :=
  match ts with
  | [] => mret ([], order, false)
  | t :: ts' =>
    '(t, order, progress) ← try_turn run resource hold t order;
    '(ts', order, progress') ← try_turns run resource hold ts' order;
    mret (t :: ts', order, progress || progress')
  end.

(** Rounds until every node has had the lock, or the time is over. *)
Fixpoint take_turns (fuel : nat) (run : Z) (resource : string) (hold deadline : Z) (ts : list Turn) (order : nat)
    : LabM (list Turn * nat) :=
  match fuel with
  | O => panic out_of_fuel
  | S fuel' =>
    now ← Now;
    if (order <? length ts)%nat && (now <? deadline) then
      '(ts, order, progress) ← try_turns run resource hold ts order;
      _ ← (if progress : bool then skip else sleep (millis 10));
      take_turns fuel' run resource hold deadline ts order
    else mret (ts, order)
  end.

Fixpoint make_turns (i : nat) (nodes : list startedNode) : LabM (list Turn) :=
  match nodes with
  | [] => mret []
  | s :: nodes' =>
    now ← Now;
    ts ← make_turns (S i) nodes';
    mret (mkTurn i (default 0%nat (sn_n s)) (sn_priority s) now false :: ts)
  end.

(** A run; [rnd] is the random number in the name of the resource. *)
Definition exp_lock_run (nodesN : nat) (basePort hold run rnd : Z) : LabM () :=
  nodes ← startLockCluster nodesN (basePort + run * 50);
  _ ← ConnectAll (indices nodes);
  _ ← sleep (millis 200);
  let resource := "shared-" +:+ itoa rnd +:+ ".txt" in
  _ ← for_each (indices nodes) (λ i, Request i resource);
  ts ← make_turns 0 nodes;
  now ← Now;
  _ ← take_turns (rounds (30 * Second) (millis 10) + length ts) run resource hold (now + 30 * Second) ts 0;
  end_run nodes.

(** ** [cmd/exp-deadlock] *)

Definition exp_deadlock_run (basePort timeout run : Z) : LabM () :=
  let portsBase := basePort + run * 30 in
  master ← CreateNode localhost portsBase RoleMaster 10;
  a ← CreateNode localhost (portsBase + 1) RoleStorage 5;
  b ← CreateNode localhost (portsBase + 2) RoleStorage 1;
  let nodes := [mkStartedNode (Some master) portsBase 10; mkStartedNode (Some a) (portsBase + 1) 5;
                mkStartedNode (Some b) (portsBase + 2) 1] in
  _ ← start_all nodes nodes;
  _ ← ConnectAll [master; a; b];
  _ ← sleep (millis 500);
  let r1 := "r1-" +:+ itoa run in
  let r2 := "r2-" +:+ itoa run in
  _ ← Request a r1;
  _ ← waitUntil (CanEnter a r1) (5 * Second);
  _ ← Enter a r1;
  _ ← Request b r2;
  _ ← waitUntil (CanEnter b r2) (5 * Second);
  _ ← Enter b r2;
  _ ← sleep (millis 200);
  start ← Now;
  _ ← Request a r2;
  _ ← sleep (millis 100);
  _ ← Request b r1;
  resolved ← poll_for timeout (millis 50) (can ← CanEnter a r2; if can : bool then _ ← Enter a r2; mret true else mret false);
  now ← Now;
  let resolveMs := if resolved : bool then Milliseconds (now - start) else -1 in
  _ ← write_record [itoa run; itoa resolveMs];
  _ ← Release a r2;
  _ ← Release a r1;
  _ ← Release b r2;
  _ ← Release b r1;
  end_run nodes.

(** ** [cmd/exp-bully] *)

(** The network that a client of the same program sees: connections succeed
    where a node listens, and are served at once; each request of a ping is
    answered as the node would answer when the ping begins. *)
Definition host_by (addr : string) (L : Lab) : option nat :=
  fst <$> list_find (λ h, String.eqb (addr_of (n_IP (node_of h)) (n_Port (node_of h))) addr && sd_open (pr_down (h_process h)) = true)
    (lb_hosts L).

Definition lab_network (L : Lab) : Network := mkNetwork
  (λ _ addr, bool_decide (is_Some (host_by addr L)))
  (λ _ addr msg, match host_by addr L ≫= (λ i, mjoin (value_of (connect i msg L))) with Some m => Answers m | None => ReadFails end)
  (λ _ _, (Some 0%nat, λ _, []))
  (λ _ _ _, None).

(** What the requests of the client do to the nodes. *)
Fixpoint serve_all (addr : string) (o : list CAct) : LabM () :=
  match o with
  | [] => skip
  | CDial addr' :: o' => serve_all addr' o'
  | CSend m :: o' =>
    L ← get;
    _ ← (match host_by addr L with Some i => _ ← connect i m; skip | None => skip end);
    serve_all addr o'
  | _ :: o' => serve_all addr o'
  end.

(** [c.Ping()] *)
Definition ping (c : Caller) : LabM (bool * Caller) :=
  L ← get;
  match Ping (H1 := lab_network L) c with
  | (_, Panic why) => panic why
  | (o, Ret (ok, c)) => stm (_ ← serve_all "" o; mret (ok, c))
  end.

Fixpoint start_or_fatal (nodes todo : list startedNode) : LabM () :=
  match todo with
  | [] => skip
  | s :: todo' =>
    ok ← (match sn_n s with Some i => StartNode i | None => mret true end);
    if ok : bool then start_or_fatal nodes todo'
    else _ ← stopAll nodes; Fatal ("start node on " +:+ itoa (sn_port s))
  end.

Definition startBullyCluster (basePort : Z) : LabM (list startedNode * list NodeAddr) :=
  master ← CreateNode localhost basePort RoleMaster 10;
  n2 ← CreateNode localhost (basePort + 1) RoleStorage 5;
  n3 ← CreateNode localhost (basePort + 2) RoleStorage 1;
  let nodes := [mkStartedNode (Some master) basePort 10; mkStartedNode (Some n2) (basePort + 1) 5;
                mkStartedNode (Some n3) (basePort + 2) 1] in
  _ ← start_or_fatal nodes nodes;
  _ ← Discover n2 basePort;
  _ ← Discover n3 basePort;
  _ ← Discover n3 (basePort + 1);
  mret (nodes, [mkNodeAddr localhost basePort; mkNodeAddr localhost (basePort + 1); mkNodeAddr localhost (basePort + 2)]).

(** The first node that is a master. *)
Fixpoint find_master (nodes : list startedNode) : LabM (option startedNode) :=
  match nodes with
  | [] => mret None
  | s :: nodes' =>
    match sn_n s with
    | None => find_master nodes'
    | Some i => role ← RoleOf i; if String.eqb role RoleMaster then mret (Some s) else find_master nodes'
    end
  end.

(** Polling with a client, whose state the pings change. *)
Fixpoint poll_ping (fuel : nat) (c : Caller) (deadline : Z) : LabM () :=
  match fuel with
  | O => panic out_of_fuel
  | S fuel' =>
    now ← Now;
    if now <? deadline then
      '(ok, c) ← ping c;
      if ok : bool then skip else _ ← sleep (millis 200); poll_ping fuel' c deadline
    else skip
  end.

(** Until there is a master on another port than the old one. *)
Fixpoint poll_master (fuel : nat) (nodes : list startedNode) (deadline : Z) : LabM (option startedNode) :=
  match fuel with
  | O => panic out_of_fuel
  | S fuel' =>
    now ← Now;
    if now <? deadline then
      m ← find_master nodes;
      match m with
      | Some s => mret (Some s)
      | None => _ ← sleep (millis 100); poll_master fuel' nodes deadline
      end
    else mret None
  end.

Definition exp_bully_run (basePort heartbeatWait timeout run : Z) : LabM () :=
  '(nodes, seeds) ← startBullyCluster (basePort + run * 20);
  _ ← sleep heartbeatWait;
  clientID ← new_id;
  match NewMasterClientWithSeeds seeds clientID with
  | Panic why => panic why
  | Ret client =>
    '(_, c) ← ping (mkCaller client 0);
    master ← find_master nodes;
    match master with
    | None => _ ← stopAll nodes; _ ← cancel nodes; Fatal ("run " +:+ itoa run +:+ ": no master found")
    | Some master =>
      _ ← (match sn_n master with Some i => StopNode i | None => skip end);
      start ← Now;
      _ ← poll_ping (rounds timeout (millis 200)) c (start + timeout);
      now ← Now;
      let failover := now - start in
      let others := filter (λ s, sn_port s ≠ sn_port master) nodes in
      newMaster ← poll_master (rounds (5 * Second) (millis 100)) others (now + 5 * Second);
      newMasterPriority ← (match newMaster ≫= sn_n with Some i => n ← node_state i; mret (n_Priority n) | None => mret (-1) end);
      let newMasterPort := match newMaster with Some s => sn_port s | None => -1 end in
      _ ← write_record [itoa run; itoa (Z.of_nat (length nodes)); itoa (Milliseconds failover); itoa newMasterPriority;
                        itoa newMasterPort];
      end_run nodes
    end
  end.

(** ** The programs: some runs, one after the other *)

Definition runs_of (run : Z → LabM ()) (runs : nat) (out : string) : LabM () :=
  _ ← for_each (seq 0 runs) (λ k, run (Z.of_nat k));
  println ("Wrote " +:+ itoa (Z.of_nat runs) +:+ " runs to " +:+ out).

(** [csv_ok]: the writer could be made. *)
Definition with_writer (csv_ok : bool) (m : LabM ()) : LabM () := if csv_ok then m else Fatal "csv".

Definition exp_lock (csv_ok : bool) (runs nodesN : nat) (out : string) (basePort hold : Z) (rnd : Z → Z) : LabM () :=
  with_writer csv_ok (runs_of (λ run, exp_lock_run nodesN basePort hold run (rnd run)) runs out).
Definition exp_deadlock (csv_ok : bool) (runs : nat) (out : string) (basePort timeout : Z) : LabM () :=
  with_writer csv_ok (runs_of (exp_deadlock_run basePort timeout) runs out).
Definition exp_bully (csv_ok : bool) (runs : nat) (out : string) (basePort heartbeatWait timeout : Z) : LabM () :=
  with_writer csv_ok (runs_of (exp_bully_run basePort heartbeatWait timeout) runs out).
End experiments.

(** ** Helper lemmas: statements of the main goroutine *)

Definition recorded (o : list LAct) : list (list string) :=
  omap (λ a, match a with Record_ r => Some r | Print _ => None end) o.

(** A schedule under which no node crashes, sleeping takes at least as long as
    it is asked to, and the other goroutines write no records. *)
Class SteadySchedule (S : Schedule) := {
  steady d L : 0 <= d → ∃ o L', elapse d L = (o, Ret ((), L')) ∧ recorded o = [] ∧
    lb_now L + d <= lb_now L' ∧ (length (lb_hosts L) <= length (lb_hosts L'))%nat }.

Section statements.
Context `{UuidText} `{TimeText} `{MapRange} `{ErrnoText} `{Hs : Schedule} `{!SteadySchedule Hs}.

(** Time does not go back, and no node is forgotten. *)
Definition after (L L' : Lab) : Prop := lb_now L <= lb_now L' ∧ (length (lb_hosts L) <= length (lb_hosts L'))%nat.

#[export] Instance after_refl : Reflexive after.
Proof. intros L. by split. Qed.
#[export] Instance after_trans : Transitive after.
Proof. intros L1 L2 L3 [? ?] [? ?]. split; lia. Qed.

(** It returns, without a crash. *)
Definition does {A} (m : LabM A) (L : Lab) (Q : A → Lab → list (list string) → Prop) : Prop :=
  ∃ o a L', m L = (o, Ret (a, L')) ∧ after L L' ∧ Q a L' (recorded o).

Lemma does_bind {A B} (m : LabM A) (f : A → LabM B) L R Q :
  does m L R → (∀ a L1 r1, after L L1 → R a L1 r1 → does (f a) L1 (λ b L2 r2, Q b L2 (r1 ++ r2))) → does (m ≫= f) L Q.
Proof.
  intros (o1 & a & L1 & E1 & Ha1 & HR) Hf. destruct (Hf a L1 _ Ha1 HR) as (o2 & b & L2 & E2 & Ha2 & HQ).
  exists (o1 ++ o2), b, L2. split; [by eapply bind_run|]. split; [by etransitivity|].
  unfold recorded in *. by rewrite omap_app.
Qed.

Lemma does_conseq {A} (m : LabM A) L (R Q : A → Lab → list (list string) → Prop) :
  does m L R → (∀ a L' r, after L L' → R a L' r → Q a L' r) → does m L Q.
Proof. intros (o & a & L' & E & Ha & HR) HQ. exists o, a, L'. auto. Qed.

Lemma does_ret {A} (a : A) L (Q : A → Lab → list (list string) → Prop) : Q a L [] → does (mret a) L Q.
Proof. intros HQ. by exists [], a, L. Qed.

Lemma does_Now L : does Now L (λ t L' r, t = lb_now L ∧ L' = L ∧ r = []).
Proof. by exists [], (lb_now L), L. Qed.

Lemma does_sleep d L : 0 <= d → does (sleep d) L (λ _ L' r, r = [] ∧ lb_now L + d <= lb_now L').
Proof.
  intros Hd. destruct (steady d L Hd) as (o & L' & E & Hr & Ht & Hl). exists o, (), L'. split; [exact E|].
  split; [split; [lia|done]|by split].
Qed.

Lemma does_write record L : does (write_record record) L (λ _ L' r, r = [record] ∧ L' = L).
Proof. by exists [Record_ record], (), L. Qed.

Lemma does_call {A} i (m : NodeM A) L : (∀ n, ∃ o a n', m n = (o, Ret (a, n'))) → (i < length (lb_hosts L))%nat →
  does (call i (on_node m)) L (λ a _ r, r = [] ∧ ∃ h o n', lb_hosts L !! i = Some h ∧ m (node_of h) = (o, Ret (a, n'))).
Proof.
  intros Hm Hi. unfold does, call. destruct (lookup_lt_is_Some_2 _ _ Hi) as [h Eh]. rewrite Eh. unfold on_node, node_do, zoom.
  destruct (Hm (b_node (pr_node (h_process h)))) as (o & a & n' & E). rewrite E. do 3 eexists. split; [reflexivity|].
  split; [split; [done|]; simpl; by rewrite length_alter|]. split; [done|]. by exists h, o, n'.
Qed.

Lemma does_stm {A} (m : LabM A) L (Q : A → Lab → list (list string) → Prop) : does m L (λ a _ r, ∀ L', after L L' → Q a L' r) →
  does (stm m) L Q.
Proof.
  intros Hm. eapply does_bind; [exact Hm|]. intros a L1 r1 Ha HQ. eapply does_bind; [by apply does_sleep|].
  intros [] L2 r2 Ha2 [-> _]. apply does_ret. rewrite app_nil_r. apply HQ. by etransitivity.
Qed.

(** A call of a method with the clock. *)
Lemma does_method {A} i (m : Z → NodeM A) L : (∀ t n, ∃ o a n', m t n = (o, Ret (a, n'))) → (i < length (lb_hosts L))%nat →
  does (stm (now ← Now; call i (on_node (m now)))) L
    (λ a _ r, r = [] ∧ ∃ h o n', lb_hosts L !! i = Some h ∧ m (lb_now L) (node_of h) = (o, Ret (a, n'))).
Proof.
  intros Hm Hi. apply does_stm. eapply does_bind; [apply does_Now|]. intros t L1 r1 _ (-> & -> & ->).
  eapply does_conseq; [by apply does_call|]. intros a L' r _ [-> Hh] L'' _. by split.
Qed.

(** The node at a place may enter, by its own tables and the clock. *)
Definition host_may_enter (i : nat) (r : string) (L : Lab) : Prop :=
  ∃ h, lb_hosts L !! i = Some h ∧ may_enter (lb_now L) r (node_of h).

Lemma does_CanEnter i r L : (i < length (lb_hosts L))%nat →
  does (CanEnter i r) L (λ can _ rs, rs = [] ∧ (can = true ↔ host_may_enter i r L)).
Proof.
  intros Hi. eapply does_conseq; [apply (does_method i (λ t, CanEnterCriticalSection t r)); [|done]|].
  - intros t n. destruct (CanEnter_spec t r n) as (b & n' & E & _). by exists [], b, n'.
  - intros can L' rs _ [-> (h & o & n' & Eh & E)]. split; [done|].
    destruct (CanEnter_spec (lb_now L) r (node_of h)) as (b & n1 & E1 & Hb & _). rewrite E in E1. injection E1 as _ -> _.
    rewrite Hb. split; [intros Hm; by exists h|]. intros (h' & Eh' & Hm). rewrite Eh in Eh'. by injection Eh' as <-.
Qed.

Lemma does_Enter i r L : (i < length (lb_hosts L))%nat → does (Enter i r) L (λ _ _ rs, rs = []).
Proof.
  intros Hi. eapply does_conseq; [apply (does_method i (λ t, EnterCriticalSection t r)); [|done]|by intros a L' rs _ [-> _]].
  intros t n. destruct (CanEnter_spec t r n) as (b & n' & E & _). unfold EnterCriticalSection. rewrite (bind_silent _ _ _ _ _ E).
  destruct b; [|by eexists _, _, _]. rewrite (bind_silent _ _ _ (n_ID n') n') by done.
  unfold mbind, gom_bind. rewrite BroadcastMessage_run. by eexists _, _, _.
Qed.

Lemma does_Release i r L : (i < length (lb_hosts L))%nat → does (Release i r) L (λ _ _ rs, rs = []).
Proof.
  intros Hi. apply does_stm. eapply does_conseq; [apply does_call; [|done]|by intros a L' r' _ [-> _]].
  intros n. unfold ReleaseLock. erewrite bind_silent by reflexivity. erewrite bind_silent by reflexivity.
  rewrite BroadcastMessage_run. by eexists _, _, _.
Qed.

(** How many more rounds a deadline leaves. *)
Definition left_rounds (L : Lab) (pause deadline : Z) : nat := Z.to_nat ((deadline - lb_now L) / pause + 1).

Lemma left_rounds_less L L' pause deadline : 0 < pause → lb_now L < deadline → lb_now L + pause <= lb_now L' →
  (left_rounds L' pause deadline < left_rounds L pause deadline)%nat.
Proof.
  intros Hp Hlt Ht. unfold left_rounds.
  assert ((deadline - lb_now L') / pause + 1 <= (deadline - lb_now L) / pause) as Hd.
  { rewrite <-(Z.div_add (deadline - lb_now L') 1 pause) by lia. apply Z.div_le_mono; lia. }
  assert (0 <= (deadline - lb_now L) / pause) by (apply Z.div_pos; lia). lia.
Qed.

Lemma left_rounds_mono L L' pause deadline : 0 < pause → lb_now L <= lb_now L' →
  (left_rounds L' pause deadline <= left_rounds L pause deadline)%nat.
Proof.
  intros Hp Ht. unfold left_rounds. assert ((deadline - lb_now L') / pause <= (deadline - lb_now L) / pause); [|lia].
  apply Z.div_le_mono; lia.
Qed.

Lemma does_poll fuel cond pause deadline L : 0 < pause → (∀ L, does cond L (λ _ _ r, r = [])) →
  (left_rounds L pause deadline < fuel)%nat →
  does (poll fuel cond pause deadline) L (λ b L' r, r = [] ∧ (b = false → deadline <= lb_now L')).
Proof.
  intros Hp Hc. revert L. induction fuel as [|fuel IH]; intros L Hf; [lia|]. cbn [poll].
  eapply does_bind; [apply does_Now|]. intros t L1 r1 _ (-> & -> & ->). cbn [app].
  destruct (Z.ltb_spec (lb_now L) deadline) as [Hlt|Hge]; [|by apply does_ret].
  eapply does_bind; [apply Hc|]. intros b L1 r1 Ha1 ->. destruct b; [by apply does_ret|].
  eapply does_bind; [apply does_sleep; lia|]. intros [] L2 r2 Ha2 [-> Ht]. cbn [app]. apply IH.
  pose proof (left_rounds_less L L2 pause deadline Hp Hlt). destruct Ha1. lia.
Qed.

(** ** Helper lemmas: taking turns *)

Definition lock_record (run : Z) (t : Turn) (wait : Z) (order : nat) : list string :=
  [itoa run; itoa (Z.of_nat (tn_index t)); itoa (tn_priority t); itoa (Milliseconds wait); itoa (Z.of_nat order)].

(** A turn that a node got: the program when the node answered that it may
    enter, and the time at which its wait was measured. *)
Record Grant := mkGrant { gr_turn : Turn; gr_polled : Lab; gr_at : Z }.

Definition gr_wait (g : Grant) : Z := gr_at g - tn_start (gr_turn g).

(** The records of the turns that were taken, in order. *)
Fixpoint lock_records (run : Z) (order : nat) (served : list Grant) : list (list string) :=
  match served with
  | [] => []
  | g :: served' => lock_record run (gr_turn g) (gr_wait g) (S order) :: lock_records run (S order) served'
  end.

Lemma lock_records_app run order s1 s2 :
  lock_records run order (s1 ++ s2) = lock_records run order s1 ++ lock_records run (order + length s1) s2.
Proof.
  revert order. induction s1 as [|g s1 IH]; intros order; [cbn; by rewrite Nat.add_0_r|]. cbn. by rewrite IH, Nat.add_succ_r.
Qed.

(** From [t0] to [t1], one turn after the other: a node is asked when the one
    before it has held the lock for its time, and measured after it was asked. *)
Fixpoint in_turn (hold t0 : Z) (served : list Grant) (t1 : Z) : Prop :=
  match served with
  | [] => t0 <= t1
  | g :: served' => t0 <= lb_now (gr_polled g) <= gr_at g ∧ in_turn hold (gr_at g + hold) served' t1
  end.

Lemma in_turn_app hold t0 s1 t1 s2 t2 : in_turn hold t0 s1 t1 → in_turn hold t1 s2 t2 → in_turn hold t0 (s1 ++ s2) t2.
Proof.
  revert t0. induction s1 as [|g s1 IH]; intros t0; simpl; [|intros [? ?] ?; split; [done|by apply IH]].
  destruct s2 as [|g s2]; simpl; [lia|]. intros ? [? ?]. split; [lia|done].
Qed.

Lemma in_turn_late hold t0 s t1 t2 : in_turn hold t0 s t1 → t1 <= t2 → in_turn hold t0 s t2.
Proof. intros Hin Ht. rewrite <-(app_nil_r s). by eapply in_turn_app. Qed.

Definition pending (ts : list Turn) : list Turn := filter (λ t, tn_completed t = false) ts.

Definition hosted (L : Lab) (ts : list Turn) : Prop := Forall (λ t, (tn_host t < length (lb_hosts L))%nat ∧ tn_start t <= lb_now L) ts.

Lemma hosted_after L L' ts : after L L' → hosted L ts → hosted L' ts.
Proof. intros [? ?] Hl. eapply Forall_impl; [exact Hl|]. intros t [? ?]. split; lia. Qed.

(** What some turns do: those that were served, in order, and the others. *)
Record turns_taken (run : Z) (resource : string) (hold : Z) (order : nat) (ts ts' : list Turn) (order' : nat)
    (L L' : Lab) (served : list Grant) (r : list (list string)) : Prop := mkTurnsTaken {
  tt_length : length ts' = length ts;
  tt_order : order' = (order + length served)%nat;
  tt_records : r = lock_records run order served;
  tt_pending : (gr_turn <$> served) ++ pending ts' ≡ₚ pending ts;
  tt_waits : Forall (λ g, 0 <= gr_wait g) served;
  tt_let_in : Forall (λ g, host_may_enter (tn_host (gr_turn g)) resource (gr_polled g)) served;
  tt_in_turn : in_turn hold (lb_now L) served (lb_now L') }.

Lemma none_taken run resource hold order ts L L' : after L L' → turns_taken run resource hold order ts ts order L L' [] [].
Proof. intros [? _]. split; try done. Qed.

Lemma turns_taken_trans run resource hold o1 o2 o3 ts1 ts2 ts3 L1 L2 L3 s1 s2 r1 r2 :
  turns_taken run resource hold o1 ts1 ts2 o2 L1 L2 s1 r1 → turns_taken run resource hold o2 ts2 ts3 o3 L2 L3 s2 r2 →
  turns_taken run resource hold o1 ts1 ts3 o3 L1 L3 (s1 ++ s2) (r1 ++ r2).
Proof.
  intros [Hl1 -> -> Hp1 Hw1 Hm1 Ht1] [Hl2 -> -> Hp2 Hw2 Hm2 Ht2].
  split; [congruence|rewrite length_app; lia|by rewrite lock_records_app| |by apply Forall_app|by apply Forall_app|by eapply in_turn_app].
  by rewrite fmap_app, <-app_assoc, Hp2.
Qed.

Lemma does_try_turn run resource hold t order L : 0 <= hold → hosted L [t] →
  does (try_turn run resource hold t order) L (λ x L' r, hosted L' [x.1.1] ∧
    ∃ served, turns_taken run resource hold order [t] [x.1.1] x.1.2 L L' served r ∧ x.2 = negb (bool_decide (served = []))).
Proof.
  intros Hh Hl. pose proof Hl as [[Hi Ht] _]%Forall_cons. unfold try_turn.
  assert (∀ L', after L L' → hosted L' [t] ∧ ∃ served, turns_taken run resource hold order [t] [t] order L L' served [] ∧
    false = negb (bool_decide (served = []))) as Hnone.
  { intros L' Ha. split; [by eapply hosted_after|]. exists []. split; [by apply none_taken|done]. }
  destruct (tn_completed t) eqn:Ec; [apply does_ret; by apply Hnone|].
  eapply does_bind; [by apply does_CanEnter|]. intros can L1 r1 Ha1 [-> Hcan]. cbn [app].
  destruct can; [|apply does_ret; by apply Hnone].
  eapply does_bind; [apply does_Enter; destruct Ha1; lia|]. intros _ L2 r2 Ha2 ->. cbn [app].
  eapply does_bind; [apply does_Now|]. intros now L3 r3 _ (-> & -> & ->). cbn [app].
  eapply does_bind; [apply does_write|]. intros _ L4 r4 _ (-> & ->).
  eapply does_bind; [by apply does_sleep|]. intros _ L5 r5 Ha5 (-> & Hslept).
  eapply does_bind; [apply does_Release; destruct Ha1, Ha2, Ha5; lia|]. intros _ L6 r6 Ha6 ->. apply does_ret. cbn [fst snd app].
  assert (after L L6) as Ha by (do 3 (etransitivity; [eassumption|]); done). split.
  - constructor; [|constructor]. cbn. destruct Ha. split; lia.
  - exists [mkGrant t L (lb_now L2)]. split; [|done]. destruct Ha1, Ha2, Ha6. split; [done|simpl; lia|done| | | |].
    + unfold pending. rewrite filter_cons_False, filter_nil by done. rewrite filter_cons_True by done. by rewrite filter_nil.
    + constructor; [|done]. unfold gr_wait. cbn. lia.
    + constructor; [|done]. by apply Hcan.
    + cbn. lia.
Qed.

(** The turns of the nodes of a round, one after the other. *)
Lemma turns_taken_cons run resource hold o1 o2 o3 t t' ts ts' L1 L2 L3 s1 s2 r1 r2 :
  turns_taken run resource hold o1 [t] [t'] o2 L1 L2 s1 r1 → turns_taken run resource hold o2 ts ts' o3 L2 L3 s2 r2 →
  turns_taken run resource hold o1 (t :: ts) (t' :: ts') o3 L1 L3 (s1 ++ s2) (r1 ++ r2).
Proof.
  intros [Hl1 -> -> Hp1 Hw1 Hm1 Ht1] [Hl2 -> -> Hp2 Hw2 Hm2 Ht2].
  split; [simpl; congruence|rewrite length_app; lia|by rewrite lock_records_app| |by apply Forall_app|by apply Forall_app|by eapply in_turn_app].
  unfold pending in *. rewrite fmap_app. change (t' :: ts') with ([t'] ++ ts'). change (t :: ts) with ([t] ++ ts).
  rewrite !filter_app, <-Hp1, <-Hp2. rewrite <-!app_assoc. f_equiv. rewrite !app_assoc. f_equiv. apply Permutation_app_comm.
Qed.

Lemma does_try_turns run resource hold ts order L : 0 <= hold → hosted L ts →
  does (try_turns run resource hold ts order) L (λ x L' r, hosted L' x.1.1 ∧
    ∃ served, turns_taken run resource hold order ts x.1.1 x.1.2 L L' served r ∧ x.2 = negb (bool_decide (served = []))).
Proof.
  intros Hh. revert order L. induction ts as [|t ts IH]; intros order L Hl; cbn [try_turns].
  { apply does_ret. split; [constructor|]. exists []. split; [by apply none_taken|done]. }
  pose proof Hl as [Ht Hts]%Forall_cons.
  eapply does_bind; [apply does_try_turn; [done|by constructor]|].
  intros [[t' order1] progress] L1 r1 Ha1 Hx. cbn [fst snd] in Hx. destruct Hx as (Hl1 & served1 & Htt1 & ->).
  eapply does_bind; [apply IH; by eapply hosted_after|].
  intros [[ts' order2] progress2] L2 r2 Ha2 Hx. cbn [fst snd] in Hx. destruct Hx as (Hl2 & served2 & Htt2 & ->).
  apply does_ret. cbn [fst snd]. split.
  - pose proof (hosted_after _ _ _ Ha2 Hl1) as [Ht' _]%Forall_cons. by constructor.
  - exists (served1 ++ served2). rewrite app_nil_r. split; [by eapply turns_taken_cons|by destruct served1, served2].
Qed.

Lemma does_take_turns fuel run resource hold deadline ts order L : 0 <= hold → hosted L ts →
  (length (pending ts) + left_rounds L (millis 10) deadline < fuel)%nat → (order + length (pending ts) = length ts)%nat →
  does (take_turns fuel run resource hold deadline ts order) L (λ x L' r,
    ∃ served, turns_taken run resource hold order ts x.1 x.2 L L' served r ∧ (pending x.1 = [] ∨ deadline <= lb_now L')).
Proof.
  intros Hh. revert ts order L. induction fuel as [|fuel IH]; intros ts order L Hl Hf Ho; [lia|]. cbn [take_turns].
  eapply does_bind; [apply does_Now|]. intros now L1 r1 _ (-> & -> & ->). cbn [app].
  destruct ((order <? length ts)%nat && (lb_now L <? deadline)) eqn:Eg.
  2:{ apply does_ret. exists []. split; [by apply none_taken|]. cbn [fst snd].
      apply andb_false_iff in Eg as [Eg%Nat.ltb_ge|Eg%Z.ltb_ge]; [left|by right].
      apply length_zero_iff_nil. lia. }
  apply andb_prop in Eg as [_ Hlt%Z.ltb_lt].
  eapply does_bind; [by apply does_try_turns|].
  intros [[ts1 order1] progress] L1 r1 Ha1 Hx. cbn [fst snd] in Hx. destruct Hx as (Hl1 & served1 & Htt1 & ->).
  assert (length (pending ts) = length served1 + length (pending ts1))%nat as Hlen.
  { rewrite <-(Permutation_length (tt_pending _ _ _ _ _ _ _ _ _ _ _ Htt1)), length_app, length_fmap. done. }
  eapply (does_bind _ _ _ (λ _ L' r, r = [] ∧ (served1 = [] → lb_now L1 + millis 10 <= lb_now L'))).
  { destruct (decide (served1 = [])) as [->|Hne].
    - rewrite bool_decide_true by done. eapply does_conseq; [by apply does_sleep|]. intros [] L' r _ [-> Ht]. by split.
    - rewrite bool_decide_false by done. apply does_ret. by split. }
  intros [] L2 r2 Ha2 (-> & Hslept). cbn [app].
  assert (length (pending ts1) + left_rounds L2 (millis 10) deadline < fuel)%nat as Hf2.
  { destruct (decide (served1 = [])) as [->|Hne].
    - pose proof (left_rounds_less L L2 (millis 10) deadline ltac:(done) Hlt) as Hless. destruct Ha1.
      specialize (Hslept eq_refl). simpl in Hlen. lia.
    - assert (0 < length served1)%nat by (destruct served1; [done|simpl; lia]).
      pose proof (left_rounds_mono L L2 (millis 10) deadline ltac:(done)) as Hmono. destruct Ha1, Ha2. lia. }
  assert (turns_taken run resource hold order ts ts1 order1 L L2 served1 r1) as Htt.
  { destruct Htt1. split; try done. eapply in_turn_late; [done|]. by destruct Ha2. }
  eapply does_conseq; [apply (IH ts1 order1 L2); [by eapply hosted_after|exact Hf2|]|].
  { rewrite (tt_order _ _ _ _ _ _ _ _ _ _ _ Htt), (tt_length _ _ _ _ _ _ _ _ _ _ _ Htt). lia. }
  intros [ts2 order2] L3 r3 _ Hx. cbn [fst snd] in Hx. destruct Hx as (served2 & Htt2 & Hend).
  exists (served1 ++ served2). cbn [fst snd]. split; [by eapply turns_taken_trans|exact Hend].
Qed.
End statements.

(** ** Properties *)
Section properties.
Context `{UuidText} `{TimeText} `{MapRange} `{ErrnoText} `{Hs : Schedule} `{!SteadySchedule Hs}.


(** [waitUntil], and the other loops of the experiments that poll until a
    deadline, end under any schedule, and they give up only when the time is
    over. *)
Theorem waitUntil_returns timeout pause cond L : 0 < pause → 0 <= timeout → (∀ L, does cond L (λ _ _ r, r = [])) →
  ∃ o b L', poll_for timeout pause cond L = (o, Ret (b, L')) ∧ (b = false → lb_now L + timeout <= lb_now L') ∧
    ∃ o' L'', waitUntil cond timeout L = (o', Ret ((), L'')) ∧ lb_now L <= lb_now L''.
Proof.
  intros Hp Ht Hc. assert (∀ pause, 0 < pause → does (poll_for timeout pause cond) L
    (λ b L' r, r = [] ∧ (b = false → lb_now L + timeout <= lb_now L'))) as Hpoll.
  { clear pause Hp. intros pause Hp. eapply does_bind; [apply does_Now|]. intros t L1 r1 _ (-> & -> & ->). cbn [app].
    apply does_poll; [done|done|]. unfold left_rounds, rounds. replace (lb_now L + timeout - lb_now L) with timeout by lia.
    assert (0 <= timeout / pause) by (apply Z.div_pos; lia). lia. }
  destruct (Hpoll pause Hp) as (o & b & L' & E & _ & _ & Hb). exists o, b, L'. split_and!; [done|done|].
  assert (does (waitUntil cond timeout) L (λ _ _ _, True)) as (o' & [] & L'' & E' & [? _] & _); [|by exists o', L''].
  eapply does_bind; [by apply (Hpoll (millis 10))|]. intros b' L1 r1 _ _. by apply does_ret.
Qed.
End properties.

(** ** What the experiments record on the model, with the prompt schedule *)
#[local] Existing Instance decimal_uuids.
#[local] Existing Instance decimal_times.
#[local] Existing Instance canonical_range.
#[local] Existing Instance TestPrograms.plain_errors.

#[local] Existing Instance prompt | 0.

Definition exp_lock_header : list string := ["run"; "node_idx"; "priority"; "wait_ms"; "order"].
Definition exp_deadlock_header : list string := ["run"; "resolve_ms"].
Definition exp_bully_header : list string := ["run"; "nodes"; "failover_ms"; "new_master_priority"; "new_master_port"].

(** A program with its writer: the lines of the file [out] that it leaves. *)
Definition experiment (out : string) (header : list string) (m : LabM ()) (d : Disk) : option string :=
  match NewCSVWriter (Join [out]) header false d with
  | (inl _, _) => None
  | (inr w, d) =>
    match m empty_lab with
    | (o, Ret _) => Some (string_of (file_bytes (Join [out]) (write_records (recorded o) w d).2))
    | (_, Panic _) => None
    end
  end.

(** The deadlock experiment works on the model: in every run the detector of
    the master finds the cycle at its next tick and aborts the node of the
    lowest priority, and the other one gets the lock it waited for. *)
Theorem deadlock_resolved :
  experiment "experiments/deadlock.csv" exp_deadlock_header
    (exp_deadlock true 2 "experiments/deadlock.csv" 9500 (60 * Second)) (mkDisk ∅ ∅ []) =
  Some ("run,resolve_ms" +:+ nl +:+ "0,9300" +:+ nl +:+ "1,9300" +:+ nl).
Proof. vm_compute. reflexivity. Qed.

(** The failover experiment works on the model: sixteen seconds after the
    master was stopped a client reaches a new one, the node of the next
    priority, and the lock experiment serves every node in the order of its
    requests. *)
Theorem failover_and_locks :
  experiment "experiments/bully.csv" exp_bully_header
    (exp_bully true 2 "experiments/bully.csv" 9300 (6 * Second) (45 * Second)) (mkDisk ∅ ∅ []) =
    Some ("run,nodes,failover_ms,new_master_priority,new_master_port" +:+ nl +:+ "0,3,16000,5,9301" +:+ nl +:+
          "1,3,16000,5,9321" +:+ nl) ∧
  experiment "experiments/lock.csv" exp_lock_header
    (exp_lock true 1 5 "experiments/lock.csv" 9400 (millis 200) (λ _, 7)) (mkDisk ∅ ∅ []) =
    Some ("run,node_idx,priority,wait_ms,order" +:+ nl +:+ "0,0,1,0,1" +:+ nl +:+ "0,1,2,200,2" +:+ nl +:+
          "0,2,3,400,3" +:+ nl +:+ "0,3,4,600,4" +:+ nl +:+ "0,4,5,800,5" +:+ nl).
Proof. split; vm_compute; reflexivity. Qed.

(** ** Examples: the loops alone *)

(** A schedule in which the other goroutines do nothing. *)
#[local] Instance frozen : Schedule := {| elapse d := modify (λ L, set_now (lb_now L + d) L); await t := skip |}.

#[local] Instance frozen_steady : SteadySchedule frozen.
Proof. constructor. intros d L Hd. do 2 eexists. split; [reflexivity|]. split; [done|]. by split. Qed.

Definition one_turn : list Turn := [mkTurn 0 0 1 5 false].

(** A node that has asked for the lock. *)
Definition one_node : Lab :=
  default empty_lab (state_of ((i ← create_node localhost 9400 RoleStorage 1; Request i "r") (set_now 5 empty_lab))).


Lemma waitUntil_returns_witness : ∃ o L', waitUntil (now ← Now; mret (5 <? now)) (5 * Second) one_node = (o, Ret ((), L')).
Proof.
  destruct (waitUntil_returns (5 * Second) (millis 10) (now ← Now; mret (5 <? now)) one_node) as (_ & _ & _ & _ & _ & o & L' & E & _).
  - done.
  - done.
  - intros L. eapply does_bind; [apply does_Now|]. intros t L1 r1 _ (-> & -> & ->). by apply does_ret.
  - exists o, L'. exact E.
Defined.
