(* ===== verification/ExpStreaming.v ===== *)
(** * The streaming experiment: [backend/cmd/exp-streaming]

    A run uploads random bytes through the cluster, downloads them at once and
    records how long both took. The network of the upload and that of the
    download are arguments, because the cluster changes in between, and so are
    the durations that the clock shows. Floating-point numbers are those of
    IEEE 754, as in the library [SpecFloat]. *)

From Stdlib Require Import SpecFloat.
From S2P Require Import Prelude GoStd Hashes Types Json HashRing Protocol Session Fs LocalStorage StreamServer NodeState NodeFiles Bully Node Client Transfer EndToEnd Lifecycle Lab TestPrograms Experiments.

(** ** [float64] *)

Definition float64 (n : Z) : spec_float := binary_normalize 53 1024 n 0 false.
Definition fmul : spec_float → spec_float → spec_float := SFmul 53 1024.
Definition fdiv : spec_float → spec_float → spec_float := SFdiv 53 1024.
Definition fadd : spec_float → spec_float → spec_float := SFadd 53 1024.

(** [d.Seconds()] *)
Definition Seconds (d : Z) : spec_float :=
  let sec := Z.quot d Second in
  let nsec := Z.rem d Second in
  fadd (float64 sec) (fdiv (float64 nsec) (float64 1000000000)).

Definition mbps (bytes d : Z) : spec_float :=
  if d <=? 0 then float64 0
  else fdiv (fdiv (fmul (float64 bytes) (float64 8)) (float64 1000000)) (Seconds d).

(** A quotient of positive numbers, rounded to the nearest, ties to even. *)
Definition round_half_even (num den : Z) : Z :=
  let q := num / den in
  let r := num mod den in
  match Z.compare (2 * r) den with
  | Lt => q
  | Gt => q + 1
  | Eq => if Z.even q then q else q + 1
  end.

Definition two_digits (n : Z) : string := if n <? 10 then "0" +:+ itoa n else itoa n.

(** [fmt.Sprintf("%.2f", x)] *)
Definition format2 (x : spec_float) : string :=
  let signed (s : bool) (t : string) := if s then "-" +:+ t else t in
  match x with
  | S754_zero s => signed s "0.00"
  | S754_infinity s => if s then "-Inf" else "+Inf"
  | S754_nan => "NaN"
  | S754_finite s m e =>
    let n := if 0 <=? e then Z.pos m * 2 ^ e * 100 else round_half_even (Z.pos m * 100) (2 ^ (- e)) in
    signed s (itoa (n / 100) +:+ "." +:+ two_digits (n mod 100))
  end.

Section run.
Context `{UuidText} `{TimeText}.

Definition bench_name (run : Z) : string := "bench-" +:+ itoa run +:+ ".bin".

Definition streaming_record (run size uploadDur downloadDur : Z) : list string :=
  [itoa run; itoa size; itoa (Milliseconds uploadDur); format2 (mbps size uploadDur);
   itoa (Milliseconds downloadDur); format2 (mbps size downloadDur)].

(** The measurement of a run, up to the record it writes, on the left for an
    upload that failed: [c] is the client, [reads] how its reader gives the
    data. *)
Definition exp_streaming_run (upload download : Network) (run size uploadDur downloadDur : Z) (rid fileID rid' : uuid)
    (reads : list (list byte * read_end)) (c : Caller) : list CAct * Res ((list string + list string) * Caller) :=
  match UploadFileStream (H1 := upload) rid fileID (bench_name run) "application/octet-stream" size reads c with
  | (o, Panic why) => (o, Panic why)
  | (o, Ret (inl e, c)) => (o, Ret (inl [itoa run; itoa size; "-1"; "-1"; "-1"; "-1"], c))
  | (o, Ret (inr res, c)) =>
    match DownloadFileStream (H1 := download) rid' fileID (ur_Hash res) None c with
    | (o', Panic why) => (o ++ o', Panic why)
    | (o', Ret (_, c)) => (o ++ o', Ret (inr (streaming_record run size uploadDur downloadDur), c))
    end
  end.
End run.

(** *** The program: the cluster, and the runs *)
Section program.
Context `{UuidText} `{TimeText} `{MapRange} `{ErrnoText} `{Schedule}.

(** Lines 47 to 69 of a run: the nodes find each other through the master. *)
Definition start_streaming_cluster (portsBase stableWait : Z) : LabM (list startedNode * list NodeAddr) :=
  master ← CreateNode localhost portsBase RoleMaster 10;
  s1 ← CreateNode localhost (portsBase + 1) RoleStorage 5;
  s2 ← CreateNode localhost (portsBase + 2) RoleStorage 3;
  s3 ← CreateNode localhost (portsBase + 3) RoleStorage 1;
  let nodes := [mkStartedNode (Some master) portsBase 10; mkStartedNode (Some s1) (portsBase + 1) 5;
                mkStartedNode (Some s2) (portsBase + 2) 3; mkStartedNode (Some s3) (portsBase + 3) 1] in
  _ ← start_all nodes nodes;
  _ ← Discover s1 portsBase;
  _ ← Discover s2 portsBase;
  _ ← Discover s3 portsBase;
  _ ← sleep stableWait;
  mret (nodes, (λ s, mkNodeAddr localhost (sn_port s)) <$> nodes).

(** What a run is given: the networks of its upload and its download, how long
    they take, the identifiers of the client's requests and how the data are
    read; [None] if there are no random data. *)
Record Measured := mkMeasured {
  me_upload : Network; me_download : Network;
  me_uploadDur : Z; me_downloadDur : Z;
  me_rid : uuid; me_rid' : uuid;
  me_reads : option (list (list byte * read_end)) }.

(** A run; one whose upload fails ends without the pause. *)
Definition exp_streaming_lab_run (basePort size stableWait : Z) (me : Measured) (run : Z) : LabM () :=
  '(nodes, seeds) ← start_streaming_cluster (basePort + run * 40) stableWait;
  clientID ← new_id;
  match NewMasterClientWithSeeds seeds clientID with
  | Panic why => panic why
  | Ret client =>
    match me_reads me with
    | None => _ ← stopAll nodes; _ ← cancel nodes; Fatal "random"
    | Some reads =>
      fileID ← new_id;
      match exp_streaming_run (me_upload me) (me_download me) run size (me_uploadDur me) (me_downloadDur me)
              (me_rid me) fileID (me_rid' me) reads (mkCaller client 0) with
      | (_, Panic why) => panic why
      | (_, Ret (inl record, _)) =>
        _ ← println "upload failed"; _ ← write_record record; _ ← stopAll nodes; cancel nodes
      | (_, Ret (inr record, _)) => _ ← write_record record; end_run nodes
      end
    end
  end.

Definition exp_streaming (csv_ok : bool) (runs : nat) (out : string) (basePort sizeMB stableWait : Z) (me : Z → Measured) : LabM () :=
  with_writer csv_ok (runs_of (λ run, exp_streaming_lab_run basePort (int64 (sizeMB * 1024 * 1024)) stableWait (me run) run) runs out).
End program.

(** ** Helper lemmas: an upload leaves the client's idea of its master *)
Section keeps_client.
Context `{UuidText} `{TimeText} `{Network}.

Definition keeps_client {A} (m : GoM Caller CAct A) : Prop :=
  ∀ c o a c', m c = (o, Ret (a, c')) → ca_client c' = ca_client c.

Lemma kept_bind {A B} (m : GoM Caller CAct A) (f : A → GoM Caller CAct B) :
  keeps_client m → (∀ a, keeps_client (f a)) → keeps_client (m ≫= f).
Proof.
  intros Hm Hf c o b c'. unfold mbind, gom_bind. destruct (m c) as [o1 [[a c1]|w]] eqn:E1; [|done].
  destruct (f a c1) as [o2 [[b' c2]|w]] eqn:E2; [|done]. intros [= _ _ <-].
  by rewrite (Hf _ _ _ _ _ E2), (Hm _ _ _ _ E1).
Qed.

Lemma kept_ret {A} (a : A) : keeps_client (mret a).
Proof. by intros c o b c' [= _ _ <-]. Qed.

Lemma kept_emit a : keeps_client (emit a).
Proof. by intros c o b c' [= _ _ <-]. Qed.

Lemma kept_dial addr : keeps_client (dial addr).
Proof. intros c o b c'. by intros [= _ _ <-]. Qed.

Lemma kept_close_all cs : keeps_client (close_all cs).
Proof. intros c o b c'. unfold close_all. rewrite for_each_emit. by intros [= _ _ <-]. Qed.

Lemma kept_open_conns sid size nodes cs ids : keeps_client (open_conns sid size nodes cs ids).
Proof.
  revert cs ids. induction nodes as [|node nodes IH]; intros cs ids; cbn [open_conns]; [apply kept_ret|].
  apply kept_bind; [apply kept_dial|]. intros [k|]; [|apply kept_bind; [apply kept_close_all|intros; apply kept_ret]].
  destruct (nw_upload k (sna_Addr node)) as [budget peer]. apply kept_bind; [apply kept_emit|]. intros _.
  destruct (conn_write _ _) as [res conn]. destruct (res.2); [apply IH|].
  apply kept_bind; [apply kept_emit|]. intros _. apply kept_bind; [apply kept_close_all|]. intros _. apply kept_ret.
Qed.

Lemma upload_keeps_client rid fid fn ct size reads c o1 r1 c1 o r c' :
  ask MessageStreamUploadInit (Some (StreamUploadInitRequest_to_json (mkStreamUploadInitRequest (uuid_String rid) fid fn ct size)))
    StreamUploadReadyResponse_of_json c = (o1, Ret (r1, c1)) →
  UploadFileStream rid fid fn ct size reads c = (o, Ret (r, c')) → ca_client c' = ca_client c1.
Proof.
  intros Ea. rewrite UploadFileStream_split. destruct (InitStreamUpload rid fid fn ct size c) as [oi [[ri ci]|w]] eqn:Ei; [|done].
  assert (ca_client ci = ca_client c1) as Hc.
  { unfold InitStreamUpload, mbind at 1, gom_bind at 1 in Ei. rewrite Ea in Ei.
    match type of Ei with (let '(_, _) := ?k c1 in _) = _ => assert (keeps_client k) as Hk end.
    { destruct r1 as [e|ready]; [apply kept_ret|]. repeat case_match; try apply kept_ret.
      apply kept_bind; [apply kept_open_conns|]. intros [e|[cs ids]]; apply kept_ret. }
    match type of Ei with (let '(_, _) := ?x in _) = _ => destruct x as [o2 [[a c2]|w]] eqn:E2; [|done] end.
    injection Ei as _ _ <-. by eapply Hk. }
  destruct ri as [e|s]; [by intros [= _ _ <-]|]. destruct (upload_all reads s) as [o' [[r' s']|w]]; [|done].
  by intros [= _ _ <-].
Qed.
End keeps_client.

(** ** Properties *)
Section properties.
Context `{UuidText} `{TimeText} `{MapRange} `{ErrnoText}.

(** The experiment can measure a download that did not take place. It asks
    for the file as soon as the storage nodes have answered, and does not look
    at the error: as long as one acknowledgement has not reached the master the
    download is refused, nothing is received, and the run is recorded with a
    throughput like any other. *)
Theorem refused_download_recorded m ring idx now newSession newReply sites c run rid fid rid' reads uploadDur downloadDur :
  let data := reader_data reads in let size := Z.of_nat (length data) in let h := sha256_hex data in
  let request := mkStreamUploadInitRequest (uuid_String rid) fid (bench_name run) "application/octet-stream" size in
  let nodes := FindNodesForFile fid 3 ring in let sid := uuid_String newSession in
  let r := Node.handleConnection now newSession newReply (Some (upload_message c request)) m in
  let sent := outs_of r in let req := upload_stream sid data in
  let upload := system_network (mkSystem m now newSession newReply sites sent) in
  master_ready ring idx (b_node m) → all_there (b_node m) sid nodes sites →
  master_addr (ca_client c) = node_addr (b_node m) → (String.length sid ≤ 36)%nat → no_trailing_nul (bytes_of sid) →
  reader_fails reads = false → size <= maxInt → idx !! h = None →
  ∃ m2, state_of r = Some m2 ∧
  ∀ t acks late, (mwt_Message <$> acks) ++ late ≡ₚ nodes ≫= node_acks (b_node m) sent req sites → late ≠ [] →
  ∃ m3, for_each acks (receive t) m2 = ([], Ret ((), m3)) ∧
  ∀ now' newSession' newReply',
    let download := system_network (mkSystem m3 now' newSession' newReply' (after_upload sent req nodes sites) []) in
    ∃ o c' c1 o1, exp_streaming_run upload download run size uploadDur downloadDur rid fid rid' reads c =
        (o, Ret (inr (streaming_record run size uploadDur downloadDur), c')) ∧
      DownloadFileStream (H1 := download) rid' fid h None c1 = (o1, Ret (Some (ERefused "file not found"), c')) ∧
      received o1 = [].
Proof.
  intros data size h request nodes sid r sent req upload Hm Hthere Hc Hsid Hnul Hf Hmax Hnew.
  assert (in_int64 (sui_Size request) = true) as Hsz by (cbn; unfold maxInt in Hmax; int_bounds; lia).
  destruct (cluster_upload_run m ring idx now newSession newReply sites c request Hm Hsz Hc Hthere Hsid Hnul rid reads eq_refl eq_refl Hf Hmax)
    as (ou & c1 & Eu).
  destruct (upload_asked m ring idx now newSession newReply sites c request Hm Hsz Hc) as (oa & Ea & _).
  pose proof (upload_keeps_client (H1 := upload) rid fid (bench_name run) "application/octet-stream" size reads c _ _ _ _ _ _ Ea Eu) as Hc1.
  cbn [ca_client] in Hc1.
  eexists. split; [unfold r; rewrite (proj2 (upload_request_run m ring idx now newSession newReply c request Hm Hsz)); reflexivity|].
  intros t acks late Hacks Hlate.
  destruct (upload_acknowledged m ring idx now newSession newReply sites c request Hm Hsz Hthere Hsid Hnul data t acks late Hmax Hacks)
    as (ma & time & E & Hidx). rewrite decide_False in Hidx by done.
  eexists. split; [exact E|]. intros now' ns' nr' download.
  assert (∃ od c2, DownloadFileStream (H1 := download) rid' fid h None c1 = (od, Ret (Some (ERefused "file not found"), c2)) ∧
    received od = []) as (od & c2 & Ed & Hrec).
  { eapply download_unknown; [exact (mr_role _ _ _ Hm)|exact Hidx|exact Hnew|rewrite Hc1; exact Hc]. }
  exists (ou ++ od), c2, c1, od. split; [|split; [exact Ed|exact Hrec]].
  assert (UploadFileStream (H1 := upload) rid fid (bench_name run) "application/octet-stream" size reads c =
    (ou, Ret (inr (mkUploadResult h (ni_ID <$> nodes)), c1))) as Eu' by exact Eu.
  unfold exp_streaming_run. rewrite Eu'. cbn [ur_Hash]. by rewrite Ed.
Qed.

(** Sixteen megabytes in a second and a half. *)
Example mbps_example : format2 (mbps (16 * 1024 * 1024) (1500 * Millisecond)) = "89.48".
Proof. vm_compute. reflexivity. Qed.
End properties.

#[local] Existing Instance decimal_uuids.
#[local] Existing Instance decimal_times.
#[local] Existing Instance canonical_range.
#[local] Existing Instance Transfer.plain_errors.
#[local] Existing Instance prompt.

(** How many nodes each ring has; a node that is no master has none. *)
Definition ring_counts (m : LabM ()) : option (list (option Z)) :=
  (λ L, (λ h, GetNodeCount <$> ma_hashRing (n_master (node_of h))) <$> lb_hosts L) <$> state_of (m empty_lab).

(** The nodes are started, but only told of each other with [AddPeer]. *)
Definition start_connected (portsBase : Z) : LabM () :=
  master ← CreateNode localhost portsBase RoleMaster 10;
  s1 ← CreateNode localhost (portsBase + 1) RoleStorage 5;
  _ ← must_start master "master"; _ ← must_start s1 "s1";
  _ ← ConnectAll [master; s1]; sleep (4 * Second).

(** The comment on the discovery is right: it puts the three storage nodes on
    the ring of the master, as [AddPeer] does not. *)
Theorem discovery_fills_ring :
  ring_counts (_ ← start_streaming_cluster 9600 (4 * Second); skip) = Some [Some 3; None; None; None] ∧
  ring_counts (start_connected 9600) = Some [Some 0; None].
Proof. split; vm_compute; reflexivity. Qed.

Lemma refused_download_recorded_witness : ∃ upload download o c' c1 o1,
  exp_streaming_run upload download 0 3 (2 * Second) (3 * Second) 4 7 8 [(bytes_of "abc", Eof)] (pair_client 0) =
    (o, Ret (inr (streaming_record 0 3 (2 * Second) (3 * Second)), c')) ∧
  DownloadFileStream (H1 := download) 8 7 (sha256_hex (bytes_of "abc")) None c1 = (o1, Ret (Some (ERefused "file not found"), c')).
Proof.
  destruct (refused_download_recorded pair_master pair_ring ∅ 1000 5 6 pair_sites (pair_client 0) 0 4 7 8
    [(bytes_of "abc", Eof)] (2 * Second) (3 * Second)) as (m2 & _ & Hdone).
  - exact pair_master_ready.
  - exact pair_there.
  - reflexivity.
  - simpl. lia.
  - vm_compute. discriminate.
  - reflexivity.
  - vm_compute. discriminate.
  - apply lookup_empty.
  - match type of Hdone with ∀ t acks late, _ ≡ₚ ?l → _ => assert (l ≠ []) as Hlate by (vm_compute; discriminate);
      set (all := l) in *; clearbody all end.
    destruct (Hdone 2000 [] all (Permutation_refl _) Hlate) as (m3 & _ & Hget).
    destruct (Hget 3000 1%N 2%N) as (o & c' & c1 & o1 & E & Ed & _).
    eexists _, _, o, c', c1, o1. split; [exact E|exact Ed].
Defined.
