(* ===== verification/Database.v ===== *)
(** * The database of the API server: [backend/internal/models],
    [backend/internal/services] and the tables of [backend/migrations]

    The three tables as lists of rows in the order of insertion, the
    statements that the services send (with the constraints of the schema:
    primary keys, unique columns, foreign keys, cascading deletes), and the
    services. Any statement may fail for a reason outside the model, and then
    does nothing: a list of faults decides it. In what order rows come that an
    ORDER BY does not tell apart is up to the database, and may differ from one
    query to the next: the order in which a query finds the rows is an
    argument of it, a [Scan]. *)

From S2P Require Import Prelude GoStd Types Json.

(** ** Models *)

Abbreviation UserRole := string (only parsing).
Definition UserRoleUser : UserRole := "user".
Definition UserRoleAdmin : UserRole := "admin".

Record User := mkUser {
  u_ID : uuid;
  u_Username : string;
  u_Email : string;
  u_PasswordHash : string;
  u_Role : UserRole;
  u_CreatedAt : Z;
  u_UpdatedAt : Z }.

Record File := mkFile {
  f_ID : uuid;
  f_Name : string;
  f_Size : Z;
  f_Hash : string;
  f_ContentType : string;
  f_OwnerID : uuid;
  f_CreatedAt : Z;
  f_UpdatedAt : Z;
  f_ReplicasCount : Z }.

Abbreviation ReplicaStatus := string (only parsing).
Definition Synced : ReplicaStatus := "synced".
Definition Syncing : ReplicaStatus := "syncing".
Definition Failed : ReplicaStatus := "failed".

Record Replica := mkReplica {
  r_ID : uuid;
  r_FileID : uuid;
  r_NodeID : uuid;
  r_Status : ReplicaStatus;
  r_CreatedAt : Z;
  r_UpdatedAt : Z }.

(** ** The tables *)

(** A stored file has no replica count; the column of the row is zero. *)
Record Tables := mkTables {
  tb_users : list User;
  tb_files : list File;
  tb_replicas : list Replica }.

Record DB := mkDB { db_tables : Tables; db_faults : list bool }.

(** The last one: a number that does not fit the variable it is read into. *)
Inductive dberr := DBFault | DBNoRows | DBUnique | DBForeignKey | DBOffset | DBScan.

(** What a statement does to the tables when it reaches the database. *)
Definition statement {O A} (run : Tables → dberr + A * Tables) : GoM DB O (dberr + A) := λ db,
  match db_faults db with
  | true :: fs => ([], Ret (inl DBFault, mkDB (db_tables db) fs))
  | fs =>
    match run (db_tables db) with
    | inl e => ([], Ret (inl e, mkDB (db_tables db) (tail fs)))
    | inr (a, t) => ([], Ret (inr a, mkDB t (tail fs)))
    end
  end.

Definition query {O A} (run : Tables → dberr + A) : GoM DB O (dberr + A) :=
  statement (λ t, match run t with inl e => inl e | inr a => inr (a, t) end).

(** ** Statements on [users] *)

(** [gen] is what [gen_random_uuid()] gives, [now] the CURRENT_TIMESTAMP. *)
Definition insert_user (gen : uuid) (now : Z) (username email passwordHash : string) (role : UserRole)
    (t : Tables) : dberr + () * Tables :=
  if bool_decide (gen ∈ (u_ID <$> tb_users t) ∨ username ∈ (u_Username <$> tb_users t) ∨
                  email ∈ (u_Email <$> tb_users t))
  then inl DBUnique
  else inr ((), mkTables (tb_users t ++ [mkUser gen username email passwordHash role now now])
                  (tb_files t) (tb_replicas t)).

Definition select_user (P : User → bool) (t : Tables) : dberr + User :=
  match List.find P (tb_users t) with Some u => inr u | None => inl DBNoRows end.

(** ** Statements on [files] and [replicas] *)

(** select id, name, size, hash, content_type, owner_id: the other fields of
    the struct keep their zero values. *)
Definition select_file (id : uuid) (t : Tables) : dberr + File :=
  match List.find (λ f, bool_decide (f_ID f = id)) (tb_files t) with
  | Some f => inr (mkFile (f_ID f) (f_Name f) (f_Size f) (f_Hash f) (f_ContentType f) (f_OwnerID f)
                     zero_time zero_time 0)
  | None => inl DBNoRows
  end.

Definition insert_file (now : Z) (f : File) (t : Tables) : dberr + () * Tables :=
  if bool_decide (f_ID f ∈ (f_ID <$> tb_files t)) then inl DBUnique
  else if bool_decide (f_OwnerID f ∉ (u_ID <$> tb_users t)) then inl DBForeignKey
  else inr ((), mkTables (tb_users t)
    (tb_files t ++ [mkFile (f_ID f) (f_Name f) (f_Size f) (f_Hash f) (f_ContentType f) (f_OwnerID f) now now 0])
    (tb_replicas t)).

(** The replicas of the file go with it: ON DELETE CASCADE. *)
Definition delete_file (id : uuid) (t : Tables) : dberr + () * Tables :=
  inr ((), mkTables (tb_users t) (filter (λ f, f_ID f ≠ id) (tb_files t))
                    (filter (λ r, r_FileID r ≠ id) (tb_replicas t))).

Definition insert_replica (gen : uuid) (now : Z) (fileID nodeID : uuid) (t : Tables) : dberr + () * Tables :=
  if bool_decide (gen ∈ (r_ID <$> tb_replicas t) ∨
                  (fileID, nodeID) ∈ ((λ r, (r_FileID r, r_NodeID r)) <$> tb_replicas t)) then inl DBUnique
  else if bool_decide (fileID ∉ (f_ID <$> tb_files t)) then inl DBForeignKey
  else inr ((), mkTables (tb_users t) (tb_files t)
                 (tb_replicas t ++ [mkReplica gen fileID nodeID Synced now now])).

Definition owned (ownerID : uuid) (t : Tables) : list File := filter (λ f, f_OwnerID f = ownerID) (tb_files t).

Definition count_files (ownerID : uuid) (t : Tables) : Z := Z.of_nat (length (owned ownerID t)).

(** count(r.id) over the left join with the synced replicas. *)
Definition replicas_count (f : File) (t : Tables) : Z :=
  Z.of_nat (length (filter (λ r, r_FileID r = f_ID f ∧ r_Status r = Synced) (tb_replicas t))).

Definition with_count (t : Tables) (f : File) : File :=
  mkFile (f_ID f) (f_Name f) (f_Size f) (f_Hash f) (f_ContentType f) (f_OwnerID f) (f_CreatedAt f)
    (f_UpdatedAt f) (replicas_count f t).

(** ORDER BY created_at DESC *)
Definition newer (f g : File) : bool := f_CreatedAt g <? f_CreatedAt f.

(** The order in which a query comes upon the rows: any permutation of them. *)
Record Scan := mkScan {
  scan_rows :> list File → list File;
  scan_perm l : scan_rows l ≡ₚ l }.

(** The rows sorted: those of the same time in the order of the scan. *)
Definition listing (scan : Scan) (ownerID : uuid) (t : Tables) : list File :=
  with_count t <$> SliceStable newer (scan (owned ownerID t)).

(** LIMIT and OFFSET; a negative offset is an error. *)
Definition select_page (scan : Scan) (ownerID : uuid) (limit offset : Z) (t : Tables) : dberr + list File :=
  if offset <? 0 then inl DBOffset
  else inr (take (Z.to_nat limit) (drop (Z.to_nat offset) (listing scan ownerID t))).

(** ** [services/file_service.go] *)
Section file_service.
Context {O : Type}.

Abbreviation M := (GoM DB O).

Definition GetFileByID (fileID : uuid) : M (dberr + File) := query (select_file fileID).

Definition CreateFile (now : Z) (file : File) : M (dberr + ()) := statement (insert_file now file).

Definition DeleteFileByID (fileID : uuid) : M (dberr + ()) := statement (delete_file fileID).

(** [gens]: the identifiers the database generates for the rows. *)
Fixpoint replicas_loop (gens : nat → uuid) (now : Z) (fileID : uuid) (i : nat) (nodeIDs : list uuid)
    : M (dberr + ()) :=
  match nodeIDs with
  | [] => mret (inr ())
  | nodeID :: nodeIDs' =>
    r ← statement (insert_replica (gens i) now fileID nodeID);
    match r with
    | inl e => mret (inl e)
    | inr _ => replicas_loop gens now fileID (S i) nodeIDs'
    end
  end.

Definition CreateReplicas (gens : nat → uuid) (now : Z) (fileID : uuid) (nodeIDs : list uuid) : M (dberr + ()) :=
  match nodeIDs with
  | [] => mret (inr ())
  | _ => replicas_loop gens now fileID 0 nodeIDs
  end.

(** The page and its size after the clamps. *)
Definition clamp_page (page : Z) : Z := if page <? 1 then 1 else page.
Definition clamp_perPage (perPage : Z) : Z :=
  let perPage := if perPage <? 1 then 10 else perPage in
  if 100 <? perPage then 100 else perPage.

Definition ListFilesPaginated (scan : Scan) (ownerID : uuid) (page perPage : Z) : M (dberr + list File * Z) :=
  let page := clamp_page page in
  let perPage := clamp_perPage perPage in
  let offset := int64 (int64 (page - 1) * perPage) in
  total ← query (λ t, inr (count_files ownerID t));
  match total with
  | inl e => mret (inl e)
  | inr total =>
    files ← query (select_page scan ownerID perPage offset);
    mret match files with inl e => inl e | inr files => inr (files, total) end
  end.
End file_service.

(** ** [services/auth_service.go] *)

(** What the program relies on of golang.org/x/crypto/bcrypt: [rand] is the
    randomness a hash is made with, and a hash is accepted with its password. *)
Class Bcrypt := {
  bcrypt_Generate : N → string → option string;
  bcrypt_Compare : string → string → bool;
  bcrypt_Compare_Generate rand p h : bcrypt_Generate rand p = Some h → bcrypt_Compare h p = true }.

Abbreviation MapClaims := (gmap string json).

(** The signing method named in a token. *)
Inductive SigningMethod := SigningMethodHMAC | SigningMethodOther.

(** What it relies on of github.com/golang-jwt/jwt: [Parse] asks the key
    function for the key of the token's method and gives the claims and whether
    the token is valid, or an error; a token signed with HS256 that has not
    expired is valid for its own key. *)
Class Jwt := {
  jwt_SignedString : string → MapClaims → option string;
  jwt_Parse : Z → (SigningMethod → option string) → string → option (bool * MapClaims);
  jwt_Parse_SignedString now key secret claims token exp :
    jwt_SignedString secret claims = Some token → key SigningMethodHMAC = Some secret →
    claims !! "exp" = Some (JNum exp) → now / Second <= exp →
    jwt_Parse now key token = Some (true, claims) }.

Record RegisterUserRequest := mkRegisterUserRequest {
  rur_Username : string; rur_Email : string; rur_Password : string }.
Record LoginUserRequest := mkLoginUserRequest { lur_Email : string; lur_Password : string }.

Inductive autherr := ErrInvalidCredentials | ErrUserNotFound | ErrOther.

Section auth_service.
Context {O : Type} `{UuidText} `{Bcrypt} `{Jwt}.

Abbreviation M := (GoM DB O).

(** [true] is a nil error. *)
Definition RegisterUser (rand : N) (gen : uuid) (now : Z) (user : RegisterUserRequest) : M bool :=
  match bcrypt_Generate rand (rur_Password user) with
  | None => mret false
  | Some passwordHash =>
    r ← statement (insert_user gen now (rur_Username user) (rur_Email user) passwordHash UserRoleUser);
    mret match r with inl _ => false | inr _ => true end
  end.

Definition token_claims (now : Z) (u : User) : MapClaims :=
  <["exp" := JNum ((now + 24 * Hour) / Second)]>
  (<["role" := JStr (u_Role u)]> (<["email" := JStr (u_Email u)]>
  (<["username" := JStr (u_Username u)]> {[ "userID" := JStr (uuid_String (u_ID u)) ]}))).

Definition LoginUser (jwtSecret : string) (now : Z) (user : LoginUserRequest) : M (autherr + string) :=
  r ← query (select_user (λ u, String.eqb (u_Email u) (lur_Email user)));
  match r with
  | inl DBNoRows => mret (inl ErrInvalidCredentials)
  | inl _ => mret (inl ErrOther)
  | inr userModel =>
    if negb (bcrypt_Compare (u_PasswordHash userModel) (lur_Password user)) then mret (inl ErrInvalidCredentials)
    else
      match jwt_SignedString jwtSecret (token_claims now userModel) with
      | None => mret (inl ErrOther)
      | Some tokenString => mret (inr tokenString)
      end
  end.

(** select id, username, email, role: no password hash. *)
Definition public_user (u : User) : User :=
  mkUser (u_ID u) (u_Username u) (u_Email u) "" (u_Role u) zero_time zero_time.

Definition GetUserByID (userID : uuid) : M (autherr + User) :=
  r ← query (select_user (λ u, bool_decide (u_ID u = userID)));
  mret match r with
  | inl DBNoRows => inl ErrUserNotFound
  | inl _ => inl ErrOther
  | inr u => inr (public_user u)
  end.
End auth_service.

(** ** The constraints of the schema *)

Record tables_ok (t : Tables) : Prop := mkTablesOk {
  tk_users : NoDup (u_ID <$> tb_users t);
  tk_usernames : NoDup (u_Username <$> tb_users t);
  tk_emails : NoDup (u_Email <$> tb_users t);
  tk_files : NoDup (f_ID <$> tb_files t);
  tk_owner : ∀ f, f ∈ tb_files t → f_OwnerID f ∈ (u_ID <$> tb_users t);
  tk_replicas : NoDup (r_ID <$> tb_replicas t);
  tk_pairs : NoDup ((λ r, (r_FileID r, r_NodeID r)) <$> tb_replicas t);
  tk_file : ∀ r, r ∈ tb_replicas t → r_FileID r ∈ (f_ID <$> tb_files t) }.

Lemma NoDup_snoc_fmap {A B} (f : A → B) l x : NoDup (f <$> l) → f x ∉ (f <$> l) → NoDup (f <$> (l ++ [x])).
Proof.
  intros Hl Hx. rewrite fmap_app. apply NoDup_app. split; [done|]. split; [|apply NoDup_singleton].
  intros y Hy. csimpl. rewrite list_elem_of_singleton. by intros ->.
Qed.

Lemma NoDup_fmap_filter {A B} (f : A → B) (P : A → Prop) `{∀ x, Decision (P x)} l :
  NoDup (f <$> l) → NoDup (f <$> filter P l).
Proof. intros Hl. eapply sublist_NoDup; [exact Hl|]. apply fmap_sublist, sublist_filter. Qed.

Lemma insert_user_ok gen now name email hash role t a t' :
  insert_user gen now name email hash role t = inr (a, t') → tables_ok t → tables_ok t'.
Proof.
  unfold insert_user. case_bool_decide as Hn; [done|]. intros [= _ <-] [].
  assert (gen ∉ (u_ID <$> tb_users t) ∧ name ∉ (u_Username <$> tb_users t) ∧
    email ∉ (u_Email <$> tb_users t)) as (? & ? & ?) by (split_and!; intros Hx; apply Hn; auto).
  split; cbn [tb_users tb_files tb_replicas]; try done; try solve [apply NoDup_snoc_fmap; done].
  intros f Hf. rewrite fmap_app. apply elem_of_app. left. auto.
Qed.

Lemma insert_file_ok now f t a t' : insert_file now f t = inr (a, t') → tables_ok t → tables_ok t'.
Proof.
  unfold insert_file. case_bool_decide as Hn; [done|]. case_bool_decide as Ho; [done|]. intros [= _ <-] [].
  split; cbn [tb_users tb_files tb_replicas]; try done.
  - by apply NoDup_snoc_fmap.
  - intros g [Hg| ->%list_elem_of_singleton]%elem_of_app; [auto|]. exact Ho.
  - intros r Hr. rewrite fmap_app. apply elem_of_app. left. auto.
Qed.

Lemma delete_file_ok id t a t' : delete_file id t = inr (a, t') → tables_ok t → tables_ok t'.
Proof.
  intros [= _ <-] []. split; cbn [tb_users tb_files tb_replicas]; try done; try solve [apply NoDup_fmap_filter; done].
  - intros f [_ Hf]%list_elem_of_filter. auto.
  - intros r [Hid Hr]%list_elem_of_filter. specialize (tk_file0 r Hr).
    apply list_elem_of_fmap in tk_file0 as (f & Ef & Hf). apply list_elem_of_fmap. exists f. split; [done|].
    apply list_elem_of_filter. split; [congruence|done].
Qed.

Lemma insert_replica_ok gen now fid nid t a t' :
  insert_replica gen now fid nid t = inr (a, t') → tables_ok t → tables_ok t'.
Proof.
  unfold insert_replica. case_bool_decide as Hn; [done|]. case_bool_decide as Hf; [done|]. intros [= _ <-] [].
  assert (gen ∉ (r_ID <$> tb_replicas t) ∧ (fid, nid) ∉ ((λ r, (r_FileID r, r_NodeID r)) <$> tb_replicas t)) as [? ?]
    by (split; intros Hx; apply Hn; auto).
  split; cbn [tb_users tb_files tb_replicas]; try done.
  - by apply NoDup_snoc_fmap.
  - by apply NoDup_snoc_fmap.
  - intros r [Hr| ->%list_elem_of_singleton]%elem_of_app; [auto|]. exact Hf.
Qed.

(** ** Replicas *)

Definition replica_rows (gens : nat → uuid) (now : Z) (fid : uuid) (i : nat) (nids : list uuid) : list Replica :=
  imap (λ j n, mkReplica (gens (i + j)%nat) fid n Synced now now) nids.

Lemma replicas_loop_run {O} gens now fid nids : ∀ i t,
  fid ∈ (f_ID <$> tb_files t) → NoDup nids → Inj (=) (=) gens →
  (∀ j, (i ≤ j)%nat → gens j ∉ (r_ID <$> tb_replicas t)) →
  (∀ n, n ∈ nids → (fid, n) ∉ ((λ r, (r_FileID r, r_NodeID r)) <$> tb_replicas t)) →
  replicas_loop (O := O) gens now fid i nids (mkDB t []) =
    ([], Ret (inr (), mkDB (mkTables (tb_users t) (tb_files t) (tb_replicas t ++ replica_rows gens now fid i nids)) [])).
Proof.
  induction nids as [|n nids IH]; intros i t Hf Hnd Hinj Hg Hp; cbn [replicas_loop].
  { unfold replica_rows. simpl. rewrite app_nil_r. by destruct t. }
  apply NoDup_cons in Hnd as [Hn Hnd]. set (r := mkReplica (gens i) fid n Synced now now).
  set (t1 := mkTables (tb_users t) (tb_files t) (tb_replicas t ++ [r])).
  rewrite (bind_silent _ _ _ (inr ()) (mkDB t1 [])).
  2:{ unfold statement. cbn [db_faults db_tables]. unfold insert_replica. rewrite bool_decide_false.
      - rewrite bool_decide_false by tauto. done.
      - intros [Hin|Hin]; [by apply (Hg i)|]. apply (Hp n); [by left|done]. }
  rewrite IH; try done.
  - do 4 f_equal. cbn [t1 tb_replicas]. rewrite <-app_assoc. unfold replica_rows. simpl.
    rewrite Nat.add_0_r. do 3 f_equal. apply imap_ext. intros j x _. simpl. by rewrite Nat.add_succ_r.
  - intros j Hj. cbn [t1 tb_replicas]. rewrite fmap_app. csimpl. rewrite elem_of_app, list_elem_of_singleton.
    intros [Hin|E%(inj gens)]; [|lia]. apply (Hg j); [lia|done].
  - intros m Hm. cbn [t1 tb_replicas]. rewrite fmap_app. csimpl. rewrite elem_of_app, list_elem_of_singleton.
    intros [Hin|[= ->]]; [|done]. apply (Hp m); [by right|done].
Qed.

(** A new file has no replica yet. *)
Lemma new_file_replicas {O} gens now fid nids row t : tables_ok t → f_ID row = fid →
  fid ∉ (f_ID <$> tb_files t) → NoDup nids → Inj (=) (=) gens → (∀ j, gens j ∉ (r_ID <$> tb_replicas t)) →
  CreateReplicas (O := O) gens now fid nids (mkDB (mkTables (tb_users t) (tb_files t ++ [row]) (tb_replicas t)) []) =
    ([], Ret (inr (), mkDB (mkTables (tb_users t) (tb_files t ++ [row])
      (tb_replicas t ++ replica_rows gens now fid 0 nids)) [])).
Proof.
  intros Hok Hrow Hf Hnd Hinj Hg. unfold CreateReplicas. destruct nids as [|n nids'].
  { unfold replica_rows. simpl. by rewrite app_nil_r. }
  apply (replicas_loop_run gens now fid (n :: nids') 0
    (mkTables (tb_users t) (tb_files t ++ [row]) (tb_replicas t))); try done.
  - cbn [tb_files]. rewrite fmap_app. apply elem_of_app. right. csimpl. rewrite Hrow. by left.
  - intros m _ (r & [= E _] & Hr)%list_elem_of_fmap. apply Hf. rewrite E. by apply (tk_file _ Hok).
Qed.

(** ** Pages *)

Lemma clamp_perPage_range n : 1 <= clamp_perPage n <= 100.
Proof. unfold clamp_perPage. repeat case_match; lia. Qed.

Section pages.
Context {O : Type} (owner : uuid) (t : Tables).

Lemma listing_perm scan : listing scan owner t ≡ₚ with_count t <$> owned owner t.
Proof. unfold listing. by rewrite SliceStable_perm, scan_perm. Qed.

Lemma length_listing scan : Z.of_nat (length (listing scan owner t)) = count_files owner t.
Proof. unfold count_files. by rewrite listing_perm, length_fmap. Qed.

(** The times of the rows are sorted, so they do not depend on the scan. *)
Lemma listing_sorted scan : StronglySorted (λ x y, y <= x) (f_CreatedAt <$> listing scan owner t).
Proof.
  unfold listing. rewrite <-list_fmap_compose.
  assert (ordered newer (SliceStable newer (scan (owned owner t)))) as Ho.
  { apply (SliceStable_ordered newer); unfold newer; intros *; rewrite ?Z.ltb_lt, ?Z.ltb_ge; lia. }
  clear -Ho. induction Ho as [|f l Hl IH Hf]; csimpl; constructor; [done|].
  apply Forall_fmap. eapply Forall_impl; [exact Hf|]. intros g Hg. unfold newer in Hg. simpl. apply Z.ltb_ge in Hg. done.
Qed.

Lemma listing_times scan1 scan2 : f_CreatedAt <$> listing scan1 owner t = f_CreatedAt <$> listing scan2 owner t.
Proof.
  assert (AntiSymm eq (λ x y : Z, y <= x)) by (intros x y ??; lia).
  apply (StronglySorted_unique (λ x y, y <= x)); [apply listing_sorted..|]. by rewrite !listing_perm.
Qed.

(** With distinct times nothing depends on it. *)
Lemma listing_unique scan1 scan2 : NoDup (f_CreatedAt <$> owned owner t) → listing scan1 owner t = listing scan2 owner t.
Proof.
  intros Hnd. apply (perm_eq_by_key f_CreatedAt); [apply listing_times|by rewrite !listing_perm|].
  rewrite listing_perm, <-list_fmap_compose. exact Hnd.
Qed.

(** The rows of a page when its offset is a number of 64 bits. *)
Definition page_rows (scan : Scan) (page perPage : Z) : list File :=
  take (Z.to_nat perPage) (drop (Z.to_nat ((page - 1) * perPage)) (listing scan owner t)).

Lemma ListFilesPaginated_run scan page perPage :
  1 <= page → 1 <= perPage <= 100 → (page - 1) * perPage <= maxInt →
  ListFilesPaginated (O := O) scan owner page perPage (mkDB t []) =
    ([], Ret (inr (page_rows scan page perPage, count_files owner t), mkDB t [])).
Proof.
  intros Hp Hpp Hmax. unfold ListFilesPaginated, maxInt in *.
  assert (clamp_page page = page) as -> by (unfold clamp_page; destruct (Z.ltb_spec page 1); lia).
  assert (clamp_perPage perPage = perPage) as ->.
  { unfold clamp_perPage. repeat case_match; lia. }
  assert (0 <= (page - 1) * perPage) as Hnn by nia.
  rewrite (int64_id (page - 1)) by (int_bounds; nia). rewrite (int64_id (_ * _)) by (int_bounds; lia).
  cbv zeta. erewrite bind_silent by reflexivity. cbv beta iota. unfold query.
  erewrite (bind_silent (statement _)); [|unfold statement; cbn; unfold select_page;
    rewrite (proj2 (Z.ltb_ge _ _)) by lia; reflexivity]. reflexivity.
Qed.

(** Pages of what does not depend on the scan, one after the other. *)
Lemma pages_joined {A} (f : File → A) (scans : nat → Scan) perPage (L : list A) k : 1 <= perPage →
  (∀ i, f <$> listing (scans i) owner t = L) → count_files owner t <= Z.of_nat k * perPage →
  f <$> mjoin ((λ i, page_rows (scans i) (Z.of_nat i + 1) perPage) <$> seq 0 k) = L.
Proof.
  intros Hpp HL Hc.
  assert (∀ n, f <$> mjoin ((λ i, page_rows (scans i) (Z.of_nat i + 1) perPage) <$> seq 0 n) =
    take (n * Z.to_nat perPage) L) as ->.
  { intros n. induction n as [|n IH]; [done|]. rewrite seq_S, fmap_app, join_app, fmap_app, IH. csimpl. rewrite app_nil_r.
    unfold page_rows. rewrite fmap_take, fmap_drop, HL.
    replace (Z.to_nat ((Z.of_nat n + 1 - 1) * perPage)) with (n * Z.to_nat perPage)%nat by nia.
    rewrite Nat.add_comm. apply take_take_drop. }
  apply take_ge. rewrite <-(HL 0%nat), length_fmap. rewrite <-(length_listing (scans 0%nat)) in Hc. nia.
Qed.

(** C38: Paging, whatever order the database finds the rows in for each page: the
    pages of any allowed size, read one after the other while the tables stay
    the same, have the creation times of all of the owner's files, newest
    first; no page is longer than its size, and every page comes with the
    number of all of the owner's files. If no two of these have the same
    creation time, the pages are the owner's files, all of them and each once,
    newest first, with the count of synced replicas. (Files of the same time
    can be repeated and missed: see [tied_rows_repeated].) *)
Theorem pages_partition (scans : nat → Scan) perPage k :
  1 <= perPage <= 100 → Z.of_nat k * perPage <= maxInt → count_files owner t <= Z.of_nat k * perPage →
  ∃ pages, length pages = k ∧
    (∀ i rows, pages !! i = Some rows →
       ListFilesPaginated (O := O) (scans i) owner (Z.of_nat i + 1) perPage (mkDB t []) =
         ([], Ret (inr (rows, count_files owner t), mkDB t [])) ∧ Z.of_nat (length rows) <= perPage) ∧
    (f_CreatedAt <$> mjoin pages) ≡ₚ f_CreatedAt <$> owned owner t ∧
    StronglySorted (λ x y, y <= x) (f_CreatedAt <$> mjoin pages) ∧
    (NoDup (f_CreatedAt <$> owned owner t) → mjoin pages ≡ₚ with_count t <$> owned owner t).
Proof.
  intros Hpp Hk Hc. assert (1 <= perPage) as Hp1 by lia.
  exists ((λ i, page_rows (scans i) (Z.of_nat i + 1) perPage) <$> seq 0 k).
  pose proof (pages_joined f_CreatedAt scans perPage (f_CreatedAt <$> listing (scans 0%nat) owner t) k Hp1
    (λ i, listing_times _ _) Hc) as Htimes.
  split_and!.
  - by rewrite length_fmap, length_seq.
  - intros i rows Hi. rewrite list_lookup_fmap in Hi. destruct (seq 0 k !! i) as [j|] eqn:Ej; [|done].
    apply lookup_seq in Ej as [-> Hj]. injection Hi as <-. split.
    + apply ListFilesPaginated_run; [lia|done|]. nia.
    + unfold page_rows. rewrite length_take. lia.
  - rewrite Htimes, listing_perm, <-list_fmap_compose. done.
  - rewrite Htimes. apply listing_sorted.
  - intros Hnd. rewrite <-(listing_perm (scans 0%nat)).
    rewrite <-(pages_joined id scans perPage (listing (scans 0%nat) owner t) k Hp1); [by rewrite list_fmap_id| |done].
    intros i. rewrite list_fmap_id. by apply listing_unique.
Qed.
End pages.

(** The offset is computed in 64 bits and wraps around: of pages of four
    rows, page 2^62 + 1 is the first page again. *)
Theorem page_offset_wraps {O} scan owner (db : DB) :
  ListFilesPaginated (O := O) scan owner (2^62 + 1) 4 db = ListFilesPaginated scan owner 1 4 db.
Proof. reflexivity. Qed.

(** ** Example tables: two users, three files of one of them *)
Module Examples.

Definition alice : User := mkUser 1 "alice" "a@x" "h" UserRoleUser 0 0.
Definition root : User := mkUser 2 "root" "r@x" "h" UserRoleAdmin 0 0.
Definition file (id : uuid) (t : Z) : File := mkFile id "a.txt" 3 "00" "text/plain" 1 t t 0.
Definition tables : Tables := mkTables [alice; root] [file 11 5; file 12 9; file 13 7]
  [mkReplica 21 11 31 Synced 5 5; mkReplica 22 11 32 Synced 5 5; mkReplica 23 12 31 Syncing 9 9].

Lemma tables_sound : tables_ok tables.
Proof.
  split; first [apply (bool_decide_unpack _)|apply Forall_forall, (bool_decide_unpack _)]; vm_compute; exact I.
Qed.

Definition in_order : Scan := mkScan id (λ l, reflexivity l).
Definition backwards : Scan := mkScan (@reverse File) (λ l, reverse_Permutation l).

(** Pages of two rows: the file of time 9, then 7, then 5, with one replica
    that is still syncing; the second query scans the table from its end. *)
Lemma pages_partition_witness :
  ∃ pages, length pages = 2%nat ∧ (f_CreatedAt <$> mjoin pages) ≡ₚ [5; 9; 7] ∧
    mjoin pages ≡ₚ with_count tables <$> owned 1 tables ∧
    ((λ f, (f_ID f, f_ReplicasCount f)) <$> listing backwards 1 tables) = [(12%N, 0); (13%N, 0); (11%N, 2)].
Proof.
  destruct (pages_partition (O := ()) 1 tables (λ i, if decide (i = 0%nat) then in_order else backwards) 2 2)
    as (pages & Hl & _ & Ht & _ & Hp).
  - lia.
  - vm_compute. discriminate.
  - vm_compute. discriminate.
  - exists pages. split; [exact Hl|]. split; [exact Ht|]. split; [|vm_compute; reflexivity].
    apply Hp. apply (bool_decide_unpack _). vm_compute. exact I.
Defined.

(** Two files of the same time on pages of one row: if the query for the second
    page finds them in the other order than that for the first, both pages hold
    the same file, and the other one is on none. *)
Theorem tied_rows_repeated :
  let t := mkTables [alice] [file 11 5; file 12 5] [] in
  let rows scan page := match value_of (ListFilesPaginated (O := ()) scan 1 page 1 (mkDB t [])) with
    | Some (inr (fs, _)) => Some (f_ID <$> fs) | _ => None end in
  rows in_order 1 = Some [11%N] ∧ rows backwards 2 = Some [11%N].
Proof. split; vm_compute; reflexivity. Qed.
End Examples.
