(* ===== verification/Api.v ===== *)
(** * The API server: [backend/internal/handlers], [backend/internal/middleware],
    [backend/utils/response] and the routes of [backend/cmd/api/main.go]

    Handlers as methods on the server's state: its database, its client of the
    cluster, and the table of chunked uploads. The table holds pointers: an
    upload session is an object of the heap, and a handler that has looked it
    up keeps the pointer while it waits for the session's mutex. The error
    texts that the messages quote are an argument. *)

From Stdlib Require Import Ascii.
From stdpp Require Import pretty.
From S2P Require Import Prelude GoStd Types Json StreamServer NodeState Client Database.

(** ** Requests and responses *)

Record UserClaims := mkUserClaims {
  uc_UserID : uuid;
  uc_Username : string;
  uc_Email : string;
  uc_Role : string }.

(** What a handler reads of an [http.Request]: the cookie of the token, the
    user that the middleware put in the context, the values of the path and of
    the query, the JSON document of the body, the form with its file. *)
Record Request := mkRequest {
  rq_Method : string;
  rq_token : option string;
  rq_user : option UserClaims;
  rq_PathValue : string → string;
  rq_Query : string → string;
  rq_body : option json;
  rq_form : option (string → string);
  rq_chunk : option (option (list byte)) }.

(** What a handler does: headers, a JSON response, a cookie, and the actions
    of the client of the cluster. The bytes it writes for a download are the
    client's [CWriter] actions. *)
Inductive HAct :=
| HHeader (name value : string)
| HJSON (status : Z) (body : json)
| HStatus (status : Z)
| HCookie (name value : string) (maxAge : Z)
| HClient (a : CAct)
| HLog (text : string).

Definition MethodGet : string := "GET".
Definition MethodPost : string := "POST".
Definition MethodDelete : string := "DELETE".
Definition StatusOK : Z := 200.
Definition StatusCreated : Z := 201.
Definition StatusAccepted : Z := 202.
Definition StatusBadRequest : Z := 400.
Definition StatusUnauthorized : Z := 401.
Definition StatusForbidden : Z := 403.
Definition StatusNotFound : Z := 404.
Definition StatusMethodNotAllowed : Z := 405.
Definition StatusInternalServerError : Z := 500.

(** [response.SuccessResponse] and [response.ErrorResponse]: [data] is omitted
    when it is a nil interface, [message] when it is empty. *)
Definition success_body (data : option json) (message : string) : json :=
  JObj ([("success", JBool true)] ++ match data with Some d => [("data", d)] | None => [] end ++
        omitempty "message" message).
Definition error_body (code : Z) (message : string) : json :=
  JObj [("success", JBool false); ("error", JStr message); ("code", JNum code)].

Definition response_JSON {S} (status : Z) (data : json) : GoM S HAct () := emit (HJSON status data).
Definition response_Error {S} (code : Z) (message : string) : GoM S HAct () :=
  response_JSON code (error_body code message).

Definition response_Success {S} (data : option json) (message : string) : GoM S HAct () :=
  response_JSON StatusOK (success_body data message).

(** ** [strconv.Atoi] *)

Definition digit (c : ascii) : option Z :=
  let n := N_of_ascii c in
  if ((48 <=? n) && (n <=? 57))%N then Some (Z.of_N (n - 48)) else None.

Fixpoint digits (s : string) (acc : Z) : option Z :=
  match s with
  | "" => Some acc
  | String c s' => match digit c with Some d => digits s' (10 * acc + d) | None => None end
  end%string.

Definition Atoi (s : string) : option Z :=
  let '(neg, t) := match s with
                   | String "-" t => (true, t)
                   | String "+" t => (false, t)
                   | _ => (false, s)
                   end%string in
  match t with
  | "" => None
  | _ => match digits t 0 with
         | Some n => let z := if neg : bool then - n else n in if in_int64 z then Some z else None
         | None => None
         end
  end%string.

(** ** The documents of [internal/dto] and [internal/models] *)

Record FileItem := mkFileItem {
  fi_ID : uuid;
  fi_Filename : string;
  fi_Size : Z;
  fi_ContentType : string;
  fi_Hash : string;
  fi_OwnerID : uuid;
  fi_CreatedAt : Z;
  fi_UpdatedAt : Z;
  fi_ReplicasCount : Z }.

Record ChunkedUploadInitRequest := mkChunkedUploadInitRequest {
  cui_FileName : string;
  cui_FileSize : Z;
  cui_TotalChunks : Z;
  cui_ContentType : string }.

(** An upload in chunks. *)
Record UploadSession := mkUploadSession {
  up_ID : string;
  up_FileID : uuid;
  up_UserID : uuid;
  up_FileName : string;
  up_FileSize : Z;
  up_TotalChunks : Z;
  up_ContentType : string;
  up_StreamSession : StreamUploadSession;
  up_NextChunk : Z;
  up_CreatedAt : Z }.

(** The sessions table maps identifiers to objects of the heap. *)
Record Api := mkApi {
  ap_db : DB;
  ap_client : Caller;
  ap_sessions : gmap string nat;
  ap_heap : gmap nat UploadSession;
  ap_startedAt : Z }.

(** The texts of errors in responses. *)
Class ErrorTexts := { client_text : cerr → string; db_text : dberr → string; form_text : string }.

Abbreviation HM := (GoM Api HAct).

Section api.
Context `{UuidText} `{TimeText} `{Network} `{Bcrypt} `{Jwt} `{MapRange} `{ErrorTexts}.

Definition FileItem_to_json (x : FileItem) : json :=
  JObj [("id", put_uuid (fi_ID x)); ("filename", JStr (fi_Filename x)); ("size", JNum (fi_Size x));
        ("content_type", JStr (fi_ContentType x)); ("hash", JStr (fi_Hash x)); ("owner_id", put_uuid (fi_OwnerID x));
        ("created_at", put_time (fi_CreatedAt x)); ("updated_at", put_time (fi_UpdatedAt x));
        ("replicas_count", JNum (fi_ReplicasCount x))].

Definition FileListResponse_to_json (files : list FileItem) (total page perPage : Z) : json :=
  JObj [("files", JArr (FileItem_to_json <$> files)); ("total", JNum total); ("page", JNum page);
        ("per_page", JNum perPage)].

Definition User_to_json (u : User) : json :=
  JObj [("id", put_uuid (u_ID u)); ("username", JStr (u_Username u)); ("email", JStr (u_Email u));
        ("password_hash", JStr (u_PasswordHash u)); ("role", JStr (u_Role u));
        ("created_at", put_time (u_CreatedAt u)); ("updated_at", put_time (u_UpdatedAt u))].

Definition ChunkedUploadInitRequest_schema : schema :=
  [("fileName", check_string); ("fileSize", check_int); ("totalChunks", check_int); ("contentType", check_string)].
Definition ChunkedUploadInitRequest_of_json (j : json) : ChunkedUploadInitRequest * derr :=
  let '(m, e) := object ChunkedUploadInitRequest_schema j in
  (mkChunkedUploadInitRequest (get_string (slot m "fileName")) (get_int (slot m "fileSize"))
     (get_int (slot m "totalChunks")) (get_string (slot m "contentType")), e).

Definition ChunkedUploadFinalizeRequest_of_json (j : json) : string * derr :=
  let '(m, e) := object [("sessionId", check_string)] j in (get_string (slot m "sessionId"), e).

Definition RegisterUserRequest_of_json (j : json) : RegisterUserRequest * derr :=
  let '(m, e) := object [("username", check_string); ("email", check_string); ("password", check_string)] j in
  (mkRegisterUserRequest (get_string (slot m "username")) (get_string (slot m "email"))
     (get_string (slot m "password")), e).

Definition LoginUserRequest_of_json (j : json) : LoginUserRequest * derr :=
  let '(m, e) := object [("email", check_string); ("password", check_string)] j in
  (mkLoginUserRequest (get_string (slot m "email")) (get_string (slot m "password")), e).

(** ** The parts of the server *)

Definition set_db (d : DB) (s : Api) : Api :=
  mkApi d (ap_client s) (ap_sessions s) (ap_heap s) (ap_startedAt s).
Definition set_client (c : Caller) (s : Api) : Api :=
  mkApi (ap_db s) c (ap_sessions s) (ap_heap s) (ap_startedAt s).
Definition set_sessions (m : gmap string nat) (s : Api) : Api :=
  mkApi (ap_db s) (ap_client s) m (ap_heap s) (ap_startedAt s).
Definition set_heap (h : gmap nat UploadSession) (s : Api) : Api :=
  mkApi (ap_db s) (ap_client s) (ap_sessions s) h (ap_startedAt s).

Definition service {A} (m : GoM DB HAct A) : HM A := zoom ap_db set_db m.

(** A method of the client; its actions are the handler's. *)
Definition client {A} (m : GoM Caller CAct A) : HM A := λ s,
  match m (ap_client s) with
  | (o, Ret (a, c)) => (HClient <$> o, Ret (a, set_client c s))
  | (o, Panic w) => (HClient <$> o, Panic w)
  end.

Definition set_stream (t : StreamUploadSession) (u : UploadSession) : UploadSession :=
  mkUploadSession (up_ID u) (up_FileID u) (up_UserID u) (up_FileName u) (up_FileSize u) (up_TotalChunks u)
    (up_ContentType u) t (up_NextChunk u) (up_CreatedAt u).
Definition set_NextChunk (n : Z) (u : UploadSession) : UploadSession :=
  mkUploadSession (up_ID u) (up_FileID u) (up_UserID u) (up_FileName u) (up_FileSize u) (up_TotalChunks u)
    (up_ContentType u) (up_StreamSession u) n (up_CreatedAt u).

Definition nil_session : string := "invalid memory address or nil pointer dereference".

(** A method of the stream session of the object [p]. *)
Definition on_stream {A} (p : nat) (m : GoM StreamUploadSession CAct A) : HM A := λ s,
  match ap_heap s !! p with
  | None => ([], Panic nil_session)
  | Some u =>
    match m (up_StreamSession u) with
    | (o, Ret (a, t)) => (HClient <$> o, Ret (a, set_heap (<[p := set_stream t u]> (ap_heap s)) s))
    | (o, Panic w) => (HClient <$> o, Panic w)
    end
  end.

(** ** [middleware/auth.go] *)

Definition string_claim (claims : MapClaims) (k : string) : option string :=
  match claims !! k with Some (JStr s) => Some s | _ => None end.

Definition not_a_string : string := "interface conversion: interface {} is not string".

(** The key for the method of a token. *)
Definition hmac_key (jwtSecret : string) (method : SigningMethod) : option string :=
  match method with SigningMethodHMAC => Some jwtSecret | SigningMethodOther => None end.

(** The claims, nil or not, and whether the error is nil. A claim other than
    the identifier that is no string panics. *)
Definition validateToken (jwtSecret : string) (now : Z) (tokenString : string) : Res (option UserClaims * bool) :=
  match jwt_Parse now (hmac_key jwtSecret) tokenString with
  | None => Ret (None, false)
  | Some (valid, mapClaims) =>
    if negb valid then Ret (None, true)
    else
      match string_claim mapClaims "userID" with
      | None => Ret (None, false)
      | Some userIDStr =>
        match uuid_Parse userIDStr with
        | None => Ret (None, false)
        | Some userID =>
          match string_claim mapClaims "username", string_claim mapClaims "email", string_claim mapClaims "role" with
          | Some username, Some email, Some role => Ret (Some (mkUserClaims userID username email role), true)
          | _, _, _ => Panic not_a_string
          end
        end
      end
  end.

Definition with_user (u : option UserClaims) (r : Request) : Request :=
  mkRequest (rq_Method r) (rq_token r) u (rq_PathValue r) (rq_Query r) (rq_body r) (rq_form r) (rq_chunk r).

Definition RequireAuth (jwtSecret : string) (now : Z) (next : Request → HM ()) (r : Request) : HM () :=
  match rq_token r with
  | None => response_Error StatusUnauthorized "Not authenticated"
  | Some cookie =>
    match validateToken jwtSecret now cookie with
    | Panic w => panic w
    | Ret (_, false) => response_Error StatusUnauthorized "Invalid or expired token"
    | Ret (claims, true) => next (with_user claims r)
    end
  end.

Definition GetUserFromContext (r : Request) : option UserClaims := rq_user r.

Definition RequireAdmin (jwtSecret : string) (now : Z) (next : Request → HM ()) : Request → HM () :=
  RequireAuth jwtSecret now (λ r,
    match GetUserFromContext r with
    | Some claims => if String.eqb (uc_Role claims) "admin" then next r
                     else response_Error StatusForbidden "Admin access required"
    | None => response_Error StatusForbidden "Admin access required"
    end).

(** The first checks of every handler behind the middleware: the method, and
    the user that the middleware found. *)
Definition checked (method : string) (r : Request) : Z * string + UserClaims :=
  if negb (String.eqb (rq_Method r) method) then inl (StatusMethodNotAllowed, "Method not allowed")
  else
    match GetUserFromContext r with
    | None => inl (StatusUnauthorized, "Not authenticated")
    | Some claims => inr claims
    end.

Definition authenticated (method : string) (r : Request) (body : UserClaims → HM ()) : HM () :=
  match checked method r with
  | inl (code, message) => response_Error code message
  | inr claims => body claims
  end.

(** ** [handlers/auth_handler.go] *)

Definition RegisterUser (rand : N) (gen : uuid) (now : Z) (r : Request) : HM () :=
  if negb (String.eqb (rq_Method r) MethodPost) then response_Error StatusMethodNotAllowed "Method not allowed"
  else
    match Unmarshal_ok RegisterUserRequest_of_json (rq_body r) with
    | None => response_Error StatusBadRequest "Invalid request body"
    | Some user =>
      ok ← service (Database.RegisterUser rand gen now user);
      if ok : bool then response_JSON StatusCreated (success_body None "User registered successfully")
      else response_Error StatusInternalServerError "Failed to register user"
    end.

Definition LoginUser (jwtSecret : string) (now : Z) (r : Request) : HM () :=
  if negb (String.eqb (rq_Method r) MethodPost) then response_Error StatusMethodNotAllowed "Method not allowed"
  else
    match Unmarshal_ok LoginUserRequest_of_json (rq_body r) with
    | None => response_Error StatusBadRequest "Invalid request body"
    | Some user =>
      t ← service (Database.LoginUser jwtSecret now user);
      match t with
      | inl ErrInvalidCredentials => response_Error StatusUnauthorized "Invalid email or password"
      | inl _ => response_Error StatusInternalServerError "Failed to login user"
      | inr token =>
        _ ← emit (HCookie "token" token 86400);
        response_JSON StatusOK (success_body None "User logged in successfully")
      end
    end.

Definition GetMe (r : Request) : HM () :=
  authenticated MethodGet r (λ claims,
    u ← service (GetUserByID (uc_UserID claims));
    match u with
    | inl ErrUserNotFound => response_Error StatusNotFound "User not found"
    | inl _ => response_Error StatusInternalServerError "Failed to get user"
    | inr user => response_JSON StatusOK (success_body (Some (User_to_json user)) "")
    end).

(** ** [handlers/file_handler.go] *)

Definition failed (what : string) (e : string) : string := what +:+ ": " +:+ e.

(** A query parameter that is a positive number, or the default. *)
Definition positive_param (r : Request) (name : string) (dflt : Z) : Z :=
  let s := rq_Query r name in
  if String.eqb s "" then dflt
  else match Atoi s with Some n => if 0 <? n then n else dflt | None => dflt end.

Definition file_item (f : File) : FileItem :=
  mkFileItem (f_ID f) (f_Name f) (f_Size f) (f_ContentType f) (f_Hash f) (f_OwnerID f) (f_CreatedAt f)
    (f_UpdatedAt f) (f_ReplicasCount f).

Definition ListFiles (scan : Scan) (r : Request) : HM () :=
  authenticated MethodGet r (λ claims,
    let page := positive_param r "page" 1 in
    let perPage := positive_param r "per_page" 10 in
    l ← service (ListFilesPaginated scan (uc_UserID claims) page perPage);
    match l with
    | inl e => response_Error StatusInternalServerError (failed "Failed to list files" (db_text e))
    | inr (files, total) =>
      response_JSON StatusOK
        (success_body (Some (FileListResponse_to_json (file_item <$> files) total page perPage)) "")
    end).

(** Owners and administrators pass. *)
Definition may_access (claims : UserClaims) (file : File) : bool :=
  negb (bool_decide (f_OwnerID file ≠ uc_UserID claims) && negb (String.eqb (uc_Role claims) "admin")).

(** The file named in the path, for a user who may access it. *)
Definition with_file (r : Request) (claims : UserClaims) (body : File → HM ()) : HM () :=
  let fileIDStr := rq_PathValue r "fileID" in
  if String.eqb fileIDStr "" then response_Error StatusBadRequest "'fileID' not present in path"
  else
    match uuid_Parse fileIDStr with
    | None => response_Error StatusBadRequest "Invalid fileID format"
    | Some fileID =>
      f ← service (GetFileByID fileID);
      match f with
      | inl _ => response_Error StatusNotFound "File not found"
      | inr file =>
        if negb (may_access claims file) then response_Error StatusForbidden "Forbidden" else body file
      end
    end.

(** The item has no replica count: the field keeps its zero value. *)
Definition GetFileMetadata (r : Request) : HM () :=
  authenticated MethodGet r (λ claims, with_file r claims (λ file,
    let metadata := mkFileItem (f_ID file) (f_Name file) (f_Size file) (f_ContentType file) (f_Hash file)
                      (f_OwnerID file) (f_CreatedAt file) (f_UpdatedAt file) 0 in
    response_JSON StatusOK (success_body (Some (FileItem_to_json metadata)) ""))).

(** The list of nodes; a nil slice is [null]. *)
Definition nodes_data (nodes : list NodeInfo) : json := put_slice (NodeInfo_to_json <$> nodes).

Definition GetNodes (r : Request) : HM () :=
  authenticated MethodGet r (λ claims,
    nodes ← client GetStorageNodes;
    match nodes with
    | inl e => response_Error StatusInternalServerError (failed "Failed to get storage nodes" (client_text e))
    | inr nodes => response_JSON StatusOK (success_body (Some (nodes_data nodes)) "")
    end).

Definition GetNode (r : Request) : HM () :=
  authenticated MethodGet r (λ claims,
    nodes ← client GetStorageNodes;
    match nodes with
    | inl e => response_Error StatusInternalServerError (failed "Failed to get storage nodes" (client_text e))
    | inr nodes =>
      let nodeId := rq_PathValue r "nodeID" in
      if String.eqb nodeId "" then response_Error StatusBadRequest "'nodeID' not present in path"
      else
        match List.find (λ node, String.eqb (uuid_String (ni_ID node)) nodeId) nodes with
        | None => response_Error StatusNotFound "Node not found"
        | Some foundNode => response_JSON StatusOK (success_body (Some (NodeInfo_to_json foundNode)) "")
        end
    end).

Definition quote : string := String (ascii_of_N 34) "".

(** [budget]: how many bytes the connection of the request takes. *)
Definition GetFile (requestID : uuid) (budget : option nat) (r : Request) : HM () :=
  authenticated MethodGet r (λ claims, with_file r claims (λ file,
    _ ← emit (HHeader "Content-Disposition" ("attachment; filename=" +:+ quote +:+ f_Name file +:+ quote));
    _ ← emit (HHeader "Content-Type" (f_ContentType file));
    _ ← emit (HHeader "Content-Length" (itoa (f_Size file)));
    e ← client (DownloadFileStream requestID (f_ID file) (f_Hash file) budget);
    match e with
    | Some e => emit (HLog (failed ("Error streaming file " +:+ uuid_String (f_ID file)) (client_text e)))
    | None => skip
    end)).

(** The row goes first; what happens in the storage is only logged. *)
Definition DeleteFile (requestID : uuid) (r : Request) : HM () :=
  authenticated MethodDelete r (λ claims, with_file r claims (λ file,
    d ← service (DeleteFileByID (f_ID file));
    match d with
    | inl _ => response_Error StatusInternalServerError "Failed to delete file from database"
    | inr _ =>
      deleteResp ← client (Client.DeleteFile requestID (f_ID file) (f_Hash file));
      _ ← match deleteResp with
          | inl e => emit (HLog (failed "Warning: Failed to delete file from storage" (client_text e)))
          | inr resp => if ads_Success resp then skip
                        else emit (HLog (failed "Warning: Storage delete error" (ads_Error resp)))
          end;
      response_JSON StatusOK (success_body (Some (put_uuid (f_ID file))) "File deleted successfully")
    end)).

Definition default_type : string := "application/octet-stream".

(** [fileID] and [requestID] are drawn, [p] is the address of the new object. *)
Definition InitChunkedUpload (fileID requestID : uuid) (now : Z) (r : Request) : HM () :=
  authenticated MethodPost r (λ claims,
    match Unmarshal_ok ChunkedUploadInitRequest_of_json (rq_body r) with
    | None => response_Error StatusBadRequest "Invalid request body"
    | Some req =>
      if String.eqb (cui_FileName req) "" || (cui_FileSize req <=? 0) || (cui_TotalChunks req <=? 0)
      then response_Error StatusBadRequest "Missing required fields"
      else
        let contentType := if String.eqb (cui_ContentType req) "" then default_type else cui_ContentType req in
        t ← client (InitStreamUpload requestID fileID (cui_FileName req) contentType (cui_FileSize req));
        match t with
        | inl e => response_Error StatusInternalServerError (failed "Failed to initialize upload" (client_text e))
        | inr streamSession =>
          let sessionID := su_SessionID streamSession in
          let session := mkUploadSession sessionID fileID (uc_UserID claims) (cui_FileName req) (cui_FileSize req)
                           (cui_TotalChunks req) contentType streamSession 0 now in
          s ← get;
          let p := fresh (dom (ap_heap s)) in
          _ ← modify (set_heap (<[p := session]> (ap_heap s)));
          _ ← modify (set_sessions (<[sessionID := p]> (ap_sessions s)));
          response_JSON StatusOK (success_body (Some (JObj [("sessionId", JStr sessionID)])) "")
        end
    end).

(** A request that has found its session and waits for the session's mutex. *)
Inductive Waiting :=
| WaitChunk (p : nat) (sessionID : string) (chunkIndex : Z) (data : option (list byte))
| WaitFinalize (claims : UserClaims) (p : nat).

(** An answer before that. *)
Definition refused (code : Z) (message : string) : HM (option Waiting) :=
  _ ← response_Error code message; mret None.

(** [UploadChunk] until it waits, with the data of the chunk or that they
    cannot be read. *)
Definition UploadChunk_begin (r : Request) : HM (option Waiting) :=
  match checked MethodPost r with
  | inl (code, message) => refused code message
  | inr claims =>
    match rq_form r with
    | None => refused StatusBadRequest (failed "Failed to parse form" form_text)
    | Some FormValue =>
      let sessionID := FormValue "sessionId" in
      let chunkIndexStr := FormValue "chunkIndex" in
      if String.eqb sessionID "" || String.eqb chunkIndexStr ""
      then refused StatusBadRequest "Missing sessionId or chunkIndex"
      else
        match Atoi chunkIndexStr with
        | None => refused StatusBadRequest "Invalid chunkIndex"
        | Some chunkIndex =>
          s ← get;
          match ap_sessions s !! sessionID with
          | None => refused StatusNotFound "Upload session not found"
          | Some p =>
            match ap_heap s !! p with
            | None => panic nil_session
            | Some session =>
              if bool_decide (up_UserID session ≠ uc_UserID claims)
              then refused StatusForbidden "Not authorized for this upload session"
              else if (chunkIndex <? 0) || (up_TotalChunks session <=? chunkIndex)
              then refused StatusBadRequest "Invalid chunk index"
              else
                match rq_chunk r with
                | None => refused StatusBadRequest "Missing chunk file"
                | Some data => mret (Some (WaitChunk p sessionID chunkIndex data))
                end
            end
          end
        end
    end
  end.

(** The rest, with the mutex of the session at [p] held. *)
Definition UploadChunk_locked (p : nat) (sessionID : string) (chunkIndex : Z) (data : option (list byte)) : HM () :=
  s ← get;
  match ap_heap s !! p with
  | None => panic nil_session
  | Some session =>
    if negb (chunkIndex =? up_NextChunk session)
    then response_Error StatusBadRequest
           ("Out of order chunk: expected " +:+ itoa (up_NextChunk session) +:+ ", got " +:+ itoa chunkIndex)
    else
      match data with
      | None => response_Error StatusInternalServerError "Failed to read chunk"
      | Some data =>
        e ← on_stream p (WriteChunk data);
        match e with
        | Some e =>
          _ ← on_stream p Close;
          _ ← modify (λ s, set_sessions (delete sessionID (ap_sessions s)) s);
          response_Error StatusInternalServerError (failed "Failed to stream chunk" (client_text e))
        | None =>
          let next := int64 (up_NextChunk session + 1) in
          _ ← modify (λ s, set_heap (alter (set_NextChunk next) p (ap_heap s)) s);
          response_JSON StatusOK (success_body (Some (JObj
            [("chunkIndex", JNum chunkIndex); ("receivedChunks", JNum next);
             ("totalChunks", JNum (up_TotalChunks session))])) "")
        end
      end
  end.

(** [FinalizeChunkedUpload] until it waits: the session has left the table. *)
Definition Finalize_begin (r : Request) : HM (option Waiting) :=
  match checked MethodPost r with
  | inl (code, message) => refused code message
  | inr claims =>
    match Unmarshal_ok ChunkedUploadFinalizeRequest_of_json (rq_body r) with
    | None => refused StatusBadRequest "Invalid request body"
    | Some sessionID =>
      s ← get;
      match ap_sessions s !! sessionID with
      | None => refused StatusNotFound "Upload session not found"
      | Some p =>
        _ ← modify (λ s, set_sessions (delete sessionID (ap_sessions s)) s);
        mret (Some (WaitFinalize claims p))
      end
    end
  end.

(** The rest, with the mutex held. *)
Definition Finalize_locked (gens : nat → uuid) (now : Z) (claims : UserClaims) (p : nat) : HM () :=
  s ← get;
  match ap_heap s !! p with
  | None => panic nil_session
  | Some session =>
    if bool_decide (up_UserID session ≠ uc_UserID claims) then
      _ ← on_stream p Close;
      response_Error StatusForbidden "Not authorized for this upload session"
    else if negb (up_NextChunk session =? up_TotalChunks session) then
      _ ← on_stream p Close;
      response_Error StatusBadRequest ("Not all chunks received: got " +:+ itoa (up_NextChunk session) +:+ "/" +:+
                                       itoa (up_TotalChunks session))
    else
      result ← on_stream p Finalize;
      match result with
      | inl e =>
        _ ← on_stream p Close;
        response_Error StatusInternalServerError (failed "Failed to finalize upload" (client_text e))
      | inr result =>
        let fileModel := mkFile (up_FileID session) (up_FileName session) (up_FileSize session) (ur_Hash result)
                           (up_ContentType session) (up_UserID session) zero_time zero_time 0 in
        c ← service (CreateFile now fileModel);
        match c with
        | inl e => response_Error StatusInternalServerError (failed "Failed to save file metadata" (db_text e))
        | inr _ =>
          rs ← service (CreateReplicas gens now (up_FileID session) (ur_NodeIDs result));
          _ ← match rs with
              | inl e => emit (HLog (failed "Warning: Failed to save replica info" (db_text e)))
              | inr _ => skip
              end;
          response_JSON StatusAccepted (success_body (Some (JObj
            [("id", put_uuid (up_FileID session)); ("filename", JStr (up_FileName session));
             ("size", JNum (up_FileSize session))])) "File uploaded successfully")
        end
      end
  end.

(** What a request does when it gets the mutex. *)
Definition locked (gens : nat → uuid) (now : Z) (w : Waiting) : HM () :=
  match w with
  | WaitChunk p sessionID chunkIndex data => UploadChunk_locked p sessionID chunkIndex data
  | WaitFinalize claims p => Finalize_locked gens now claims p
  end.

(** The two handlers, with no other request between their two parts. *)
Definition UploadChunk (gens : nat → uuid) (now : Z) (r : Request) : HM () :=
  w ← UploadChunk_begin r;
  match w with Some w => locked gens now w | None => skip end.

Definition FinalizeChunkedUpload (gens : nat → uuid) (now : Z) (r : Request) : HM () :=
  w ← Finalize_begin r;
  match w with Some w => locked gens now w | None => skip end.

(** One tick of [cleanupStaleSessions]. *)
Definition stale (now : Z) (u : UploadSession) : bool := 24 * Hour <? now - up_CreatedAt u.

Definition cleanupStaleSessions (now : Z) : HM () :=
  s ← get;
  for_each (go_range (ap_sessions s)) (λ '(id, p),
    match ap_heap s !! p with
    | None => panic nil_session
    | Some sess =>
      if stale now sess then
        _ ← on_stream p Close; modify (λ s, set_sessions (delete id (ap_sessions s)) s)
      else skip
    end).

(** ** [handlers/metrics_handler.go] *)

Definition total_size (t : Tables) : Z := fold_right Z.add 0 (f_Size <$> tb_files t).

Definition SystemMetrics (now : Z) (r : Request) : HM () :=
  authenticated MethodGet r (λ claims,
    totalFiles ← service (query (λ t, inr (Z.of_nat (length (tb_files t)))));
    match totalFiles with
    | inl _ => response_Error StatusInternalServerError "Failed to compute total files"
    | inr totalFiles =>
      totalSize ← service (query (λ t, if in_int64 (total_size t) then inr (total_size t) else inl DBScan));
      match totalSize with
      | inl _ => response_Error StatusInternalServerError "Failed to compute total size"
      | inr totalSize =>
        totalReplicas ← service (query (λ t, inr (Z.of_nat (length (tb_replicas t)))));
        match totalReplicas with
        | inl _ => response_Error StatusInternalServerError "Failed to compute total replicas"
        | inr totalReplicas =>
          nodes ← client GetStorageNodes;
          let activeNodes := match nodes with inl _ => 0 | inr nodes => Z.of_nat (length nodes) end in
          s ← get;
          let uptime := Z.quot (now - ap_startedAt s) Second in
          response_JSON StatusOK (success_body (Some (JObj
            [("total_files", JNum totalFiles); ("total_size", JNum totalSize); ("active_nodes", JNum activeNodes);
             ("total_replicas", JNum totalReplicas); ("uptime_seconds", JNum uptime)])) "")
        end
      end
    end).

(** ** The routes *)

(** What the handlers draw and read from outside, in one place. *)
Record Outside := mkOutside {
  ou_secret : string;
  ou_now : Z;
  ou_rand : N;
  ou_uuid : nat → uuid;
  ou_budget : option nat;
  ou_scan : Scan }.

Inductive Route :=
| AuthRegister | AuthLogin | AuthMe
| Files | UploadInit | UploadChunkRoute | UploadFinalize | FileDownload | FileMetadata | FileDelete
| Nodes | NodeById | MetricsSystem.

(** The pattern a route is registered with. *)
Definition pattern (t : Route) : string :=
  match t with
  | AuthRegister => "POST /api/auth/register"
  | AuthLogin => "POST /api/auth/login"
  | AuthMe => "GET /api/auth/me"
  | Files => "GET /api/files"
  | UploadInit => "POST /api/files/upload/init"
  | UploadChunkRoute => "POST /api/files/upload/chunk"
  | UploadFinalize => "POST /api/files/upload/finalize"
  | FileDownload => "GET /api/files/{fileID}/"
  | FileMetadata => "GET /api/files/{fileID}/metadata"
  | Nodes => "GET /api/nodes"
  | NodeById => "GET /api/nodes/{nodeID}"
  | FileDelete => "DELETE /api/files/{fileID}/"
  | MetricsSystem => "GET /api/metrics/system"
  end.

Definition handler (e : Outside) (t : Route) : Request → HM () :=
  let auth := RequireAuth (ou_secret e) (ou_now e) in
  match t with
  | AuthRegister => RegisterUser (ou_rand e) (ou_uuid e 0) (ou_now e)
  | AuthLogin => LoginUser (ou_secret e) (ou_now e)
  | AuthMe => auth GetMe
  | Files => auth (ListFiles (ou_scan e))
  | UploadInit => auth (InitChunkedUpload (ou_uuid e 0) (ou_uuid e 1) (ou_now e))
  | UploadChunkRoute => auth (UploadChunk (ou_uuid e) (ou_now e))
  | UploadFinalize => auth (FinalizeChunkedUpload (ou_uuid e) (ou_now e))
  | FileDownload => auth (GetFile (ou_uuid e 0) (ou_budget e))
  | FileMetadata => auth GetFileMetadata
  | FileDelete => auth (DeleteFile (ou_uuid e 0))
  | Nodes => auth GetNodes
  | NodeById => auth GetNode
  | MetricsSystem => auth (SystemMetrics (ou_now e))
  end.

(** [corsMiddleware], around the mux. *)
Definition corsMiddleware (next : Request → HM ()) (r : Request) : HM () :=
  _ ← emit (HHeader "Access-Control-Allow-Origin" "http://localhost:5173");
  _ ← emit (HHeader "Access-Control-Allow-Methods" "GET, POST, PUT, DELETE, OPTIONS");
  _ ← emit (HHeader "Access-Control-Allow-Headers" "Content-Type");
  _ ← emit (HHeader "Access-Control-Allow-Credentials" "true");
  if String.eqb (rq_Method r) "OPTIONS" then emit (HStatus StatusOK) else next r.

(** The server, for a request that the mux gives to the route. *)
Definition serve (e : Outside) (t : Route) : Request → HM () := corsMiddleware (handler e t).
End api.

(** ** [strconv.Atoi] reads what [strconv.Itoa] writes *)

Lemma digit_char x : (x < 10)%N → digit (pretty_N_char x) = Some (Z.of_N x).
Proof. intros Hx. destruct x as [|p]; [done|]. do 4 (destruct p as [p|p|]; try done; try lia). Qed.

Lemma digits_go x : ∀ s, ∃ k, ∀ acc, digits (pretty_N_go x s) acc = digits s (acc * 10 ^ Z.of_nat k + Z.of_N x).
Proof.
  induction (N.lt_wf_0 x) as [x _ IH]. intros s. destruct (decide (x = 0%N)) as [->|Hx].
  { exists 0%nat. intros acc. rewrite pretty_N_go_0. f_equal. lia. }
  rewrite pretty_N_go_step by lia.
  destruct (IH (x `div` 10)%N) with (String (pretty_N_char (x `mod` 10)) s) as [k Hk].
  { apply N.div_lt; lia. }
  exists (S k). intros acc. rewrite Hk. cbn [digits]. rewrite digit_char by (by apply N.mod_lt). f_equal.
  rewrite N2Z.inj_div, N2Z.inj_mod. rewrite Nat2Z.inj_succ, Z.pow_succ_r by lia.
  pose proof (Z.div_mod (Z.of_N x) 10 ltac:(lia)). lia.
Qed.

(** A text of digits is not empty and has no sign. *)
Lemma Atoi_digits s n : s ≠ ""%string → digits s 0 = Some n → Atoi s = if in_int64 n then Some n else None.
Proof.
  intros Hs Hd. destruct s as [|c s]; [done|]. assert (c ≠ "-"%char ∧ c ≠ "+"%char) as [H1 H2].
  { split; intros ->; discriminate Hd. }
  unfold Atoi. destruct c as [[] [] [] [] [] [] [] []]; try (by rewrite Hd); by destruct H1, H2.
Qed.

Lemma digits_pretty p : digits (pretty (Npos p)) 0 = Some (Zpos p) ∧ pretty (Npos p) ≠ ""%string.
Proof.
  unfold pretty, pretty_N. rewrite decide_False by done. destruct (digits_go (Npos p) "") as [k Hk].
  assert (digits (pretty_N_go (Npos p) "") 0 = Some (Zpos p)) as E by (rewrite Hk; simpl; f_equal; lia).
  split; [exact E|]. intros Hn. rewrite Hn in E. discriminate E.
Qed.

Lemma Atoi_minus s n : s ≠ ""%string → digits s 0 = Some n → Atoi (String "-" s) = if in_int64 (- n) then Some (- n) else None.
Proof. intros Hs Hd. unfold Atoi. destruct s; [done|]. by rewrite Hd. Qed.

Lemma Atoi_itoa z : Atoi (itoa z) = if in_int64 z then Some z else None.
Proof.
  unfold itoa. destruct z as [|p|p]; [done| |]; destruct (digits_pretty p) as [Hd Hn].
  - exact (Atoi_digits _ _ Hn Hd).
  - exact (Atoi_minus _ _ Hn Hd).
Qed.
