(* ===== verification/ApiSafety.v ===== *)
(** * The API server: who may do what

    The invariant of the server's state (the constraints of the schema, and
    what holds of the table of upload sessions); that handlers keep it, return,
    and change no file of another user; that requests without a valid token are
    refused; and that a registered user's login opens the protected routes. *)

From Stdlib Require Import Ascii.
From S2P Require Import Prelude GoStd Types Json Protocol StreamServer NodeState Client Transfer Database Api.

Definition never : string → Prop := λ _, False.

(** ** The client returns when no peer list has a null entry *)
Section client.
Context `{UuidText} `{TimeText} `{Network}.

(** The method returns, with a result that has the property. *)
Definition returns {A} (m : CM A) (Q : A → Prop) : Prop := keeps never (λ _, True) m (λ a _, Q a).

Lemma returns_ret {A} (a : A) (Q : A → Prop) : Q a → returns (mret a) Q.
Proof. intros Ha. by apply keeps_ret. Qed.

Lemma returns_bind {A B} (m : CM A) (f : A → CM B) R Q :
  returns m R → (∀ a, R a → returns (f a) Q) → returns (m ≫= f) Q.
Proof.
  intros Hm Hf. eapply keeps_bind; [exact Hm|]. intros a s Ha. by apply (Hf a Ha s).
Qed.

Lemma returns_act (o : CAct) : returns (emit o) (λ _, True).
Proof. by intros s. Qed.

Lemma returns_dial addr : returns (dial addr) (λ _, True).
Proof. by intros s. Qed.

(** An answer that [ask] can read came from the network. *)
Definition answered {T} (of_json : json → T * derr) (v : T) : Prop :=
  ∃ k addr msg m, nw_serve k addr msg = Answers m ∧ Unmarshal_ok of_json (msg_Payload (mwt_Message m)) = Some v.

Lemma returns_ask {T} type payload (of_json : json → T * derr) : no_null_peers →
  returns (ask type payload of_json) (λ r, ∀ v, r = inr v → answered of_json v).
Proof.
  intros Hn c _. unfold ask. rewrite (bind_silent _ _ _ (mc_clientID (ca_client c)) c) by done.
  set (msg := mkMessage _ _ _ _). destruct (retry_loop_run 3 msg c Hn) as [o E].
  destruct (requested 3 msg c) as [r c'] eqn:Er. erewrite bind_run; [|exact E|reflexivity].
  intros v Hv. destruct r as [m|]; [|done]. destruct (Unmarshal_ok _ _) as [v'|] eqn:Eu; [|done]. injection Hv as ->.
  destruct (requested_bounds 3 msg c _ c' Er) as (_ & _ & _ & Hm). destruct (Hm m eq_refl) as (j & m' & _ & <- & Ha).
  unfold answer_at in Ha. destruct (nw_dial _ _); [|done]. destruct (nw_serve _ _ _) eqn:Es; try done.
  injection Ha as ->. by repeat eexists.
Qed.

Lemma online_storage_returns peers : None ∉ peers → returns (online_storage peers) (λ _, True).
Proof.
  induction peers as [|[p|] peers IH]; intros Hp; [by apply returns_ret| |set_solver].
  eapply returns_bind; [apply IH; set_solver|]. intros l _. by apply returns_ret.
Qed.

Lemma GetStorageNodes_returns : no_null_peers → returns GetStorageNodes (λ _, True).
Proof.
  intros Hn. eapply returns_bind; [by apply returns_ask|]. intros [e|peers] Hr; [by apply returns_ret|].
  destruct (Hr peers eq_refl) as (k & addr & msg & m & Hs & Hu).
  eapply returns_bind; [eapply online_storage_returns, Hn; [exact Hs|exact Hu]|]. intros l _. by apply returns_ret.
Qed.

Lemma DeleteFile_returns rid fid h : no_null_peers → returns (Client.DeleteFile rid fid h) (λ _, True).
Proof. intros Hn. eapply keeps_conseq; [by apply returns_ask|done|done]. Qed.

Lemma streamFromStorage_returns addr h size budget : returns (streamFromStorage addr h size budget) (λ _, True).
Proof.
  eapply returns_bind; [apply returns_dial|]. intros [k|] _; [|by apply returns_ret].
  eapply returns_bind; [|intros r _; eapply returns_bind; [apply returns_act|intros; by apply returns_ret]].
  destruct (nw_download k addr _) as [conn|]; [|by apply (returns_ret _ (λ _, True))].
  eapply returns_bind; [apply returns_act|]. intros _ _.
  destruct (DecodeHeader (ds_bytes conn)) as [[e|header] rest] eqn:Eh; [by apply returns_ret|].
  destruct (Z.ltb_spec (sh_FileSize header) 0); [by apply returns_ret|].
  destruct (_ && _); [by apply returns_ret|]. intros c _. unfold on_copier.
  set (d := mkDStream rest _ _ _ _).
  destruct (client_copy_run d budget (sh_FileSize header) h) as (o & r & s' & E & _).
  { split; [done|]. by eapply DecodeHeader_size. }
  unfold fresh_copier in E. by rewrite E.
Qed.

Lemma DownloadFileStream_returns rid fid h budget : no_null_peers →
  returns (DownloadFileStream rid fid h budget) (λ _, True).
Proof.
  intros Hn. eapply returns_bind; [by apply returns_ask|]. intros [e|r] _; [by apply returns_ret|].
  destruct (negb _); [by apply returns_ret|]. apply streamFromStorage_returns.
Qed.

Lemma InitStreamUpload_returns rid fid fn ct size : no_null_peers →
  returns (InitStreamUpload rid fid fn ct size)
    (λ r, ∀ t, r = inr t → length (su_Connections t) = length (su_NodeIDs t)).
Proof.
  intros Hn c _. destruct (InitStreamUpload_run rid fid fn ct size c) as [_ Hr].
  unfold InitStreamUpload, mbind, gom_bind in Hr |- *.
  pose proof (returns_ask MessageStreamUploadInit (Some (StreamUploadInitRequest_to_json
    (mkStreamUploadInitRequest (uuid_String rid) fid fn ct size))) StreamUploadReadyResponse_of_json Hn c I) as Ha.
  destruct (ask _ _ _ c) as [o [[[e|ready] c1]|w]]; [by intros ?| |done]. clear Ha.
  destruct (sur_Success ready); cbn [negb] in *; [|by intros ?]. case_decide as Hs; [by intros ?|].
  destruct (open_conns_run (sur_SessionID ready) size (sur_StorageNodes ready) [] [] c1) as (o' & r & c' & E & _ & _ & _).
  rewrite E in Hr |- *. destruct r as [e|[cs ids]]; simpl in *; [by intros ?|].
  intros t [= <-]. by destruct Hr as (_ & _ & _ & _ & _ & ? & _).
Qed.
End client.

(** ** What statements do to the rows of others *)

(** A file of another user, for a user who is no administrator. *)
Definition foreign (c : UserClaims) (f : File) : Prop := f_OwnerID f ≠ uc_UserID c ∧ uc_Role c ≠ "admin".

Lemma may_access_spec c f : may_access c f = true → ¬ foreign c f.
Proof.
  unfold may_access. intros Ha [Ho Hr]. rewrite bool_decide_true in Ha by done.
  by destruct (String.eqb_spec (uc_Role c) "admin").
Qed.

(** From [t] to [t'] nothing has changed but files that are not foreign
    to the user and what depends on them, and new files are the user's. *)
Record kept (c : UserClaims) (t t' : Tables) : Prop := mkKept {
  kp_users : tb_users t' = tb_users t;
  kp_files : ∀ f, f ∈ tb_files t → foreign c f → f ∈ tb_files t';
  kp_new : ∀ f, f ∈ tb_files t' → f ∈ tb_files t ∨ f_OwnerID f = uc_UserID c;
  kp_replicas : ∀ r f, r ∈ tb_replicas t → f ∈ tb_files t → r_FileID r = f_ID f → foreign c f →
    r ∈ tb_replicas t' }.

#[export] Instance kept_preorder c : PreOrder (kept c).
Proof.
  split; [split; auto|]. intros t1 t2 t3 [A1 A2 A3 A4] [B1 B2 B3 B4]. split; [congruence| | |].
  - auto.
  - intros f [Hf|Hf]%B3; auto.
  - intros r f Hr Hf E Hc. eapply B4; eauto.
Qed.

(** Everything a handler may rely on about the tables, for a user. *)
Definition guarded (c : UserClaims) (t0 t : Tables) : Prop := tables_ok t ∧ kept c t0 t.

Lemma insert_file_kept c now f t a t' : f_OwnerID f = uc_UserID c →
  insert_file now f t = inr (a, t') → kept c t t'.
Proof.
  unfold insert_file. intros Ho. case_bool_decide; [done|]. case_bool_decide; [done|]. intros [= _ <-].
  split; cbn [tb_users tb_files tb_replicas]; try done.
  - intros g Hg _. apply elem_of_app. by left.
  - intros g [Hg| ->%list_elem_of_singleton]%elem_of_app; [by left|]. by right.
Qed.

Lemma insert_replica_kept c gen now fid nid t a t' : insert_replica gen now fid nid t = inr (a, t') → kept c t t'.
Proof.
  unfold insert_replica. case_bool_decide; [done|]. case_bool_decide; [done|]. intros [= _ <-].
  split; cbn [tb_users tb_files tb_replicas]; auto. intros r f Hr _ _ _. apply elem_of_app. by left.
Qed.

(** Identifiers are unique: only the one file goes, with its replicas. *)
Lemma delete_file_kept c f t a t' : tables_ok t → f ∈ tb_files t → ¬ foreign c f →
  delete_file (f_ID f) t = inr (a, t') → kept c t t'.
Proof.
  intros Hok Hf Hc [= _ <-]. assert (∀ g, g ∈ tb_files t → f_ID g = f_ID f → foreign c g → False) as Hu.
  { intros g Hg E Hg'. apply list_elem_of_lookup in Hg as [i Hi]. apply list_elem_of_lookup in Hf as [j Hj].
    assert (i = j) as ->; [|congruence].
    eapply (NoDup_lookup (f_ID <$> tb_files t)); [apply Hok| |]; rewrite list_lookup_fmap.
    - by rewrite Hi.
    - rewrite Hj. simpl. by rewrite E. }
  split; cbn [tb_users tb_files tb_replicas]; try done.
  - intros g Hg Hn. apply list_elem_of_filter. split; [|done]. intros E. eauto.
  - intros g [_ Hg]%list_elem_of_filter. by left.
  - intros r g Hr Hg E Hn. apply list_elem_of_filter. split; [|done]. rewrite E. eauto.
Qed.

(** ** Services *)
Section services.
Context {O : Type}.

Abbreviation M := (GoM DB O).

(** The service returns; the tables keep [R], and the result has the
    property, as a property of the tables. *)
Definition serves {A} (R : Tables → Prop) (m : M A) (Q : A → Tables → Prop) : Prop :=
  keeps never (λ d, R (db_tables d)) m (λ a d, Q a (db_tables d)).

Lemma serves_statement {A} (R : Tables → Prop) (run : Tables → dberr + A * Tables) Q :
  (∀ t, R t → match run t with inl e => Q (inl e) t | inr (a, t') => Q (inr a) t' end) →
  (∀ t, R t → Q (inl DBFault) t) → serves R (statement run) Q.
Proof.
  intros Hr Hf d Hd. unfold statement. specialize (Hr _ Hd).
  destruct (db_faults d) as [|[] fs]; destruct (run (db_tables d)) as [e|[a t]]; simpl; auto.
Qed.

Lemma serves_query {A} (R : Tables → Prop) (run : Tables → dberr + A) :
  serves R (query run) (λ _, R).
Proof. apply serves_statement; [|done]. intros t Ht. by destruct (run t). Qed.

Lemma ListFilesPaginated_serves R scan owner page perPage : serves R (ListFilesPaginated scan owner page perPage) (λ _, R).
Proof.
  eapply keeps_bind; [apply serves_query|]. intros [e|n]; [by apply keeps_ret|].
  eapply keeps_bind; [apply serves_query|]. intros r. by apply keeps_ret.
Qed.

Lemma GetUserByID_serves R id : serves R (GetUserByID id) (λ _, R).
Proof. eapply keeps_bind; [apply serves_query|]. intros r. by apply keeps_ret. Qed.

(** The row that is found has the identifier, and its owner. *)
Lemma GetFileByID_serves R id :
  serves R (GetFileByID id) (λ r t, R t ∧ ∀ f, r = inr f → f_ID f = id ∧
    ∃ g, g ∈ tb_files t ∧ f_ID g = f_ID f ∧ f_OwnerID g = f_OwnerID f).
Proof.
  apply serves_statement; [|done]. intros t Ht. unfold select_file.
  destruct (List.find _ (tb_files t)) as [g|] eqn:E; [|done]. split; [done|]. intros f [= <-].
  apply List.find_some in E as [Hg Hid%bool_decide_eq_true]. split; [done|]. exists g. split; [|done]. by apply list_elem_of_In.
Qed.

Lemma CreateFile_serves c t0 now f : f_OwnerID f = uc_UserID c →
  serves (guarded c t0) (CreateFile now f) (λ _, guarded c t0).
Proof.
  intros Ho. apply serves_statement; [|done]. intros t [Ht Hk].
  destruct (insert_file now f t) as [e|[a t']] eqn:E; [done|]. split; [by eapply insert_file_ok|].
  transitivity t; [done|by eapply insert_file_kept].
Qed.

Lemma DeleteFileByID_serves c t0 f : may_access c f = true →
  serves (λ t, guarded c t0 t ∧ ∃ g, g ∈ tb_files t ∧ f_ID g = f_ID f ∧ f_OwnerID g = f_OwnerID f)
    (DeleteFileByID (f_ID f)) (λ _, guarded c t0).
Proof.
  intros Hc%may_access_spec. apply serves_statement; [|by intros t [? _]]. intros t [[Ht Hk] (g & Hg & Eid & Eo)].
  destruct (delete_file (f_ID f) t) as [e|[a t']] eqn:E; [done|]. split; [by eapply delete_file_ok|].
  transitivity t; [done|]. rewrite <-Eid in E. eapply delete_file_kept; eauto.
  unfold foreign in *. by rewrite Eo.
Qed.

Lemma CreateReplicas_keeps (R : Tables → Prop) gens now fid nids :
  (∀ gen nid t a t', R t → insert_replica gen now fid nid t = inr (a, t') → R t') →
  serves R (CreateReplicas gens now fid nids) (λ _, R).
Proof.
  intros HR. assert (∀ i, serves R (replicas_loop gens now fid i nids) (λ _, R)) as Hl.
  { induction nids as [|nid nids IH]; intros i; [by apply keeps_ret|]. cbn [replicas_loop].
    apply (keeps_bind _ _ _ _ (λ _ d, R (db_tables d))).
    - apply (serves_statement _ _ (λ _, R)); [|done]. intros t Ht.
      destruct (insert_replica _ _ _ _ _) as [e|[a t']] eqn:E; [done|by eapply HR].
    - intros [e|u]; [by apply keeps_ret|exact (IH (S i))]. }
  unfold CreateReplicas. destruct nids; [by apply keeps_ret|apply Hl].
Qed.

Lemma CreateReplicas_serves c t0 gens now fid nids :
  serves (guarded c t0) (CreateReplicas gens now fid nids) (λ _, guarded c t0).
Proof.
  apply CreateReplicas_keeps. intros gen nid t a t' [Ht Hk] E. split; [by eapply insert_replica_ok|].
  transitivity t; [done|by eapply insert_replica_kept].
Qed.
End services.

(** ** Upload sessions *)

Definition tables (s : Api) : Tables := db_tables (ap_db s).

Definition conns_ok (t : StreamUploadSession) : Prop :=
  (length (su_Connections t) ≤ length (su_NodeIDs t))%nat.

(** No more chunks are counted than there are, and every connection has its
    node. *)
Record session_ok (u : UploadSession) : Prop := mkSessionOk {
  sk_next : 0 <= up_NextChunk u <= up_TotalChunks u;
  sk_total : up_TotalChunks u <= maxInt;
  sk_conns : conns_ok (up_StreamSession u) }.

(** Objects stay, and only the chunk counter and the connections change. *)
Definition grown (h h' : gmap nat UploadSession) : Prop :=
  ∀ p u, h !! p = Some u → ∃ t n, h' !! p = Some (set_NextChunk n (set_stream t u)).

Lemma set_NextChunk_same u : set_NextChunk (up_NextChunk u) (set_stream (up_StreamSession u) u) = u.
Proof. by destruct u. Qed.

#[export] Instance grown_preorder : PreOrder grown.
Proof.
  split.
  - intros h p u Hp. eexists _, _. by rewrite Hp, set_NextChunk_same.
  - intros h1 h2 h3 H12 H23 p u Hp. destruct (H12 p u Hp) as (t & n & Hp2).
    destruct (H23 p _ Hp2) as (t' & n' & Hp3). exists t', n'. rewrite Hp3. by destruct u.
Qed.

(** The table and the heap at an earlier time. *)
Abbreviation uploads := (gmap string nat * gmap nat UploadSession)%type.

Definition uploads_of (s : Api) : uploads := (ap_sessions s, ap_heap s).

(** The table points to live objects, each under its own identifier; since the
    earlier time [h0] only new objects have entered it. *)
Record sessions_ok (h0 : uploads) (s : Api) : Prop := mkSessionsOk {
  so_table : ∀ id p, ap_sessions s !! id = Some p → ∃ u, ap_heap s !! p = Some u ∧ up_ID u = id;
  so_heap : ∀ p u, ap_heap s !! p = Some u → session_ok u;
  so_grown : grown h0.2 (ap_heap s);
  so_old : ∀ id p, ap_sessions s !! id = Some p → is_Some (h0.2 !! p) → h0.1 !! id = Some p }.

(** The server's invariant, with what a user may do to the tables. *)
Definition inv (R : Tables → Prop) (h0 : uploads) (s : Api) : Prop :=
  R (tables s) ∧ sessions_ok h0 s.

(** A new version of the object at [p]. *)
Lemma sessions_ok_update h0 s p u t n : sessions_ok h0 s → ap_heap s !! p = Some u →
  session_ok (set_NextChunk n (set_stream t u)) →
  sessions_ok h0 (set_heap (<[p := set_NextChunk n (set_stream t u)]> (ap_heap s)) s).
Proof.
  intros [Ht Hh Hg Ho] Hp Hu. split; cbn [set_heap ap_sessions ap_heap]; [| | |exact Ho].
  - intros id q Hq. destruct (Ht id q Hq) as (v & Hv & Hid). destruct (decide (p = q)) as [<-|Hpq].
    + rewrite lookup_insert_eq. eexists. split; [done|]. rewrite Hp in Hv. injection Hv as ->. exact Hid.
    + rewrite lookup_insert_ne by done. by exists v.
  - intros q v. destruct (decide (p = q)) as [<-|Hpq].
    + rewrite lookup_insert_eq. by intros [= <-].
    + rewrite lookup_insert_ne by done. apply Hh.
  - transitivity (ap_heap s); [done|]. intros q v Hq. destruct (decide (p = q)) as [<-|Hpq].
    + rewrite lookup_insert_eq. rewrite Hp in Hq. injection Hq as ->. eauto.
    + rewrite lookup_insert_ne by done. rewrite Hq. eexists _, _. by rewrite set_NextChunk_same.
Qed.

Lemma sessions_ok_delete h0 s id : sessions_ok h0 s → sessions_ok h0 (set_sessions (delete id (ap_sessions s)) s).
Proof.
  intros [Ht Hh Hg Ho]. split; [|done|done|]; cbn [set_sessions ap_sessions ap_heap];
    intros id' p [_ Hp]%lookup_delete_Some; [by apply Ht|by apply Ho].
Qed.

(** A new object in the table. *)
Lemma sessions_ok_new h0 s id u : sessions_ok h0 s → session_ok u → up_ID u = id →
  let p := fresh (dom (ap_heap s)) in
  sessions_ok h0 (set_sessions (<[id := p]> (ap_sessions s)) (set_heap (<[p := u]> (ap_heap s)) s)).
Proof.
  intros [Ht Hh Hg Ho] Hu Hid p. assert (ap_heap s !! p = None) as Hp by (apply not_elem_of_dom, is_fresh).
  split; cbn [set_sessions set_heap ap_sessions ap_heap].
  - intros id' q. destruct (decide (id = id')) as [<-|Hd].
    + rewrite lookup_insert_eq. intros [= <-]. exists u. by rewrite lookup_insert_eq.
    + rewrite lookup_insert_ne by done. intros Hq. destruct (Ht id' q Hq) as (v & Hv & Hv').
      exists v. split; [|done]. rewrite lookup_insert_ne; [done|]. intros <-. congruence.
  - intros q v [[_ <-]|[_ Hv]]%lookup_insert_Some; [done|]. by eapply Hh.
  - transitivity (ap_heap s); [done|]. intros q v Hq. rewrite lookup_insert_ne by (intros <-; congruence).
    rewrite Hq. eexists _, _. by rewrite set_NextChunk_same.
  - intros id' q [[_ <-]|[_ Hq]]%lookup_insert_Some [v Hv]; [|by apply Ho].
    destruct (Hg _ _ Hv) as (? & ? & E). congruence.
Qed.

(** What holds since a time that has it holds since before. *)
Lemma sessions_ok_trans h0 s s' : sessions_ok h0 s → sessions_ok (uploads_of s) s' → sessions_ok h0 s'.
Proof.
  intros [? ? Hg Ho] [? ? Hg' Ho']. split; [done..| |].
  - by transitivity (ap_heap s).
  - intros id p Hp [v Hv]. apply Ho; [|done]. apply Ho'; [done|].
    destruct (Hg _ _ Hv) as (? & ? & E). by eexists.
Qed.

Lemma sessions_ok_now h0 s : sessions_ok h0 s → sessions_ok (uploads_of s) s.
Proof. intros [? ? ? ?]. split; done. Qed.

(** ** Handlers *)
Section handlers.
Context `{UuidText} `{TimeText} `{Network} `{Bcrypt} `{Jwt} `{MapRange} `{ErrorTexts}.
Context (R : Tables → Prop) (h0 : uploads).

Definition safe (m : HM ()) : Prop := keeps never (inv R h0) m (λ _, inv R h0).

Lemma keeps_service {A} (m : GoM DB HAct A) R' Q :
  serves R' m Q → keeps never (inv R' h0) (service m) (λ a, inv (Q a) h0).
Proof.
  intros Hm s [HR [? ? ? ?]]. unfold service, zoom. specialize (Hm (ap_db s) HR).
  destruct (m (ap_db s)) as [o [[a d]|w]]; [|done]. by split.
Qed.

Lemma keeps_client {A} (m : CM A) Q :
  returns m Q → keeps never (inv R h0) (client m) (λ a s, inv R h0 s ∧ Q a).
Proof.
  intros Hm s [HR [? ? ? ?]]. unfold client. specialize (Hm (ap_client s) I).
  destruct (m (ap_client s)) as [o [[a c]|w]]; [|done]. by split.
Qed.

Lemma safe_act o : safe (emit o).
Proof. by apply keeps_emit. Qed.

Lemma safe_skip : safe skip.
Proof. by apply keeps_ret. Qed.

Lemma safe_error code msg : safe (response_Error code msg).
Proof. apply safe_act. Qed.

Lemma safe_then {A} (m : HM A) f Q :
  keeps never (inv R h0) m (λ a s, inv R h0 s ∧ Q a) → (∀ a, Q a → safe (f a)) → safe (m ≫= f).
Proof. intros Hm Hf. eapply keeps_bind; [exact Hm|]. intros a s [Hs Ha]. by apply Hf. Qed.

Lemma safe_service {A} (m : GoM DB HAct A) f : serves R m (λ _, R) → (∀ a, safe (f a)) → safe (service m ≫= f).
Proof. intros Hm Hf. eapply keeps_bind; [by apply keeps_service|exact Hf]. Qed.

Lemma safe_client {A} (m : CM A) Q f : returns m Q → (∀ a, Q a → safe (f a)) → safe (client m ≫= f).
Proof. intros Hm. apply safe_then. by apply keeps_client. Qed.

Lemma safe_log (b : bool) text : safe (if b then skip else emit (HLog text)).
Proof. destruct b; [apply safe_skip|apply safe_act]. Qed.

Lemma safe_authenticated method r body : (∀ c, rq_user r = Some c → safe (body c)) → safe (authenticated method r body).
Proof.
  intros Hb. unfold authenticated, checked, GetUserFromContext.
  destruct (negb _); [apply safe_error|]. destruct (rq_user r) as [c|]; [by apply Hb|apply safe_error].
Qed.

(** A number that was read fits 64 bits. *)
Lemma TotalChunks_range j req : Unmarshal_ok ChunkedUploadInitRequest_of_json j = Some req →
  cui_TotalChunks req <= maxInt.
Proof.
  unfold Unmarshal_ok. destruct j as [j|]; [|done]. unfold ChunkedUploadInitRequest_of_json.
  destruct (object _ j) as [m e] eqn:Eo. destruct e; [|done|done]. intros [= <-]. cbn [cui_TotalChunks].
  destruct (object_slot _ _ _ _ "totalChunks" Eo) as [->|(check & Hc & Hs)]; [simpl; unfold maxInt; lia|].
  assert (check = check_int) as ->.
  { unfold ChunkedUploadInitRequest_schema in Hc.
    repeat (apply elem_of_cons in Hc as [E|Hc]; [first [discriminate E|by injection E]|]). by apply not_elem_of_nil in Hc. }
  destruct (slot m "totalChunks"); simpl in Hs |- *; try (unfold maxInt; lia).
  destruct (in_int64 z) eqn:Ez; [|discriminate Hs]. unfold maxInt. int_bounds. lia.
Qed.

(** The file of the path: its body may use that the row is there. *)
Lemma safe_with_file r c body :
  (∀ f, may_access c f = true → uuid_Parse (rq_PathValue r "fileID") = Some (f_ID f) →
     keeps never (inv (λ t, R t ∧ ∃ g, g ∈ tb_files t ∧ f_ID g = f_ID f ∧ f_OwnerID g = f_OwnerID f) h0)
       (body f) (λ _, inv R h0)) →
  safe (with_file r c body).
Proof.
  intros Hb. unfold with_file. cbv zeta. destruct (String.eqb _ _); [apply safe_error|].
  destruct (uuid_Parse _) as [fid|] eqn:Efid; [|apply safe_error].
  eapply keeps_bind; [apply keeps_service, GetFileByID_serves|]. intros [e|f].
  - eapply keeps_conseq; [apply safe_error| |done]. by intros s [[? _] ?].
  - destruct (may_access c f) eqn:Ef; cbn [negb].
    + intros s [[HR Hf] Hs]. destruct (Hf f eq_refl) as [Hid Hg]. refine (Hb f Ef _ s _); [congruence|]. split; [by split|done].
    + eapply keeps_conseq; [apply safe_error| |done]. by intros s [[? _] ?].
Qed.

(** When the body does not use it. *)
Lemma safe_with_file' r c body : (∀ f, safe (body f)) → safe (with_file r c body).
Proof.
  intros Hb. apply safe_with_file. intros f _ _. eapply keeps_conseq; [apply Hb| |done]. by intros s [[? _] ?].
Qed.

Lemma GetMe_safe r : safe (GetMe r).
Proof.
  apply safe_authenticated. intros c _. apply safe_service; [apply GetUserByID_serves|].
  intros [[]|u]; apply safe_act.
Qed.

Lemma ListFiles_safe scan r : safe (ListFiles scan r).
Proof.
  apply safe_authenticated. intros c _. apply safe_service; [apply ListFilesPaginated_serves|].
  intros [e|[files total]]; apply safe_act.
Qed.

Lemma GetFileMetadata_safe r : safe (GetFileMetadata r).
Proof. apply safe_authenticated. intros c _. apply safe_with_file'. intros f. apply safe_act. Qed.

Lemma SystemMetrics_safe now r : no_null_peers → safe (SystemMetrics now r).
Proof.
  intros Hn. apply safe_authenticated. intros c _. apply safe_service; [apply serves_query|]. intros [e|n]; [apply safe_error|].
  apply safe_service; [apply serves_query|]. intros [e|z]; [apply safe_error|].
  apply safe_service; [apply serves_query|]. intros [e|m]; [apply safe_error|].
  eapply safe_client; [by apply GetStorageNodes_returns|]. intros nodes _. apply keeps_get. intros s Hs.
  eapply keeps_conseq; [apply safe_act| |done]. by intros ? ->.
Qed.

Lemma GetNodes_safe r : no_null_peers → safe (GetNodes r).
Proof.
  intros Hn. apply safe_authenticated. intros c _. eapply safe_client; [by apply GetStorageNodes_returns|].
  intros [e|nodes] _; apply safe_act.
Qed.

Lemma GetNode_safe r : no_null_peers → safe (GetNode r).
Proof.
  intros Hn. apply safe_authenticated. intros c _. eapply safe_client; [by apply GetStorageNodes_returns|].
  intros [e|nodes] _; [apply safe_error|]. cbv zeta. destruct (String.eqb _ _); [apply safe_error|].
  destruct (List.find _ _); apply safe_act.
Qed.

Lemma GetFile_safe rid budget r : no_null_peers → safe (GetFile rid budget r).
Proof.
  intros Hn. apply safe_authenticated. intros c _. apply safe_with_file'. intros f.
  do 3 (eapply keeps_bind; [apply safe_act|intros ?]). eapply safe_client; [by apply DownloadFileStream_returns|].
  intros [e|] _; [apply safe_act|apply safe_skip].
Qed.

Lemma InitChunkedUpload_safe fid rid now r : no_null_peers → safe (InitChunkedUpload fid rid now r).
Proof.
  intros Hn. apply safe_authenticated. intros c _.
  destruct (Unmarshal_ok ChunkedUploadInitRequest_of_json (rq_body r)) as [req|] eqn:Eq; [|apply safe_error].
  destruct (_ || _) eqn:Eb; [apply safe_error|]. apply orb_false_elim in Eb as [[_ Es]%orb_false_elim Et].
  apply Z.leb_gt in Et. cbv zeta. eapply safe_client; [by apply InitStreamUpload_returns|].
  intros [e|t] Ht; [apply safe_error|]. apply keeps_get. intros s [HR Hs].
  set (u := mkUploadSession _ _ _ _ _ _ _ _ _ _). set (p := fresh (dom (ap_heap s))).
  eapply keeps_bind; [apply (keeps_modify _ _ _ (λ _ s', s' = set_heap (<[p := u]> (ap_heap s)) s)); by intros ? ->|].
  intros []. eapply (keeps_bind _ _ _ _ (λ _, inv R h0)); [|intros ?; apply safe_act].
  apply keeps_modify. intros s' ->. split; [exact HR|].
  apply (sessions_ok_new h0 s (su_SessionID t) u); [done| |done]. split; simpl; [lia| |].
  - by eapply TotalChunks_range.
  - unfold conns_ok. by rewrite (Ht t eq_refl).
Qed.
End handlers.

(** ** Chunks, in their two parts *)
Section uploads.
Context `{UuidText} `{TimeText} `{Network} `{Bcrypt} `{Jwt} `{MapRange} `{ErrorTexts}.

(** What a waiting request relies on: its session is there, and its index was
    in range. *)
Definition waiting_ok (h : gmap nat UploadSession) (w : Waiting) : Prop :=
  match w with
  | WaitChunk p _ chunkIndex _ => ∃ u, h !! p = Some u ∧ 0 <= chunkIndex < up_TotalChunks u
  | WaitFinalize _ p => is_Some (h !! p)
  end.

Lemma waiting_ok_grown h h' w : grown h h' → waiting_ok h w → waiting_ok h' w.
Proof.
  intros Hg. destruct w as [p sid i d|c p]; simpl.
  - intros (u & Hu & Hi). destruct (Hg p u Hu) as (t & n & Hp). eexists. by split; [exact Hp|].
  - intros [u Hu]. destruct (Hg p u Hu) as (t & n & Hp). by rewrite Hp.
Qed.

(** A method of the stream that returns, and keeps a node for every
    connection. *)
Definition streams {A} (m : GoM StreamUploadSession CAct A) : Prop :=
  keeps never conns_ok m (λ _, conns_ok).

Lemma streams_Close : streams Close.
Proof. intros t Ht. rewrite Close_run. unfold conns_ok. simpl. lia. Qed.

Lemma streams_WriteChunk data : streams (WriteChunk data).
Proof.
  intros t Ht. destruct (WriteChunk_run data t) as (e & t' & E & _).
  pose proof (WriteChunk_same _ _ _ _ _ E) as [Hc Hn]. rewrite E. unfold conns_ok in *.
  rewrite Hn, <-(length_fmap cn_id (su_Connections t')), Hc, length_fmap. done.
Qed.

Lemma streams_Finalize : streams Finalize.
Proof.
  intros t Ht. destruct (Finalize_run_le t Ht) as (r & t' & E & [Hc Hn] & _).
  rewrite E. unfold conns_ok in *. rewrite Hn, <-(length_fmap cn_id (su_Connections t')), Hc, length_fmap. done.
Qed.

(** The object at [p], whatever its connections. *)
Definition object_at (p : nat) (u : UploadSession) (s : Api) : Prop :=
  ∃ t, ap_heap s !! p = Some (set_stream t u).

Lemma object_at_here s p u : ap_heap s !! p = Some u → object_at p u s.
Proof. intros Hp. exists (up_StreamSession u). rewrite Hp. by destruct u. Qed.

Context (R : Tables → Prop) (h0 : uploads).

Lemma keeps_on_stream {A} p u (m : GoM StreamUploadSession CAct A) : streams m →
  keeps never (λ s, inv R h0 s ∧ object_at p u s) (on_stream p m) (λ _ s, inv R h0 s ∧ object_at p u s).
Proof.
  intros Hm s [[HR Hs] [t Ht]]. unfold on_stream. rewrite Ht.
  pose proof (so_heap _ _ Hs _ _ Ht) as [K1 K2 K3]. specialize (Hm _ K3).
  destruct (m _) as [o [[a t']|w]]; [|done].
  assert (set_stream t' (set_stream t u) = set_NextChunk (up_NextChunk u) (set_stream t' (set_stream t u))) as E
    by (by destruct u).
  rewrite E. split; [split; [exact HR|by apply sessions_ok_update]|].
  exists t'. cbn [set_heap ap_heap]. rewrite lookup_insert_eq. by destruct u.
Qed.

Lemma safe_on_stream {A} p u (m : GoM StreamUploadSession CAct A) (f : A → HM ()) : streams m →
  (∀ a, keeps never (λ s, inv R h0 s ∧ object_at p u s) (f a) (λ _, inv R h0)) →
  keeps never (λ s, inv R h0 s ∧ object_at p u s) (on_stream p m ≫= f) (λ _, inv R h0).
Proof. intros Hm Hf. eapply keeps_bind; [by apply keeps_on_stream|exact Hf]. Qed.

Lemma safe_at {P} (m : HM ()) : safe R h0 m → keeps never (λ s, inv R h0 s ∧ P s) m (λ _, inv R h0).
Proof. intros Hm. eapply keeps_conseq; [exact Hm|by intros s [? _]|done]. Qed.

Lemma UploadChunk_locked_safe p sid i data :
  keeps never (λ s, inv R h0 s ∧ waiting_ok (ap_heap s) (WaitChunk p sid i data))
    (UploadChunk_locked p sid i data) (λ _, inv R h0).
Proof.
  apply keeps_get. intros s [Hinv (u & Hu & Hi)]. rewrite Hu.
  apply (keeps_conseq never _ _ (λ s', inv R h0 s' ∧ object_at p u s') _ (λ _, inv R h0)); [| |done].
  2:{ intros ? ->. split; [done|by apply object_at_here]. }
  destruct (Z.eqb_spec i (up_NextChunk u)) as [->|]; cbn [negb]; [|apply safe_at, safe_error].
  destruct data as [data|]; [|apply safe_at, safe_error].
  apply safe_on_stream; [apply streams_WriteChunk|]. intros [e|].
  - apply safe_on_stream; [apply streams_Close|]. intros _.
    eapply (keeps_bind _ _ _ _ (λ _, inv R h0)); [|intros ?; apply safe_act].
    apply keeps_modify. intros s' [[HR Hs] _]. split; [exact HR|by apply sessions_ok_delete].
  - cbv zeta. eapply (keeps_bind _ _ _ _ (λ _, inv R h0)); [|intros ?; apply safe_act].
    apply keeps_modify. intros s' [[HR Hs] [t Ht]]. split; [exact HR|].
    pose proof (so_heap _ _ Hs _ _ Ht) as [K1 K2 K3]. cbn [set_stream up_NextChunk up_TotalChunks] in K1, K2.
    rewrite int64_id by (unfold maxInt in K2; int_bounds; lia).
    assert (alter (set_NextChunk (up_NextChunk u + 1)) p (ap_heap s') =
      <[p := set_NextChunk (up_NextChunk u + 1) (set_stream t (set_stream t u))]> (ap_heap s')) as ->.
    { apply map_eq. intros q. destruct (decide (p = q)) as [<-|Hpq].
      - by rewrite lookup_alter_eq, lookup_insert_eq, Ht.
      - by rewrite lookup_alter_ne, lookup_insert_ne. }
    apply sessions_ok_update; [done|done|]. split; simpl; [lia|done|done].
Qed.

Lemma UploadChunk_begin_safe r :
  keeps never (inv R h0) (UploadChunk_begin r)
    (λ w s, inv R h0 s ∧ ∀ w', w = Some w' → waiting_ok (ap_heap s) w' ∧ ∃ p sid i d, w' = WaitChunk p sid i d).
Proof.
  assert (∀ code msg P, (∀ s, P s → inv R h0 s) → keeps never P (refused code msg)
    (λ w s, inv R h0 s ∧ ∀ w', w = Some w' → waiting_ok (ap_heap s) w' ∧ ∃ p sid i d, w' = WaitChunk p sid i d)) as Href.
  { intros code msg P HP s Hs. simpl. split; [by apply HP|done]. }
  unfold UploadChunk_begin, checked, GetUserFromContext.
  destruct (negb _); [by apply Href|]. destruct (rq_user r) as [c|]; [|by apply Href].
  destruct (rq_form r) as [form|]; [|by apply Href]. cbv zeta. destruct (_ || _); [by apply Href|].
  destruct (Atoi _) as [i|]; [|by apply Href]. apply keeps_get. intros s Hs.
  destruct (ap_sessions s !! _) as [p|] eqn:Ep; [|apply Href; by intros ? ->].
  destruct (so_table _ _ (proj2 Hs) _ _ Ep) as (u & Hu & _). rewrite Hu.
  case_bool_decide; [apply Href; by intros ? ->|].
  destruct (_ || _) eqn:Ei; [apply Href; by intros ? ->|].
  destruct (rq_chunk r) as [d|]; [|apply Href; by intros ? ->].
  apply keeps_ret. intros ? ->. split; [done|]. intros w' [= <-]. split; [|by repeat eexists].
  exists u. split; [done|]. apply orb_false_elim in Ei as [?%Z.ltb_ge ?%Z.leb_gt]. lia.
Qed.

Lemma Finalize_begin_safe r :
  keeps never (inv R h0) (Finalize_begin r)
    (λ w s, inv R h0 s ∧ ∀ w', w = Some w' → waiting_ok (ap_heap s) w' ∧
       ∃ c p, w' = WaitFinalize c p ∧ rq_user r = Some c).
Proof.
  assert (∀ code msg P, (∀ s, P s → inv R h0 s) → keeps never P (refused code msg)
    (λ w s, inv R h0 s ∧ ∀ w', w = Some w' → waiting_ok (ap_heap s) w' ∧
       ∃ c p, w' = WaitFinalize c p ∧ rq_user r = Some c)) as Href.
  { intros code msg P HP s Hs. simpl. split; [by apply HP|done]. }
  unfold Finalize_begin, checked, GetUserFromContext.
  destruct (negb _); [by apply Href|]. destruct (rq_user r) as [c|]; [|by apply Href].
  destruct (Unmarshal_ok _ _) as [sid|]; [|by apply Href]. apply keeps_get. intros s Hs.
  destruct (ap_sessions s !! sid) as [p|] eqn:Ep; [|apply Href; by intros ? ->].
  destruct (so_table _ _ (proj2 Hs) _ _ Ep) as (u & Hu & _).
  eapply keeps_bind; [apply (keeps_modify _ _ _ (λ _ s', s' = set_sessions (delete sid (ap_sessions s)) s)); by intros ? ->|].
  intros []. apply keeps_ret. intros ? ->. split; [split; [apply Hs|apply sessions_ok_delete, Hs]|].
  intros w' [= <-]. split; [simpl; by exists u|by repeat eexists].
Qed.
End uploads.

(** ** Handlers that change rows *)
Section rows.
Context `{UuidText} `{TimeText} `{Network} `{Bcrypt} `{Jwt} `{MapRange} `{ErrorTexts}.
Context (c : UserClaims) (t0 : Tables) (h0 : uploads).

Lemma cleanupStaleSessions_safe R h now : safe R h (cleanupStaleSessions now).
Proof.
  apply keeps_get. intros s [HR Hs].
  eapply (keeps_conseq _ _ _ (inv R (uploads_of s)) _ (λ _, inv R (uploads_of s))).
  2:{ intros ? ->. split; [done|]. by eapply sessions_ok_now. }
  2:{ intros _ s' [HR' Hs']. split; [done|]. by eapply sessions_ok_trans. }
  apply keeps_for. intros [id p] Hin%elem_of_go_range.
  destruct (so_table _ _ Hs _ _ Hin) as (u & Hu & _). rewrite Hu. destruct (stale now u); [|by apply keeps_ret].
  intros s' Hs'. destruct (so_grown _ _ (proj2 Hs') _ _ Hu) as (t & n & Ht).
  set (v := set_NextChunk n (set_stream t u)) in Ht.
  refine (safe_on_stream R (uploads_of s) p v Close _ streams_Close _ s' (conj Hs' (object_at_here _ _ _ Ht))).
  intros _. apply keeps_modify. intros s2 [[? ?] _]. split; [done|]. by apply sessions_ok_delete.
Qed.

Abbreviation safe_rows := (safe (guarded c t0) h0).

Lemma DeleteFile_safe rid r : no_null_peers → rq_user r = Some c → safe_rows (DeleteFile rid r).
Proof.
  intros Hn Hu. apply safe_authenticated. intros c' Hc'. rewrite Hu in Hc'. injection Hc' as <-.
  apply safe_with_file. intros f Hf _. eapply keeps_bind; [by apply keeps_service, DeleteFileByID_serves|].
  intros [e|u]; [apply safe_error|]. eapply safe_client; [by apply DeleteFile_returns|]. intros resp _.
  eapply (keeps_bind _ _ _ _ (λ _, inv (guarded c t0) h0)); [|intros ?; apply safe_act].
  destruct resp as [e|resp]; [apply safe_act|apply safe_log].
Qed.

(** What a finalisation keeps, if the statements that it may send do. *)
Lemma Finalize_locked_keeps (R : Tables → Prop) gens now p :
  (∀ f, f_OwnerID f = uc_UserID c → serves (O := HAct) R (CreateFile now f) (λ _, R)) →
  (∀ fid nids, serves (O := HAct) R (CreateReplicas gens now fid nids) (λ _, R)) →
  keeps never (λ s, inv R h0 s ∧ waiting_ok (ap_heap s) (WaitFinalize c p)) (Finalize_locked gens now c p) (λ _, inv R h0).
Proof.
  intros HF HR. apply keeps_get. intros s [Hinv [u Hu]]. rewrite Hu.
  apply (keeps_conseq never _ _ (λ s', inv R h0 s' ∧ object_at p u s') _ (λ _, inv R h0));
    [| |done].
  2:{ intros ? ->. split; [done|by apply object_at_here]. }
  case_bool_decide as Huser.
  { apply safe_on_stream; [apply streams_Close|]. intros _. apply safe_at, safe_error. }
  destruct (negb _).
  { apply safe_on_stream; [apply streams_Close|]. intros _. apply safe_at, safe_error. }
  apply safe_on_stream; [apply streams_Finalize|]. intros [e|result].
  { apply safe_on_stream; [apply streams_Close|]. intros _. apply safe_at, safe_error. }
  cbv zeta. apply safe_at. eapply keeps_bind; [by apply keeps_service, HF|]. intros [e|?]; [apply safe_error|].
  eapply keeps_bind; [apply keeps_service, HR|]. intros rs.
  eapply (keeps_bind _ _ _ _ (λ _, inv R h0)); [|intros ?; apply safe_act].
  destruct rs; [apply safe_act|apply safe_skip].
Qed.

Lemma Finalize_locked_safe gens now p :
  keeps never (λ s, inv (guarded c t0) h0 s ∧ waiting_ok (ap_heap s) (WaitFinalize c p))
    (Finalize_locked gens now c p) (λ _, inv (guarded c t0) h0).
Proof.
  apply Finalize_locked_keeps; intros; [by apply CreateFile_serves|apply CreateReplicas_serves].
Qed.

Lemma UploadChunk_safe gens now r : safe_rows (UploadChunk gens now r).
Proof.
  eapply keeps_bind; [apply UploadChunk_begin_safe|]. intros [w|].
  - intros s [Hs Hw]. destruct (Hw w eq_refl) as [Hok (p & sid & i & d & ->)].
    by apply (UploadChunk_locked_safe (guarded c t0) h0 p sid i d s).
  - apply keeps_ret. by intros s [? _].
Qed.

Lemma FinalizeChunkedUpload_safe gens now r : rq_user r = Some c → safe_rows (FinalizeChunkedUpload gens now r).
Proof.
  intros Hu. eapply keeps_bind; [apply Finalize_begin_safe|]. intros [w|].
  - intros s [Hs Hw]. destruct (Hw w eq_refl) as [Hok (c' & p & -> & Hc)]. rewrite Hu in Hc. injection Hc as <-.
    by apply (Finalize_locked_safe gens now p s).
  - apply keeps_ret. by intros s [? _].
Qed.
End rows.

(** ** The server *)
Section server.
Context `{UuidText} `{TimeText} `{Network} `{Bcrypt} `{Jwt} `{MapRange} `{ErrorTexts}.

(** The routes behind the middleware. *)
Definition protected (t : Route) : bool :=
  match t with AuthRegister | AuthLogin => false | _ => true end.

(** The method that a pattern starts with. *)
Fixpoint first_word (s : string) : string :=
  match s with
  | "" => ""
  | String " " _ => ""
  | String c s' => String c (first_word s')
  end%string.

(** Who sends the request, for the middleware. *)
Definition caller (e : Outside) (r : Request) : Res (option UserClaims) :=
  match rq_token r with
  | None => Ret None
  | Some cookie =>
    match validateToken (ou_secret e) (ou_now e) cookie with
    | Panic w => Panic w
    | Ret (claims, ok) => Ret (if ok then claims else None)
    end
  end.

Definition api_ok (s : Api) : Prop := tables_ok (tables s) ∧ sessions_ok (∅, ∅) s.

Definition cors_headers : list HAct :=
  [HHeader "Access-Control-Allow-Origin" "http://localhost:5173";
   HHeader "Access-Control-Allow-Methods" "GET, POST, PUT, DELETE, OPTIONS";
   HHeader "Access-Control-Allow-Headers" "Content-Type";
   HHeader "Access-Control-Allow-Credentials" "true"].

Lemma cors_run next r s :
  corsMiddleware next r s =
  let '(o, res) := (if String.eqb (rq_Method r) "OPTIONS" then emit (HStatus StatusOK) else next r) s in
  (cors_headers ++ o, res).
Proof.
  unfold corsMiddleware, mbind, gom_bind. cbn [emit].
  by destruct ((if String.eqb (rq_Method r) "OPTIONS" then emit (HStatus StatusOK) else next r) s) as [o res].
Qed.

Lemma serve_run e t r s o res : rq_Method r ≠ "OPTIONS" → handler e t r s = (o, res) →
  serve e t r s = (cors_headers ++ o, res).
Proof. intros Hm E. unfold serve. rewrite cors_run. destruct (String.eqb_spec (rq_Method r) "OPTIONS"); [done|]. by rewrite E. Qed.

(** A handler that goes no further without a user. *)
Definition needs_user (method : string) (h : Request → HM ()) : Prop := ∀ r s, rq_user r = None →
  ∃ code msg, h r s = ([HJSON code (error_body code msg)], Ret ((), s)) ∧ (rq_Method r = method → code = StatusUnauthorized).

Lemma needs_user_authenticated method (body : Request → UserClaims → HM ()) :
  needs_user method (λ r, authenticated method r (body r)).
Proof.
  intros r s Hr. unfold authenticated, checked, GetUserFromContext. rewrite Hr.
  destruct (String.eqb_spec (rq_Method r) method); cbn [negb]; do 2 eexists; (split; [reflexivity|done]).
Qed.

Lemma needs_user_begin (b : Request → HM (option Waiting)) gens now :
  (∀ r s, rq_user r = None → ∃ code msg, b r s = refused code msg s ∧
     (rq_Method r = MethodPost → code = StatusUnauthorized)) →
  needs_user MethodPost (λ r, w ← b r; match w with Some w => locked gens now w | None => skip end).
Proof.
  intros Hb r s Hr. destruct (Hb r s Hr) as (code & msg & E & Hc). exists code, msg. split; [|done].
  unfold mbind, gom_bind. by rewrite E.
Qed.

Lemma checked_no_user r : rq_user r = None → ∃ code msg, checked MethodPost r = inl (code, msg) ∧
  (rq_Method r = MethodPost → code = StatusUnauthorized).
Proof.
  intros Hr. unfold checked, GetUserFromContext. rewrite Hr.
  destruct (String.eqb_spec (rq_Method r) MethodPost); cbn [negb]; do 2 eexists; (split; [reflexivity|done]).
Qed.

(** The handler of a route, behind the middleware. *)
Definition inner (e : Outside) (t : Route) : Request → HM () :=
  match t with
  | AuthRegister | AuthLogin => handler e t
  | AuthMe => GetMe
  | Files => ListFiles (ou_scan e)
  | UploadInit => InitChunkedUpload (ou_uuid e 0) (ou_uuid e 1) (ou_now e)
  | UploadChunkRoute => UploadChunk (ou_uuid e) (ou_now e)
  | UploadFinalize => FinalizeChunkedUpload (ou_uuid e) (ou_now e)
  | FileDownload => GetFile (ou_uuid e 0) (ou_budget e)
  | FileMetadata => GetFileMetadata
  | FileDelete => DeleteFile (ou_uuid e 0)
  | Nodes => GetNodes
  | NodeById => GetNode
  | MetricsSystem => SystemMetrics (ou_now e)
  end.

Lemma handler_inner e t : protected t = true → handler e t = RequireAuth (ou_secret e) (ou_now e) (inner e t).
Proof. by destruct t. Qed.

Lemma inner_needs_user e t : protected t = true → needs_user (first_word (pattern t)) (inner e t).
Proof.
  intros Ht. destruct t; try discriminate Ht; try exact (needs_user_authenticated _ (λ r, _)).
  - apply needs_user_begin. intros r s Hr. destruct (checked_no_user r Hr) as (code & msg & E & Hc).
    exists code, msg. split; [|done]. unfold UploadChunk_begin. by rewrite E.
  - apply needs_user_begin. intros r s Hr. destruct (checked_no_user r Hr) as (code & msg & E & Hc).
    exists code, msg. split; [|done]. unfold Finalize_begin. by rewrite E.
Qed.

(** The middleware, by who sends the request. *)
Lemma RequireAuth_run e h r s method : needs_user method h →
  match caller e r with
  | Panic w => RequireAuth (ou_secret e) (ou_now e) h r s = ([], Panic w)
  | Ret None => ∃ code msg, RequireAuth (ou_secret e) (ou_now e) h r s =
      ([HJSON code (error_body code msg)], Ret ((), s)) ∧ (rq_Method r = method → code = StatusUnauthorized)
  | Ret (Some c) => RequireAuth (ou_secret e) (ou_now e) h r s = h (with_user (Some c) r) s
  end.
Proof.
  intros Hh. unfold caller, RequireAuth. destruct (rq_token r) as [tok|]; [|by do 2 eexists].
  destruct (validateToken _ _ _) as [[[c|] []]|w]; try done; try by do 2 eexists.
  exact (Hh (with_user None r) s eq_refl).
Qed.

(** C23: Every route but registration and login is closed to requests without a
    valid token: whatever the request, it is answered with status 401 (after
    the CORS headers), the state of the server does not change, and neither the
    database nor the cluster is asked. *)
Theorem unauthenticated_refused e t r s : protected t = true →
  rq_Method r = first_word (pattern t) → caller e r = Ret None →
  ∃ msg, serve e t r s =
    (cors_headers ++ [HJSON StatusUnauthorized (error_body StatusUnauthorized msg)], Ret ((), s)).
Proof.
  intros Ht Hm Hc. unfold serve. rewrite cors_run.
  assert (String.eqb (rq_Method r) "OPTIONS" = false) as -> by (rewrite Hm; by destruct t).
  rewrite handler_inner by done. pose proof (RequireAuth_run e _ r s _ (inner_needs_user e t Ht)) as Hr.
  rewrite Hc in Hr. destruct Hr as (code & msg & -> & Hcode). exists msg. by rewrite Hcode.
Qed.

(** What a protected handler does for a user it knows. *)
Lemma inner_safe e t r c t0 h0 : no_null_peers → protected t = true →
  safe (guarded c t0) h0 (inner e t (with_user (Some c) r)).
Proof.
  intros Hn Ht. destruct t; try discriminate Ht.
  - apply GetMe_safe.
  - apply ListFiles_safe.
  - by apply InitChunkedUpload_safe.
  - by apply UploadChunk_safe.
  - by apply FinalizeChunkedUpload_safe.
  - by apply GetFile_safe.
  - apply GetFileMetadata_safe.
  - by apply DeleteFile_safe.
  - by apply GetNodes_safe.
  - by apply GetNode_safe.
  - by apply SystemMetrics_safe.
Qed.

Lemma serve_safe e t r s cl h0 : no_null_peers → protected t = true → tables_ok (tables s) → sessions_ok h0 s →
  caller e r = Ret cl →
  ∃ o s', serve e t r s = (o, Ret ((), s')) ∧ tables_ok (tables s') ∧ sessions_ok h0 s' ∧
    match cl with None => s' = s | Some c => kept c (tables s) (tables s') end.
Proof.
  intros Hn Ht Htab Hses Hc. unfold serve. rewrite cors_run.
  destruct (String.eqb _ _).
  { do 2 eexists. split; [reflexivity|]. split; [done|]. split; [done|]. by destruct cl. }
  rewrite handler_inner by done. pose proof (RequireAuth_run e _ r s _ (inner_needs_user e t Ht)) as Hr.
  rewrite Hc in Hr. destruct cl as [c|].
  - rewrite Hr. pose proof (inner_safe e t r c (tables s) h0 Hn Ht s) as Hs.
    specialize (Hs (conj (conj Htab (reflexivity _)) Hses)).
    destruct (inner e t (with_user (Some c) r) s) as [o [[[] s']|w]]; [|done].
    destruct Hs as [[Ht' Hk] Hs']. do 2 eexists. split; [reflexivity|]. by split.
  - destruct Hr as (code & msg & -> & _). do 2 eexists. split; [reflexivity|]. by split.
Qed.

(** C3: What a request may do to the rows, on every route behind the
    middleware: the handler returns, the constraints of the schema and the
    table of uploads stay sound; without a user nothing changes; for a user,
    no user's row changes, every file that the user does not own, and its
    replicas, stay (unless the user is an administrator), and every new file is
    the user's own. *)
Theorem serve_respects_owners e t r s cl : no_null_peers → protected t = true → api_ok s →
  caller e r = Ret cl →
  ∃ o s', serve e t r s = (o, Ret ((), s')) ∧ api_ok s' ∧
    match cl with None => s' = s | Some c => kept c (tables s) (tables s') end.
Proof.
  intros Hn Ht [Htab Hses] Hc.
  destruct (serve_safe e t r s cl (∅, ∅) Hn Ht Htab Hses Hc) as (o & s' & E & ? & ? & ?).
  exists o, s'. split; [exact E|]. by split.
Qed.

(** Registration and login: the one statement that changes rows. *)
Lemma public_handler_safe R h0 e t r : protected t = false →
  (∀ gen now name email h role t a t', R t → insert_user gen now name email h role t = inr (a, t') → R t') →
  safe R h0 (handler e t r).
Proof.
  intros Ht HR. destruct t; try discriminate Ht; cbn [handler].
  - unfold RegisterUser. destruct (negb _); [apply safe_error|]. destruct (Unmarshal_ok _ _) as [req|]; [|apply safe_error].
    apply safe_service; [|intros []; apply safe_act].
    unfold Database.RegisterUser. destruct (bcrypt_Generate _ _); [|by apply keeps_ret].
    apply (keeps_bind _ _ _ _ (λ _ d, R (db_tables d))); [|intros ?; by apply keeps_ret].
    apply (serves_statement _ _ (λ _, R)); [|done]. intros t' Ht'.
    destruct (insert_user _ _ _ _ _ _ _) as [?|[? ?]] eqn:E; [done|by eapply HR].
  - unfold LoginUser. destruct (negb _); [apply safe_error|]. destruct (Unmarshal_ok _ _) as [req|]; [|apply safe_error].
    apply safe_service.
    + unfold Database.LoginUser. eapply keeps_bind; [apply serves_query|]. intros [[]|u]; try by apply keeps_ret.
      destruct (negb _); [by apply keeps_ret|]. destruct (jwt_SignedString _ _); by apply keeps_ret.
    + intros [[]|tok]; try apply safe_error. eapply keeps_bind; [apply safe_act|]. intros ?. apply safe_act.
Qed.

Lemma public_safe e t r s h0 : protected t = false → tables_ok (tables s) → sessions_ok h0 s →
  ∃ o s', serve e t r s = (o, Ret ((), s')) ∧ tables_ok (tables s') ∧ sessions_ok h0 s'.
Proof.
  intros Ht Htab Hses. assert (safe tables_ok h0 (handler e t r)) as Hsafe.
  { apply public_handler_safe; [done|]. intros. by eapply insert_user_ok. }
  unfold serve. rewrite cors_run. destruct (String.eqb _ _); [by do 2 eexists|].
  specialize (Hsafe s (conj Htab Hses)). destruct (handler e t r s) as [o [[[] s']|w]]; [|done].
  destruct Hsafe. by do 2 eexists.
Qed.

(** Any request that is served. *)
Lemma serve_keeps e t r s h0 o s' : no_null_peers → tables_ok (tables s) → sessions_ok h0 s →
  serve e t r s = (o, Ret ((), s')) → tables_ok (tables s') ∧ sessions_ok h0 s'.
Proof.
  intros Hn Htab Hses E. destruct (protected t) eqn:Ht.
  - destruct (caller e r) as [cl|w] eqn:Ec.
    + destruct (serve_safe e t r s cl h0 Hn Ht Htab Hses Ec) as (o1 & s1 & E1 & ? & ? & _).
      rewrite E in E1. by injection E1 as _ ->.
    + unfold serve in E. rewrite cors_run in E. destruct (String.eqb _ _); [by injection E as _ <-|].
      pose proof (RequireAuth_run e _ r s _ (inner_needs_user e t Ht)) as Hr.
      rewrite handler_inner in E by done. by rewrite Ec in Hr; rewrite Hr in E.
  - destruct (public_safe e t r s h0 Ht Htab Hses) as (o1 & s1 & E1 & ? & ?).
    rewrite E in E1. by injection E1 as _ ->.
Qed.

(** A row that is added last is found when no other matches. *)
Lemma find_last {A} (P : A → bool) l x : (∀ y, y ∈ l → P y = false) → P x = true → List.find P (l ++ [x]) = Some x.
Proof.
  induction l as [|y l IH]; intros Hl Hx; simpl; [by rewrite Hx|].
  rewrite (Hl y) by (by left). apply IH; [|done]. intros z Hz. apply Hl. by right.
Qed.

(** The claims of a token, read back. *)
Lemma validateToken_signed secret now now' u tok : jwt_SignedString secret (token_claims now u) = Some tok →
  now' / Second <= (now + 24 * Hour) / Second →
  validateToken secret now' tok = Ret (Some (mkUserClaims (u_ID u) (u_Username u) (u_Email u) (u_Role u)), true).
Proof.
  intros Hs Hnow. unfold validateToken.
  erewrite (jwt_Parse_SignedString now' (hmac_key secret) secret (token_claims now u)); [|exact Hs|done| |exact Hnow].
  2:{ unfold token_claims. by rewrite lookup_insert_eq. }
  cbn [negb]. unfold string_claim, token_claims.
  repeat first [rewrite lookup_insert_eq|rewrite lookup_insert_ne by done|rewrite lookup_singleton_eq].
  by rewrite uuid_Parse_String.
Qed.

(** C24: Registration, login and the middleware fit together: a user whose name
    and address are new is registered (201); the login with the same address
    and password gives a token in a cookie and changes nothing; and until the
    token expires, a day later, the middleware takes a request with that cookie
    for this user, with the role of a user and not of an administrator. *)
Theorem register_login_authenticate e1 e2 e3 r1 r2 r3 s req h tok :
  let t := tables s in
  let u := mkUser (ou_uuid e1 0) (rur_Username req) (rur_Email req) h UserRoleUser (ou_now e1) (ou_now e1) in
  db_faults (ap_db s) = [] →
  rq_Method r1 = MethodPost → Unmarshal_ok RegisterUserRequest_of_json (rq_body r1) = Some req →
  bcrypt_Generate (ou_rand e1) (rur_Password req) = Some h →
  u_ID u ∉ (u_ID <$> tb_users t) → u_Username u ∉ (u_Username <$> tb_users t) → u_Email u ∉ (u_Email <$> tb_users t) →
  rq_Method r2 = MethodPost →
  Unmarshal_ok LoginUserRequest_of_json (rq_body r2) = Some (mkLoginUserRequest (rur_Email req) (rur_Password req)) →
  jwt_SignedString (ou_secret e2) (token_claims (ou_now e2) u) = Some tok →
  rq_token r3 = Some tok → ou_secret e3 = ou_secret e2 → ou_now e3 <= ou_now e2 + 24 * Hour →
  ∃ s1, serve e1 AuthRegister r1 s =
      (cors_headers ++ [HJSON StatusCreated (success_body None "User registered successfully")], Ret ((), s1)) ∧
    tables s1 = mkTables (tb_users t ++ [u]) (tb_files t) (tb_replicas t) ∧
    serve e2 AuthLogin r2 s1 =
      (cors_headers ++ [HCookie "token" tok 86400; HJSON StatusOK (success_body None "User logged in successfully")],
       Ret ((), s1)) ∧
    caller e3 r3 = Ret (Some (mkUserClaims (u_ID u) (u_Username u) (u_Email u) "user")).
Proof.
  intros t u Hf Hm1 Hreq Hh Hid Hname Hmail Hm2 Hlog Hsign Htok Hsec Hnow.
  set (t1 := mkTables (tb_users t ++ [u]) (tb_files t) (tb_replicas t)).
  exists (set_db (mkDB t1 []) s). split_and!; [|done| |].
  - apply serve_run; [by rewrite Hm1|]. cbn [handler]. unfold RegisterUser. rewrite Hm1, Hreq.
    rewrite String.eqb_refl. cbn [negb]. refine (bind_silent _ _ s true (set_db (mkDB t1 []) s) _).
    unfold service, zoom, Database.RegisterUser. rewrite Hh. unfold mbind, gom_bind, statement. rewrite Hf.
    unfold insert_user. fold (tables s) t. rewrite bool_decide_false by (intros [?|[?|?]]; tauto). done.
  - apply serve_run; [by rewrite Hm2|]. cbn [handler]. unfold LoginUser. rewrite Hm2, Hlog.
    rewrite String.eqb_refl. cbn [negb].
    refine (bind_silent _ _ _ (inr tok) (set_db (mkDB t1 []) s) _).
    unfold service, zoom, Database.LoginUser. unfold mbind, gom_bind, query, statement.
    cbn [set_db ap_db db_tables db_faults t1 tb_users lur_Email lur_Password]. unfold select_user.
    cbn [tb_users]. rewrite (find_last _ (tb_users t) u); [|intros y Hy; apply String.eqb_neq; intros E; apply Hmail|by apply String.eqb_refl].
    2:{ cbn [u u_Email]. rewrite <-E. by apply list_elem_of_fmap_2. }
    cbn [u u_PasswordHash]. rewrite (bcrypt_Compare_Generate (ou_rand e1)) by done. cbn [negb]. fold u. by rewrite Hsign.
  - unfold caller. rewrite Htok, Hsec. rewrite (validateToken_signed _ (ou_now e2) _ u tok); [done|done|].
    by apply Z.div_le_mono.
Qed.
End server.
