(* ===== verification/Privacy.v ===== *)
(** * The API server never discloses password hashes

    Noninterference: behind the middleware no handler looks at the hashes. Run
    on the database with the hashes erased, every route gives the same
    responses, headers, requests to the cluster and logs, and the same changes;
    so nothing a client sees depends on them. *)

From S2P Require Import Prelude GoStd Types Json StreamServer NodeState Client Transfer Database Api ApiSafety.

Definition erase_user (u : User) : User :=
  mkUser (u_ID u) (u_Username u) (u_Email u) "" (u_Role u) (u_CreatedAt u) (u_UpdatedAt u).

Definition erase_tables (t : Tables) : Tables := mkTables (erase_user <$> tb_users t) (tb_files t) (tb_replicas t).

Definition erase_db (d : DB) : DB := mkDB (erase_tables (db_tables d)) (db_faults d).

Definition erase (s : Api) : Api := set_db (erase_db (ap_db s)) s.

Create HintDb blind.

(** A method that acts in the same way on the erased state. *)
Definition blind {S O A} (er : S → S) (m : GoM S O A) : Prop := ∀ s,
  m (er s) = (let '(o, r) := m s in (o, match r with Ret (a, s') => Ret (a, er s') | Panic w => Panic w end)).

Section blind.
Context {S O : Type} (er : S → S).

Lemma blind_ret {A} (a : A) : blind (O := O) er (mret a).
Proof. by intros s. Qed.

Lemma blind_emit (o : O) : blind er (emit o).
Proof. by intros s. Qed.

Lemma blind_panic {A} w : blind er (panic (O := O) (A := A) w).
Proof. by intros s. Qed.

Lemma blind_modify f : (∀ s, f (er s) = er (f s)) → blind (O := O) er (modify f).
Proof. intros Hf s. unfold modify. by rewrite Hf. Qed.

Lemma blind_bind {A B} (m : GoM S O A) (f : A → GoM S O B) :
  blind er m → (∀ a, blind er (f a)) → blind er (m ≫= f).
Proof.
  intros Hm Hf s. unfold mbind, gom_bind. rewrite Hm. destruct (m s) as [o [[a s']|w]]; [|done].
  rewrite Hf. by destruct (f a s') as [o2 [[b s2]|w]].
Qed.

Lemma blind_get {B} (f : S → GoM S O B) :
  (∀ s, f (er s) = f s) → (∀ s, blind er (f s)) → blind er (get ≫= f).
Proof.
  intros He Hf s. unfold mbind, gom_bind, get. rewrite He, Hf. by destruct (f s s) as [o [[b s2]|w]].
Qed.

Lemma blind_for {A} (l : list A) (body : A → GoM S O ()) : (∀ x, blind er (body x)) → blind er (for_each l body).
Proof.
  intros Hb. induction l as [|x l IH]; [apply blind_ret|]. apply blind_bind; [apply Hb|]. by intros [].
Qed.
End blind.

(** ** Statements *)
Section statements.
Context {O : Type}.

Lemma blind_statement {A} (run : Tables → dberr + A * Tables) :
  (∀ t, run (erase_tables t) = match run t with inl e => inl e | inr (a, t') => inr (a, erase_tables t') end) →
  blind (O := O) erase_db (statement run).
Proof.
  intros Hr [t fs]. unfold statement. simpl. rewrite Hr.
  destruct fs as [|[] fs]; destruct (run t) as [e|[a t']]; reflexivity.
Qed.

Lemma blind_query {A} (run : Tables → dberr + A) :
  (∀ t, run (erase_tables t) = run t) → blind (O := O) erase_db (query run).
Proof. intros Hr. apply blind_statement. intros t. rewrite Hr. by destruct (run t). Qed.

Lemma blind_GetUserByID id : blind (O := O) erase_db (GetUserByID id).
Proof.
  intros [t fs]. unfold GetUserByID, mbind, gom_bind, query, statement, select_user. simpl.
  assert (List.find (λ u, bool_decide (u_ID u = id)) (erase_user <$> tb_users t) =
    erase_user <$> List.find (λ u, bool_decide (u_ID u = id)) (tb_users t)) as ->.
  { induction (tb_users t) as [|u us IH]; [done|]. simpl. by destruct (bool_decide _). }
  destruct fs as [|[] fs]; destruct (List.find (λ u, bool_decide (u_ID u = id)) (tb_users t)) as [u|]; reflexivity.
Qed.

Lemma blind_ListFilesPaginated scan owner page perPage : blind (O := O) erase_db (ListFilesPaginated scan owner page perPage).
Proof.
  apply blind_bind; [by apply blind_query|]. intros [e|n]; [apply blind_ret|].
  apply blind_bind; [by apply blind_query|]. intros r. apply blind_ret.
Qed.

Lemma blind_CreateFile now f : blind (O := O) erase_db (CreateFile now f).
Proof.
  apply blind_statement. intros t. unfold insert_file. simpl.
  assert ((u_ID <$> (erase_user <$> tb_users t)) = (u_ID <$> tb_users t)) as -> by (by rewrite <-list_fmap_compose).
  repeat case_bool_decide; done.
Qed.

Lemma blind_CreateReplicas gens now fid nids : blind (O := O) erase_db (CreateReplicas gens now fid nids).
Proof.
  assert (∀ i, blind (O := O) erase_db (replicas_loop gens now fid i nids)) as Hl.
  { induction nids as [|nid nids IH]; intros i; [apply blind_ret|]. apply blind_bind; [|intros []; [apply blind_ret|apply IH]].
    apply blind_statement. intros t. unfold insert_replica. simpl. repeat case_bool_decide; done. }
  unfold CreateReplicas. destruct nids; [apply blind_ret|apply Hl].
Qed.
End statements.

(** ** Handlers *)
Section handlers.
Context `{UuidText} `{TimeText} `{Network} `{Bcrypt} `{Jwt} `{MapRange} `{ErrorTexts}.

Lemma blind_service {A} (m : GoM DB HAct A) : blind erase_db m → blind erase (service m).
Proof.
  intros Hm s. unfold service, zoom. simpl. rewrite Hm. by destruct (m (ap_db s)) as [o [[a d]|w]].
Qed.

Lemma blind_client {A} (m : CM A) : blind erase (client m).
Proof. intros s. unfold client. simpl. by destruct (m (ap_client s)) as [o [[a c]|w]]. Qed.

Lemma blind_on_stream {A} p (m : GoM StreamUploadSession CAct A) : blind erase (on_stream p m).
Proof.
  intros s. unfold on_stream. simpl. destruct (ap_heap s !! p) as [u|]; [|done].
  by destruct (m (up_StreamSession u)) as [o [[a t]|w]].
Qed.

Lemma blind_Error code msg : blind erase (response_Error code msg).
Proof. apply blind_emit. Qed.

Lemma blind_JSON code body : blind erase (response_JSON code body).
Proof. apply blind_emit. Qed.

#[local] Hint Resolve blind_Error blind_JSON blind_ret blind_emit blind_panic blind_client blind_on_stream blind_GetUserByID
  blind_ListFilesPaginated blind_CreateFile blind_CreateReplicas : blind.

(** Goes through a handler: a service or the client, a read of the state, a
    case, a response. *)
Ltac blind :=
  repeat first
    [ progress intros
    | solve [auto with blind nocore]
    | apply blind_get; [done|]
    | apply blind_bind
    | apply blind_service
    | apply blind_for
    | apply blind_modify; done
    | apply blind_query; done
    | apply blind_statement; done
    | case_match ].

Lemma blind_inner e t r : protected t = true → blind erase (inner e t r).
Proof.
  intros Ht. destruct t; try discriminate Ht; cbn [inner].
  - unfold GetMe, authenticated. blind.
  - unfold ListFiles, authenticated. blind.
  - unfold InitChunkedUpload, authenticated. blind.
  - unfold UploadChunk, UploadChunk_begin, refused, locked, UploadChunk_locked, Finalize_locked. blind.
  - unfold FinalizeChunkedUpload, Finalize_begin, refused, locked, UploadChunk_locked, Finalize_locked. blind.
  - unfold GetFile, authenticated, with_file, GetFileByID. blind.
  - unfold GetFileMetadata, authenticated, with_file, GetFileByID. blind.
  - unfold DeleteFile, authenticated, with_file, GetFileByID, DeleteFileByID. blind.
  - unfold GetNodes, authenticated. blind.
  - unfold GetNode, authenticated. blind.
  - unfold SystemMetrics, authenticated. blind.
Qed.

Lemma blind_serve e t r : protected t = true → blind erase (serve e t r).
Proof.
  intros Ht. unfold serve, corsMiddleware. do 4 (apply blind_bind; [apply blind_emit|intros _]).
  destruct (String.eqb _ _); [apply blind_emit|]. rewrite handler_inner by done. unfold RequireAuth.
  destruct (rq_token r) as [tok|]; [|apply blind_emit].
  destruct (validateToken _ _ tok) as [[cl []]|w]; [by apply blind_inner|apply blind_emit|apply blind_panic].
Qed.

(** C25: Password hashes are not disclosed: on every route behind the
    middleware, two servers that differ in nothing but the hashes do the same
    on the same request, in what they answer, in what they send to the cluster
    and in what they log, and still differ in nothing but the hashes. *)
Theorem hashes_not_disclosed e t r s1 s2 : protected t = true → erase s1 = erase s2 →
  outs_of (serve e t r s1) = outs_of (serve e t r s2) ∧
  panics (serve e t r s1) = panics (serve e t r s2) ∧
  erase <$> state_of (serve e t r s1) = erase <$> state_of (serve e t r s2).
Proof.
  intros Ht He. pose proof (blind_serve e t r Ht s1) as E1. pose proof (blind_serve e t r Ht s2) as E2.
  rewrite He, E2 in E1. clear E2. pose proof (f_equal outs_of E1) as Eo. pose proof (f_equal panics E1) as Ep.
  pose proof (f_equal state_of E1) as Es.
  destruct (serve e t r s1) as [o1 [[[] s1']|w1]], (serve e t r s2) as [o2 [[[] s2']|w2]]; done.
Qed.
End handlers.
