(* ===== verification/Uploads.v ===== *)
(** * Uploads in chunks: requests that wait for each other

    The handlers of an upload in two parts, before and after they get the
    session's mutex, with anything else in between: the steps of the server,
    the invariant of its reachable states, a finalisation that succeeds over
    closed connections, and an upload from its first request to the bytes on
    the storage nodes. *)

From S2P Require Import Prelude GoStd Hashes Types Json Protocol Session Fs LocalStorage StreamServer NodeState Client Transfer Database Api ApiSafety.

(** The server with the requests that wait for a mutex, and the objects that
    a finalisation has had the mutex of. *)
Record Live := mkLive {
  lv_api : Api;
  lv_waiting : list Waiting;
  lv_finalized : list nat }.

Definition finalizes (w : Waiting) : option nat := match w with WaitFinalize _ p => Some p | _ => None end.

Section uploads.
Context `{UuidText} `{TimeText} `{Network} `{Bcrypt} `{Jwt} `{MapRange} `{ErrorTexts}.
Variable secret : string.

(** A request of another route in one step, checked with the secret of the
    server; a request of an upload arrives, with any claims, and finds its
    session or is answered; a waiting request, any of them, gets the mutex; the
    cleanup ticks. *)
Inductive step : Live → list HAct → Live → Prop :=
| step_request e t r a ws fs o a' :
    ou_secret e = secret → t ≠ UploadChunkRoute → t ≠ UploadFinalize → serve e t r a = (o, Ret ((), a')) →
    step (mkLive a ws fs) o (mkLive a' ws fs)
| step_chunk r a ws fs o w a' :
    UploadChunk_begin r a = (o, Ret (w, a')) →
    step (mkLive a ws fs) o (mkLive a' (ws ++ option_list w) fs)
| step_finalize r a ws fs o w a' :
    Finalize_begin r a = (o, Ret (w, a')) →
    step (mkLive a ws fs) o (mkLive a' (ws ++ option_list w) fs)
| step_locked gens now a ws1 w ws2 fs o a' :
    locked gens now w a = (o, Ret ((), a')) →
    step (mkLive a (ws1 ++ w :: ws2) fs) o (mkLive a' (ws1 ++ ws2) (option_list (finalizes w) ++ fs))
| step_tick now a ws fs o a' :
    cleanupStaleSessions now a = (o, Ret ((), a')) →
    step (mkLive a ws fs) o (mkLive a' ws fs).

(** A server that has just started. *)
Definition started_server (l : Live) : Prop :=
  tables_ok (tables (lv_api l)) ∧ ap_sessions (lv_api l) = ∅ ∧ ap_heap (lv_api l) = ∅ ∧
  lv_waiting l = [] ∧ lv_finalized l = [].

Definition finalizing (l : Live) : list nat := omap finalizes (lv_waiting l) ++ lv_finalized l.

(** Waiting requests have their session; an object is finalised by one request
    at most, and has left the table for good by then. *)
Record live_ok (l : Live) : Prop := mkLiveOk {
  lo_api : api_ok (lv_api l);
  lo_waiting : Forall (waiting_ok (ap_heap (lv_api l))) (lv_waiting l);
  lo_once : NoDup (finalizing l);
  lo_gone : ∀ p, p ∈ finalizing l → is_Some (ap_heap (lv_api l) !! p) ∧ ∀ id, ap_sessions (lv_api l) !! id ≠ Some p }.

Lemma started_ok l : started_server l → live_ok l.
Proof.
  destruct l as [a ws fs]. unfold started_server. simpl. intros (Ht & Hs & Hh & -> & ->). split; simpl; try done.
  - split; [done|]. split; rewrite ?Hs, ?Hh; done.
  - apply NoDup_nil_2.
  - intros p Hp. by apply not_elem_of_nil in Hp.
Qed.

(** A step of the server itself leaves the waiting requests as they are. *)
Lemma live_ok_api a a' ws fs : live_ok (mkLive a ws fs) → tables_ok (tables a') → sessions_ok (uploads_of a) a' →
  live_ok (mkLive a' ws fs).
Proof.
  intros [[Ht Hs] Hw Ho Hg] Ht' Hs'. simpl in *. split; simpl.
  - split; [done|]. by eapply sessions_ok_trans.
  - eapply Forall_impl; [exact Hw|]. intros w. apply waiting_ok_grown, (so_grown _ _ Hs').
  - done.
  - intros p Hp. destruct (Hg p Hp) as [[u Hu] Hid]. split.
    + destruct (so_grown _ _ Hs' _ _ Hu) as (? & ? & E). by eexists.
    + intros id Hp'. apply (Hid id). apply (so_old _ _ Hs'); [done|]. by exists u.
Qed.

Lemma finalizing_locked a ws1 w ws2 fs :
  finalizing (mkLive a (ws1 ++ w :: ws2) fs) ≡ₚ finalizing (mkLive a (ws1 ++ ws2) (option_list (finalizes w) ++ fs)).
Proof.
  unfold finalizing. cbn [lv_waiting lv_finalized]. rewrite !omap_app, <-!app_assoc. f_equiv. csimpl.
  destruct (finalizes w); simpl; [|done]. by rewrite Permutation_middle.
Qed.

Lemma live_ok_locked a ws1 w ws2 fs : live_ok (mkLive a (ws1 ++ w :: ws2) fs) →
  live_ok (mkLive a (ws1 ++ ws2) (option_list (finalizes w) ++ fs)).
Proof.
  intros [Ha Hw Ho Hg]. pose proof (finalizing_locked a ws1 w ws2 fs) as Hp. split; simpl in *.
  - done.
  - apply Forall_app in Hw as [? [_ ?]%Forall_cons_1]. by apply Forall_app.
  - by rewrite <-Hp.
  - intros p. rewrite <-Hp. apply Hg.
Qed.

(** What a waiting request does with the mutex. *)
Lemma locked_safe gens now w a : api_ok a → waiting_ok (ap_heap a) w →
  ∃ o a', locked gens now w a = (o, Ret ((), a')) ∧ tables_ok (tables a') ∧ sessions_ok (uploads_of a) a'.
Proof.
  intros [Ht Hs] Hw. pose proof (sessions_ok_now _ _ Hs) as Hnow. destruct w as [p sid i d|c p].
  - pose proof (UploadChunk_locked_safe tables_ok (uploads_of a) p sid i d a (conj (conj Ht Hnow) Hw)) as Hr.
    cbn [locked]. destruct (UploadChunk_locked p sid i d a) as [o [[[] a']|w]]; [|done].
    destruct Hr. by do 2 eexists.
  - pose proof (Finalize_locked_safe c (tables a) (uploads_of a) gens now p a) as Hr.
    specialize (Hr (conj (conj (conj Ht (reflexivity _)) Hnow) Hw)). cbn [locked].
    destruct (Finalize_locked gens now c p a) as [o [[[] a']|w]]; [|done].
    destruct Hr as [[? _] ?]. by do 2 eexists.
Qed.

(** A new request that has nothing to do with finalisation. *)
Lemma live_ok_chunk a ws fs r o w a' : live_ok (mkLive a ws fs) → UploadChunk_begin r a = (o, Ret (w, a')) →
  live_ok (mkLive a' (ws ++ option_list w) fs).
Proof.
  intros Hl E. pose proof Hl as [[Ht Hs] _ _ _]. cbn [lv_api] in *.
  pose proof (UploadChunk_begin_safe tables_ok (uploads_of a) r a (conj Ht (sessions_ok_now _ _ Hs))) as Hr.
  rewrite E in Hr. destruct Hr as [[Ht' Hs'] Hw]. destruct (live_ok_api a a' ws fs Hl Ht' Hs') as [Ha1 Hw1 Ho1 Hg1].
  unfold finalizing in *. simpl in *.
  assert (omap finalizes (ws ++ option_list w) = omap finalizes ws) as Ef.
  { rewrite omap_app. destruct w as [w|]; [|by rewrite app_nil_r].
    destruct (Hw w eq_refl) as [_ (p & sid & i & d & ->)]. by rewrite app_nil_r. }
  split; unfold finalizing; simpl; rewrite ?Ef; try done. apply Forall_app. split; [done|].
  destruct w as [w|]; simpl; constructor; [by apply Hw|constructor].
Qed.

(** A request to finalise takes its object out of the table. *)
Lemma live_ok_finalize a ws fs r o w a' : live_ok (mkLive a ws fs) → Finalize_begin r a = (o, Ret (w, a')) →
  live_ok (mkLive a' (ws ++ option_list w) fs).
Proof.
  intros Hl E. pose proof Hl as [[Ht Hs] _ _ Hg]. cbn [lv_api] in *.
  pose proof (Finalize_begin_safe tables_ok (uploads_of a) r a (conj Ht (sessions_ok_now _ _ Hs))) as Hr.
  rewrite E in Hr. destruct Hr as [[Ht' Hs'] Hw]. destruct (live_ok_api a a' ws fs Hl Ht' Hs') as [Ha1 Hw1 Ho1 Hg1].
  destruct w as [w|]; [|by rewrite app_nil_r]. destruct (Hw w eq_refl) as [Hwok (c & p & -> & Hc)].
  assert (∃ id, ap_sessions a !! id = Some p ∧ a' = set_sessions (delete id (ap_sessions a)) a) as (id & Hid & ->).
  { unfold Finalize_begin, checked, GetUserFromContext in E. rewrite Hc in E.
    destruct (negb _); [done|]. destruct (Unmarshal_ok _ _) as [id|]; [|done].
    rewrite (bind_silent _ _ _ a a eq_refl) in E. destruct (ap_sessions a !! id) as [q|] eqn:Eq; [|done].
    rewrite (bind_silent _ _ _ () _ eq_refl) in E. injection E as _ <- <-. by exists id. }
  unfold finalizing in *. simpl in *.
  assert (omap finalizes (ws ++ [WaitFinalize c p]) ++ fs ≡ₚ p :: omap finalizes ws ++ fs) as Hp.
  { rewrite omap_app. csimpl. by rewrite <-app_assoc, Permutation_middle. }
  split; unfold finalizing; simpl.
  - done.
  - apply Forall_app. by split; [|constructor].
  - rewrite Hp. constructor; [|done]. intros Hin. by apply (proj2 (Hg p Hin) id).
  - intros q. rewrite Hp, elem_of_cons. intros [->|Hq]; [|by apply Hg1]. split; [done|].
    intros id' [Hne Hid']%lookup_delete_Some. destruct (so_table _ _ Hs _ _ Hid) as (u & Hu & <-).
    destruct (so_table _ _ Hs _ _ Hid') as (u' & Hu' & <-). congruence.
Qed.

Lemma step_ok l o l' : no_null_peers → live_ok l → step l o l' → live_ok l'.
Proof.
  intros Hn Hl Hstep. destruct Hstep as [e t r a ws fs o a' _ _ _ E|r a ws fs o w a' E|r a ws fs o w a' E|
    gens now a ws1 w ws2 fs o a' E|now a ws fs o a' E].
  - pose proof Hl as [[Ht Hs] _ _ _]. cbn [lv_api] in *. pose proof (sessions_ok_now _ _ Hs) as Hnow.
    destruct (serve_keeps e t r a _ o a' Hn Ht Hnow E). by eapply live_ok_api.
  - by eapply live_ok_chunk.
  - by eapply live_ok_finalize.
  - pose proof (live_ok_locked _ _ _ _ _ Hl) as Hl'. destruct Hl as [Ha Hw _ _]. cbn [lv_api lv_waiting] in *.
    apply Forall_app in Hw as [_ [Hw _]%Forall_cons_1].
    destruct (locked_safe gens now w a Ha Hw) as (o1 & a1 & E1 & ? & ?). rewrite E in E1. injection E1 as -> ->.
    by eapply live_ok_api.
  - pose proof Hl as [[Ht Hs] _ _ _]. cbn [lv_api] in *.
    pose proof (cleanupStaleSessions_safe tables_ok (uploads_of a) now a (conj Ht (sessions_ok_now _ _ Hs))) as Hr.
    rewrite E in Hr. destruct Hr. by eapply live_ok_api.
Qed.

(** Any number of steps, with what they do. *)
Inductive steps : Live → list HAct → Live → Prop :=
| steps_nil l : steps l [] l
| steps_cons l1 o1 l2 o2 l3 : step l1 o1 l2 → steps l2 o2 l3 → steps l1 (o1 ++ o2) l3.

Lemma steps_ok l o l' : no_null_peers → live_ok l → steps l o l' → live_ok l'.
Proof. intros Hn Hl Hs. induction Hs as [|l1 o1 l2 o2 l3 Hs _ IH]; [done|]. apply IH. by eapply step_ok. Qed.

(** C7: However the requests of uploads interleave, the reachable states of
    the server are sound: the constraints of the schema hold, the table points
    to live objects under their own identifiers, no object counts more chunks
    than it has, every connection has its node; a session is finalised by one
    request at most and cannot be found again from then on; and no request that
    waits is stuck or fails on a missing session: whatever the others did, it
    returns when it gets the mutex. *)
Theorem uploads_interleaved l0 o l : no_null_peers → started_server l0 → steps l0 o l →
  live_ok l ∧
  (∀ id p, ap_sessions (lv_api l) !! id = Some p → p ∉ lv_finalized l) ∧
  (∀ w gens now, w ∈ lv_waiting l → ∃ o' a', locked gens now w (lv_api l) = (o', Ret ((), a'))).
Proof.
  intros Hn Hst Hs. pose proof (steps_ok _ _ _ Hn (started_ok _ Hst) Hs) as Hl. split; [done|].
  destruct Hl as [Ha Hw Ho Hg]. split.
  - intros id p Hp Hin. destruct (Hg p) as [_ Hne]; [unfold finalizing; apply elem_of_app; by right|]. by apply (Hne id).
  - intros w gens now Hin. rewrite Forall_forall in Hw. destruct (locked_safe gens now w _ Ha (Hw w Hin)) as (o' & a' & E & _).
    by exists o', a'.
Qed.

(** ** What the holders of the mutex do *)

Definition chunk_accepted (u : UploadSession) : HAct :=
  HJSON StatusOK (success_body (Some (JObj
    [("chunkIndex", JNum (up_NextChunk u)); ("receivedChunks", JNum (up_NextChunk u + 1));
     ("totalChunks", JNum (up_TotalChunks u))])) "").

Definition upload_accepted (u : UploadSession) : HAct :=
  HJSON StatusAccepted (success_body (Some (JObj
    [("id", put_uuid (up_FileID u)); ("filename", JStr (up_FileName u)); ("size", JNum (up_FileSize u))]))
    "File uploaded successfully").

(** The row of an upload. *)
Definition upload_row (now : Z) (u : UploadSession) (hash : string) : File :=
  mkFile (up_FileID u) (up_FileName u) (up_FileSize u) hash (up_ContentType u) (up_UserID u) now now 0.

Definition put_object (p : nat) (u : UploadSession) (s : Api) : Api := set_heap (<[p := u]> (ap_heap s)) s.

Lemma put_object_lookup p u s : ap_heap (put_object p u s) !! p = Some u.
Proof. apply lookup_insert_eq. Qed.

Lemma put_object_twice p u v s : put_object p u (put_object p v s) = put_object p u s.
Proof. unfold put_object, set_heap. cbn. by rewrite insert_insert_eq. Qed.

Lemma on_stream_run {A} p u s (m : GoM StreamUploadSession CAct A) o a t : ap_heap s !! p = Some u →
  m (up_StreamSession u) = (o, Ret (a, t)) → on_stream p m s = (HClient <$> o, Ret (a, put_object p (set_stream t u) s)).
Proof. intros Hu E. unfold on_stream. by rewrite Hu, E. Qed.

Lemma chunk_run p sid u data t s : ap_heap s !! p = Some u →
  0 <= up_NextChunk u < up_TotalChunks u → up_TotalChunks u <= maxInt →
  WriteChunk data (up_StreamSession u) = ([], Ret (None, t)) →
  UploadChunk_locked p sid (up_NextChunk u) (Some data) s =
    ([chunk_accepted u], Ret ((), put_object p (set_NextChunk (up_NextChunk u + 1) (set_stream t u)) s)).
Proof.
  intros Hu Hi Hmax E. unfold UploadChunk_locked. rewrite (bind_silent _ _ s s s) by done. rewrite Hu.
  rewrite Z.eqb_refl. cbn [negb]. rewrite (bind_silent _ _ _ _ _ (on_stream_run p u s _ _ _ _ Hu E)). cbv zeta.
  rewrite int64_id by (unfold maxInt in *; int_bounds; lia).
  erewrite bind_silent by reflexivity. unfold response_JSON, emit. do 3 f_equal.
  unfold put_object, set_heap. cbn. f_equal. by rewrite alter_insert_eq.
Qed.

Lemma chunk_fails p sid u data e t s : ap_heap s !! p = Some u →
  WriteChunk data (up_StreamSession u) = ([], Ret (Some e, t)) →
  UploadChunk_locked p sid (up_NextChunk u) (Some data) s =
    ((HClient ∘ CClose <$> (cn_id <$> su_Connections t)) ++
       [HJSON StatusInternalServerError (error_body StatusInternalServerError (failed "Failed to stream chunk" (client_text e)))],
     Ret ((), set_sessions (delete sid (ap_sessions s)) (put_object p (set_stream (set_conns [] t) u) s))).
Proof.
  intros Hu E. unfold UploadChunk_locked. rewrite (bind_silent _ _ s s s) by done. rewrite Hu.
  rewrite Z.eqb_refl. cbn [negb]. rewrite (bind_silent _ _ _ _ _ (on_stream_run p u s _ _ _ _ Hu E)).
  erewrite bind_run; [|apply on_stream_run; [apply put_object_lookup|apply Close_run]|erewrite bind_silent by reflexivity; reflexivity].
  rewrite put_object_twice. f_equal. by rewrite <-!list_fmap_compose.
Qed.

Lemma finalize_run gens now c p u res t d d' s : ap_heap s !! p = Some u →
  up_UserID u = uc_UserID c → up_NextChunk u = up_TotalChunks u →
  Finalize (up_StreamSession u) = ([], Ret (inr res, t)) →
  insert_file now (upload_row now u (ur_Hash res)) (tables s) = inr ((), d) → db_faults (ap_db s) = [] →
  CreateReplicas (O := HAct) gens now (up_FileID u) (ur_NodeIDs res) (mkDB d []) = ([], Ret (inr (), d')) →
  Finalize_locked gens now c p s = ([upload_accepted u], Ret ((), set_db d' (put_object p (set_stream t u) s))).
Proof.
  intros Hu Huser Hnext E Hrow Hf Hrep. unfold Finalize_locked. rewrite (bind_silent _ _ s s s) by done. rewrite Hu.
  rewrite bool_decide_false by (intros Hn; by apply Hn). rewrite Hnext, Z.eqb_refl. cbn [negb].
  rewrite (bind_silent _ _ _ _ _ (on_stream_run p u s _ _ _ _ Hu E)). cbv zeta.
  rewrite (bind_silent (service (CreateFile _ _)) _ _ (inr ()) (set_db (mkDB d []) (put_object p (set_stream t u) s))).
  2:{ unfold service, zoom, CreateFile, statement. cbn [put_object set_heap ap_db]. rewrite Hf. cbn [tail].
      unfold tables in Hrow. unfold insert_file in Hrow |- *. cbn [upload_row f_ID f_OwnerID f_Name f_Size f_Hash f_ContentType] in Hrow |- *.
      repeat (case_bool_decide; [done|]). by injection Hrow as <-. }
  rewrite (bind_silent (service (CreateReplicas _ _ _ _)) _ _ (inr ()) (set_db d' (put_object p (set_stream t u) s))).
  2:{ unfold service, zoom. cbn [set_db ap_db]. by rewrite Hrep. }
  by erewrite bind_silent by reflexivity.
Qed.

(** The status codes of the answers. *)
Definition statuses (o : list HAct) : list Z := omap (λ a, match a with HJSON code _ => Some code | _ => None end) o.

Lemma statuses_app o1 o2 : statuses (o1 ++ o2) = statuses o1 ++ statuses o2.
Proof. apply omap_app. Qed.

Lemma statuses_client o : statuses (HClient <$> o) = [].
Proof. by induction o. Qed.

Lemma WriteChunk_fails data t e : (write_conns data 0 (su_Connections t)).1 = Some e →
  WriteChunk data t = ([], Ret (Some e, set_conns (write_conns data 0 (su_Connections t)).2 t)).
Proof.
  intros He. unfold WriteChunk. rewrite (bind_silent _ _ t t t) by done.
  destruct (write_conns data 0 (su_Connections t)) as [e' cs]. simpl in He. subst e'. by rewrite (bind_silent _ _ _ () _ eq_refl).
Qed.

(** Without connections every write succeeds. *)
Lemma WriteChunk_none data t : su_Connections t = [] →
  WriteChunk data t = ([], Ret (None, set_bytesWritten (int64 (su_bytesWritten t + Z.of_nat (length data))) t)).
Proof.
  intros Hc. unfold WriteChunk. rewrite (bind_silent _ _ t t t) by done. rewrite Hc. cbn [write_conns].
  rewrite (bind_silent _ _ t () t); [|unfold modify, set_conns; rewrite <-Hc; by destruct t].
  erewrite bind_silent by reflexivity. by rewrite int64_add_r.
Qed.

Lemma Finalize_none t : su_Connections t = [] → su_bytesWritten t = su_Size t →
  Finalize t = ([], Ret (inr (mkUploadResult "" []), t)).
Proof.
  intros Hc Hb. unfold Finalize. rewrite (bind_silent _ _ t t t) by done. rewrite decide_False by (intros Hn; by apply Hn).
  rewrite Hc. rewrite (bind_silent _ _ t _ t eq_refl). rewrite (bind_silent _ _ _ () _ eq_refl).
  rewrite <-Hc. by destruct t.
Qed.

(** C8: What a closed session still does: of two copies of the last chunk and
    a finalisation that wait for the mutex, the first copy fails on a
    connection, so the server closes all connections and answers 500; the
    second copy is then accepted without being written anywhere, and the
    finalisation is accepted too, and adds the file to the database, with an
    empty hash and no replica. *)
Theorem closed_session_completes gens now c p sid u data e s d :
  let t := up_StreamSession u in let i := up_NextChunk u in
  ap_heap s !! p = Some u → up_UserID u = uc_UserID c →
  0 <= i → i + 1 = up_TotalChunks u → up_TotalChunks u <= maxInt →
  (write_conns data 0 (su_Connections t)).1 = Some e →
  su_bytesWritten t + Z.of_nat (length data) = su_Size t → in_int64 (su_Size t) = true →
  db_faults (ap_db s) = [] → insert_file now (upload_row now u "") (tables s) = inr ((), d) →
  ∃ o s', (_ ← locked gens now (WaitChunk p sid i (Some data));
           _ ← locked gens now (WaitChunk p sid i (Some data));
           locked gens now (WaitFinalize c p)) s = (o, Ret ((), s')) ∧
    statuses o = [StatusInternalServerError; StatusOK; StatusAccepted] ∧
    (∀ conn, conn ∈ su_Connections t → HClient (CClose (cn_id conn)) ∈ o) ∧
    tables s' = d ∧ tb_replicas d = tb_replicas (tables s).
Proof.
  intros t i Hu Huser Hi Htot Hmax He Hlen Hsize Hf Hrow. cbn [locked]. unfold i in *.
  pose proof (WriteChunk_fails data t e He) as E1. set (t1 := set_conns _ t) in E1.
  pose proof (chunk_fails p sid u data e t1 s Hu E1) as R1. set (o1 := (HClient ∘ CClose <$> _) ++ _) in R1.
  set (u1 := set_stream (set_conns [] t1) u) in R1. set (s1 := set_sessions _ _) in R1.
  assert (ap_heap s1 !! p = Some u1) as Hu1 by apply put_object_lookup.
  set (t2 := set_bytesWritten (su_Size t) (set_conns [] t1)).
  assert (WriteChunk data (up_StreamSession u1) = ([], Ret (None, t2))) as E2.
  { change (up_StreamSession u1) with (set_conns [] t1). rewrite WriteChunk_none by done. do 4 f_equal.
    change (su_bytesWritten (set_conns [] t1)) with (su_bytesWritten t). rewrite Hlen. by apply int64_id. }
  pose proof (chunk_run p sid u1 data t2 s1 Hu1 ltac:(cbn; lia) Hmax E2) as R2.
  set (u2 := set_NextChunk _ _) in R2. set (s2 := put_object p u2 s1) in R2.
  pose proof (Finalize_none t2 eq_refl eq_refl) as E3.
  pose proof (finalize_run gens now c p u2 (mkUploadResult "" []) t2 d (mkDB d []) s2 (put_object_lookup _ _ _) Huser Htot E3
    Hrow Hf eq_refl) as R3.
  do 2 eexists. split; [eapply bind_run; [exact R1|eapply bind_run; [exact R2|exact R3]]|].
  split_and!.
  - unfold o1. by rewrite !statuses_app, list_fmap_compose, statuses_client.
  - intros conn Hc. apply elem_of_app. left. apply elem_of_app. left. apply (list_elem_of_fmap_2 (HClient ∘ CClose)).
    pose proof (WriteChunk_same _ _ _ _ _ E1) as [Hid _]. rewrite Hid. by apply list_elem_of_fmap_2.
  - done.
  - unfold insert_file in Hrow. repeat (case_bool_decide; [done|]). by injection Hrow as <-.
Qed.

(** ** A whole upload *)

(** The request that sends chunk [i]. *)
Definition chunk_request (c : UserClaims) (sid : string) (i : Z) (data : list byte) : Request :=
  mkRequest MethodPost None (Some c) (λ _, "") (λ _, "") None
    (Some (λ name, if String.eqb name "sessionId" then sid else if String.eqb name "chunkIndex" then itoa i else ""))
    (Some (Some data)).

Fixpoint chunk_requests (c : UserClaims) (sid : string) (i : Z) (chunks : list (list byte)) : list Request :=
  match chunks with
  | [] => []
  | data :: chunks' => chunk_request c sid i data :: chunk_requests c sid (i + 1) chunks'
  end.

Lemma UploadChunk_begin_run c sid i data s p u : sid ≠ "" → in_int64 i = true →
  ap_sessions s !! sid = Some p → ap_heap s !! p = Some u → up_UserID u = uc_UserID c → 0 <= i < up_TotalChunks u →
  UploadChunk_begin (chunk_request c sid i data) s = ([], Ret (Some (WaitChunk p sid i (Some data)), s)).
Proof.
  intros Hsid Hi Hp Hu Huser Hr. pose proof (Atoi_itoa i) as Ha. rewrite Hi in Ha.
  unfold UploadChunk_begin. change (checked MethodPost (chunk_request c sid i data)) with (@inr (Z * string) _ c).
  cbv beta iota zeta. cbn [chunk_request rq_form rq_chunk]. cbn [String.eqb Ascii.eqb Bool.eqb].
  destruct (String.eqb_spec sid ""); [done|]. destruct (String.eqb_spec (itoa i) "") as [E|]; [by rewrite E in Ha|].
  cbn [orb]. rewrite Ha, (bind_silent _ _ s s s eq_refl), Hp, Hu.
  rewrite bool_decide_false by (intros Hn; by apply Hn).
  destruct (Z.ltb_spec i 0); [lia|]. destruct (Z.leb_spec (up_TotalChunks u) i); [lia|]. done.
Qed.

Lemma chunks_run gens now c sid chunks : ∀ s p u, sid ≠ "" →
  ap_sessions s !! sid = Some p → ap_heap s !! p = Some u → up_UserID u = uc_UserID c → 0 <= up_NextChunk u →
  up_NextChunk u + Z.of_nat (length chunks) <= up_TotalChunks u → up_TotalChunks u <= maxInt →
  Forall willing (su_Connections (up_StreamSession u)) →
  int64 (su_bytesWritten (up_StreamSession u)) = su_bytesWritten (up_StreamSession u) → ∃ o t,
  for_each (chunk_requests c sid (up_NextChunk u) chunks) (UploadChunk gens now) s =
    (o, Ret ((), put_object p (set_NextChunk (up_NextChunk u + Z.of_nat (length chunks)) (set_stream t u)) s)) ∧
  statuses o = replicate (length chunks) StatusOK ∧ streamed (mjoin chunks) (up_StreamSession u) t.
Proof.
  induction chunks as [|data chunks IH]; intros s p u Hsid Hp Hu Huser Hi Hn Hmax Hw Hb.
  { exists [], (up_StreamSession u). cbn [chunk_requests for_each length Z.of_nat replicate]. rewrite Z.add_0_r, set_NextChunk_same.
    split_and!; [|done|]. { unfold put_object. rewrite insert_id by done. by destruct s. }
    apply streamed_refl; [|done]. eapply Forall_impl; [exact Hw|]. by intros ? []. }
  cbn [chunk_requests for_each]. rewrite length_cons, Nat2Z.inj_succ in Hn |- *.
  destruct (WriteChunk_run data (up_StreamSession u)) as (e & t1 & E & Hstr & Hok). destruct (Hok Hw) as [-> Hw1].
  specialize (Hstr eq_refl). set (u1 := set_NextChunk (up_NextChunk u + 1) (set_stream t1 u)).
  assert (UploadChunk gens now (chunk_request c sid (up_NextChunk u) data) s = ([chunk_accepted u], Ret ((), put_object p u1 s))) as E1.
  { unfold UploadChunk. rewrite (bind_silent _ _ s (Some (WaitChunk p sid (up_NextChunk u) (Some data))) s).
    - cbn [locked]. apply chunk_run; [done|lia|done|done].
    - eapply UploadChunk_begin_run; try done; [unfold maxInt in *; int_bounds; lia|lia]. }
  destruct (IH (put_object p u1 s) p u1) as (o & t & E2 & Ho & Hstr2); try done.
  - apply put_object_lookup.
  - cbn. lia.
  - cbn. lia.
  - cbn. rewrite (st_bytes _ _ _ Hstr). apply int64_id, int64_range.
  - rewrite put_object_twice in E2. exists ([chunk_accepted u] ++ o), t. split_and!.
    + replace (up_NextChunk u + Z.succ (Z.of_nat (length chunks))) with (up_NextChunk u1 + Z.of_nat (length chunks)) by (cbn; lia).
      eapply bind_run; [exact E1|exact E2].
    + by rewrite statuses_app, Ho.
    + by eapply streamed_trans.
Qed.

(** The first request of an upload, when the master and the nodes take part. *)
Lemma InitChunkedUpload_run `{ErrnoText} fid rid now r c req ready o1 c1 s :
  let size := cui_FileSize req in
  let t := ready_session fid size ready (ca_dials c1) in
  let ct := if String.eqb (cui_ContentType req) "" then default_type else cui_ContentType req in
  rq_Method r = MethodPost → rq_user r = Some c →
  Unmarshal_ok ChunkedUploadInitRequest_of_json (rq_body r) = Some req →
  cui_FileName req ≠ "" → 0 < size → 0 < cui_TotalChunks req →
  ask MessageStreamUploadInit (Some (StreamUploadInitRequest_to_json
      (mkStreamUploadInitRequest (uuid_String rid) fid (cui_FileName req) ct size)))
    StreamUploadReadyResponse_of_json (ap_client s) = (o1, Ret (inr ready, c1)) →
  sur_Success ready = true → sur_StorageNodes ready ≠ [] →
  (∀ i node, sur_StorageNodes ready !! i = Some node →
     nw_dial (ca_dials c1 + i) (sna_Addr node) = true ∧ (nw_upload (ca_dials c1 + i) (sna_Addr node)).1 = None) →
  ∃ o s1 p, InitChunkedUpload fid rid now r s = (o, Ret ((), s1)) ∧ statuses o = [StatusOK] ∧
    ap_db s1 = ap_db s ∧ ap_sessions s1 = <[sur_SessionID ready := p]> (ap_sessions s) ∧
    ap_heap s1 !! p = Some (mkUploadSession (sur_SessionID ready) fid (uc_UserID c) (cui_FileName req) size
      (cui_TotalChunks req) ct t 0 now).
Proof.
  intros size t ct Hm Hu Hreq Hname Hsize Htot Hask Hok Hne Hnodes.
  destruct (InitStreamUpload_ready rid fid (cui_FileName req) ct size (ap_client s) ready o1 c1 Hask Hok Hne Hnodes)
    as (o2 & c2 & E).
  set (u := mkUploadSession _ _ _ _ _ _ _ _ _ _). set (q := fresh (dom (ap_heap s))).
  exists ((HClient <$> o2) ++ [HJSON StatusOK (success_body (Some (JObj [("sessionId", JStr (sur_SessionID ready))])) "")]),
    (set_sessions (<[sur_SessionID ready := q]> (ap_sessions s)) (set_heap (<[q := u]> (ap_heap s)) (set_client c2 s))), q.
  split_and!; [| |done|done|apply lookup_insert_eq].
  - unfold InitChunkedUpload, authenticated, checked, GetUserFromContext. rewrite Hm, Hu, Hreq. cbn [String.eqb Ascii.eqb Bool.eqb negb MethodPost].
    destruct (String.eqb_spec (cui_FileName req) ""); [done|]. destruct (Z.leb_spec (cui_FileSize req) 0); [lia|].
    destruct (Z.leb_spec (cui_TotalChunks req) 0); [lia|]. cbn [orb]. cbv zeta.
    fold ct size. eapply bind_run; [unfold client; rewrite E; reflexivity|]. reflexivity.
  - by rewrite statuses_app, statuses_client.
Qed.

Lemma Finalize_begin_run c r sid s p : rq_Method r = MethodPost → rq_user r = Some c →
  Unmarshal_ok ChunkedUploadFinalizeRequest_of_json (rq_body r) = Some sid → ap_sessions s !! sid = Some p →
  Finalize_begin r s = ([], Ret (Some (WaitFinalize c p), set_sessions (delete sid (ap_sessions s)) s)).
Proof.
  intros Hm Hu Hb Hp. unfold Finalize_begin, checked, GetUserFromContext. rewrite Hm, Hu, Hb.
  cbn [String.eqb Ascii.eqb Bool.eqb negb MethodPost]. by rewrite (bind_silent _ _ s s s eq_refl), Hp.
Qed.

(** C6: An upload from the browser to the disks: when the master names storage
    nodes that have the session and can be reached, a user's requests to start,
    to send the chunks in order and to finalise are answered 200 (each) and
    202; the database then has the user's file, with the SHA-256 of the chunks
    joined, and a synced replica for each node; the session is gone; and each
    node, once it has handled the bytes of its connection, serves exactly the
    chunks joined under that hash. *)
Theorem chunked_upload `{ErrnoText} fid rid now1 r1 r2 c req ready o1 c1 chunks gens now2 s (w : nat → World)
    (nanos now : nat → Z) (sv : nat → StreamServer) :
  let data := mjoin chunks in let size := Z.of_nat (length data) in let sid := sur_SessionID ready in
  let ct := if String.eqb (cui_ContentType req) "" then default_type else cui_ContentType req in
  let nids := sna_NodeID <$> sur_StorageNodes ready in let t := tables s in
  rq_Method r1 = MethodPost → rq_user r1 = Some c →
  Unmarshal_ok ChunkedUploadInitRequest_of_json (rq_body r1) = Some req →
  cui_FileName req ≠ "" → cui_FileSize req = size → 0 < size <= maxInt →
  cui_TotalChunks req = Z.of_nat (length chunks) → Z.of_nat (length chunks) <= maxInt →
  ask MessageStreamUploadInit (Some (StreamUploadInitRequest_to_json
      (mkStreamUploadInitRequest (uuid_String rid) fid (cui_FileName req) ct size)))
    StreamUploadReadyResponse_of_json (ap_client s) = (o1, Ret (inr ready, c1)) →
  sur_Success ready = true → sur_StorageNodes ready ≠ [] →
  sid ≠ "" → (String.length sid ≤ 36)%nat → no_trailing_nul (bytes_of sid) →
  (∀ i node, sur_StorageNodes ready !! i = Some node → nw_dial (ca_dials c1 + i) (sna_Addr node) = true) →
  nodes_ready w nanos now sid (ca_dials c1) (sur_StorageNodes ready) sv →
  rq_Method r2 = MethodPost → rq_user r2 = Some c →
  Unmarshal_ok ChunkedUploadFinalizeRequest_of_json (rq_body r2) = Some sid →
  tables_ok t → db_faults (ap_db s) = [] → fid ∉ (f_ID <$> tb_files t) → uc_UserID c ∈ (u_ID <$> tb_users t) →
  NoDup nids → Inj (=) (=) gens → (∀ j, gens j ∉ (r_ID <$> tb_replicas t)) →
  (∃ o s', (_ ← InitChunkedUpload fid rid now1 r1;
            _ ← for_each (chunk_requests c sid 0 chunks) (UploadChunk gens now2);
            FinalizeChunkedUpload gens now2 r2) s = (o, Ret ((), s')) ∧
     statuses o = [StatusOK] ++ replicate (length chunks) StatusOK ++ [StatusAccepted] ∧
     tables s' = mkTables (tb_users t)
       (tb_files t ++ [mkFile fid (cui_FileName req) size (sha256_hex data) ct (uc_UserID c) now2 now2 0])
       (tb_replicas t ++ replica_rows gens now2 fid 0 nids) ∧
     ap_sessions s' = delete sid (ap_sessions s)) ∧
  ∀ i node, sur_StorageNodes ready !! i = Some node → ∃ o e,
    handleConnection (w i) (nanos i) (now i) (mkExchange (sv i)
      (StreamHeader_Encode (mkStreamHeader MagicUpload sid size DefaultChunkSize) ++ data) false None) =
      (o, Ret ((), e)) ∧ node_has (ex_server e) (sha256_hex data) data.
Proof.
  intros data size sid ct nids t Hm1 Hu1 Hreq Hname Hsz Hsize Htot Hmax Hask Hok Hne Hsid Hlen Hnul Hdial Hn
    Hm2 Hu2 Hb2 Htab Hf Hfid Hown Hnd Hinj Hg.
  split; [|intros i node Hi; eapply ready_node_has; try done; lia].
  destruct (InitChunkedUpload_run fid rid now1 r1 c req ready o1 c1 s) as (oi & s1 & p & Ei & Hsi & Hdb & Hses & Hp); try done.
  { rewrite Hsz. lia. } { assert (chunks ≠ []) by (intros ->; unfold size in Hsize; simpl in Hsize; lia).
    destruct chunks; [done|]. rewrite Htot. simpl. lia. } { by rewrite Hsz. }
  { intros i node Hi. split; [by eapply Hdial|]. by destruct (Hn i node Hi) as [_ ->]. }
  rewrite Hsz in Hp. fold sid ct in Hp, Hses. set (ts := ready_session _ _ _ _) in Hp. set (u := mkUploadSession _ _ _ _ _ _ _ _ _ _) in Hp.
  destruct (chunks_run gens now2 c sid chunks s1 p u) as (oc & tc & Ec & Hsc & Hstr); try done.
  { by rewrite Hses, lookup_insert_eq. } { cbn. lia. } { cbn. lia. }
  { cbn. by eapply node_conns_willing. }
  cbn [up_NextChunk u up_StreamSession] in Ec, Hstr. rewrite Z.add_0_l in Ec.
  set (uc := set_NextChunk _ _) in Ec. set (s2 := put_object p uc s1) in Ec.
  destruct (ready_session_stores _ _ _ _ fid ready _ data tc Hn Hne Hlen Hnul ltac:(lia) Hstr) as (Hb & Hst & Hh).
  assert (length (su_Connections tc) = length (su_NodeIDs tc)) as Hconn.
  { rewrite <-(Forall2_length _ _ _ (st_conns _ _ _ Hstr)), (st_ids _ _ _ Hstr). cbn. unfold node_conns.
    by rewrite length_imap, length_fmap. }
  destruct (Finalize_run tc Hconn) as (res & t' & Ef & _ & Hres & _). rewrite (Hres (conj Hb Hst)), Hh in Ef.
  set (s3 := set_sessions (delete sid (ap_sessions s2)) s2).
  set (row := upload_row now2 uc (sha256_hex data)).
  set (d := mkTables (tb_users t) (tb_files t ++ [row]) (tb_replicas t)).
  set (d' := mkDB (mkTables (tb_users t) (tb_files t ++ [row]) (tb_replicas t ++ replica_rows gens now2 fid 0 nids)) []).
  assert (tables s3 = t) as Ht3 by (unfold tables in *; cbn; by rewrite Hdb).
  pose proof (finalize_run gens now2 c p uc (mkUploadResult (sha256_hex data) (su_NodeIDs tc)) t' d d' s3
    (put_object_lookup _ _ _) eq_refl (eq_sym Htot) Ef) as R.
  exists (oi ++ oc ++ [upload_accepted uc]), (set_db d' (put_object p (set_stream t' uc) s3)). split_and!.
  - eapply bind_run; [exact Ei|]. eapply bind_run; [exact Ec|]. unfold FinalizeChunkedUpload.
    rewrite (bind_silent _ _ s2 (Some (WaitFinalize c p)) s3).
    + cbn [locked]. apply R.
      * rewrite Ht3. unfold insert_file. rewrite bool_decide_false by done.
        rewrite bool_decide_false by (intros Hx; by apply Hx). done.
      * cbn. by rewrite Hdb.
      * cbn [ur_NodeIDs]. rewrite (st_ids _ _ _ Hstr). by apply new_file_replicas.
    + apply (Finalize_begin_run c r2 sid s2 p); try done. cbn. by rewrite Hses, lookup_insert_eq.
  - by rewrite !statuses_app, Hsi, Hsc.
  - done.
  - cbn. rewrite Hses. by rewrite delete_insert_eq.
Qed.
End uploads.
