(* ===== verification/Ownership.v ===== *)
(** * Who can delete a file

    The runs of the API server of [Uploads.v], followed for one row of the table
    of files: every handler but one leaves it where it is, and that one has to
    be called by the file's owner or by an administrator. *)

From S2P Require Import Prelude GoStd Hashes Types Json Protocol Session Fs LocalStorage StreamServer NodeState Client Transfer Database Api ApiSafety Uploads.

(** Rows that are in the table of files. *)
Definition holds (fs : list File) (t : Tables) : Prop := ∀ f, f ∈ fs → f ∈ tb_files t.

Section ownership.
Context `{UuidText} `{TimeText} `{Network} `{Bcrypt} `{Jwt} `{MapRange} `{ErrorTexts}.

(** A deletion of [f] that the server carried out: a request with the route of
    a deletion, which names the file and has a token, valid under the secret of
    the server, of the file's owner or of an administrator. *)
Definition deleted_by_right (secret : string) (f : File) (s : Api) (o : list HAct) (s' : Api) : Prop :=
  ∃ e r c, ou_secret e = secret ∧ caller e r = Ret (Some c) ∧ ¬ foreign c f ∧
    uuid_Parse (rq_PathValue r "fileID") = Some (f_ID f) ∧ serve e FileDelete r s = (o, Ret ((), s')).

(** ** Helper lemmas *)

Lemma holds_insert_file fs now g t a t' : holds fs t → insert_file now g t = inr (a, t') → holds fs t'.
Proof.
  unfold insert_file. intros Hh. repeat (case_bool_decide; [done|]). intros [= _ <-] f Hf. apply elem_of_app. left. by apply Hh.
Qed.

Lemma holds_insert_replica fs gen now fid nid t a t' : holds fs t → insert_replica gen now fid nid t = inr (a, t') → holds fs t'.
Proof. unfold insert_replica. intros Hh. repeat (case_bool_decide; [done|]). by intros [= _ <-]. Qed.

Lemma holds_insert_user fs gen now name email h role t a t' : holds fs t → insert_user gen now name email h role t = inr (a, t') → holds fs t'.
Proof. unfold insert_user. intros Hh. case_bool_decide; [done|]. by intros [= _ <-]. Qed.

Lemma holds_delete_file fs id t a t' : (∀ f, f ∈ fs → f_ID f ≠ id) → holds fs t → delete_file id t = inr (a, t') → holds fs t'.
Proof. intros Hn Hh [= _ <-] f Hf. apply list_elem_of_filter. split; [by apply Hn|by apply Hh]. Qed.

(** Deleting a file whose row is another one. *)
Lemma DeleteFile_holds fs h0 rid r : no_null_peers → (∀ f, f ∈ fs → uuid_Parse (rq_PathValue r "fileID") ≠ Some (f_ID f)) →
  safe (holds fs) h0 (DeleteFile rid r).
Proof.
  intros Hn Hfs. apply safe_authenticated. intros c _. apply safe_with_file. intros f _ Hf.
  eapply (keeps_bind _ _ _ _ (λ _, inv (holds fs) h0)).
  - eapply keeps_conseq; [apply (keeps_service h0 _ (holds fs) (λ _, holds fs))| |done]; [|by intros s [[? _] ?]].
    apply serves_statement; [|done]. intros t Ht. destruct (delete_file (f_ID f) t) as [e|[a t']] eqn:E; [done|].
    eapply holds_delete_file; [|exact Ht|exact E]. intros g Hg Eid. apply (Hfs g Hg). congruence.
  - intros [e|u]; [apply safe_error|]. eapply safe_client; [by apply DeleteFile_returns|]. intros resp _.
    eapply (keeps_bind _ _ _ _ (λ _, inv (holds fs) h0)); [|intros ?; apply safe_act].
    destruct resp as [e|resp]; [apply safe_act|apply safe_log].
Qed.

(** A handler behind the middleware, uploads apart. *)
Lemma inner_holds fs h0 e t r : no_null_peers → protected t = true → t ≠ UploadChunkRoute → t ≠ UploadFinalize →
  (∀ f, t = FileDelete → f ∈ fs → uuid_Parse (rq_PathValue r "fileID") ≠ Some (f_ID f)) → safe (holds fs) h0 (inner e t r).
Proof.
  intros Hn Ht Hc Hf Hd. destruct t; try discriminate Ht; try done.
  - apply GetMe_safe.
  - apply ListFiles_safe.
  - by apply InitChunkedUpload_safe.
  - by apply GetFile_safe.
  - apply GetFileMetadata_safe.
  - apply DeleteFile_holds; [done|]. intros f. by apply Hd.
  - by apply GetNodes_safe.
  - by apply GetNode_safe.
  - by apply SystemMetrics_safe.
Qed.

Lemma safe_state R h0 (m : HM ()) s o s' : safe R h0 m → R (tables s) → sessions_ok h0 s → m s = (o, Ret ((), s')) → R (tables s').
Proof. intros Hm HR Hs E. specialize (Hm s (conj HR Hs)). rewrite E in Hm. by destruct Hm. Qed.

Lemma serve_holds fs h0 e t r s o s' : no_null_peers → t ≠ UploadChunkRoute → t ≠ UploadFinalize →
  (∀ f, t = FileDelete → f ∈ fs → uuid_Parse (rq_PathValue r "fileID") ≠ Some (f_ID f)) →
  holds fs (tables s) → sessions_ok h0 s → serve e t r s = (o, Ret ((), s')) → holds fs (tables s').
Proof.
  intros Hn Hc Hf Hd Hh Hs E. unfold serve in E. rewrite cors_run in E. destruct (String.eqb _ _); [by injection E as _ <-|].
  destruct (protected t) eqn:Ht.
  - rewrite handler_inner in E by done. pose proof (RequireAuth_run e _ r s _ (inner_needs_user e t Ht)) as Hr.
    destruct (caller e r) as [[c|]|w].
    + rewrite Hr in E. destruct (inner e t (with_user (Some c) r) s) as [o1 r1] eqn:E1. injection E as _ ->.
      eapply (safe_state _ h0); [|done|done|exact E1]. by apply inner_holds.
    + destruct Hr as (code & msg & Hr & _). rewrite Hr in E. by injection E as _ <-.
    + by rewrite Hr in E.
  - destruct (handler e t r s) as [o1 r1] eqn:E1. injection E as _ ->. eapply (safe_state _ h0); [|done|done|exact E1].
    apply public_handler_safe; [done|]. intros. by eapply holds_insert_user.
Qed.

(** The second part of an upload's request. *)
Lemma locked_holds fs gens now w a o a' : api_ok a → waiting_ok (ap_heap a) w → holds fs (tables a) →
  locked gens now w a = (o, Ret ((), a')) → holds fs (tables a').
Proof.
  intros [_ Hs] Hw Hh E. pose proof (sessions_ok_now _ _ Hs) as Hnow. destruct w as [p sid i d|c p]; cbn [locked] in E.
  - pose proof (UploadChunk_locked_safe (holds fs) (uploads_of a) p sid i d a (conj (conj Hh Hnow) Hw)) as Hr.
    rewrite E in Hr. by destruct Hr.
  - assert (keeps never (λ s, inv (holds fs) (uploads_of a) s ∧ waiting_ok (ap_heap s) (WaitFinalize c p))
      (Finalize_locked gens now c p) (λ _, inv (holds fs) (uploads_of a))) as Hk.
    { apply Finalize_locked_keeps.
      - intros f _. apply serves_statement; [|done]. intros t Ht. destruct (insert_file now f t) as [e|[u t']] eqn:Ei; [done|].
        by eapply holds_insert_file.
      - intros fid nids. apply CreateReplicas_keeps. intros. by eapply holds_insert_replica. }
    specialize (Hk a (conj (conj Hh Hnow) Hw)). rewrite E in Hk. by destruct Hk.
Qed.

(** A middleware that panics leaves no state; before it, nothing has changed. *)
Lemma caller_panics e t r s o s' w : protected t = true → caller e r = Panic w → serve e t r s = (o, Ret ((), s')) → s' = s.
Proof.
  intros Ht Hc E. unfold serve in E. rewrite cors_run in E. destruct (String.eqb _ _); [by injection E as _ <-|].
  rewrite handler_inner in E by done. pose proof (RequireAuth_run e _ r s _ (inner_needs_user e t Ht)) as Hr.
  rewrite Hc in Hr. by rewrite Hr in E.
Qed.

#[local] Instance Route_eq_dec : EqDecision Route.
Proof. solve_decision. Defined.

(** A request keeps a file, or is its deletion. *)
Lemma file_request e t r a o a' f : no_null_peers → t ≠ UploadChunkRoute → t ≠ UploadFinalize → api_ok a →
  serve e t r a = (o, Ret ((), a')) → f ∈ tb_files (tables a) →
  f ∈ tb_files (tables a') ∨ deleted_by_right (ou_secret e) f a o a'.
Proof.
  intros Hn Hc Hfin [Ht Hs] E Hf. pose proof (sessions_ok_now _ _ Hs) as Hnow.
  destruct (decide (t = FileDelete ∧ uuid_Parse (rq_PathValue r "fileID") = Some (f_ID f))) as [[-> Hpath]|Hne].
  2: { left. apply (serve_holds [f] (uploads_of a) e t r a o a'); try done.
       - intros g -> ->%list_elem_of_singleton ?. by apply Hne.
       - by intros g ->%list_elem_of_singleton.
       - by left. }
  destruct (caller e r) as [[c|]|w] eqn:Ec.
  - destruct (serve_safe e FileDelete r a (Some c) _ Hn eq_refl Ht Hnow Ec) as (o1 & s1 & E1 & _ & _ & Hk).
    rewrite E in E1. injection E1 as <- <-. destruct (decide (f_OwnerID f ≠ uc_UserID c ∧ uc_Role c ≠ "admin")) as [Hfor|Hfor].
    + left. by apply (kp_files _ _ _ Hk).
    + right. by exists e, r, c.
  - destruct (serve_safe e FileDelete r a None _ Hn eq_refl Ht Hnow Ec) as (o1 & s1 & E1 & _ & _ & ->).
    rewrite E in E1. injection E1 as _ ->. by left.
  - left. by rewrite (caller_panics e FileDelete r a o a' w).
Qed.

(** A step of the server keeps a file, or is its deletion. *)
Lemma file_step secret l o l' f : no_null_peers → live_ok l → step secret l o l' → f ∈ tb_files (tables (lv_api l)) →
  f ∈ tb_files (tables (lv_api l')) ∨ deleted_by_right secret f (lv_api l) o (lv_api l').
Proof.
  intros Hn Hl Hstep Hf. pose proof Hl as [[Ht Hs] Hws _ _]. pose proof (sessions_ok_now _ _ Hs) as Hnow.
  assert (inv (holds [f]) (uploads_of (lv_api l)) (lv_api l)) as Hh.
  { split; [|exact Hnow]. by intros g ->%list_elem_of_singleton. }
  assert (∀ s', inv (holds [f]) (uploads_of (lv_api l)) s' → f ∈ tb_files (tables s')) as Hin by (intros s' [Ht' _]; apply Ht'; by left).
  destruct Hstep as [e t r a ws fs o a' Hsec Hc Hfin E|r a ws fs o w a' E|r a ws fs o w a' E|gens now a ws1 w ws2 fs o a' E|now a ws fs o a' E];
    cbn [lv_api lv_waiting] in *.
  - rewrite <-Hsec. by eapply file_request.
  - left. pose proof (UploadChunk_begin_safe _ _ r a Hh) as Hk. rewrite E in Hk. exact (Hin _ (proj1 Hk)).
  - left. pose proof (Finalize_begin_safe _ _ r a Hh) as Hk. rewrite E in Hk. exact (Hin _ (proj1 Hk)).
  - left. apply Forall_app in Hws as [_ [Hw _]%Forall_cons_1].
    apply (locked_holds [f] gens now w a o a' (conj Ht Hs) Hw (proj1 Hh) E). by left.
  - left. pose proof (cleanupStaleSessions_safe _ _ now a Hh) as Hk. rewrite E in Hk. exact (Hin _ Hk).
Qed.

End ownership.
