(* ===== verification/Programs.v ===== *)
(** * The programs: [backend/internal/config], [backend/internal/database],
    [backend/cmd/api/main.go] and [backend/cmd/node/main.go]

    The configuration of the API server from its environment, how the server
    starts, and how a node starts from its flags. [env] is [os.Getenv] after
    the .env file was read: the empty string for a variable that is not set. A
    fatal error is its text on the left of a sum. What the programs do while they
    run is in the files they put together; what the API server keeps from its
    start to its end, and how a signal ends a node, are here. *)

From S2P Require Import Prelude GoStd Types Json Protocol Fs LocalStorage StreamServer NodeState NodeFiles Bully Node Client Transfer Lifecycle Database Api ApiSafety Uploads.

(** ** [config.go] *)

Record Config := mkConfig {
  cf_Host : string;
  cf_Port : string;
  cf_DatabaseURL : string;
  cf_JWTSecret : string;
  cf_MasterHost : string;
  cf_MasterPort : Z }.

Section config.
Variable env : string → string.

Definition getEnv (key defaultValue : string) : string :=
  let value := env key in if String.eqb value "" then defaultValue else value.

Definition getEnvInt (key : string) (defaultValue : Z) : Z :=
  let value := env key in
  if String.eqb value "" then defaultValue
  else match Atoi value with Some intVal => intVal | None => defaultValue end.

Definition getDatabaseURL : string :=
  let url := env "DATABASE_URL" in
  if negb (String.eqb url "") then url
  else
    let host := getEnv "DB_HOST" "localhost" in
    let port := getEnv "DB_PORT" "5432" in
    let user := getEnv "DB_USER" "postgres" in
    let password := getEnv "DB_PASSWORD" "postgres" in
    let dbname := getEnv "DB_NAME" "postgres" in
    let sslmode := getEnv "DB_SSLMODE" "disable" in
    "host=" +:+ host +:+ " port=" +:+ port +:+ " user=" +:+ user +:+ " password=" +:+ password +:+
    " dbname=" +:+ dbname +:+ " sslmode=" +:+ sslmode.

Definition Load : string + Config :=
  let jwtSecret := getEnv "JWT_SECRET" "" in
  if String.eqb jwtSecret "" then inl "JWT_SECRET environment variable is required"
  else inr (mkConfig (getEnv "HOST" "0.0.0.0") (getEnv "PORT" "8080") getDatabaseURL jwtSecret
              (getEnv "MASTER_HOST" "127.0.0.1") (getEnvInt "MASTER_PORT" 9000)).
End config.

Lemma Atoi_range s n : Atoi s = Some n → in_int64 n = true.
Proof. unfold Atoi. repeat case_match; try done; by intros [= <-]. Qed.

(** ** [internal/database/database.go] *)

(** A pool of connections, with its limits. *)
Record DBPool := mkDBPool { dp_DB : DB; dp_MaxOpenConns : Z; dp_MaxIdleConns : Z }.

(** [connect]: what [sqlx.Connect] gives for a driver and a URL. *)
Definition Init (connect : string → string → option DB) (connString : string) : string + DBPool :=
  match connect "postgres" connString with
  | None => inl "failed to connect to database"
  | Some db => inr (mkDBPool db 25 5)
  end.

(** ** [cmd/api/main.go] *)
Section api_main.
Context `{UuidText} `{TimeText} `{Network}.

(** [id]: the identifier that the client draws. The result of the ping is only
    logged. *)
Definition api_main (startedAt : Z) (env : string → string) (connect : string → string → option DB) (id : uuid)
    : list CAct * Res (string + Config * Api) :=
  match Load env with
  | inl e => ([], Ret (inl e))
  | inr cfg =>
    match Init connect (cf_DatabaseURL cfg) with
    | inl e => ([], Ret (inl ("Failed to connect to database: " +:+ e)))
    | inr pool =>
      let db := dp_DB pool in
      let seeds := [mkNodeAddr (cf_MasterHost cfg) (cf_MasterPort cfg)] in
      match NewMasterClientWithSeeds seeds id with
      | Panic w => ([], Panic w)
      | Ret masterClient =>
        match Ping (mkCaller masterClient 0) with
        | (o, Panic w) => (o, Panic w)
        | (o, Ret (_, c)) => (o, Ret (inr (cfg, mkApi db c ∅ ∅ startedAt)))
        end
      end
    end
  end.

(** What the server can be: it has stopped with [log.Fatal], or its handlers
    serve with the secret of the configuration. *)
Inductive ApiProgram := ApiExited (fatal : string) | ApiServing (secret : string) (l : Live).

Definition listen_addr (cfg : Config) : string := cf_Host cfg +:+ ":" +:+ cf_Port cfg.

(** The whole of [main]. [listen]: the error that [http.ListenAndServe] gives
    at once for an address, if it cannot listen there. *)
Definition api_program (startedAt : Z) (env : string → string) (connect : string → string → option DB) (id : uuid)
    (listen : string → option string) : list CAct * Res ApiProgram :=
  match api_main startedAt env connect id with
  | (o, Panic w) => (o, Panic w)
  | (o, Ret (inl fatal)) => (o, Ret (ApiExited fatal))
  | (o, Ret (inr (cfg, a))) =>
    (o, Ret match listen (listen_addr cfg) with
            | Some fatal => ApiExited fatal
            | None => ApiServing (cf_JWTSecret cfg) (mkLive a [] [])
            end)
  end.

Lemma Ping_returns : no_null_peers → returns Ping (λ _, True).
Proof.
  intros Hn. unfold Ping. eapply returns_bind; [by apply (λ m, m : returns getMasterAddr (λ _, True))|]. intros a _.
  eapply returns_bind; [apply returns_dial|]. intros [k|] _.
  { eapply returns_bind; [apply returns_act|]. intros _ _. by apply returns_ret. }
  eapply (returns_bind _ _ (λ _, True)).
  { intros c _. unfold discoverMaster. rewrite (bind_silent _ _ c _ c eq_refl).
    by destruct (discover_loop_run (mc_seedNodes (ca_client c)) c Hn) as [o ->]. }
  intros [] _; [|by apply returns_ret].
  eapply returns_bind; [by apply (λ m, m : returns getMasterAddr (λ _, True))|]. intros a' _.
  eapply returns_bind; [apply returns_dial|]. intros [k|] _; [|by apply returns_ret].
  eapply returns_bind; [apply returns_act|]. intros _ _. by apply returns_ret.
Qed.

(** The API server starts from any environment with a secret and any
    database it can open, whether or not a master answers its ping: with a
    secret that is not empty and a master port of 64 bits, no upload sessions,
    and its database untouched, so the invariant of its requests holds from the
    start. Without a secret it stops before it opens anything. *)
Theorem api_starts startedAt env connect id : no_null_peers →
  (env "JWT_SECRET" = "" → ∃ e, api_main startedAt env connect id = ([], Ret (inl e))) ∧
  (env "JWT_SECRET" ≠ "" → ∀ db, connect "postgres" (getDatabaseURL env) = Some db → tables_ok (db_tables db) →
   ∃ o cfg a, api_main startedAt env connect id = (o, Ret (inr (cfg, a))) ∧
     cf_JWTSecret cfg = env "JWT_SECRET" ∧ in_int64 (cf_MasterPort cfg) = true ∧
     listen_addr cfg = getEnv env "HOST" "0.0.0.0" +:+ ":" +:+ getEnv env "PORT" "8080" ∧
     ap_db a = db ∧ ap_startedAt a = startedAt ∧ started_server (mkLive a [] [])).
Proof.
  intros Hn. unfold api_main, Load. split.
  - intros Hs. unfold getEnv at 1. rewrite Hs. simpl. by eexists.
  - intros Hs db Hdb Ht. assert (getEnv env "JWT_SECRET" "" = env "JWT_SECRET") as ->.
    { unfold getEnv. by destruct (String.eqb_spec (env "JWT_SECRET") ""). }
    destruct (String.eqb_spec (env "JWT_SECRET") ""); [done|]. cbn [cf_DatabaseURL]. unfold Init. rewrite Hdb. cbn [dp_DB].
    cbn [NewMasterClientWithSeeds]. set (c := mkCaller _ 0). pose proof (Ping_returns Hn c I) as Hp.
    destruct (Ping c) as [o [[b c']|w]]; [|done]. do 3 eexists. split; [reflexivity|]. cbn [cf_JWTSecret cf_MasterPort ap_db ap_startedAt].
    split_and!; try done. unfold getEnvInt. cbv zeta. destruct (String.eqb _ _); [done|].
    destruct (Atoi _) as [n'|] eqn:En; [by eapply Atoi_range|done].
Qed.
End api_main.

(** ** The API server while it serves *)
Section api_serves.
Context `{UuidText} `{TimeText} `{Network} `{Bcrypt} `{Jwt} `{MapRange} `{ErrorTexts}.

(** A step of the server, or [ListenAndServe] returns an error, which is the
    end of the program. *)
Inductive api_step : ApiProgram → list HAct → ApiProgram → Prop :=
| api_serves secret l o l' : step secret l o l' → api_step (ApiServing secret l) o (ApiServing secret l')
| api_fails secret l fatal : api_step (ApiServing secret l) [] (ApiExited fatal).

Inductive api_run : ApiProgram → list HAct → ApiProgram → Prop :=
| api_run_nil g : api_run g [] g
| api_run_cons g1 o1 g2 o2 g3 : api_step g1 o1 g2 → api_run g2 o2 g3 → api_run g1 (o1 ++ o2) g3.

Lemma api_run_exited fatal o g : api_run (ApiExited fatal) o g → o = [] ∧ g = ApiExited fatal.
Proof. intros Hr. by inversion Hr as [|? ? ? ? ? Hs]; [|inversion Hs]. Qed.

Lemma api_run_serving secret l o g : api_run (ApiServing secret l) o g →
  match g with ApiExited _ => True | ApiServing secret' l' => secret' = secret ∧ steps secret l o l' end.
Proof.
  remember (ApiServing secret l) as g0 eqn:Hg. intros Hr. revert l Hg.
  induction Hr as [g|g1 o1 g2 o2 g3 Hs Hr IH]; intros l ->; [split; [done|constructor]|].
  inversion Hs as [? ? ? l2 Hstep|]; subst.
  - specialize (IH l2 eq_refl). destruct g3; [done|]. destruct IH as [-> Hs']. split; [done|]. by econstructor.
  - by apply api_run_exited in Hr as [_ ->].
Qed.

(** C20: the API server from its start: with a secret and a database whose
    constraints hold it starts, and serves unless it cannot listen; and
    whatever requests it then serves, for as long as it does, it keeps the
    secret of its environment, the constraints hold, its table of uploads is
    sound, and no request that waits for a session is stuck. *)
Theorem api_server_sound startedAt env connect id listen db : no_null_peers → env "JWT_SECRET" ≠ "" →
  connect "postgres" (getDatabaseURL env) = Some db → tables_ok (db_tables db) →
  ∃ o g, api_program startedAt env connect id listen = (o, Ret g) ∧
    (∀ fatal, g = ApiExited fatal ↔ listen (getEnv env "HOST" "0.0.0.0" +:+ ":" +:+ getEnv env "PORT" "8080") = Some fatal) ∧
    ∀ o' secret l, api_run g o' (ApiServing secret l) → secret = env "JWT_SECRET" ∧ live_ok l ∧
      ∀ w gens now, w ∈ lv_waiting l → ∃ o1 a1, locked gens now w (lv_api l) = (o1, Ret ((), a1)).
Proof.
  intros Hn Hs Hdb Ht. destruct (proj2 (api_starts startedAt env connect id Hn) Hs db Hdb Ht) as (o & cfg & a & E & Hsec & _ & Hl & _ & _ & Hst).
  unfold api_program. rewrite E, Hl. do 2 eexists. split; [reflexivity|]. split.
  { intros fatal. destruct (listen _); split; congruence. }
  destruct (listen _) as [why|]; intros o' secret l Hr.
  - by apply api_run_exited in Hr as [_ ?].
  - apply api_run_serving in Hr as [-> Hsteps]. split; [exact Hsec|].
    pose proof (steps_ok _ _ _ _ Hn (started_ok _ Hst) Hsteps) as Hok. split; [done|].
    intros w gens now Hw. destruct Hok as [Ha Hws _ _]. rewrite Forall_forall in Hws.
    destruct (locked_safe gens now w _ Ha (Hws w Hw)) as (o1 & a1 & E1 & _). by exists o1, a1.
Qed.
End api_serves.

(** ** [cmd/node/main.go] *)

Record NodeFlags := mkNodeFlags {
  nf_ip : string;
  nf_advertiseIP : string;
  nf_port : Z;
  nf_role : string;
  nf_priority : Z;
  nf_seedIP : string;
  nf_seedPort : Z }.

(** The flags that are not given. *)
Definition default_flags : NodeFlags := mkNodeFlags "127.0.0.1" "" 9000 "storage" 1 "" 9000.

Definition role_of_flag (role : string) : option NodeRole :=
  if String.eqb role "master" then Some RoleMaster
  else if String.eqb role "storage" then Some RoleStorage
  else None.

Section node_main.
Context `{UuidText} `{TimeText} `{MapRange} `{ErrnoText}.

(** Until the program waits for a signal: whether the node started, and the
    node. [seed] is what becomes of the connection to the seed node. *)
Definition node_main (now : Z) (id : uuid) (d : Disk) (listen_ok stream_ok : bool) (seed : seed_answer) (f : NodeFlags)
    : string + list NAct * Res (bool * FullNode) :=
  let nodeAdvertiseIP := if String.eqb (nf_advertiseIP f) "" then nf_ip f else nf_advertiseIP f in
  match role_of_flag (nf_role f) with
  | None => inl ("Invalid role: " +:+ nf_role f +:+ " (must be 'master' or 'storage')")
  | Some nodeRole =>
    match CreateNodeWithBully id d (nf_ip f) nodeAdvertiseIP (nf_port f) nodeRole (nf_priority f) with
    | (o, Panic w) => inr (o, Panic w)
    | (o1, Ret (_, n)) =>
      let '(o2, r) := (started ← Start listen_ok stream_ok;
                       if (started : bool) && negb (String.eqb (nf_seedIP f) "") then
                         _ ← on_node (DiscoverPeers now seed (nf_seedIP f) (nf_seedPort f)); mret started
                       else mret started) n in
      inr (o1 ++ o2, r)
    end
  end.
End node_main.

(** *** Until a signal stops the program

    [signal.Notify] keeps one signal in [sigChan] and drops the others. Two
    goroutines receive from it: [main], and one that does nothing else. *)
Inductive MainPc := Serving | Cancelling | StoppingNode | Exited.

#[export] Instance MainPc_eq_dec : EqDecision MainPc.
Proof. solve_decision. Defined.

Record Program := mkProgram {
  pg_process : Process;
  pg_sigChan : bool;
  pg_watcher : bool;
  pg_main : MainPc }.

Inductive ProgramEvent := Signal | WatcherTakes | WatcherDone | MainTakes | MainCancels | MainReturns | Within (ev : PEvent).

(** What only [main] does to the node. *)
Definition by_main (ev : PEvent) : bool := match ev with PCancel | PStop => true | _ => false end.

Section until_exit.
Context `{UuidText} `{TimeText} `{MapRange} `{ErrnoText}.

Definition in_process (ev : PEvent) (pc : MainPc) (g : Program) : option (list NAct * Res (() * Program)) :=
  match perform ev (pg_process g) with
  | None => None
  | Some (o, Panic why) => Some (o, Panic why)
  | Some (o, Ret (_, p)) => Some (o, Ret ((), mkProgram p (pg_sigChan g) (pg_watcher g) pc))
  end.

(** A step; the end of [main] ends every goroutine. *)
Definition program_step (ev : ProgramEvent) (g : Program) : option (list NAct * Res (() * Program)) :=
  let p := pg_process g in
  let to signal watcher pc := Some ([], Ret ((), mkProgram p signal watcher pc)) in
  if bool_decide (pg_main g = Exited) then None
  else match ev with
  | Signal => to true (pg_watcher g) (pg_main g)
  | WatcherTakes => if pg_sigChan g && pg_watcher g then to false false (pg_main g) else None
  | WatcherDone => if pr_done p && pg_watcher g then to (pg_sigChan g) false (pg_main g) else None
  | MainTakes => if pg_sigChan g && bool_decide (pg_main g = Serving) then to false (pg_watcher g) Cancelling else None
  | MainCancels => if bool_decide (pg_main g = Cancelling) then in_process PCancel StoppingNode g else None
  | MainReturns =>
    if bool_decide (pg_main g = StoppingNode) && bool_decide (sd_pc (pr_down p) = Stopped)
    then to (pg_sigChan g) (pg_watcher g) Exited else None
  | Within PCancel => None
  | Within ev => if by_main ev && negb (bool_decide (pg_main g = StoppingNode)) then None else in_process ev (pg_main g) g
  end.

Fixpoint program_run (evs : list ProgramEvent) (g : Program) : option (list NAct * Res (() * Program)) :=
  match evs with
  | [] => Some ([], Ret ((), g))
  | ev :: evs' =>
    match program_step ev g with
    | None => None
    | Some (o, Panic why) => Some (o, Panic why)
    | Some (o, Ret (_, g')) => (λ r, (o ++ r.1, r.2)) <$> program_run evs' g'
    end
  end.
End until_exit.

Section until_exit_properties.
Context `{UuidText} `{TimeText} `{MapRange} `{ErrnoText}.

Lemma program_run_app evs evs' g o g1 : program_run evs g = Some (o, Ret ((), g1)) →
  program_run (evs ++ evs') g = (λ r, (o ++ r.1, r.2)) <$> program_run evs' g1.
Proof.
  revert g o. induction evs as [|ev evs IH]; intros g o; cbn [program_run app].
  { intros [= <- <-]. by destruct (program_run evs' g) as [[? ?]|]. }
  destruct (program_step ev g) as [[o1 [[[] g2]|w]]|]; [|done..].
  destruct (program_run evs g2) as [[o2 r]|] eqn:E; [|done]. intros [= <- ->]. rewrite (IH _ _ E).
  destruct (program_run evs' g1) as [[o3 r3]|]; [|done]. simpl. by rewrite app_assoc.
Qed.

(** While [main] stops the node, the node's steps are the program's. *)
Lemma within_run evs p o p' sg wt : Forall (λ ev, ev ≠ PCancel) evs → run evs p = Some (o, Ret ((), p')) →
  program_run (Within <$> evs) (mkProgram p sg wt StoppingNode) = Some (o, Ret ((), mkProgram p' sg wt StoppingNode)).
Proof.
  revert p o. induction evs as [|ev evs IH]; intros p o Hev; cbn [run fmap list_fmap program_run]; [by intros [= <- <-]|].
  apply Forall_cons in Hev as [Hne Hev].
  assert (program_step (Within ev) (mkProgram p sg wt StoppingNode) = in_process ev StoppingNode (mkProgram p sg wt StoppingNode))
    as -> by (by destruct ev).
  unfold in_process. cbn [pg_process pg_sigChan pg_watcher].
  destruct (perform ev p) as [[o1 [[[] p1]|w]]|]; [|done..].
  destruct (run evs p1) as [[o2 r]|] eqn:E; [|done]. intros [= <- ->]. by rewrite (IH _ _ Hev E).
Qed.

Lemma done_no_cancel evs p o p' : told p → run evs p = Some (o, Ret ((), p')) → no_rounds evs → Forall (λ ev, ev ≠ PCancel) evs.
Proof.
  intros Ht Er Hr. revert p o Ht Er. induction Hr as [|ev evs Hev _ IH]; intros p o Ht; [constructor|]. cbn [run].
  destruct (perform ev p) as [[o1 [[[] p1]|w]]|] eqn:E; [|done..].
  destruct (run evs p1) as [[o2 r]|] eqn:E2; [|done]. intros [= _ ->].
  destruct (change_lighter p ev p1 Ht Hev) as [Ht1 _]; [by eapply perform_change|]. constructor; [|by eapply IH].
  intros ->. cbn [perform] in E. by rewrite (to_done _ Ht) in E.
Qed.

(** Only [main] cancels the context and stops the node. *)
Lemma not_by_main ev p o p' : by_main ev = false → perform ev p = Some (o, Ret ((), p')) →
  pr_done p' = pr_done p ∧ sd_pc (pr_down p') = sd_pc (pr_down p).
Proof. intros Hev E. apply perform_change in E. destruct E; try done. by case_decide. Qed.

(** A program that serves, with a signal that only [main] can take. *)
Definition signal_waits (g : Program) : Prop :=
  pg_main g = Serving ∧ pg_sigChan g = true ∧ pg_watcher g = false ∧
  reachable (pg_process g) ∧ pr_done (pg_process g) = false ∧ sd_pc (pr_down (pg_process g)) = StopIdle.

Lemma signal_waits_step ev g o g' : ev ≠ MainTakes → program_step ev g = Some (o, Ret ((), g')) →
  signal_waits g → signal_waits g'.
Proof.
  intros Hev E (Hm & Hs & Hw & Hr & Hd & Hpc). unfold program_step in E. rewrite Hm, Hs, Hw in E.
  destruct ev as [| | | | | |ev]; try done.
  - by injection E as _ <-.
  - cbn in E. by rewrite andb_false_r in E.
  - destruct (by_main ev) eqn:Eb; [by destruct ev|].
    assert (in_process ev Serving g = Some (o, Ret ((), g'))) as E' by (by destruct ev).
    unfold in_process in E'. destruct (perform ev (pg_process g)) as [[o1 [[[] p1]|w]]|] eqn:Ep; [|done..].
    injection E' as _ <-. destruct (not_by_main ev _ _ _ Eb Ep) as [Hd' Hpc'].
    unfold signal_waits. cbn [pg_main pg_sigChan pg_watcher pg_process]. rewrite Hd', Hpc'.
    split_and!; try done. by eapply reach_step.
Qed.

Lemma signal_waits_run evs g o g' : MainTakes ∉ evs → program_run evs g = Some (o, Ret ((), g')) →
  signal_waits g → signal_waits g'.
Proof.
  revert g o. induction evs as [|ev evs IH]; intros g o Hn; cbn [program_run]; [by intros [= _ <-]|].
  apply not_elem_of_cons in Hn as [Hne Hn]. destruct (program_step ev g) as [[o1 [[[] g1]|w]]|] eqn:E; [|done..].
  destruct (program_run evs g1) as [[o2 r]|] eqn:E2; [|done]. intros [= _ ->] Hg.
  eapply IH; [done|done|]. by eapply signal_waits_step.
Qed.

(** What [main] does with the signal, when no election is blocked. *)
Lemma main_stops_node p : reachable p → pr_done p = false → sd_pc (pr_down p) = StopIdle → b_tasks (pr_node p) = [] →
  ∃ g1, program_run [MainTakes; MainCancels; Within PStop; Within PStop; Within PStop] (mkProgram p true false Serving) =
      Some ([], Ret ((), g1)) ∧
    (∀ evs o p', no_rounds evs → run evs (pg_process g1) = Some (o, Ret ((), p')) → (length evs ≤ work (pg_process g1))%nat) ∧
    ∃ evs g', program_run evs g1 = Some ([], Ret ((), g')) ∧ pg_main g' = Exited ∧ ∀ ev, program_step ev g' = None.
Proof.
  intros Hr Hd Hpc Hb.
  destruct (begin_shut_down p Hr Hd Hpc Hb) as (p1 & E & Ht & Hl & Hc). exists (mkProgram p1 false false StoppingNode). split_and!.
  - change [MainTakes; MainCancels; Within PStop; Within PStop; Within PStop] with
      ([MainTakes; MainCancels] ++ (Within <$> [PStop; PStop; PStop])).
    assert (program_run [MainTakes; MainCancels] (mkProgram p true false Serving) =
      Some ([], Ret ((), mkProgram (set_done p) false false StoppingNode))) as E0.
    { cbn [program_run].
      change (program_step MainTakes (mkProgram p true false Serving)) with (Some ([] : list NAct, Ret ((), mkProgram p false false Cancelling))).
      unfold program_step, in_process, perform. rewrite bool_decide_false by done. cbn [pg_process pg_main pg_sigChan pg_watcher].
      rewrite bool_decide_true by done. by rewrite Hd. }
    rewrite (program_run_app _ _ _ _ _ E0). rewrite (run_cons PCancel _ p (set_done p)) in E by (cbn [perform]; by rewrite Hd).
    by rewrite (within_run [PStop; PStop; PStop] _ _ _ _ _ ltac:(by repeat constructor) E).
  - intros evs o p' Hev Er. pose proof (run_lighter evs p1 o p' Ht Hev Er). simpl. lia.
  - destruct (shut_down p1 Hl Ht Hc) as (evs & p' & Er & Hev & Ht' & Hw).
    exists ((Within <$> evs) ++ [MainReturns]), (mkProgram p' false false Exited). split_and!; [|done|done].
    rewrite (program_run_app _ _ _ _ _ (within_run evs p1 _ p' false false (done_no_cancel _ _ _ _ Ht Er Hev) Er)).
    cbn [program_run]. unfold program_step. cbn. by rewrite (work_stopped p' Hw).
Qed.

(** C21: once the goroutine that also receives signals has returned, which it
    does after the first one it takes, a signal is not lost: whatever the
    program does, it waits until [main] takes it, and [main] can take it at any
    time. If no election is blocked then, [main] cancels the context and stops
    the node; from there the program can always come to its end, without a
    panic, and no schedule can keep it going for long except by rounds of loops
    that were already due. (While that goroutine still runs it can take the
    signal instead: see [first_signal_can_be_lost].) *)
Theorem signal_stops_program g evs o g' : reachable (pg_process g) → pg_main g = Serving →
  pg_sigChan g = true → pg_watcher g = false → pr_done (pg_process g) = false → sd_pc (pr_down (pg_process g)) = StopIdle →
  program_run evs g = Some (o, Ret ((), g')) → MainTakes ∉ evs →
  pg_main g' = Serving ∧ pg_sigChan g' = true ∧ pg_watcher g' = false ∧
  program_step MainTakes g' = Some ([], Ret ((), mkProgram (pg_process g') false false Cancelling)) ∧
  (b_tasks (pr_node (pg_process g')) = [] →
   ∃ g1, program_run [MainTakes; MainCancels; Within PStop; Within PStop; Within PStop] g' = Some ([], Ret ((), g1)) ∧
    (∀ evs o p', no_rounds evs → run evs (pg_process g1) = Some (o, Ret ((), p')) → (length evs ≤ work (pg_process g1))%nat) ∧
    ∃ evs g2, program_run evs g1 = Some ([], Ret ((), g2)) ∧ pg_main g2 = Exited ∧ ∀ ev, program_step ev g2 = None).
Proof.
  intros Hr Hm Hs Hw Hd Hpc Er Hn.
  destruct (signal_waits_run evs g o g' Hn Er) as (Hm' & Hs' & Hw' & Hr' & Hd' & Hpc'); [by split_and!|].
  destruct g' as [p sg wt pc]. cbn [pg_process pg_sigChan pg_main pg_watcher] in *. subst. split_and!; try done.
  intros Hb. by apply main_stops_node.
Qed.

Lemma serving_step ev g o g' : ev ≠ Signal → pg_main g = Serving → pg_sigChan g = false →
  program_step ev g = Some (o, Ret ((), g')) → pg_main g' = Serving ∧ pg_sigChan g' = false.
Proof.
  intros Hev Hm Hs. unfold program_step, in_process. rewrite Hm, Hs. cbn.
  destruct ev as [| | | | | |ev]; try done.
  - destruct (_ && _); [|done]. by intros [= _ <-].
  - destruct ev; cbn [by_main negb andb]; try done;
      match goal with |- context [perform ?e ?p] => destruct (perform e p) as [[? [[[] ?]|?]]|] end; try done;
      by intros [= _ <-].
Qed.

(** The first signal can be lost: the other goroutine takes it, and then
    the program serves on, whatever happens, until there is a second signal,
    which only [main] can take. *)
Theorem first_signal_can_be_lost g : pg_main g = Serving → pg_watcher g = true →
  ∃ g1, program_run [Signal; WatcherTakes] g = Some ([], Ret ((), g1)) ∧
    (∀ evs o g', Signal ∉ evs → program_run evs g1 = Some (o, Ret ((), g')) → pg_main g' = Serving) ∧
    ∀ g2, program_step Signal g1 = Some ([], Ret ((), g2)) →
      program_step WatcherTakes g2 = None ∧ ∃ g3, program_step MainTakes g2 = Some ([], Ret ((), g3)) ∧ pg_main g3 = Cancelling.
Proof.
  destruct g as [p sg wt pc]. cbn [pg_main pg_watcher]. intros -> ->. exists (mkProgram p false false Serving). split_and!; [done| |].
  - intros evs. assert (∀ g o g', pg_main g = Serving → pg_sigChan g = false → Signal ∉ evs →
      program_run evs g = Some (o, Ret ((), g')) → pg_main g' = Serving) as Hall; [|intros o g'; by apply Hall].
    induction evs as [|ev evs IH]; intros g o g' Hm Hs Hn; cbn [program_run]; [by intros [= _ <-]|].
    apply not_elem_of_cons in Hn as [Hne Hn]. destruct (program_step ev g) as [[o1 [[[] g1]|w]]|] eqn:E; [|done..].
    destruct (program_run evs g1) as [[o2 r]|] eqn:E2; [|done]. intros [= _ ->].
    destruct (serving_step ev g o1 g1) as [Hm1 Hs1]; [congruence|done|done|done|]. by eapply IH.
  - intros g2 [= <-]. split; [done|]. by eexists.
Qed.
End until_exit_properties.

(** ** Examples *)
#[local] Existing Instance decimal_uuids.
#[local] Existing Instance decimal_times.
#[local] Existing Instance canonical_range.
#[local] Instance plain_errors : ErrnoText := λ op _ _, op.

(** A node without flags but a role: it advertises the address it binds. *)
Example master_starts :
  match node_main 0 7 (mkDisk ∅ ∅ []) true true SeedUnreachable (mkNodeFlags "10.0.0.7" "" 9000 "master" 3 "" 9000) with
  | inr (_, Ret (ok, n)) => (ok, n_Role (b_node n), n_Status (b_node n), n_AdvertiseIP (b_node n))
  | _ => (false, "", "", "")
  end = (true, RoleMaster, StatusOnline, "10.0.0.7").
Proof. vm_compute. reflexivity. Qed.

Example no_such_role :
  node_main 0 7 (mkDisk ∅ ∅ []) true true SeedUnreachable (mkNodeFlags "10.0.0.7" "" 9000 "Master" 3 "" 9000) =
  inl "Invalid role: Master (must be 'master' or 'storage')".
Proof. vm_compute. reflexivity. Qed.

Definition example_env (key : string) : string := if String.eqb key "JWT_SECRET" then "k" else "".

Lemma api_starts_witness :
  ∃ o cfg a, api_main (H1 := answering_network) 5 example_env (λ _ _, Some (mkDB Database.Examples.tables [])) 9 =
      (o, Ret (inr (cfg, a))) ∧
    started_server (mkLive a [] []).
Proof.
  assert (no_null_peers (H1 := answering_network)) as Hn.
  { intros k addr msg m peers [= <-]. vm_compute. discriminate. }
  destruct (proj2 (api_starts (H1 := answering_network) 5 example_env (λ _ _, Some (mkDB Database.Examples.tables [])) 9 Hn)
    ltac:(discriminate) _ eq_refl Database.Examples.tables_sound) as (o & cfg & a & E & _ & _ & _ & _ & _ & Hs).
  exists o, cfg, a. split; [exact E|exact Hs].
Defined.

Definition signalled (pending watcher : bool) : Program := mkProgram launched pending watcher Serving.

(** Two signals, of which the other goroutine takes the first; a peer's stream
    is accepted before [main] takes the second. *)
Lemma signal_stops_program_witness :
  ∃ g' g1 evs g2,
    program_run [Within (PStreamAccept Proceed); Within (PStreamAccept Proceed); Within (PStreamAccept Incoming)]
      (signalled true false) = Some ([], Ret ((), g')) ∧
    program_run [MainTakes; MainCancels; Within PStop; Within PStop; Within PStop] g' = Some ([], Ret ((), g1)) ∧
    program_run evs g1 = Some ([], Ret ((), g2)) ∧ pg_main g2 = Exited.
Proof.
  destruct (program_run [Within (PStreamAccept Proceed); Within (PStreamAccept Proceed); Within (PStreamAccept Incoming)]
    (signalled true false)) as [[o [[[] g']|w]]|] eqn:E; [|exfalso; revert E; vm_compute; discriminate..].
  assert (o = [] ∧ b_tasks (pr_node (pg_process g')) = []) as [-> Hb].
  { revert E. vm_compute. intros [= <- <-]. split; reflexivity. }
  destruct (signal_stops_program (signalled true false) _ _ _ launched_reachable eq_refl eq_refl eq_refl eq_refl eq_refl E)
    as (_ & _ & _ & _ & Hstop).
  - repeat (apply not_elem_of_cons; split; [discriminate|]). apply not_elem_of_nil.
  - destruct (Hstop Hb) as (g1 & E1 & _ & evs & g2 & E2 & Hx & _). exists g', g1, evs, g2.
    split; [reflexivity|]. split; [exact E1|]. split; [exact E2|exact Hx].
Defined.

Lemma first_signal_can_be_lost_witness :
  ∃ g1, program_run [Signal; WatcherTakes] (signalled false true) = Some ([], Ret ((), g1)) ∧ pg_main g1 = Serving.
Proof.
  destruct (first_signal_can_be_lost (signalled false true) eq_refl eq_refl) as (g1 & E & Hs & _).
  exists g1. split; [exact E|]. apply (Hs [] [] g1); [apply not_elem_of_nil|reflexivity].
Defined.
