(* ===== verification/ApiExamples.v ===== *)
(** * Instances of the API server's properties

    A concrete server: decimal identifiers, passwords kept behind a mark, one
    signed token, and the network of the examples of [Transfer.v]. The
    properties of the API server are applied to it. *)

From S2P Require Import Prelude GoStd Hashes Types Json Protocol Session Fs LocalStorage StreamServer NodeState Client Transfer Database Api ApiSafety Privacy Uploads Ownership Programs.
Import Database.Examples.

#[local] Existing Instance decimal_uuids.
#[local] Existing Instance decimal_times.
#[local] Existing Instance canonical_range.

(** The master of [Transfer.v] and nodes that answer at once. *)
#[local] Existing Instance answering_network.

Lemma answering_no_null : no_null_peers.
Proof. intros k addr msg m peers [= <-]. vm_compute. discriminate. Qed.

#[local] Instance plain_errors : ErrnoText := λ op _ _, op.
#[local] Instance plain_texts : ErrorTexts := Build_ErrorTexts (λ _, "error") (λ _, "error") "error".

(** A mark before the password. *)
Definition marked_Generate (rand : N) (password : string) : option string := Some ("#" +:+ password).

Lemma marked_law rand p h : marked_Generate rand p = Some h → String.eqb h ("#" +:+ p) = true.
Proof. intros [= <-]. apply String.eqb_refl. Qed.

#[local] Instance marked : Bcrypt := Build_Bcrypt marked_Generate (λ h p, String.eqb h ("#" +:+ p)) marked_law.

#[local] Instance json_eq_dec : EqDecision json.
Proof.
  refine (fix go (x y : json) {struct x} : {x = y} + {x ≠ y} :=
    match x, y with
    | JNull, JNull => left eq_refl
    | JBool a, JBool b => cast_if (decide (a = b))
    | JNum a, JNum b => cast_if (decide (a = b))
    | JFloat, JFloat => left eq_refl
    | JStr a, JStr b => cast_if (decide (a = b))
    | JArr a, JArr b => cast_if (@list_eq_dec _ go a b)
    | JObj a, JObj b => cast_if (@list_eq_dec _ (@prod_eq_dec _ _ _ go) a b)
    | _, _ => right _
    end); clear go; congruence.
Defined.

(** ** Tokens: one can be signed *)

Definition carol : User := mkUser 3 "carol" "c@x" "#pw" UserRoleUser 0 0.

Definition toy_SignedString (secret : string) (claims : MapClaims) : option string :=
  if decide (secret = "k" ∧ claims = token_claims 0 carol) then Some "t" else None.

Definition toy_Parse (now : Z) (key : SigningMethod → option string) (token : string) : option (bool * MapClaims) :=
  if decide (token = "t" ∧ key SigningMethodHMAC = Some "k" ∧ now / Second <= 24 * Hour / Second)
  then Some (true, token_claims 0 carol) else None.

Lemma toy_law now key secret claims token exp : toy_SignedString secret claims = Some token →
  key SigningMethodHMAC = Some secret → claims !! "exp" = Some (JNum exp) → now / Second <= exp →
  toy_Parse now key token = Some (true, claims).
Proof.
  unfold toy_SignedString, toy_Parse. case_decide as Hd; [|done]. destruct Hd as [-> ->]. intros [= <-] Hk He Hn.
  assert (exp = 24 * Hour / Second) as ->.
  { unfold token_claims in He. rewrite lookup_insert_eq in He. by injection He as <-. }
  by rewrite decide_True.
Qed.

#[local] Instance toy : Jwt := Build_Jwt toy_SignedString toy_Parse toy_law.

(** ** A server, and requests *)

Definition outside : Outside := mkOutside "k" 1000 0 (λ i, 41 + N.of_nat i)%N None Database.Examples.in_order.

Definition api : Api := mkApi (mkDB tables []) transfer_client ∅ ∅ 0.

Lemma api_sound : api_ok api.
Proof.
  split; [exact tables_sound|]. by split.
Qed.

Definition request (method : string) (token : option string) (path : string) (body : option json) : Request :=
  mkRequest method token None (λ _, path) (λ _, "") body None None.

Lemma unauthenticated_refused_witness :
  ∃ msg, serve outside FileDelete (request "DELETE" None "11" None) api =
    (cors_headers ++ [HJSON 401 (error_body 401 msg)], Ret ((), api)).
Proof. apply (unauthenticated_refused outside FileDelete (request "DELETE" None "11" None) api); reflexivity. Defined.

Definition carol_claims : UserClaims := mkUserClaims 3 "carol" "c@x" "user".

Lemma carol_calls r : rq_token r = Some "t" → caller outside r = Ret (Some carol_claims).
Proof. intros Hr. unfold caller. rewrite Hr. vm_compute. reflexivity. Qed.

(** Another user's attempt to delete a file of alice. *)
Lemma serve_respects_owners_witness :
  ∃ o s', serve outside FileDelete (request "DELETE" (Some "t") "11" None) api = (o, Ret ((), s')) ∧
    file 11 5 ∈ tb_files (ApiSafety.tables s').
Proof.
  destruct (serve_respects_owners outside FileDelete (request "DELETE" (Some "t") "11" None) api (Some carol_claims)
    answering_no_null eq_refl api_sound (carol_calls (request "DELETE" (Some "t") "11" None) eq_refl)) as (o & s' & E & _ & Hk).
  exists o, s'. split; [exact E|]. apply (kp_files _ _ _ Hk); [by left|split; discriminate].
Defined.

Lemma register_login_authenticate_witness :
  ∃ s1, tb_users (ApiSafety.tables s1) = [alice; root; carol] ∧
    caller outside (request "GET" (Some "t") "" None) = Ret (Some carol_claims).
Proof.
  set (e1 := mkOutside "k" 0 0 (λ _, 3%N) None Database.Examples.in_order).
  destruct (register_login_authenticate e1 e1 outside
    (request "POST" None "" (Some (JObj [("username", JStr "carol"); ("email", JStr "c@x"); ("password", JStr "pw")])))
    (request "POST" None "" (Some (JObj [("email", JStr "c@x"); ("password", JStr "pw")])))
    (request "GET" (Some "t") "" None) api (mkRegisterUserRequest "carol" "c@x" "pw") "#pw" "t")
    as (s1 & _ & Ht & _ & Hc).
  - reflexivity.
  - reflexivity.
  - vm_compute. reflexivity.
  - reflexivity.
  - apply (bool_decide_unpack _). vm_compute. exact I.
  - apply (bool_decide_unpack _). vm_compute. exact I.
  - apply (bool_decide_unpack _). vm_compute. exact I.
  - reflexivity.
  - vm_compute. reflexivity.
  - vm_compute. reflexivity.
  - reflexivity.
  - reflexivity.
  - vm_compute. discriminate.
  - exists s1. split; [rewrite Ht; reflexivity|exact Hc].
Defined.

(** The same server, with other hashes. *)
Definition api2 : Api := mkApi
  (mkDB (mkTables [mkUser 1 "alice" "a@x" "secret" UserRoleUser 0 0; root] (tb_files tables) (tb_replicas tables)) [])
  transfer_client ∅ ∅ 0.

Lemma hashes_not_disclosed_witness :
  outs_of (serve outside AuthMe (request "GET" (Some "t") "" None) api) =
  outs_of (serve outside AuthMe (request "GET" (Some "t") "" None) api2).
Proof. apply (hashes_not_disclosed outside AuthMe (request "GET" (Some "t") "" None) api api2); reflexivity. Defined.

(** ** Uploads *)

Definition session (conns : list Conn) (total : Z) : UploadSession :=
  mkUploadSession "s1" 7 1 "abc.txt" 3 total "text/plain" (mkStreamUploadSession "s1" 7 3 conns [2%N] 0) 0 0.

Definition finalize_request : Request :=
  mkRequest "POST" None (Some (mkUserClaims 1 "alice" "a@x" "user")) (λ _, "") (λ _, "")
    (Some (JObj [("sessionId", JStr "s1")])) None None.

Definition alice_claims : UserClaims := mkUserClaims 1 "alice" "a@x" "user".

Definition init_request : Request :=
  mkRequest "POST" None (Some alice_claims) (λ _, "") (λ _, "")
    (Some (JObj [("fileName", JStr "abc.txt"); ("fileSize", JNum 3); ("totalChunks", JNum 2); ("contentType", JStr "text/plain")]))
    None None.

(** A server with one upload of one chunk over a broken connection. *)
Definition uploading : Api :=
  mkApi (mkDB tables []) transfer_client {[ "s1" := 0%nat ]}
    {[ 0%nat := session [mkConn 4 "10.0.0.2:8100" [] (Some 0%nat) (λ l, l) 0 false] 1 ]} 0.

Lemma closed_session_completes_witness :
  ∃ o s', statuses o = [500; 200; 202] ∧
    (f_ID <$> tb_files (ApiSafety.tables s')) = [11; 12; 13; 7]%N ∧
    (_ ← locked (λ i, N.of_nat i) 9 (WaitChunk 0 "s1" 0 (Some (bytes_of "abc")));
     _ ← locked (λ i, N.of_nat i) 9 (WaitChunk 0 "s1" 0 (Some (bytes_of "abc")));
     locked (λ i, N.of_nat i) 9 (WaitFinalize alice_claims 0)) uploading = (o, Ret ((), s')).
Proof.
  set (u := session [mkConn 4 "10.0.0.2:8100" [] (Some 0%nat) (λ l, l) 0 false] 1).
  destruct (closed_session_completes (λ i, N.of_nat i) 9 alice_claims 0 "s1" u (bytes_of "abc") (EWrite 0) uploading
    (mkTables (tb_users tables) (tb_files tables ++ [upload_row 9 u ""]) (tb_replicas tables)))
    as (o & s' & E & Hst & _ & Ht & _).
  - reflexivity.
  - reflexivity.
  - vm_compute. discriminate.
  - reflexivity.
  - vm_compute. discriminate.
  - reflexivity.
  - reflexivity.
  - reflexivity.
  - reflexivity.
  - vm_compute. reflexivity.
  - exists o, s'. split; [exact Hst|]. split; [rewrite Ht; reflexivity|exact E].
Defined.

(** A stranger's finalisation and a chunk wait; the finalisation is first. *)
Definition live0 : Live := mkLive api [] [].

Lemma live0_started : started_server live0.
Proof. split; [exact tables_sound|done]. Qed.

Definition after {A} (r : list HAct * Res (A * Api)) : Api := match r with (_, Ret (_, a)) => a | _ => api end.
Definition api_init : Api := after (serve outside UploadInit
  (mkRequest "POST" (Some "t") None (λ _, "") (λ _, "") (rq_body init_request) None None) api).
Definition waiting_chunk : Waiting := WaitChunk 0 "s1" 0 (Some (bytes_of "a")).
Definition api_final : Api := after (Finalize_begin finalize_request api_init).
Definition api_done : Api := after (locked (λ i, N.of_nat i) 9 (WaitFinalize alice_claims 0) api_final).

Lemma uploads_interleaved_witness :
  ∃ o o' a', steps "k" live0 o (mkLive api_done [waiting_chunk] [0%nat]) ∧
    locked (λ i, N.of_nat i) 9 waiting_chunk api_done = (o', Ret ((), a')).
Proof.
  assert (∃ o, steps "k" live0 o (mkLive api_done [waiting_chunk] [0%nat])) as [o Hs].
  { eexists. eapply steps_cons; [apply (step_request "k" outside UploadInit
      (mkRequest "POST" (Some "t") None (λ _, "") (λ _, "") (rq_body init_request) None None) api [] [] _ api_init); [reflexivity|discriminate|discriminate|vm_compute; reflexivity]|].
    eapply steps_cons; [apply (step_chunk "k" (chunk_request carol_claims "s1" 0 (bytes_of "a")) api_init [] [] _
        (Some waiting_chunk) api_init); vm_compute; reflexivity|].
    eapply steps_cons; [apply (step_finalize "k" finalize_request api_init _ [] _
        (Some (WaitFinalize alice_claims 0)) api_final); vm_compute; reflexivity|].
    eapply steps_cons; [apply (step_locked "k" (λ i, N.of_nat i) 9 api_final [waiting_chunk] (WaitFinalize alice_claims 0) [] []
        _ api_done); vm_compute; reflexivity|]. apply steps_nil. }
  destruct (uploads_interleaved "k" live0 o _ answering_no_null live0_started Hs) as (_ & _ & Hw).
  destruct (Hw waiting_chunk (λ i, N.of_nat i) 9) as (o' & a' & E); [by left|].
  exists o, o', a'. split; [exact Hs|exact E].
Defined.

(** ** The server from its start to its first upload *)

Definition no_listen_error (addr : string) : option string := None.
Definition connects (driver url : string) : option DB := Some (mkDB tables []).
Definition booted : Api := match api_main 5 example_env connects 9 with (_, Ret (inr (_, a))) => a | _ => api end.
Definition upload_request : Request := mkRequest "POST" (Some "t") None (λ _, "") (λ _, "") (rq_body init_request) None None.

Lemma booted_serves o g : api_program 5 example_env connects 9 no_listen_error = (o, Ret g) → g = ApiServing "k" (mkLive booted [] []).
Proof.
  assert ((api_program 5 example_env connects 9 no_listen_error).2 = Ret (ApiServing "k" (mkLive booted [] []))) as Hb by (vm_compute; reflexivity).
  intros E. rewrite E in Hb. by injection Hb.
Qed.

Lemma api_server_sound_witness : ∃ o g o' a, api_program 5 example_env connects 9 no_listen_error = (o, Ret g) ∧
  api_run g o' (ApiServing "k" (mkLive a [] [])) ∧ statuses o' = [200] ∧ is_Some (ap_sessions a !! "s1") ∧ live_ok (mkLive a [] []).
Proof.
  destruct (api_server_sound 5 example_env connects 9 no_listen_error (mkDB tables []) answering_no_null
    ltac:(discriminate) eq_refl tables_sound) as (o & g & E & _ & Hrun).
  pose proof (booted_serves o g E) as ->. pose (r := serve outside UploadInit upload_request booted).
  assert (r = (r.1, Ret ((), after r))) as Er by (vm_compute; reflexivity).
  assert (api_run (ApiServing "k" (mkLive booted [] [])) (r.1 ++ []) (ApiServing "k" (mkLive (after r) [] []))) as Hr.
  { eapply api_run_cons; [|apply api_run_nil]. apply api_serves.
    eapply (step_request "k" outside UploadInit upload_request); [reflexivity|discriminate|discriminate|exact Er]. }
  exists o, (ApiServing "k" (mkLive booted [] [])), (r.1 ++ []), (after r). split; [exact E|]. split; [exact Hr|].
  split; [vm_compute; reflexivity|]. split; [by apply (bool_decide_unpack _); vm_compute|].
  exact (proj1 (proj2 (Hrun _ _ _ Hr))).
Defined.

(** ** Carol deletes her file *)

Definition carol_file : File := mkFile 15 "c.txt" 3 "00" "text/plain" 3 5 5 0.
Definition carol_tables : Tables := mkTables [alice; root; carol] [file 11 5; carol_file] [].
Definition carol_live : Live := mkLive (mkApi (mkDB carol_tables []) transfer_client ∅ ∅ 0) [] [].
Definition delete_request : Request := request "DELETE" (Some "t") "15" None.

Lemma carol_live_started : started_server carol_live.
Proof.
  split; [|done].
  split; first [apply (bool_decide_unpack _)|apply Forall_forall, (bool_decide_unpack _)]; vm_compute; exact I.
Qed.


(** ** A whole upload, to the node of [StreamServer.v] *)
#[local] Existing Instance transfer_network | 0.

Lemma chunked_upload_witness :
  ∃ o s' (gens : nat → uuid), (_ ← InitChunkedUpload 14 5 8 init_request;
    _ ← for_each (chunk_requests alice_claims "s1" 0 [bytes_of "a"; bytes_of "bc"]) (UploadChunk gens 9);
    FinalizeChunkedUpload gens 9 finalize_request) api = (o, Ret ((), s')) ∧
    statuses o = [200; 200; 200; 202] ∧
    tb_files (ApiSafety.tables s') = tb_files tables ++
      [mkFile 14 "abc.txt" 3 (sha256_hex (bytes_of "abc")) "text/plain" 1 9 9 0].
Proof.
  set (gens := λ i, (50 + N.of_nat i)%N).
  assert (Unmarshal_ok StreamUploadReadyResponse_of_json (Some (StreamUploadReadyResponse_to_json example_ready)) =
    Some example_ready) as Hu by (vm_compute; reflexivity).
  destruct (ask_run (H1 := transfer_network) MessageStreamUploadInit
    (Some (StreamUploadInitRequest_to_json (mkStreamUploadInitRequest (uuid_String 5%N) 14 "abc.txt" "text/plain" 3)))
    StreamUploadReadyResponse_of_json transfer_client _ example_ready eq_refl Hu) as (o1 & E1 & _).
  destruct (chunked_upload 14 5 8 init_request finalize_request alice_claims
    (mkChunkedUploadInitRequest "abc.txt" 3 2 "text/plain") example_ready o1
    (mkCaller (ca_client transfer_client) 1) [bytes_of "a"; bytes_of "bc"] gens 9 api
    (λ _, quiet_world) (λ _, 99) (λ _, 1000) (λ _, example_server)) as [(o & s' & E & Hst & Ht & _) _].
  - reflexivity.
  - reflexivity.
  - vm_compute. reflexivity.
  - discriminate.
  - reflexivity.
  - split; [reflexivity|vm_compute; discriminate].
  - reflexivity.
  - vm_compute. discriminate.
  - exact E1.
  - reflexivity.
  - discriminate.
  - discriminate.
  - simpl. lia.
  - vm_compute. discriminate.
  - reflexivity.
  - intros i node Hi. split; [exact example_node_ready|reflexivity].
  - reflexivity.
  - reflexivity.
  - vm_compute. reflexivity.
  - exact tables_sound.
  - reflexivity.
  - apply (bool_decide_unpack _). vm_compute. exact I.
  - apply (bool_decide_unpack _). vm_compute. exact I.
  - apply (bool_decide_unpack _). vm_compute. exact I.
  - intros i j. unfold gens. lia.
  - intros j Hj. change (_ <$> _) with [21; 22; 23]%N in Hj. unfold gens in Hj. set_unfold. lia.
  - exists o, s', gens. split; [exact E|]. split; [exact Hst|]. rewrite Ht. reflexivity.
Defined.
